(* ===== verification/_CoqProject ===== *)
-Q . S2P
Prelude.v
Io.v
Wire.v
Messages.v
Replay.v
Ring.v
Child.v
Server.v
ServerSpec.v
System.v
Keeps.v
Safety.v
ServerProps.v
ServerAuth.v
ServerPhases.v
ServerFaults.v
Endpoint.v
Text.v
Session.v
Consume.v
Client.v
ClientSpec.v
ClientStream.v
ClientProps.v
Resume.v
Asked.v
EndToEnd.v
Handshake.v
Probe.v
Terminal.v
Commands.v
CommandSpec.v
CommandProps.v
StopProps.v
ListProps.v
Startup.v
StartupProps.v
