(* ===== verification/Prelude.v ===== *)
(** * 0pty: a PTY that survives its clients

    0pty keeps one program on a pseudo-terminal alive.  The server (src/src/server.c)
    reads the PTY, keeps the last bytes in a replay ring (src/src/ring.c) and streams
    everything to the attached clients; a client (src/src/client.c) that comes back
    after a lost connection asks for the stream from the sequence number it has.  Both
    ends speak the frames of src/src/protocol.c; src/src/common.c parses endpoints.
    This development models that code and proves what it is meant to guarantee: the
    stream a client gets has no gap and no repetition, whatever the threads and the
    network do, and no step of the program leaves the objects it was given.

    ** The parts

    - [Prelude] (this file): bytes, machine words, the outcomes of C functions
      ([outcome]: a value, -1 with [errno], or undefined behaviour), byte blocks with
      their bounds checks, tactics and shared lemmas.
    - [Io]: [opty_read_full], [opty_write_full], [opty_writev_full] of protocol.c, over
      a scripted kernel ([stream]: what each coming read finds, how much each coming
      write takes, errors, EINTR).
    - [Wire], [Messages]: framing, the big-endian helpers, and every [opty_send_*] and
      [opty_parse_*] of protocol.c.
    - [Replay]: the specification of the ring, the class [ReplayOps] with its laws: the
      log of everything appended, of which a window can be asked for.  [Ring]: ring.c,
      the implementation, and the instance.  The server is written and proved against
      the class; the concrete runs use the ring.
    - [Child]: waiting for the child and the escalation SIGHUP, SIGTERM, SIGKILL of
      [server_request_shutdown], over scripted [waitpid] results.
    - [Server]: the server's functions on an explicit heap of [struct client] objects
      ([srvM]; [None] is undefined behaviour, such as reading a freed client), whole
      and cut at the lock operations ([client_step], [pty_step], [stop_step]).
    - [ServerSpec]: one lemma per operation, its effect on the clients' views.
    - [System]: client threads, the PTY thread and the accept loop as an interleaving
      step relation; a step is a phase between two lock operations, and is enabled only
      when the mutex it needs is free.  [main_step] goes on to the close of the master and
      the return of [main]; [orphan_step] is what a detached client thread may still do
      after that, when [struct server] is gone.  [Safety]: the invariants of that
      relation.
    - [ServerProps], [ServerAuth], [ServerPhases], [ServerFaults]: the theorems on the
      server.
    - [Endpoint]: [opty_parse_endpoint] of common.c.
    - [Text]: the string functions of client.c: session names and numbers, paths,
      escaping, graceful input, control tokens, with [strtoul], [getline] and decimal
      printing of the C library written out.
    - [Session]: writing a session file, over a file system whose calls may fail, also
      in the middle of a write and when the temporary file is removed, and the two
      readers of session files.
    - [Startup]: the server's [main] up to its loop: [getopt], the options, the
      environment, the signal handlers, and each resource in the order in which it is
      acquired and, on failure, given back.  [StartupProps]: its theorems.
    - [Keeps]: which parts of the server's state which functions leave alone.
    - [Client]: the client's session ([process_server_frame], [run_session]) and its
      reconnection ([run_client_endpoint]) on the state [cli]: socket, stdin, stdout,
      log, the coming answers of [poll], the coming signals and window sizes ([cliM]).
      A connection is a [peer], and what arrives on it may depend on the intro that the
      client sent ([run_session_on]).
      [Consume]: the receiver applied to a byte stream, frame after frame.
      [ClientSpec], [ClientStream]: one lemma per operation, and what a session does on
      any bytes.  [ClientProps], [Resume]: the theorems on one session, and on many.
    - [Asked]: an attached client was sent the window that the intro on its own
      connection asked for.  [EndToEnd]: the client on the other end of a connection of
      the concurrent server.
      [Handshake]: from the client's intro to an attached client.
    - [Probe]: connecting, trying to bind, and probing within a time limit.
    - [Terminal]: raw mode and its restoration, signal dispositions.
    - [Commands]: [run_named_start], [run_named_stop] and the other commands, and the
      client's [main], as computations on a [world]: files, working directory, clock,
      random bytes, the coming answers of the kernel, and the list of what was done to
      the outside.  The logs of the servers and of -l are among the files.  [CommandSpec]: weakest preconditions and one lemma per operation.
      [CommandProps], [StopProps], [ListProps]: the theorems on the commands.

    ** What the theorems show

    - The stream, as long as [calloc] does not fail: what each attached client was sent is
      WELCOME, REPLAY and STDOUT
      frames that carry one contiguous part of the PTY's output up to what the server
      has noted for it ([ServerProps.attached_stream_exact]); between chunks a live
      client has everything ([attached_caught_up]); a client lost in the middle of a
      frame has a prefix ([attached_stream_prefix]).
    - Memory safety: until [main] returns no reachable step of any thread is undefined
      in memory ([no_undefined_step]), because the reference counts are exact
      ([refcounts_exact]); no parser reads outside its frame ([Messages.parsers_safe]);
      the ring stays inside its buffer ([Ring.ring_append_correct]); an accepted session
      file stays inside [struct opty_session_info] ([Session.session_info_bounded]).
    - Refinement: the ring implements the replay log, for appends and for windows, and
      a reader that is at most the capacity behind loses nothing ([Ring.ring_resume]).
      The phases of the concurrent model are the C functions run without interruption
      ([ServerPhases]).
    - Who may do what: a connection that did not authenticate gets at most an ERROR; the
      first frame attaches or stops only with the right token; what an attached client
      types reaches the PTY whole and in order ([ServerAuth]).
    - The wire: every message survives any fragmentation by the kernel and parses to
      what was sent; oversized, truncated or malformed frames are refused ([Wire],
      [Messages]).
    - Session files: writes are atomic (but for a temporary file that cannot be removed),
      readers give back what was written, names stay
      inside their directory ([Session], [Text]).
    - End to end: what a terminal shows is one piece of the stream of the PTY, once, in
      order and without a gap, over any number of lost, refused and resumed connections,
      if the server still holds the position it comes back to
      ([EndToEnd.reconnecting_terminal_exact]); it catches up ([terminal_catches_up]);
      an admitted client is attached where it asked ([Handshake]).  These three are for
      rings that fit in one frame.
    - The client alone: it ends on any peer ([ClientProps.session_terminates]), sends
      nothing but its intro, acknowledgements, window sizes and typed bytes
      ([session_sends]), tries again after bounded delays ([Resume.retry_backoff]), and
      leaves the terminal as it was ([Terminal.terminal_restored]).
    - The start of the server: all or nothing ([StartupProps.start_all_or_nothing]), into
      an initial state of the system ([start_reaches_initial]), with the settings the
      client meant ([client_command_line]).
    - The commands: every command line is carried out ([ListProps.main_total]); the
      session file describes the server that was started
      ([CommandProps.start_records_server]); connect, stop and restart mean that server
      ([StopProps.commands_agree]), which obeys what stop sends
      ([StartupProps.started_server_obeys_stop]); a stop is reported only when the server
      is gone ([StopProps.stop_reports_truth]); a live session is never replaced
      ([restart_runs_stored_session]); the list is complete and quick
      ([ListProps.list_shows_sessions]).
    - Where the program falls short: a ring larger than a frame locks clients out, a
      failed snapshot allocation leaves a hole in the stream, waiting for the child can
      block a stop, the accept loop reads [listen_fd] in a race, and detached threads may
      outlive [struct server] ([ServerFaults]); a newline in the working directory rewrites a
      session file ([Session.cwd_newline_forges_token]); numeric sessions wrap around
      ([Text.numeric_session_ports]); a dead session keeps [0pty connect] from the only
      live one, and command words are valid session names ([ListProps]).

    ** Bounds and fuel

    - Sequence numbers are 64-bit and wrap; the theorems on streams assume that fewer
      than 2^64 - 4096 bytes were read from the PTY ([System.reachable]), 4096 being the
      size of the PTY thread's buffer.
    - The I/O loops take one unit of fuel per iteration and the length of the script
      and a little more as fuel; running out is [UB], and the totality lemmas of [Io]
      show that it does not happen.  The deadline loop of [Child] polls every 50
      milliseconds and gets fuel for its whole deadline.
    - The client's sends never fail with EINTR ([opty_writev_full] resumes them), so its
      send loops get one unit ([SEND_FUEL]); a session gets one unit per coming [poll] and
      per byte that can still arrive; the delay doubles at most three times; the wait for
      a new server is the code's own 60 polls; the wait for the answer to a stop gets one
      unit per coming answer and per 100 of its 7000 milliseconds.  In [Client] and
      [Commands] running out is [None], and [session_terminates] and [main_total] show
      that it does not happen.
    - A script of the kernel is finite and arbitrary: past its end reads see the end of
      file, writes are taken whole, [waitpid] reports that the child exited, calls on
      files succeed.  So "ends" means that every round uses up what the peer and the
      kernel still have to say; a peer that stays open and silent is waited for.  In [Commands] an answer of the wrong kind, or none, is a failure.

    ** What is not modelled

    - The usage texts, the wording of [strerror], [opty_set_tcp_nodelay] and socket
      options that cannot fail the call; the messages on stderr are modelled as one line
      each.
    - What a forked child does to its standard descriptors before it executes the server
      (client.c) is one deed, [DSpawn]; its log is opened in the world's files, and what
      the child and the server write there, any text, is there at once.  The descendants
      of the program on the terminal are outside.
    - Paths are compared as they are written: two names of one file are two files.  Calls
      on files, connecting and binding take no time; [getaddrinfo], [poll] and sleeping
      do.
    - The mutexes order the phases; the one field that is read without its mutex,
      [listen_fd] in the accept loop, is a race, shown in [ServerFaults.shutdown_hazards],
      and the model lets that read see the field before or after the write.
    - [getopt_long] (the client's options), [cfmakeraw] and the termios settings are
      parameters.  [getopt] of the server is written out, for POSIXLY_CORRECT unset.
    - A directory is a name: [chdir] to a relative path records that path.
    - [malloc] and [calloc] are parameters: any function from sizes to success.  The
      memory order of the C program is that of its mutexes: a phase is atomic.
    - A read error in the middle of a session file is taken as its end, as the code
      does; timestamps, modes and owners of files do not appear. *)

From Stdlib Require Export ZArith Lia.
From Stdlib Require Export Init.Byte Strings.Byte Strings.String.
From stdpp Require Export base numbers list.

Declare Scope opty_scope.
Delimit Scope opty_scope with opty.
Global Open Scope Z_scope.

(** ** Bytes and machine words *)

Abbreviation byte := Init.Byte.byte.
Abbreviation bytes := (list Init.Byte.byte).

(** The value of a [uint8_t], and the truncating cast to [uint8_t]. *)
Definition b2z (b : byte) : Z := Z.of_N (Byte.to_N b).

Definition z2b (z : Z) : byte :=
  match Byte.of_N (Z.to_N (z mod 256)) with
  | Some b => b
  | None => Byte.x00
  end.

#[export] Instance byte_eq_decision : EqDecision byte := Byte.byte_eq_dec.

(** A C string literal as its bytes, without the terminating NUL. *)
Definition cstr (s : string) : bytes := list_byte_of_string s.

(** Unsigned machine arithmetic: the casts write the wrap-around out. *)
Definition u16 (z : Z) : Z := z mod 2 ^ 16.
Definition u32 (z : Z) : Z := z mod 2 ^ 32.
Definition u64 (z : Z) : Z := z mod 2 ^ 64.

Definition SIZE_MAX : Z := 2 ^ 64 - 1.

(** Length of a byte block as a [size_t]. *)
Definition blen (bs : bytes) : Z := Z.of_nat (length bs).

(** ** C outcomes

    A C function of this code base returns a value, or -1 with [errno] set, or
    has undefined behaviour (an access outside an object).  The three are kept
    apart so that memory safety is a theorem: [UB] never happens. *)

Inductive errno :=
| EINVAL | EMSGSIZE | ECONNRESET | EIO | EINTR | ENOMEM | EPROTO | ENOSPC
| EOVERFLOW | ENOENT | E2BIG | EADDRINUSE | ETIMEDOUT | EPIPE | ECHILD
| EBADF | EMFILE | ENFILE | ENOBUFS | EOTHER.

#[export] Instance errno_eq_decision : EqDecision errno.
Proof. solve_decision. Defined.

Inductive outcome (A : Type) :=
| Done (a : A)
| Fail (e : errno)
| UB.
Arguments Done {A} a.
Arguments Fail {A} e.
Arguments UB {A}.

#[export] Instance outcome_ret : MRet outcome := fun A a => Done a.
#[export] Instance outcome_bind : MBind outcome := fun A B f o =>
  match o with
  | Done a => f a
  | Fail e => Fail e
  | UB => UB
  end.

(** [safe o]: the computation stays inside the objects it was given. *)
Definition safe {A} (o : outcome A) : Prop := o <> UB.

(** ** Byte blocks

    [sub bs off n] reads the [n] bytes at [bs + off]; [blit dst off src] is
    [memcpy (dst + off, src, length src)].  Both are undefined outside [bs]
    and [dst]. *)

Definition sub (bs : bytes) (off n : Z) : outcome bytes :=
  if bool_decide (0 <= off /\ 0 <= n /\ off + n <= blen bs)
  then Done (take (Z.to_nat n) (drop (Z.to_nat off) bs))
  else UB.

Definition blit (dst : bytes) (off : Z) (src : bytes) : outcome bytes :=
  if bool_decide (0 <= off /\ off + blen src <= blen dst)
  then Done (take (Z.to_nat off) dst ++ src ++ drop (Z.to_nat off + length src) dst)
  else UB.

(** A block of zero bytes, as [memset(p, 0, n)] or [calloc] leaves it. *)
Definition zeros (n : Z) : bytes := replicate (Z.to_nat n) Byte.x00.

(** ** Shared automation *)

Create HintDb opty.
Create Rewrite HintDb bytes_rw.

(** Case on the scrutinee of the innermost [match]/[if] of the goal or of a
    hypothesis, then simplify equalities. *)
Ltac crush_match :=
  repeat (case_match; simplify_eq/=; try done).

(** Unfold the monad and expose the bind of an [outcome]. *)
Ltac outcome_inv :=
  repeat match goal with
  | H : mbind (M := outcome) _ ?o = _ |- _ =>
      let E := fresh "Ho" in destruct o eqn:E; simpl in H; try discriminate H
  | H : Done _ = Done _ |- _ => injection H; clear H; intros; subst
  end.

(** [lia] with division and modulo by constants. *)
Ltac div_lia := Z.div_mod_to_equations; lia.

(** Lengths of byte lists as integers, for [lia]. *)
Ltac blen_lia :=
  unfold blen in *;
  repeat first
    [ rewrite length_app | rewrite length_take | rewrite length_drop
    | rewrite length_replicate | rewrite length_cons ];
  simpl length; lia.

(** ** Byte lemmas *)

Lemma b2z_range (b : byte) : 0 <= b2z b < 256.
Proof.
  unfold b2z. split; [lia|].
  pose proof (Byte.to_N_bounded b). lia.
Qed.

Lemma z2b_b2z (b : byte) : z2b (b2z b) = b.
Proof. by destruct b. Qed.

Lemma b2z_z2b (z : Z) : b2z (z2b z) = z mod 256.
Proof.
  unfold z2b, b2z.
  pose proof (Z.mod_pos_bound z 256 ltac:(lia)).
  destruct (Byte.of_N (Z.to_N (z mod 256))) as [b|] eqn:E.
  - apply Byte.to_of_N in E. rewrite E. lia.
  - apply Byte.of_N_None_iff in E. lia.
Qed.

Lemma b2z_z2b_small (z : Z) : 0 <= z < 256 -> b2z (z2b z) = z.
Proof. intros. rewrite b2z_z2b. by apply Z.mod_small. Qed.

Lemma b2z_inj (a b : byte) : b2z a = b2z b -> a = b.
Proof. intros H. rewrite <- (z2b_b2z a), <- (z2b_b2z b). by rewrite H. Qed.

(** ** Block lemmas *)

Lemma sub_ok (bs : bytes) (off n : Z) :
  0 <= off -> 0 <= n -> off + n <= blen bs ->
  sub bs off n = Done (take (Z.to_nat n) (drop (Z.to_nat off) bs)).
Proof. intros. unfold sub. by rewrite bool_decide_true. Qed.

Lemma sub_app_mid (pre mid post : bytes) (off n : Z) :
  off = blen pre -> n = blen mid -> sub (pre ++ mid ++ post) off n = Done mid.
Proof.
  intros -> ->. rewrite sub_ok by blen_lia.
  unfold blen. rewrite !Nat2Z.id, drop_app_length, take_app_length. done.
Qed.

Lemma sub_done (bs r : bytes) (off n : Z) :
  sub bs off n = Done r ->
  0 <= off /\ 0 <= n /\ off + n <= blen bs /\ blen r = n /\
  r = take (Z.to_nat n) (drop (Z.to_nat off) bs).
Proof.
  unfold sub. case_bool_decide; intros Heq; [|done]. injection Heq as <-.
  split_and!; try lia; try done. blen_lia.
Qed.

Lemma blit_ok (dst src : bytes) (off : Z) :
  0 <= off -> off + blen src <= blen dst ->
  blit dst off src =
    Done (take (Z.to_nat off) dst ++ src ++ drop (Z.to_nat off + length src) dst).
Proof. intros. unfold blit. by rewrite bool_decide_true. Qed.

Lemma blit_done (dst src r : bytes) (off : Z) :
  blit dst off src = Done r ->
  0 <= off /\ off + blen src <= blen dst /\
  r = take (Z.to_nat off) dst ++ src ++ drop (Z.to_nat off + length src) dst.
Proof. unfold blit. case_bool_decide as Hb; intros Heq; [|done]. injection Heq as <-. tauto. Qed.

Lemma blit_length (dst src r : bytes) (off : Z) :
  blit dst off src = Done r -> length r = length dst.
Proof. intros (?&?&->)%blit_done. blen_lia. Qed.

(** The byte found at index [i] after a [memcpy]. *)
Lemma blit_lookup (dst src r : bytes) (off : Z) (i : nat) :
  blit dst off src = Done r ->
  r !! i = if bool_decide (off <= Z.of_nat i < off + blen src)
           then src !! (i - Z.to_nat off)%nat else dst !! i.
Proof.
  intros (?&?&->)%blit_done. unfold blen in *.
  assert (length (take (Z.to_nat off) dst) = Z.to_nat off) as Hl
    by (rewrite length_take; lia).
  case_bool_decide as Hi.
  - rewrite lookup_app_r by lia. rewrite Hl. rewrite lookup_app_l by lia. done.
  - destruct (decide (Z.of_nat i < off)).
    + rewrite lookup_app_l by lia. apply lookup_take_lt. lia.
    + rewrite lookup_app_r by lia. rewrite Hl, lookup_app_r by lia.
      rewrite lookup_drop. f_equal. lia.
Qed.

Lemma blen_nonneg (bs : bytes) : 0 <= blen bs.
Proof. unfold blen. lia. Qed.

Lemma blen_0 (bs : bytes) : blen bs = 0 -> bs = [].
Proof. destruct bs; [done|]. unfold blen. simpl. lia. Qed.

Lemma blen_app (a b : bytes) : blen (a ++ b) = blen a + blen b.
Proof. blen_lia. Qed.

Lemma blen_zeros (n : Z) : 0 <= n -> blen (zeros n) = n.
Proof. intros. unfold blen, zeros. rewrite length_replicate. lia. Qed.

Lemma u64_small (z : Z) : 0 <= z < 2 ^ 64 -> u64 z = z.
Proof. apply Z.mod_small. Qed.

Lemma u64_range (z : Z) : 0 <= u64 z < 2 ^ 64.
Proof. apply Z.mod_pos_bound. lia. Qed.

#[export] Hint Resolve b2z_range blen_nonneg u64_range : opty.
#[export] Hint Rewrite z2b_b2z b2z_z2b blen_app : bytes_rw.
