(* ===== verification/Io.v ===== *)
(** * Descriptor I/O: [opty_read_full], [opty_write_full], [opty_writev_full]

    The kernel side of a descriptor is a pair of scripts: what each coming
    [read] finds ([inq]) and how much each coming [write] accepts ([outq]).  A
    script is finite; past its end a read sees end-of-file and a write is
    accepted whole, so every loop of src/src/protocol.c terminates on every
    script.  The bytes the peer has been given so far are [out]. *)

From S2P Require Import Prelude.

(** ** The kernel's side *)

Inductive rd_ev :=
| RData (bs : bytes)      (* bytes that arrive together; [] is an end-of-file *)
| RErr (e : errno).       (* read returns -1 with this errno *)

Inductive wr_ev :=
| WAccept (k : nat)       (* write accepts at most k bytes *)
| WErr (e : errno).       (* write returns -1 with this errno *)

Record stream := Stream {
  inq : list rd_ev;
  outq : list wr_ev;
  out : bytes;
  wr_shut : bool          (* shutdown(fd, SHUT_RDWR) was called: writes get EPIPE *)
}.

(** [read(fd, buf, n)]: the bytes read ([[]] when it returns 0) or an errno. *)
Definition sys_read (n : Z) (s : stream) : (bytes + errno) * stream :=
  match inq s with
  | [] => (inl [], s)
  | RErr e :: q => (inr e, Stream q (outq s) (out s) (wr_shut s))
  | RData bs :: q =>
      let got := take (Z.to_nat n) bs in
      let left := drop (Z.to_nat n) bs in
      (inl got, Stream (match left with [] => q | _ => RData left :: q end)
                       (outq s) (out s) (wr_shut s))
  end.

(** [write(fd, p, length p)]: the count accepted or an errno. *)
Definition sys_write (p : bytes) (s : stream) : (Z + errno) * stream :=
  if wr_shut s then (inr EPIPE, s) else
  match outq s with
  | [] => (inl (blen p), Stream (inq s) [] (out s ++ p) false)
  | WErr e :: q => (inr e, Stream (inq s) q (out s) false)
  | WAccept k :: q =>
      (inl (blen (take k p)), Stream (inq s) q (out s ++ take k p) false)
  end.

(** [writev] gathers its vector and writes it as one block. *)
Definition sys_writev (iov : list bytes) (s : stream) : (Z + errno) * stream :=
  sys_write (concat iov) s.

(** [shutdown(fd, SHUT_RDWR)]. *)
Definition sys_shutdown (s : stream) : stream :=
  Stream (inq s) (outq s) (out s) true.

(** ** Computations on one descriptor *)

Definition io (A : Type) : Type := stream -> outcome A * stream.

#[export] Instance io_ret : MRet io := fun A a s => (Done a, s).
#[export] Instance io_bind : MBind io := fun A B f m s =>
  match m s with
  | (Done a, s') => f a s'
  | (Fail e, s') => (Fail e, s')
  | (UB, s') => (UB, s')
  end.

Definition io_fail {A} (e : errno) : io A := fun s => (Fail e, s).
Definition io_lift {A} (o : outcome A) : io A := fun s => (o, s).

(** ** The loops of protocol.c

    One unit of fuel per iteration; [UB] marks exhausted fuel, and the totality
    theorems below show that it is never reached. *)

Fixpoint read_full_loop (fuel : nat) (len : Z) (buf : bytes) : io bytes := fun s =>
  match fuel with
  | O => (UB, s)
  | S fuel' =>
      if blen buf <? len then
        match sys_read (len - blen buf) s with
        | (inl [], s') => (if blen buf =? 0 then Done [] else Fail ECONNRESET, s')
        | (inl bs, s') => read_full_loop fuel' len (buf ++ bs) s'
        | (inr e, s') =>
            if decide (e = EINTR) then read_full_loop fuel' len buf s' else (Fail e, s')
        end
      else (Done buf, s)
  end.

(** [Done bs] with [blen bs = len] is a full read; [Done []] with [0 < len] is
    the return value 0 (end-of-file before any byte). *)
Definition opty_read_full (len : Z) : io bytes := fun s =>
  read_full_loop (S (length (inq s))) len [] s.

Fixpoint write_full_loop (fuel : nat) (p : bytes) (total : Z) : io Z := fun s =>
  match fuel with
  | O => (UB, s)
  | S fuel' =>
      if total <? blen p then
        match sys_write (drop (Z.to_nat total) p) s with
        | (inl n, s') =>
            if 0 <? n then write_full_loop fuel' p (total + n) s' else (Fail EIO, s')
        | (inr e, s') =>
            if decide (e = EINTR) then write_full_loop fuel' p total s' else (Fail e, s')
        end
      else (Done total, s)
  end.

Definition opty_write_full (p : bytes) : io Z := fun s =>
  write_full_loop (S (S (length (outq s)))) p 0 s.

(** Drop [written] bytes from the front of the vector: whole entries first
    (empty ones included), then the head of the first partial one. *)
Fixpoint advance_iov (cur : list bytes) (written : Z) : list bytes :=
  match cur with
  | [] => []
  | v :: rest =>
      if blen v <=? written then advance_iov rest (written - blen v)
      else if 0 <? written then drop (Z.to_nat written) v :: rest
      else v :: rest
  end.

Fixpoint writev_loop (fuel : nat) (cur : list bytes) (total : Z) : io Z := fun s =>
  match fuel with
  | O => (UB, s)
  | S fuel' =>
      match cur with
      | [] => (Done total, s)
      | _ =>
          match sys_writev cur s with
          | (inl n, s') =>
              if 0 <? n then writev_loop fuel' (advance_iov cur n) (total + n) s'
              else (Fail EIO, s')
          | (inr e, s') =>
              if decide (e = EINTR) then writev_loop fuel' cur total s' else (Fail e, s')
          end
      end
  end.

Definition opty_writev_full (iov : list bytes) : io Z := fun s =>
  if (3 <? length iov)%nat then (Fail EINVAL, s)
  else match iov with
       | [] => (Done 0, s)
       | _ => writev_loop (S (S (length (outq s)))) iov 0 s
       end.

(** ** What a script holds *)

(** A script of arrivals and interruptions only. *)
Definition benign_rd (ev : rd_ev) : Prop :=
  match ev with RData [] => False | RData _ => True | RErr e => e = EINTR end.

Definition content (q : list rd_ev) : bytes :=
  concat (map (fun ev => match ev with RData bs => bs | RErr _ => [] end) q).

(** A kernel that takes every byte sooner or later. *)
Definition benign_wr (ev : wr_ev) : Prop :=
  match ev with WAccept k => (0 < k)%nat | WErr e => e = EINTR end.

Definition healthy (s : stream) : Prop := wr_shut s = false /\ Forall benign_wr (outq s).

(** [s'] is [s] after writing [p], of which [done] reached the peer. *)
Definition wrote (s s' : stream) (p : bytes) : Prop :=
  out s' = out s ++ p /\ inq s' = inq s /\ wr_shut s' = wr_shut s /\
  (length (outq s') <= length (outq s))%nat.

(** ** One system call *)

Lemma sys_write_spec (p : bytes) (s s' : stream) (r : Z + errno) :
  sys_write p s = (r, s') ->
  match r with
  | inl n => 0 <= n <= blen p /\ wrote s s' (take (Z.to_nat n) p) /\
             wr_shut s = false /\
             ((outq s = [] /\ n = blen p) \/
              (length (outq s') < length (outq s))%nat)
  | inr e => wrote s s' [] /\
             (wr_shut s = true \/
              (length (outq s') < length (outq s))%nat)
  end.
Proof.
  unfold sys_write, wrote. destruct (wr_shut s) eqn:Hs.
  { intros [= <- <-]. rewrite app_nil_r. auto. }
  destruct (outq s) as [|[k|e] q] eqn:Hq; intros [= <- <-]; simpl.
  - split_and!; auto; try blen_lia.
    unfold blen. rewrite Nat2Z.id. by rewrite firstn_all.
  - split_and!; auto; try (blen_lia || lia).
    f_equal. unfold blen. rewrite Nat2Z.id, length_take.
    destruct (decide (k <= length p)%nat).
    + f_equal. lia.
    + rewrite !take_ge by lia. done.
  - rewrite app_nil_r. auto with lia.
Qed.

(** A kernel with no failures in store accepts at least one byte. *)
Lemma sys_write_healthy (p : bytes) (s s' : stream) (r : Z + errno) :
  sys_write p s = (r, s') -> healthy s -> p <> [] ->
  healthy s' /\ match r with inl n => 0 < n | inr e => e = EINTR end.
Proof.
  unfold sys_write, healthy. intros Hw [Hs Hq] Hp. rewrite Hs in Hw.
  assert (0 < length p)%nat by (destruct p; [done|simpl; lia]).
  destruct (outq s) as [|[k|e] q]; simplify_eq/=; inversion Hq; subst; simpl in *;
    split_and!; auto; blen_lia.
Qed.

Lemma wrote_refl (s : stream) : wrote s s [].
Proof. unfold wrote. rewrite app_nil_r. auto. Qed.

Lemma wrote_trans (s1 s2 s3 : stream) (p q : bytes) :
  wrote s1 s2 p -> wrote s2 s3 q -> wrote s1 s3 (p ++ q).
Proof.
  unfold wrote. intros (->&->&->&?) (->&->&->&?).
  rewrite app_assoc. split_and!; auto with lia.
Qed.

(** What a write loop that still has [p] to send ends with: everything sent, or
    an error after a proper prefix; and everything sent on a healthy stream. *)
Definition write_post (p : bytes) (s s' : stream) (r : outcome Z) (t : Z) : Prop :=
  match r with
  | Done n => n = t + blen p /\ wrote s s' p
  | Fail e => exists k, (k < length p)%nat /\ wrote s s' (take k p)
  | UB => False
  end /\ (healthy s -> (exists n, r = Done n) /\ healthy s').

(** One iteration, whatever the loop does next. *)
Lemma write_post_step (p : bytes) (n : Z) (s s1 s2 : stream) (r : outcome Z) (t : Z) :
  sys_write p s = (inl n, s1) -> 0 < n ->
  write_post (drop (Z.to_nat n) p) s1 s2 r (t + n) -> write_post p s s2 r t.
Proof.
  intros Hw Hn [Hpost Hh].
  pose proof (sys_write_spec _ _ _ _ Hw) as (Hr&Hwr&_).
  split.
  - destruct r as [m|e|]; [|..|done].
    + destruct Hpost as [-> Hp]. split; [blen_lia|].
      rewrite <- (take_drop (Z.to_nat n) p) at 1. eapply wrote_trans; eauto.
    + destruct Hpost as (k&Hk&Hp). rewrite length_drop in Hk.
      exists (Z.to_nat n + k)%nat. split; [lia|].
      rewrite <- take_take_drop. by eapply wrote_trans.
  - intros Hs. apply Hh. eapply sys_write_healthy; eauto.
    intros ->. unfold blen in Hr; simpl in Hr. lia.
Qed.

Lemma write_post_intr (p : bytes) (s s1 s2 : stream) (r : outcome Z) (t : Z) (e : errno) :
  sys_write p s = (inr e, s1) -> p <> [] ->
  write_post p s1 s2 r t -> write_post p s s2 r t.
Proof.
  intros Hw Hp [Hpost Hh].
  pose proof (sys_write_spec _ _ _ _ Hw) as [Hwr _].
  split; [|intros Hs; apply Hh; by eapply sys_write_healthy].
  destruct r as [m|e'|]; [| |done].
  - destruct Hpost as [-> Hq]. split; [done|]. apply (wrote_trans _ _ _ [] p Hwr Hq).
  - destruct Hpost as (k&Hk&Hq). exists k. split; [done|].
    apply (wrote_trans _ _ _ [] _ Hwr Hq).
Qed.

Lemma write_post_fail (p : bytes) (s s1 : stream) (t : Z) (e : errno) r0 :
  sys_write p s = (r0, s1) -> p <> [] ->
  match r0 with inl n => n <= 0 | inr e' => e' <> EINTR end ->
  write_post p s s1 (Fail e) t.
Proof.
  intros Hw Hp Hr0. pose proof (sys_write_spec _ _ _ _ Hw) as Hsp. split.
  - exists 0%nat. split; [destruct p; [done|simpl; lia]|].
    destruct r0 as [n|e']; [|by destruct Hsp].
    destruct Hsp as (?&Hwr&_). by replace (Z.to_nat n) with 0%nat in Hwr by lia.
  - intros Hs. destruct (sys_write_healthy _ _ _ _ Hw Hs Hp) as [_ Hx].
    destruct r0; [lia|done].
Qed.

(** ** The write loops *)

Lemma write_full_loop_spec (fuel : nat) (p : bytes) (t : Z) (s s' : stream) (r : outcome Z) :
  0 <= t <= blen p ->
  (length (outq s) + (if (t <? blen p)%Z then 2 else 1) <= fuel)%nat ->
  write_full_loop fuel p t s = (r, s') ->
  write_post (drop (Z.to_nat t) p) s s' r t.
Proof.
  revert t s. induction fuel as [|fuel IH]; intros t s Ht Hf Hl; simpl in Hl.
  { case_match; lia. }
  destruct (Z.ltb_spec t (blen p)) as [Hlt|Hge].
  2:{ simplify_eq. rewrite drop_ge by (unfold blen in *; lia). split; [|by eauto].
      split; [by rewrite Z.add_0_r|apply wrote_refl]. }
  assert (drop (Z.to_nat t) p <> []) as Hne.
  { intros H%(f_equal length). rewrite length_drop in H. simpl in H. unfold blen in *. lia. }
  destruct (sys_write (drop (Z.to_nat t) p) s) as [[n|e] s1] eqn:Hw;
    pose proof (sys_write_spec _ _ _ _ Hw) as Hsp.
  - destruct Hsp as (Hn&Hwr&Hsh&Hq).
    assert (blen (drop (Z.to_nat t) p) = blen p - t) as Hb by (unfold blen in *; rewrite length_drop; lia).
    destruct (Z.ltb_spec 0 n) as [Hpos|Hz].
    2:{ simplify_eq. eapply write_post_fail; eauto. }
    eapply write_post_step; eauto. rewrite drop_drop.
    replace (Z.to_nat t + Z.to_nat n)%nat with (Z.to_nat (t + n)) by lia.
    apply IH; [lia| |done].
    destruct Hwr as (_&_&_&?). destruct Hq as [[Hq ->]|Hq].
    + rewrite Hb. destruct (Z.ltb_spec (t + (blen p - t)) (blen p)); [lia|].
      rewrite Hq in *. simpl in *. lia.
    + case_match; lia.
  - destruct Hsp as [Hwr Hq]. destruct (decide (e = EINTR)) as [->|Hne'].
    2:{ simplify_eq. eapply write_post_fail; eauto. }
    eapply write_post_intr; eauto.
    destruct Hq as [Hsh|Hq].
    { unfold sys_write in Hw. rewrite Hsh in Hw. simplify_eq. }
    apply IH; [lia| |done]. destruct (Z.ltb_spec t (blen p)); lia.
Qed.

Lemma opty_write_full_spec (p : bytes) (s s' : stream) (r : outcome Z) :
  opty_write_full p s = (r, s') -> write_post p s s' r 0.
Proof.
  unfold opty_write_full. intros H.
  apply (write_full_loop_spec _ p 0) in H; [by rewrite drop_0 in H|unfold blen; lia|].
  case_match; lia.
Qed.

Lemma concat_advance_iov (cur : list bytes) (w : Z) :
  0 <= w <= blen (concat cur) ->
  concat (advance_iov cur w) = drop (Z.to_nat w) (concat cur).
Proof.
  revert w. induction cur as [|v cur IH]; intros w Hw; simpl in *; [by rewrite drop_nil|].
  rewrite blen_app in Hw.
  destruct (Z.leb_spec (blen v) w).
  - rewrite IH by lia. rewrite drop_app_ge by (unfold blen in *; lia).
    f_equal. unfold blen in *. lia.
  - destruct (Z.ltb_spec 0 w); simpl.
    + rewrite drop_app_le by (unfold blen in *; lia). done.
    + by replace (Z.to_nat w) with 0%nat by lia.
Qed.

(** A vector with nothing left to send is exhausted, empty entries and all. *)
Lemma advance_iov_nil (cur : list bytes) (w : Z) :
  0 <= w -> w = blen (concat cur) -> advance_iov cur w = [].
Proof.
  revert w. induction cur as [|v cur IH]; intros w Hw Heq; simpl in *; [done|].
  rewrite blen_app in Heq. pose proof (blen_nonneg (concat cur)).
  destruct (Z.leb_spec (blen v) w); [|lia]. apply IH; lia.
Qed.

Lemma writev_loop_spec (fuel : nat) (cur : list bytes) (t : Z) (s s' : stream) (r : outcome Z) :
  (cur = [] \/ concat cur <> []) ->
  (length (outq s) + (match cur with [] => 1 | _ => 2 end) <= fuel)%nat ->
  writev_loop fuel cur t s = (r, s') ->
  write_post (concat cur) s s' r t.
Proof.
  revert t s cur. induction fuel as [|fuel IH]; intros t s cur Hcur Hf Hl; simpl in Hl.
  { case_match; lia. }
  destruct (decide (cur = [])) as [->|Hc].
  { simplify_eq. split; [|by eauto]. split; [by rewrite Z.add_0_r|apply wrote_refl]. }
  assert (concat cur <> []) as Hne by (destruct Hcur; done).
  assert ((length (outq s) + 2 <= S fuel)%nat) as Hf' by (destruct cur; [done|lia]).
  assert (forall (A : Type) (x y : A), match cur with [] => x | _ => y end = y) as Hm
    by (intros; by destruct cur).
  rewrite Hm in Hl. clear Hm Hf Hcur.
  unfold sys_writev in Hl.
  destruct (sys_write (concat cur) s) as [[n|e] s1] eqn:Hw;
    pose proof (sys_write_spec _ _ _ _ Hw) as Hsp.
  - destruct Hsp as (Hn&Hwr&Hsh&Hq).
    destruct (Z.ltb_spec 0 n) as [Hpos|Hz].
    2:{ simplify_eq. eapply write_post_fail; eauto. }
    eapply write_post_step; eauto. rewrite <- concat_advance_iov by lia.
    destruct (decide (n = blen (concat cur))) as [->|Hpart].
    + rewrite advance_iov_nil in * by lia.
      apply IH; [by left| |done]. destruct Hwr as (_&_&_&?). lia.
    + assert (concat (advance_iov cur n) <> []) as Hne'.
      { rewrite concat_advance_iov by lia. intros H%(f_equal length).
        rewrite length_drop in H. unfold blen in *. simpl in H. lia. }
      apply IH; [by right| |done]. destruct Hq as [[_ ?]|?]; [lia|].
      case_match; lia.
  - destruct Hsp as [Hwr Hq]. destruct (decide (e = EINTR)) as [->|Hne'].
    2:{ simplify_eq. eapply write_post_fail; eauto. }
    eapply write_post_intr; eauto.
    destruct Hq as [Hsh|Hq].
    { unfold sys_write in Hw. rewrite Hsh in Hw. simplify_eq. }
    apply IH; [by right| |done]. case_match; lia.
Qed.

Lemma opty_writev_full_spec (iov : list bytes) (s s' : stream) (r : outcome Z) :
  (length iov <= 3)%nat -> concat iov <> [] ->
  opty_writev_full iov s = (r, s') -> write_post (concat iov) s s' r 0.
Proof.
  unfold opty_writev_full. intros Hl Hne H.
  destruct (Nat.ltb_spec 3 (length iov)); [lia|].
  destruct iov as [|v iov]; [done|].
  eapply writev_loop_spec; [by right| |done]. simpl. lia.
Qed.

(** ** The read loop *)

(** Reading touches nothing but the arrivals. *)
Definition only_read (s s' : stream) : Prop :=
  out s' = out s /\ outq s' = outq s /\ wr_shut s' = wr_shut s.

Lemma only_read_refl (s : stream) : only_read s s.
Proof. done. Qed.

Lemma only_read_trans (s1 s2 s3 : stream) :
  only_read s1 s2 -> only_read s2 s3 -> only_read s1 s3.
Proof. unfold only_read. intros (->&->&->) (->&->&->). done. Qed.

Lemma sys_read_spec (n : Z) (s s' : stream) (r : bytes + errno) :
  0 < n -> sys_read n s = (r, s') ->
  only_read s s' /\
  match r with
  | inl bs => blen bs <= n /\
              (bs = [] \/ (0 < length (inq s) /\
                 (blen bs = n \/ length (inq s') < length (inq s)))%nat)
  | inr _ => (length (inq s') < length (inq s))%nat
  end.
Proof.
  unfold sys_read, only_read. intros Hn.
  destruct (inq s) as [|[bs|e] q] eqn:Hq; intros [= <- <-]; simpl; split; auto.
  - split; [blen_lia|auto].
  - split; [blen_lia|]. right. split; [lia|].
    destruct (drop (Z.to_nat n) bs) as [|x l] eqn:Hd; simpl; [right; lia|left].
    assert (0 < length (drop (Z.to_nat n) bs))%nat as Hx by (rewrite Hd; simpl; lia).
    rewrite length_drop in Hx. blen_lia.
Qed.

Definition read_post (len : Z) (buf : bytes) (s s' : stream) (r : outcome bytes) : Prop :=
  only_read s s' /\
  match r with
  | Done bs => (blen bs = len /\ buf `prefix_of` bs) \/ (bs = [] /\ buf = [])
  | Fail e => e <> EINTR
  | UB => False
  end.

Lemma read_full_loop_spec (fuel : nat) (len : Z) (buf : bytes) (s s' : stream) r :
  blen buf <= len ->
  ((if (blen buf <? len)%Z then length (inq s) else 0) < fuel)%nat ->
  read_full_loop fuel len buf s = (r, s') -> read_post len buf s s' r.
Proof.
  revert buf s. induction fuel as [|fuel IH]; intros buf s Hb Hf Hl; [lia|]. simpl in Hl.
  destruct (Z.ltb_spec (blen buf) len) as [Hlt|Hge].
  2:{ simplify_eq. split; [done|]. left. auto with lia. }
  destruct (sys_read (len - blen buf) s) as [[bs|e] s1] eqn:Hr;
    apply sys_read_spec in Hr as [Ho Hs]; try lia.
  - destruct bs as [|b bs].
    { simplify_eq. split; [done|]. destruct (Z.eqb_spec (blen buf) 0) as [Hz|]; [|done].
      right. destruct buf; [done|]. unfold blen in Hz; simpl in Hz. lia. }
    destruct Hs as [Hle [?|[Hnil Hs]]]; [done|].
    destruct (IH (buf ++ b :: bs) s1) as [Ho' Hp]; [rewrite blen_app; lia| |done|].
    { rewrite blen_app. destruct (Z.ltb_spec (blen buf + blen (b :: bs)) len); lia. }
    split; [by eapply only_read_trans|]. destruct r as [r|e|]; [|done|done]. left.
    destruct Hp as [[? Hp]|[_ Hp]]; [|by destruct buf].
    split; [done|]. etrans; [|done]. by apply prefix_app_r.
  - destruct (decide (e = EINTR)) as [->|Hne]; [|by simplify_eq].
    destruct (IH buf s1) as [Ho' Hp]; [done| |done|].
    { destruct (Z.ltb_spec (blen buf) len); lia. }
    split; [by eapply only_read_trans|done].
Qed.

Lemma opty_read_full_spec (len : Z) (s s' : stream) (r : outcome bytes) :
  0 <= len -> opty_read_full len s = (r, s') ->
  only_read s s' /\
  match r with
  | Done bs => blen bs = len \/ bs = []
  | Fail e => e <> EINTR
  | UB => False
  end.
Proof.
  unfold opty_read_full. intros H0 H. apply read_full_loop_spec in H as [Ho H].
  - split; [done|]. destruct r; [|done|done]. tauto.
  - done.
  - case_match; lia.
Qed.

(** On a script of arrivals, the outcome depends on the bytes alone, not on how
    they were fragmented or interrupted. *)
Lemma sys_read_benign (n : Z) (s s' : stream) (r : bytes + errno) :
  0 < n -> Forall benign_rd (inq s) -> sys_read n s = (r, s') ->
  Forall benign_rd (inq s') /\
  match r with
  | inl bs => blen bs <= n /\ content (inq s) = bs ++ content (inq s') /\
              (bs = [] -> content (inq s) = [])
  | inr e => e = EINTR /\ content (inq s) = content (inq s')
  end.
Proof.
  unfold sys_read, content. intros Hn Hq.
  destruct (inq s) as [|[bs|e] q] eqn:Hi; intros [= <- <-]; simpl.
  - rewrite Hi. simpl. split_and!; [done|blen_lia|done|done].
  - inversion Hq as [|? ? Hb Hq']; subst. destruct bs as [|b bs]; [done|].
    assert (blen (take (Z.to_nat n) (b :: bs)) <= n) as Hle by blen_lia.
    destruct (Z.to_nat n) as [|m] eqn:Hm; [lia|]. simpl in *.
    pose proof (take_drop m bs) as Htd.
    destruct (drop m bs) as [|x l] eqn:Hd; simpl.
    + rewrite app_nil_r in Htd. rewrite Htd in *. done.
    + split; [by constructor|]. split_and!; [done| |done]. rewrite <- Htd at 1.
      rewrite <- app_assoc. done.
  - inversion Hq; subst. done.
Qed.

Lemma read_full_loop_benign (fuel : nat) (len : Z) (buf : bytes) (s s' : stream) r :
  blen buf <= len -> Forall benign_rd (inq s) ->
  read_full_loop fuel len buf s = (r, s') -> r <> UB ->
  Forall benign_rd (inq s') /\
  exists tail, content (inq s) = tail ++ content (inq s') /\
    ((blen buf + blen (content (inq s)) >= len /\ r = Done (buf ++ tail) /\
      blen buf + blen tail = len) \/
     (blen buf + blen (content (inq s)) < len /\ content (inq s') = [] /\
      r = if bool_decide (buf ++ tail = []) then Done [] else Fail ECONNRESET)).
Proof.
  revert buf s. induction fuel as [|fuel IH]; intros buf s Hb Hq Hl Hub;
    simpl in Hl; [by simplify_eq|].
  destruct (Z.ltb_spec (blen buf) len) as [Hlt|Hge].
  2:{ simplify_eq. split; [done|]. exists []. split; [done|]. left.
      rewrite app_nil_r. pose proof (blen_nonneg (content (inq s'))).
      split_and!; [lia|done|blen_lia]. }
  destruct (sys_read (len - blen buf) s) as [[bs|e] s1] eqn:Hr;
    apply sys_read_benign in Hr as [Hq1 Hs]; try lia; try done.
  - destruct Hs as (Hle&Hc&Hnil). destruct bs as [|b bs].
    { simplify_eq. specialize (Hnil eq_refl). rewrite Hnil in Hc. split; [done|].
      exists []. split; [by rewrite Hnil|]. right. rewrite Hnil, app_nil_r.
      split_and!; [blen_lia|done|]. by destruct buf. }
    destruct (IH (buf ++ b :: bs) s1) as (Hq'&tail&Ht&Hcase);
      [rewrite blen_app; lia|done..|].
    split; [done|]. exists ((b :: bs) ++ tail). rewrite Hc, Ht, !blen_app in *.
    split; [by rewrite app_assoc|]. rewrite app_assoc.
    destruct Hcase as [(?&->&?)|(?&?&->)]; [left|right]; split_and!; auto; lia.
  - destruct Hs as [-> Hc]. destruct (decide _); [|done].
    rewrite Hc. by apply IH.
Qed.

(** [opty_read_full] over any fragmentation of at least [len] bytes returns the
    first [len] of them and leaves the rest. *)
Lemma opty_read_full_benign (len : Z) (s : stream) :
  0 <= len <= blen (content (inq s)) -> Forall benign_rd (inq s) ->
  exists s', opty_read_full len s = (Done (take (Z.to_nat len) (content (inq s))), s') /\
    only_read s s' /\ Forall benign_rd (inq s') /\
    content (inq s') = drop (Z.to_nat len) (content (inq s)).
Proof.
  intros Hlen Hq. destruct (opty_read_full len s) as [r s'] eqn:H.
  pose proof (opty_read_full_spec _ _ _ _ (proj1 Hlen) H) as [Ho Hp].
  unfold opty_read_full in H. apply read_full_loop_benign in H as (Hq'&tail&Hc&Hcase);
    [|unfold blen; simpl; lia|done|by intros ->].
  exists s'. change (blen []) with 0 in Hcase.
  destruct Hcase as [(?&->&Ht)|(?&_)]; [|lia]. simpl in *.
  rewrite Hc, <- Ht, Z.add_0_l. unfold blen. rewrite Nat2Z.id.
  rewrite take_app_length, drop_app_length. done.
Qed.

(** On an exhausted script it returns 0. *)
Lemma opty_read_full_eof (len : Z) (s : stream) :
  0 < len -> inq s = [] -> opty_read_full len s = (Done [], s).
Proof.
  unfold opty_read_full. intros Hl Hq. rewrite Hq. simpl.
  change (blen []) with 0. destruct (Z.ltb_spec 0 len); [|lia].
  unfold sys_read. by rewrite Hq.
Qed.

(** A script that ends before [len] bytes: 0 at the start, ECONNRESET inside. *)
Lemma opty_read_full_short (len : Z) (s : stream) :
  blen (content (inq s)) < len -> Forall benign_rd (inq s) ->
  exists s', opty_read_full len s =
    (if bool_decide (content (inq s) = []) then Done [] else Fail ECONNRESET, s') /\
    only_read s s' /\ Forall benign_rd (inq s') /\ content (inq s') = [].
Proof.
  intros Hlen Hq. pose proof (blen_nonneg (content (inq s))).
  destruct (opty_read_full len s) as [r s'] eqn:H'.
  pose proof (opty_read_full_spec len _ _ _ ltac:(lia) H') as [Ho Hp].
  unfold opty_read_full in H'. apply read_full_loop_benign in H' as (Hq'&tail&Hc&Hcase);
    [|unfold blen at 1; simpl; lia|done|by intros ->].
  exists s'. change (blen []) with 0 in Hcase.
  destruct Hcase as [(?&_)|(_&Hn&->)]; [lia|].
  rewrite Hn, app_nil_r in Hc. rewrite Hc. simpl. done.
Qed.
