(* ===== verification/Wire.v ===== *)
(** * The wire: endian helpers and frames (src/src/protocol.c, protocol.h)

    A frame is a 4-byte big-endian length, one type byte and the payload; the
    length counts the type byte. *)

From S2P Require Import Prelude.
From S2P Require Import Io.

(** ** Constants of protocol.h *)

Definition OPTY_VERSION : Z := 1.
Definition OPTY_DEFAULT_RING_SIZE : Z := 1024 * 1024.
Definition OPTY_MAX_FRAME : Z := 16 * 1024 * 1024.
Definition OPTY_MAX_TOKEN : Z := 255.
Definition OPTY_MAX_GRACEFUL_INPUT : Z := 4096.
Definition OPTY_MAX_UNAUTH_PAYLOAD : Z :=
  1 + 1 + OPTY_MAX_TOKEN + 2 + OPTY_MAX_GRACEFUL_INPUT.

Inductive opty_msg_type :=
| OPTY_MSG_HELLO | OPTY_MSG_RECONNECT | OPTY_MSG_WELCOME | OPTY_MSG_STDIN
| OPTY_MSG_STDOUT | OPTY_MSG_RESIZE | OPTY_MSG_ACK | OPTY_MSG_REPLAY
| OPTY_MSG_ERROR | OPTY_MSG_CONTROL_SHUTDOWN.

#[export] Instance opty_msg_type_eq_decision : EqDecision opty_msg_type.
Proof. solve_decision. Defined.

Definition msg_code (t : opty_msg_type) : Z :=
  match t with
  | OPTY_MSG_HELLO => 1
  | OPTY_MSG_RECONNECT => 2
  | OPTY_MSG_WELCOME => 3
  | OPTY_MSG_STDIN => 4
  | OPTY_MSG_STDOUT => 5
  | OPTY_MSG_RESIZE => 6
  | OPTY_MSG_ACK => 7
  | OPTY_MSG_REPLAY => 8
  | OPTY_MSG_ERROR => 9
  | OPTY_MSG_CONTROL_SHUTDOWN => 10
  end.

(** [struct opty_frame]: [payload] is the heap block ([NULL] is the empty one). *)
Record opty_frame := Frame { f_type : Z; f_len : Z; f_payload : bytes }.

Definition frame_zero : opty_frame := Frame 0 0 [].

(** The frames [opty_recv_frame_limited] hands out: the length field is the
    size of the block. *)
Definition frame_ok (f : opty_frame) : Prop :=
  f_len f = blen (f_payload f) /\ 0 <= f_type f < 256.

(** [opty_frame_free]. *)
Definition opty_frame_free (f : opty_frame) : opty_frame := Frame 0 0 [].

(** ** Endian helpers *)

Definition opty_get_u16 (p : bytes) : outcome Z :=
  match p with
  | p0 :: p1 :: _ => Done (u16 (Z.lor (Z.shiftl (b2z p0) 8) (b2z p1)))
  | _ => UB
  end.

Definition opty_get_u64 (p : bytes) : outcome Z :=
  match p with
  | p0 :: p1 :: p2 :: p3 :: p4 :: p5 :: p6 :: p7 :: _ =>
      Done (Z.lor (Z.lor (Z.lor (Z.lor (Z.lor (Z.lor (Z.lor
              (Z.shiftl (b2z p0) 56)
              (Z.shiftl (b2z p1) 48))
              (Z.shiftl (b2z p2) 40))
              (Z.shiftl (b2z p3) 32))
              (Z.shiftl (b2z p4) 24))
              (Z.shiftl (b2z p5) 16))
              (Z.shiftl (b2z p6) 8))
              (b2z p7))
  | _ => UB
  end.

Definition opty_put_u16 (v : Z) : bytes :=
  [z2b (Z.land (Z.shiftr v 8) 255); z2b (Z.land v 255)].

Definition opty_put_u64 (v : Z) : bytes :=
  [z2b (Z.land (Z.shiftr v 56) 255); z2b (Z.land (Z.shiftr v 48) 255);
   z2b (Z.land (Z.shiftr v 40) 255); z2b (Z.land (Z.shiftr v 32) 255);
   z2b (Z.land (Z.shiftr v 24) 255); z2b (Z.land (Z.shiftr v 16) 255);
   z2b (Z.land (Z.shiftr v 8) 255); z2b (Z.land v 255)].

(** The length prefix, as [opty_send_frame] writes and
    [opty_recv_frame_limited] reads it. *)
Definition put_wire_len (wire_len : Z) : bytes :=
  [z2b (Z.land (Z.shiftr wire_len 24) 255); z2b (Z.land (Z.shiftr wire_len 16) 255);
   z2b (Z.land (Z.shiftr wire_len 8) 255); z2b (Z.land wire_len 255)].

Definition get_wire_len (p : bytes) : outcome Z :=
  match p with
  | [p0; p1; p2; p3] =>
      Done (Z.lor (Z.lor (Z.lor (Z.shiftl (b2z p0) 24) (Z.shiftl (b2z p1) 16))
              (Z.shiftl (b2z p2) 8)) (b2z p3))
  | _ => UB
  end.

(** ** Frames *)

Definition opty_send_frame (type : Z) (payload : option bytes) (len : Z) : io unit :=
  if OPTY_MAX_FRAME - 1 <? len then io_fail EMSGSIZE
  else if (0 <? len) && bool_decide (payload = None) then io_fail EINVAL
  else
    let wire_len := u32 (len + 1) in
    let head := [put_wire_len wire_len; [z2b type]] in
    iov ← io_lift (if 0 <? len
                   then match payload with
                        | Some p => d ← sub p 0 len; Done (head ++ [d])
                        | None => UB
                        end
                   else Done head);
    _ ← opty_writev_full iov;
    mret tt.

(** Return values of the receive functions: 0 with a frame, 1 at end-of-file;
    -1 is the [Fail] outcome, which leaves the zero frame. *)
Inductive recv_status :=
| RecvFrame (f : opty_frame)
| RecvEof.

Section Recv.

(** Whether [malloc] of that many bytes succeeds. *)
Variable malloc_ok : Z -> bool.

(** What follows the length prefix: the type byte and [payload_len] bytes. *)
Definition recv_body (payload_len : Z) : io recv_status := fun s =>
  match opty_read_full 1 s with
  | (Done [type], s2) =>
      if 0 <? payload_len then
        if malloc_ok payload_len then
          match opty_read_full payload_len s2 with
          | (Done bs, s3) =>
              (if blen bs =? payload_len
               then Done (RecvFrame (Frame (b2z type) payload_len bs))
               else Fail ECONNRESET, s3)
          | (Fail _, s3) => (Fail ECONNRESET, s3)
          | (UB, s3) => (UB, s3)
          end
        else (Fail ENOMEM, s2)
      else (Done (RecvFrame (Frame (b2z type) payload_len [])), s2)
  | (Done _, s2) | (Fail _, s2) => (Fail ECONNRESET, s2)
  | (UB, s2) => (UB, s2)
  end.

Definition opty_recv_frame_limited (max_payload_len : Z) : io recv_status := fun s =>
  let payload_cap :=
    if OPTY_MAX_FRAME - 1 <? max_payload_len then OPTY_MAX_FRAME - 1 else max_payload_len in
  match opty_read_full 4 s with
  | (Done [], s1) => (Done RecvEof, s1)
  | (Done prefix, s1) =>
      match get_wire_len prefix with
      | Done wire_len =>
          if (wire_len <? 1) || (OPTY_MAX_FRAME <? wire_len) || (payload_cap <? wire_len - 1)
          then (Fail EMSGSIZE, s1)
          else recv_body (wire_len - 1) s1
      | Fail e => (Fail e, s1)
      | UB => (UB, s1)
      end
  | (Fail e, s1) => (Fail e, s1)
  | (UB, s1) => (UB, s1)
  end.

Definition opty_recv_frame : io recv_status :=
  opty_recv_frame_limited (OPTY_MAX_FRAME - 1).

End Recv.

(** The bytes of one frame on the wire. *)
Definition encode_frame (type : Z) (payload : bytes) : bytes :=
  put_wire_len (u32 (blen payload + 1)) ++ z2b type :: payload.

(** ** Endian lemmas *)

Lemma lor_disjoint (x y k : Z) :
  0 <= k -> x mod 2 ^ k = 0 -> 0 <= y < 2 ^ k -> Z.lor x y = x + y.
Proof.
  intros Hk Hx Hy. rewrite Z.add_nocarry_lxor, Z.lxor_lor; [done|..];
    (apply Z.bits_inj'; intros i Hi; rewrite Z.land_spec, Z.bits_0;
     destruct (Z.lt_ge_cases i k) as [Hlt|Hge];
     [ rewrite <- (Z.mod_pow2_bits_low x k i) by lia; rewrite Hx, Z.bits_0; done
     | rewrite <- (Z.mod_small y (2 ^ k)) by lia;
       rewrite Z.mod_pow2_bits_high by lia; apply andb_false_r ]).
Qed.

Lemma land_255 (z : Z) : Z.land z 255 = z mod 256.
Proof. change 255 with (Z.ones 8). by rewrite Z.land_ones by lia. Qed.

Lemma b2z_byte_of (v k : Z) :
  0 <= k -> b2z (z2b (Z.land (Z.shiftr v k) 255)) = (v / 2 ^ k) mod 256.
Proof.
  intros. rewrite b2z_z2b, land_255, Z.shiftr_div_pow2 by done.
  apply Z.mod_mod. lia.
Qed.

Lemma b2z_byte_of_0 (v : Z) : b2z (z2b (Z.land v 255)) = v mod 256.
Proof. rewrite b2z_z2b, land_255. apply Z.mod_mod. lia. Qed.

Ltac byte_ranges :=
  repeat match goal with
  | b : byte |- _ =>
      lazymatch goal with
      | _ : 0 <= b2z b < 256 |- _ => fail
      | _ => pose proof (b2z_range b)
      end
  end.

Lemma get_u16_val (p0 p1 : byte) (rest : bytes) :
  opty_get_u16 (p0 :: p1 :: rest) = Done (b2z p0 * 256 + b2z p1).
Proof.
  simpl. byte_ranges. rewrite Z.shiftl_mul_pow2 by lia.
  rewrite (lor_disjoint _ _ 8) by div_lia. unfold u16. rewrite Z.mod_small; [done|lia].
Qed.

Lemma get_u64_val (p0 p1 p2 p3 p4 p5 p6 p7 : byte) (rest : bytes) :
  opty_get_u64 (p0 :: p1 :: p2 :: p3 :: p4 :: p5 :: p6 :: p7 :: rest) =
  Done (b2z p0 * 2 ^ 56 + b2z p1 * 2 ^ 48 + b2z p2 * 2 ^ 40 + b2z p3 * 2 ^ 32 +
        b2z p4 * 2 ^ 24 + b2z p5 * 2 ^ 16 + b2z p6 * 2 ^ 8 + b2z p7).
Proof.
  simpl. byte_ranges. rewrite !Z.shiftl_mul_pow2 by lia.
  rewrite (lor_disjoint (b2z p0 * _) _ 56) by div_lia.
  rewrite (lor_disjoint _ (b2z p2 * _) 48) by div_lia.
  rewrite (lor_disjoint _ (b2z p3 * _) 40) by div_lia.
  rewrite (lor_disjoint _ (b2z p4 * _) 32) by div_lia.
  rewrite (lor_disjoint _ (b2z p5 * _) 24) by div_lia.
  rewrite (lor_disjoint _ (b2z p6 * _) 16) by div_lia.
  rewrite (lor_disjoint _ (b2z p7) 8) by div_lia.
  done.
Qed.

Lemma get_wire_len_val (p0 p1 p2 p3 : byte) :
  get_wire_len [p0; p1; p2; p3] =
  Done (b2z p0 * 2 ^ 24 + b2z p1 * 2 ^ 16 + b2z p2 * 2 ^ 8 + b2z p3).
Proof.
  simpl. byte_ranges. rewrite !Z.shiftl_mul_pow2 by lia.
  rewrite (lor_disjoint (b2z p0 * _) _ 24) by div_lia.
  rewrite (lor_disjoint _ (b2z p2 * _) 16) by div_lia.
  rewrite (lor_disjoint _ (b2z p3) 8) by div_lia.
  done.
Qed.

Ltac byte_vals := rewrite ?b2z_byte_of by lia; rewrite ?b2z_byte_of_0.

Lemma get_put_u16 (v : Z) (rest : bytes) :
  0 <= v < 2 ^ 16 -> opty_get_u16 (opty_put_u16 v ++ rest) = Done v.
Proof.
  intros. unfold opty_put_u16. rewrite <- app_comm_cons, <- app_comm_cons, get_u16_val.
  byte_vals. f_equal. div_lia.
Qed.

Lemma get_put_u64 (v : Z) (rest : bytes) :
  0 <= v < 2 ^ 64 -> opty_get_u64 (opty_put_u64 v ++ rest) = Done v.
Proof.
  intros. unfold opty_put_u64. rewrite <- !app_comm_cons, get_u64_val.
  byte_vals. f_equal. div_lia.
Qed.

Lemma get_put_wire_len (v : Z) :
  0 <= v < 2 ^ 32 -> get_wire_len (put_wire_len v) = Done v.
Proof.
  intros. unfold put_wire_len. rewrite get_wire_len_val.
  byte_vals. f_equal. div_lia.
Qed.

(** The converse: what was read is what would be written. *)
Lemma put_get_u16 (p rest : bytes) (v : Z) :
  length p = 2%nat -> opty_get_u16 (p ++ rest) = Done v ->
  opty_put_u16 v = p /\ 0 <= v < 2 ^ 16.
Proof.
  destruct p as [|p0 [|p1 [|]]]; intros; simplify_eq.
  rewrite <- !app_comm_cons, get_u16_val in *. simplify_eq. byte_ranges.
  split; [|lia]. unfold opty_put_u16.
  repeat f_equal; apply b2z_inj; byte_vals; div_lia.
Qed.

Lemma put_get_u64 (p rest : bytes) (v : Z) :
  length p = 8%nat -> opty_get_u64 (p ++ rest) = Done v ->
  opty_put_u64 v = p /\ 0 <= v < 2 ^ 64.
Proof.
  destruct p as [|p0 [|p1 [|p2 [|p3 [|p4 [|p5 [|p6 [|p7 [|]]]]]]]]]; intros; simplify_eq.
  rewrite <- !app_comm_cons, get_u64_val in *. simplify_eq. byte_ranges.
  split; [|lia]. unfold opty_put_u64.
  repeat f_equal; apply b2z_inj; byte_vals; div_lia.
Qed.

Lemma put_u16_length (v : Z) : blen (opty_put_u16 v) = 2.
Proof. done. Qed.

Lemma put_u64_length (v : Z) : blen (opty_put_u64 v) = 8.
Proof. done. Qed.

Lemma put_wire_len_length (v : Z) : blen (put_wire_len v) = 4.
Proof. done. Qed.

#[export] Hint Rewrite put_u16_length put_u64_length put_wire_len_length : bytes_rw.

(** ** Sending *)

Definition send_post (w : bytes) (s s' : stream) (r : outcome unit) : Prop :=
  match r with
  | Done _ => wrote s s' w
  | Fail _ => exists k, (k < length w)%nat /\ wrote s s' (take k w)
  | UB => False
  end /\ (healthy s -> r = Done tt /\ healthy s').

Lemma opty_send_frame_spec (t : Z) (p : bytes) (s s' : stream) r :
  blen p <= OPTY_MAX_FRAME - 1 ->
  opty_send_frame t (Some p) (blen p) s = (r, s') ->
  send_post (encode_frame t p) s s' r.
Proof.
  intros Hp H. unfold opty_send_frame in H.
  destruct (Z.ltb_spec (OPTY_MAX_FRAME - 1) (blen p)); [lia|].
  rewrite bool_decide_false, andb_false_r in H by done.
  set (w := u32 (blen p + 1)) in H.
  pose (iov := if 0 <? blen p then [put_wire_len w; [z2b t]; p] else [put_wire_len w; [z2b t]]).
  assert ((d ← (if 0 <? blen p then d ← sub p 0 (blen p); Done ([put_wire_len w; [z2b t]] ++ [d])
           else Done [put_wire_len w; [z2b t]]); Done d) = Done iov) as Hiov.
  { unfold iov. destruct (Z.ltb_spec 0 (blen p)); [|done].
    rewrite sub_ok by lia. simpl. unfold blen. by rewrite Nat2Z.id, firstn_all. }
  assert (concat iov = encode_frame t p) as Hc.
  { unfold iov, encode_frame. destruct (Z.ltb_spec 0 (blen p)); simpl.
    - by rewrite app_nil_r.
    - destruct p; [done|]. unfold blen in *. simpl in *. lia. }
  assert (length iov <= 3)%nat by (unfold iov; case_match; simpl; lia).
  assert (mbind (M := io) (fun iov => _ ← opty_writev_full iov; mret tt)
            (io_lift (Done iov)) s = (r, s')) as H'.
  { rewrite <- H. unfold io_lift, mbind, io_bind.
    destruct (if 0 <? blen p then _ else _) eqn:E; unfold mbind, outcome_bind in Hiov;
      rewrite ?E in Hiov; simplify_eq; done. }
  unfold io_lift, mbind, io_bind in H'.
  destruct (opty_writev_full iov s) as [r1 s1] eqn:Hw.
  apply opty_writev_full_spec in Hw as [Hpost Hh]; [|done|by rewrite Hc].
  rewrite Hc in Hpost. split.
  - destruct r1 as [n|e|]; [|..|done]; unfold mret, io_ret in H'; simplify_eq; [by destruct Hpost|done].
  - intros Hs. destruct (Hh Hs) as [[n ->] ?]. unfold mret, io_ret in H'. by simplify_eq.
Qed.

Lemma opty_send_frame_too_big (t : Z) (p : option bytes) (len : Z) (s : stream) :
  OPTY_MAX_FRAME - 1 < len -> opty_send_frame t p len s = (Fail EMSGSIZE, s).
Proof.
  intros. unfold opty_send_frame. by destruct (Z.ltb_spec (OPTY_MAX_FRAME - 1) len); [|lia].
Qed.

Lemma encode_frame_length (t : Z) (p : bytes) : blen (encode_frame t p) = 5 + blen p.
Proof. unfold encode_frame. rewrite blen_app, put_wire_len_length. blen_lia. Qed.

(** ** Receiving *)

Lemma get_wire_len_4 (p : bytes) :
  blen p = 4 -> exists w, get_wire_len p = Done w /\ 0 <= w < 2 ^ 32.
Proof.
  unfold blen. destruct p as [|p0 [|p1 [|p2 [|p3 [|]]]]]; simpl length; try lia. intros _.
  rewrite get_wire_len_val. byte_ranges. eexists. split; [done|lia].
Qed.

Section RecvFacts.

Context (malloc_ok : Z -> bool).

Lemma recv_body_spec (n : Z) (s s' : stream) r :
  0 <= n -> recv_body malloc_ok n s = (r, s') ->
  only_read s s' /\
  match r with
  | Done (RecvFrame f) => frame_ok f /\ f_len f = n
  | Done RecvEof | UB => False
  | Fail _ => True
  end.
Proof.
  unfold recv_body. intros Hn H.
  destruct (opty_read_full 1 s) as [r1 s1] eqn:H1.
  apply opty_read_full_spec in H1 as [Ho1 H1]; [|lia].
  destruct r1 as [[|t [|]]| |]; simplify_eq; try done.
  destruct (Z.ltb_spec 0 n) as [Hpos|Hz].
  - destruct (malloc_ok n); simplify_eq; [|done].
    destruct (opty_read_full n s1) as [r2 s2] eqn:H2.
    apply opty_read_full_spec in H2 as [Ho2 H2]; [|lia].
    pose proof (only_read_trans _ _ _ Ho1 Ho2).
    destruct r2 as [bs| |]; simplify_eq; try done.
    destruct (Z.eqb_spec (blen bs) n); [|done].
    split; [done|]. split; [|done]. split; simpl; [lia|apply b2z_range].
  - simplify_eq. split; [done|]. split; [|simpl; lia]. split; [simpl; blen_lia|apply b2z_range].
Qed.

Lemma opty_recv_frame_limited_spec (cap : Z) (s s' : stream) r :
  opty_recv_frame_limited malloc_ok cap s = (r, s') ->
  only_read s s' /\
  match r with
  | Done (RecvFrame f) => frame_ok f /\ f_len f <= cap /\ f_len f <= OPTY_MAX_FRAME - 1
  | UB => False
  | _ => True
  end.
Proof.
  unfold opty_recv_frame_limited. intros H.
  destruct (opty_read_full 4 s) as [r1 s1] eqn:H1.
  apply opty_read_full_spec in H1 as [Ho1 H1]; [|lia].
  destruct r1 as [[|b bs]|e|]; simplify_eq; try done.
  destruct H1 as [H4|]; [|done].
  destruct (get_wire_len_4 _ H4) as (w&Hw&Hr). rewrite Hw in H.
  destruct (_ || _) eqn:Hc; simplify_eq; [done|].
  apply orb_false_elim in Hc as [[H0 Hm]%orb_false_elim Hcap].
  apply recv_body_spec in H as [Ho2 H]; [|lia].
  split; [by eapply only_read_trans|].
  destruct r as [[f|]| |]; [|done..]. destruct H as [? Hf]. split; [done|].
  destruct (Z.ltb_spec (OPTY_MAX_FRAME - 1) cap); lia.
Qed.

(** Receiving, over any fragmentation, a stream that starts with a frame. *)
Lemma recv_body_encode (t : Z) (p rest : bytes) (s : stream) :
  0 <= t < 256 -> malloc_ok (blen p) = true ->
  content (inq s) = z2b t :: p ++ rest -> Forall benign_rd (inq s) ->
  exists s', recv_body malloc_ok (blen p) s = (Done (RecvFrame (Frame t (blen p) p)), s') /\
    only_read s s' /\ Forall benign_rd (inq s') /\ content (inq s') = rest.
Proof.
  intros Ht Hm Hc Hb. unfold recv_body.
  destruct (opty_read_full_benign 1 s) as (s1&->&Ho1&Hb1&Hc1); [|done|].
  { rewrite Hc. pose proof (blen_nonneg (p ++ rest)). blen_lia. }
  rewrite Hc in *. change (Z.to_nat 1) with 1%nat in *. simpl in Hc1 |- *.
  rewrite drop_0 in Hc1. rewrite b2z_z2b_small by done.
  destruct (Z.ltb_spec 0 (blen p)) as [Hpos|Hz].
  2:{ destruct p as [|b p]; [|unfold blen in Hz; simpl in Hz; lia].
      exists s1. split_and!; auto. }
  rewrite Hm.
  destruct (opty_read_full_benign (blen p) s1) as (s2&->&Ho2&Hb2&Hc2); [|done|].
  { rewrite Hc1, blen_app. pose proof (blen_nonneg rest). lia. }
  rewrite Hc1 in *. unfold blen in *. rewrite Nat2Z.id in *.
  rewrite take_app_length, drop_app_length in *. rewrite Z.eqb_refl.
  exists s2. split_and!; auto. by eapply only_read_trans.
Qed.

Lemma opty_recv_frame_limited_encode (cap t : Z) (p rest : bytes) (s : stream) :
  0 <= t < 256 -> malloc_ok (blen p) = true ->
  blen p <= cap -> blen p <= OPTY_MAX_FRAME - 1 ->
  content (inq s) = encode_frame t p ++ rest -> Forall benign_rd (inq s) ->
  exists s',
    opty_recv_frame_limited malloc_ok cap s = (Done (RecvFrame (Frame t (blen p) p)), s') /\
    only_read s s' /\ Forall benign_rd (inq s') /\ content (inq s') = rest.
Proof.
  intros Ht Hm Hcap Hmax Hc Hb. unfold opty_recv_frame_limited.
  unfold encode_frame in Hc. pose proof (blen_nonneg p) as Hp.
  assert (u32 (blen p + 1) = blen p + 1) as Hu
    by (apply Z.mod_small; unfold OPTY_MAX_FRAME in *; lia).
  rewrite Hu in Hc.
  destruct (opty_read_full_benign 4 s) as (s1&->&Ho1&Hb1&Hc1); [|done|].
  { rewrite Hc, !blen_app, put_wire_len_length. pose proof (blen_nonneg rest). blen_lia. }
  rewrite Hc in *. change (Z.to_nat 4) with (length (put_wire_len (blen p + 1))) in *.
  rewrite <- app_assoc, take_app_length, drop_app_length in *.
  rewrite get_put_wire_len by (unfold OPTY_MAX_FRAME in *; lia).
  assert (((blen p + 1 <? 1) || (OPTY_MAX_FRAME <? blen p + 1)
    || ((if OPTY_MAX_FRAME - 1 <? cap then OPTY_MAX_FRAME - 1 else cap) <? blen p + 1 - 1)) = false) as ->.
  { apply orb_false_intro; [apply orb_false_intro|].
    - lia.
    - lia.
    - destruct (Z.ltb_spec (OPTY_MAX_FRAME - 1) cap); lia. }
  replace (blen p + 1 - 1) with (blen p) by lia.
  destruct (recv_body_encode t p rest s1) as (s2&->&Ho2&?&?); auto.
  exists s2. split_and!; auto. by eapply only_read_trans.
Qed.

End RecvFacts.

(** The payload part of a frame cut short. *)
Lemma recv_body_truncated (malloc_ok : Z -> bool) (t : Z) (p : bytes) (k : nat) (s s' : stream) r :
  malloc_ok (blen p) = true -> Forall benign_rd (inq s) ->
  content (inq s) = take k (z2b t :: p) -> (k < S (length p))%nat ->
  recv_body malloc_ok (blen p) s = (r, s') -> r = Fail ECONNRESET.
Proof.
  intros Hm Hb Hc Hk. unfold recv_body. destruct k as [|k].
  { destruct (opty_read_full_short 1 s) as (s1&->&_); [by rewrite Hc|done|].
    rewrite Hc. simpl. by intros [= <- <-]. }
  assert (blen (content (inq s)) = Z.of_nat (S k)) as Hlen
    by (rewrite Hc; unfold blen; rewrite length_take; simpl; lia).
  destruct (opty_read_full_benign 1 s) as (s1&->&_&Hb1&Hc1); [lia|done|].
  rewrite Hc in *. change (Z.to_nat 1) with 1%nat in *. simpl in Hc1 |- *.
  rewrite drop_0 in Hc1.
  destruct (Z.ltb_spec 0 (blen p)) as [Hpos|Hz]; [|unfold blen in Hz; lia].
  rewrite Hm. destruct (opty_read_full_short (blen p) s1) as (s2&->&_).
  { rewrite Hc1. unfold blen. rewrite length_take. lia. }
  { done. }
  case_bool_decide; [|by intros [= <- <-]].
  destruct (Z.eqb_spec (blen []) (blen p)); [unfold blen in *; simpl in *; lia|].
  by intros [= <- <-].
Qed.

(** ** Properties *)

(** A healthy stream holding nothing, for the examples. *)
Definition empty_stream : stream := Stream [] [] [] false.

(** Whatever the kernel does, [opty_send_frame] of a payload within the
    limit either reports success and has put exactly one whole frame on the
    wire, or reports an error after a proper prefix of it; a kernel that only
    fragments and interrupts never makes it fail. *)
Theorem send_frame_whole_or_prefix (t : Z) (p : bytes) (s s' : stream) r :
  blen p <= OPTY_MAX_FRAME - 1 ->
  opty_send_frame t (Some p) (blen p) s = (r, s') ->
  match r with
  | Done _ => out s' = out s ++ encode_frame t p
  | Fail _ => exists k, (k < length (encode_frame t p))%nat /\
                        out s' = out s ++ take k (encode_frame t p)
  | UB => False
  end /\ (healthy s -> r = Done tt).
Proof.
  intros Hp [Hpost Hh]%opty_send_frame_spec; [|done]. split; [|intros Hs; by apply Hh].
  destruct r; [|..|done].
  - by destruct Hpost.
  - destruct Hpost as (k&?&?&_). eauto.
Qed.

Lemma send_frame_whole_or_prefix_witness :
  let s := Stream [] [WAccept 3; WErr EINTR; WAccept 1; WErr EIO] [] false in
  let '(r, s') := opty_send_frame 4 (Some (cstr "hi")) 2 s in
  match r with
  | Done _ => out s' = out s ++ encode_frame 4 (cstr "hi")
  | Fail _ => exists k, (k < length (encode_frame 4 (cstr "hi")))%nat /\
                        out s' = out s ++ take k (encode_frame 4 (cstr "hi"))
  | UB => False
  end /\ (healthy s -> r = Done tt).
Proof.
  intros s. destruct (opty_send_frame 4 (Some (cstr "hi")) 2 s) as [r s'] eqn:E.
  apply (send_frame_whole_or_prefix 4 (cstr "hi") s s' r); [by vm_compute|exact E].
Defined.

(** A length prefix of 0, above the frame limit or above the caller's
    limit is refused with EMSGSIZE after reading the 4 prefix bytes only: no
    allocation, and everything behind the prefix is left unread. *)
Theorem recv_oversize_refused (malloc_ok : Z -> bool) (cap w : Z) (rest : bytes) (s : stream) :
  0 <= w < 2 ^ 32 -> w = 0 \/ OPTY_MAX_FRAME < w \/ cap < w - 1 ->
  Forall benign_rd (inq s) -> content (inq s) = put_wire_len w ++ rest ->
  exists s', opty_recv_frame_limited malloc_ok cap s = (Fail EMSGSIZE, s') /\
    content (inq s') = rest.
Proof.
  intros Hw Hbad Hb Hc. unfold opty_recv_frame_limited.
  destruct (opty_read_full_benign 4 s) as (s1&->&_&_&Hc1); [|done|].
  { rewrite Hc, blen_app, put_wire_len_length. pose proof (blen_nonneg rest). lia. }
  rewrite Hc in *. change (Z.to_nat 4) with (length (put_wire_len w)) in *.
  rewrite take_app_length, drop_app_length in *. rewrite get_put_wire_len by done.
  set (pc := if OPTY_MAX_FRAME - 1 <? cap then OPTY_MAX_FRAME - 1 else cap).
  assert (pc <= cap) by (unfold pc; destruct (Z.ltb_spec (OPTY_MAX_FRAME - 1) cap); lia).
  assert ((w <? 1) || (OPTY_MAX_FRAME <? w) || (pc <? w - 1) = true) as ->.
  { destruct Hbad as [?|[?|?]].
    - by assert ((w <? 1) = true) as -> by lia.
    - assert ((OPTY_MAX_FRAME <? w) = true) as -> by lia. by rewrite orb_true_r.
    - assert ((pc <? w - 1) = true) as -> by lia. by rewrite orb_true_r. }
  exists s1. split; [done|done].
Qed.

Lemma recv_oversize_refused_witness :
  let s := Stream [RData (put_wire_len 6 ++ cstr "xoptyx")] [] [] false in
  exists s', opty_recv_frame_limited (fun _ => true) 4 s = (Fail EMSGSIZE, s') /\
    content (inq s') = cstr "xoptyx".
Proof.
  intros s. apply (recv_oversize_refused (fun _ => true) 4 6 (cstr "xoptyx") s);
    [lia|right; right; lia|repeat constructor; done|done].
Defined.

(** Every frame the receiver returns is within the caller's limit and the
    protocol's, its length field is the size of its payload block, and
    receiving writes nothing; on no script does it go wrong. *)
Theorem recv_frame_bounds (malloc_ok : Z -> bool) (cap : Z) (s : stream) :
  let '(r, s') := opty_recv_frame_limited malloc_ok cap s in
  out s' = out s /\ safe r /\
  forall f, r = Done (RecvFrame f) ->
    frame_ok f /\ f_len f <= cap /\ f_len f <= OPTY_MAX_FRAME - 1.
Proof.
  destruct (opty_recv_frame_limited malloc_ok cap s) as [r s'] eqn:E.
  apply opty_recv_frame_limited_spec in E as [Ho H]. split; [by destruct Ho|].
  split; [by intros ->|]. intros f ->. done.
Qed.

(** A peer that closes inside a frame never makes a frame: the receiver
    reports end-of-file before the first byte and ECONNRESET after it. *)
Theorem recv_truncated (malloc_ok : Z -> bool) (cap t : Z) (p : bytes) (k : nat) (s : stream) :
  malloc_ok (blen p) = true -> blen p <= cap -> blen p <= OPTY_MAX_FRAME - 1 ->
  (k < length (encode_frame t p))%nat ->
  Forall benign_rd (inq s) -> content (inq s) = take k (encode_frame t p) ->
  exists s', opty_recv_frame_limited malloc_ok cap s =
    (if (k =? 0)%nat then Done RecvEof else Fail ECONNRESET, s').
Proof.
  intros Hm Hcap Hmax Hk Hb Hc. pose proof (blen_nonneg p).
  unfold opty_recv_frame_limited.
  assert (blen (content (inq s)) = Z.of_nat k) as Hlen
    by (rewrite Hc; unfold blen; rewrite length_take; lia).
  destruct (decide (k < 4)%nat) as [Hshort|Hlong].
  { destruct (opty_read_full_short 4 s) as (s1&->&_); [lia|done|]. exists s1.
    destruct k as [|k]; rewrite Hc; [done|]. by rewrite bool_decide_false. }
  destruct (opty_read_full_benign 4 s) as (s1&->&_&Hb1&Hc1); [lia|done|].
  rewrite Hc in *. change (Z.to_nat 4) with (length (put_wire_len (u32 (blen p + 1)))) in *.
  unfold encode_frame in *. rewrite take_app_ge in * by (simpl; lia).
  rewrite take_app_length, drop_app_length in *. change (length (put_wire_len _)) with 4%nat in *.
  assert (u32 (blen p + 1) = blen p + 1) as Hu
    by (apply Z.mod_small; unfold OPTY_MAX_FRAME in *; lia).
  rewrite Hu, get_put_wire_len by (unfold OPTY_MAX_FRAME in *; lia).
  destruct k as [|[|[|[|k]]]]; try lia. clear Hlong. simpl in Hc1. rewrite Nat.sub_0_r in Hc1.
  set (pc := if OPTY_MAX_FRAME - 1 <? cap then OPTY_MAX_FRAME - 1 else cap).
  assert (blen p <= pc) by (unfold pc; destruct (Z.ltb_spec (OPTY_MAX_FRAME - 1) cap); lia).
  destruct (Z.ltb_spec (blen p + 1) 1); [lia|].
  destruct (Z.ltb_spec OPTY_MAX_FRAME (blen p + 1)); [lia|].
  destruct (Z.ltb_spec pc (blen p + 1 - 1)); [lia|]. simpl.
  replace (blen p + 1 - 1) with (blen p) by lia.
  destruct (recv_body malloc_ok (blen p) s1) as [r s2] eqn:Hbody. exists s2. f_equal.
  rewrite length_app, Hu in Hk. simpl in Hk.
  by apply (recv_body_truncated malloc_ok t p k s1 s2 r) in Hbody; [subst|..|lia].
Qed.

Lemma recv_truncated_witness :
  let s := Stream [RData (take 7 (encode_frame 5 (cstr "0123")))] [] [] false in
  exists s', opty_recv_frame_limited (fun _ => true) 100 s = (Fail ECONNRESET, s').
Proof.
  intros s.
  apply (recv_truncated (fun _ => true) 100 5 (cstr "0123") 7 s);
    [done|by vm_compute|by vm_compute|by vm_compute; lia|by apply Forall_singleton|done].
Defined.
