(* ===== verification/Messages.v ===== *)
(** * The messages: every [opty_send_*] and [opty_parse_*] of protocol.c

    Strings are their bytes without the NUL; a nullable [const char *] or data
    pointer is an [option].  A parser's out-parameters are its result, and the
    [(token, token_cap)] pair is a buffer of [token_cap] bytes that the parser
    returns updated. *)

From S2P Require Import Prelude.
From S2P Require Import Io.
From S2P Require Import Wire.

(** ** Sending *)

Definition opty_token_payload (token : option bytes) : outcome bytes :=
  match token with
  | Some t => if OPTY_MAX_TOKEN <? blen t then Fail EMSGSIZE else Done t
  | None => Done []
  end.

Definition intro_payload (last_seq cols rows : Z) (tok : bytes) (with_seq : bool) : bytes :=
  [z2b OPTY_VERSION] ++ (if with_seq then opty_put_u64 last_seq else []) ++
  opty_put_u16 cols ++ opty_put_u16 rows ++ [z2b (blen tok)] ++ tok.

Definition opty_send_tokenized_intro (type last_seq cols rows : Z) (token : option bytes)
    (with_seq : bool) : io unit :=
  tok ← io_lift (opty_token_payload token);
  let payload := intro_payload last_seq cols rows tok with_seq in
  opty_send_frame type (Some payload) (blen payload).

Definition opty_send_hello (cols rows : Z) (token : option bytes) : io unit :=
  opty_send_tokenized_intro (msg_code OPTY_MSG_HELLO) 0 cols rows token false.

Definition opty_send_reconnect (last_seq cols rows : Z) (token : option bytes) : io unit :=
  opty_send_tokenized_intro (msg_code OPTY_MSG_RECONNECT) last_seq cols rows token true.

Definition opty_send_resize (cols rows : Z) : io unit :=
  let payload := opty_put_u16 cols ++ opty_put_u16 rows in
  opty_send_frame (msg_code OPTY_MSG_RESIZE) (Some payload) (blen payload).

Definition opty_send_ack (seq : Z) : io unit :=
  let payload := opty_put_u64 seq in
  opty_send_frame (msg_code OPTY_MSG_ACK) (Some payload) (blen payload).

Definition opty_send_stdin (data : option bytes) (len : Z) : io unit :=
  opty_send_frame (msg_code OPTY_MSG_STDIN) data len.

Section SendStream.

Variable malloc_ok : Z -> bool.

Definition opty_send_stream_frame (type seq : Z) (data : option bytes) (len : Z) : io unit :=
  if (0 <? len) && bool_decide (data = None) then io_fail EINVAL
  else if SIZE_MAX - 8 <? len then io_fail EMSGSIZE
  else if negb (malloc_ok (8 + len)) then io_fail ENOMEM
  else
    body ← io_lift (if 0 <? len
                    then match data with Some d => sub d 0 len | None => UB end
                    else Done []);
    opty_send_frame type (Some (opty_put_u64 seq ++ body)) (8 + len).

Definition opty_send_stdout (seq : Z) (data : option bytes) (len : Z) : io unit :=
  opty_send_stream_frame (msg_code OPTY_MSG_STDOUT) seq data len.

Definition opty_send_replay (from_seq : Z) (data : option bytes) (len : Z) : io unit :=
  opty_send_stream_frame (msg_code OPTY_MSG_REPLAY) from_seq data len.

End SendStream.

Definition opty_send_welcome (base_seq next_seq : Z) : io unit :=
  let payload := opty_put_u64 base_seq ++ opty_put_u64 next_seq in
  opty_send_frame (msg_code OPTY_MSG_WELCOME) (Some payload) (blen payload).

Definition opty_send_error (message : option bytes) : io unit :=
  let len := match message with Some m => blen m | None => 0 end in
  if OPTY_MAX_FRAME - 1 <? len then io_fail EMSGSIZE
  else opty_send_frame (msg_code OPTY_MSG_ERROR) message len.

Definition control_payload (tok input : bytes) : bytes :=
  [z2b OPTY_VERSION] ++ [z2b (blen tok)] ++ tok ++
  opty_put_u16 (u16 (blen input)) ++ input.

Definition opty_send_control_shutdown (token : option bytes) (input : option bytes)
    (input_len : Z) : io unit :=
  if OPTY_MAX_GRACEFUL_INPUT <? input_len then io_fail EMSGSIZE
  else if (0 <? input_len) && bool_decide (input = None) then io_fail EINVAL
  else
    tok ← io_lift (opty_token_payload token);
    inp ← io_lift (if 0 <? input_len
                   then match input with Some d => sub d 0 input_len | None => UB end
                   else Done []);
    let payload := control_payload tok inp in
    opty_send_frame (msg_code OPTY_MSG_CONTROL_SHUTDOWN) (Some payload) (blen payload).

(** ** Parsing *)

(** [p[i]] and [p + off]; reading past the block is undefined. *)
Definition byte_at (p : bytes) (i : Z) : outcome byte :=
  match p !! Z.to_nat i with Some b => Done b | None => UB end.

Definition ptr (p : bytes) (off : Z) : bytes := drop (Z.to_nat off) p.

Record intro := Intro { i_seq : Z; i_cols : Z; i_rows : Z; i_token : bytes }.

Definition opty_parse_intro_payload (frame : opty_frame) (token : bytes) (has_seq : bool)
    : outcome intro :=
  let p := f_payload frame in
  let need := if has_seq then 14 else 6 in
  let token_cap := blen token in
  if f_len frame <? need then Fail EPROTO else
  version ← byte_at p 0;
  if negb (b2z version =? OPTY_VERSION) then Fail EPROTO else
  seq ← (if has_seq then opty_get_u64 (ptr p 1) else Done 0);
  let off := if has_seq then 9 else 1 in
  cols ← opty_get_u16 (ptr p off);
  rows ← opty_get_u16 (ptr p (off + 2));
  tl ← byte_at p (off + 4);
  let token_len := b2z tl in
  let off := off + 5 in
  if negb (f_len frame =? off + token_len) then Fail EPROTO
  else if token_cap <? token_len + 1 then
    if (token_cap =? 0) && (token_len =? 0) then Done (Intro seq cols rows token)
    else Fail ENOSPC
  else
    token ← (if 0 <? token_len then t ← sub p off token_len; blit token 0 t else Done token);
    token ← (if 0 <? token_cap then blit token token_len [Byte.x00] else Done token);
    Done (Intro seq cols rows token).

Definition opty_parse_client_intro (frame : opty_frame) (token : bytes) : outcome intro :=
  if f_type frame =? msg_code OPTY_MSG_HELLO then opty_parse_intro_payload frame token false
  else if f_type frame =? msg_code OPTY_MSG_RECONNECT then
    opty_parse_intro_payload frame token true
  else Fail EPROTO.

Definition opty_parse_resize (frame : opty_frame) : outcome (Z * Z) :=
  if negb (f_type frame =? msg_code OPTY_MSG_RESIZE) || negb (f_len frame =? 4)
  then Fail EPROTO
  else
    cols ← opty_get_u16 (f_payload frame);
    rows ← opty_get_u16 (ptr (f_payload frame) 2);
    Done (cols, rows).

Definition opty_parse_ack (frame : opty_frame) : outcome Z :=
  if negb (f_type frame =? msg_code OPTY_MSG_ACK) || negb (f_len frame =? 8)
  then Fail EPROTO
  else opty_get_u64 (f_payload frame).

(** [data] and [len] are the tail of the payload after the sequence number. *)
Definition opty_parse_stream (frame : opty_frame) : outcome (Z * bytes) :=
  if (negb (f_type frame =? msg_code OPTY_MSG_STDOUT) &&
      negb (f_type frame =? msg_code OPTY_MSG_REPLAY)) || (f_len frame <? 8)
  then Fail EPROTO
  else
    seq ← opty_get_u64 (f_payload frame);
    data ← sub (f_payload frame) 8 (f_len frame - 8);
    Done (seq, data).

Definition opty_parse_welcome (frame : opty_frame) : outcome (Z * Z) :=
  if negb (f_type frame =? msg_code OPTY_MSG_WELCOME) || negb (f_len frame =? 16)
  then Fail EPROTO
  else
    base_seq ← opty_get_u64 (f_payload frame);
    next_seq ← opty_get_u64 (ptr (f_payload frame) 8);
    Done (base_seq, next_seq).

(** The token buffer and the graceful input. *)
Definition opty_parse_control_shutdown (frame : opty_frame) (token : bytes)
    : outcome (bytes * bytes) :=
  let p := f_payload frame in
  let token_cap := blen token in
  if (token_cap =? 0) || negb (f_type frame =? msg_code OPTY_MSG_CONTROL_SHUTDOWN)
     || (f_len frame <? 4) then Fail EPROTO else
  version ← byte_at p 0;
  if negb (b2z version =? OPTY_VERSION) then Fail EPROTO else
  tl ← byte_at p 1;
  let token_len := b2z tl in
  let off := 2 in
  if (token_cap <? token_len + 1) || (f_len frame <? off + token_len + 2)
  then Fail EPROTO else
  token ← (if 0 <? token_len then t ← sub p off token_len; blit token 0 t else Done token);
  token ← blit token token_len [Byte.x00];
  let off := off + token_len in
  graceful_len ← opty_get_u16 (ptr p off);
  let off := off + 2 in
  if (OPTY_MAX_GRACEFUL_INPUT <? graceful_len) || negb (f_len frame =? off + graceful_len)
  then Fail EPROTO
  else
    input ← sub p off graceful_len;
    Done (token, input).

(** ** Sending lemmas *)

Lemma io_lift_bind {A B} (o : outcome A) (k : A -> io B) (a : A) (s : stream) :
  o = Done a -> (x ← io_lift o; k x) s = k a s.
Proof. by intros ->. Qed.

Lemma send_frame_healthy (t : Z) (p : bytes) (s : stream) :
  healthy s -> blen p <= OPTY_MAX_FRAME - 1 ->
  exists s', opty_send_frame t (Some p) (blen p) s = (Done tt, s') /\
    healthy s' /\ wrote s s' (encode_frame t p).
Proof.
  intros Hs Hp. destruct (opty_send_frame t (Some p) (blen p) s) as [r s'] eqn:H.
  apply opty_send_frame_spec in H as [Hpost Hh]; [|done].
  destruct (Hh Hs) as [-> ?]. eauto.
Qed.

(** ** Round trips

    [roundtrips send cap parse a]: on a healthy stream [send] succeeds; whatever
    the kernel does to the bytes on their way (fragmentation, interruptions,
    bytes of later frames right behind), a receiver with limit [cap] gets one
    frame, [parse] finds [a] in it, and the later bytes are untouched. *)

Section RoundTrip.

Context (malloc_ok : Z -> bool).

Definition roundtrips {A} (send : io unit) (cap : Z) (parse : opty_frame -> outcome A)
    (a : A) : Prop :=
  forall s, healthy s -> exists s' w,
    send s = (Done tt, s') /\ healthy s' /\ wrote s s' w /\
    forall rest rd, Forall benign_rd (inq rd) -> content (inq rd) = w ++ rest ->
    exists f rd', opty_recv_frame_limited malloc_ok cap rd = (Done (RecvFrame f), rd') /\
      Forall benign_rd (inq rd') /\ content (inq rd') = rest /\ parse f = Done a.

Lemma frame_roundtrips {A} (t cap : Z) (p : bytes) (parse : opty_frame -> outcome A)
    (a : A) (send : io unit) :
  (forall s, send s = opty_send_frame t (Some p) (blen p) s) ->
  0 <= t < 256 -> blen p <= cap -> blen p <= OPTY_MAX_FRAME - 1 ->
  malloc_ok (blen p) = true ->
  parse (Frame t (blen p) p) = Done a ->
  roundtrips send cap parse a.
Proof.
  intros Hsend Ht Hcap Hmax Hm Hparse s Hs.
  destruct (send_frame_healthy t p s Hs Hmax) as (s'&H&Hs'&Hw).
  exists s', (encode_frame t p). rewrite Hsend. split_and!; auto.
  intros rest rd Hb Hc.
  destruct (opty_recv_frame_limited_encode malloc_ok cap t p rest rd)
    as (rd'&?&_&?&?); auto.
  eauto 10.
Qed.

End RoundTrip.

(** ** The intro frames *)

Definition token_buf (tok buf : bytes) : bytes :=
  tok ++ [Byte.x00] ++ drop (S (length tok)) buf.

(** Storing a token and its terminator in a buffer with room for both. *)
Lemma store_token (tok buf : bytes) :
  blen tok < blen buf ->
  (t ← blit buf 0 tok; blit t (blen tok) [Byte.x00]) = Done (token_buf tok buf).
Proof.
  intros H. rewrite blit_ok by lia. simpl. rewrite blit_ok by blen_lia.
  unfold token_buf, blen in *. rewrite Nat2Z.id, take_app_length. simpl.
  f_equal. f_equal. f_equal. rewrite drop_app_ge by lia.
  rewrite drop_drop. f_equal. lia.
Qed.

Lemma store_token' (tok buf : bytes) {B} (k : bytes -> outcome B) :
  blen tok < blen buf ->
  (token ← (if 0 <? blen tok then blit buf 0 tok else Done buf);
   token ← (if 0 <? blen buf then blit token (blen tok) [Byte.x00] else Done token);
   k token) = k (token_buf tok buf).
Proof.
  intros H. pose proof (blen_nonneg tok).
  assert ((0 <? blen buf) = true) as -> by lia.
  pose proof (store_token tok buf H) as Hst.
  destruct (Z.ltb_spec 0 (blen tok)) as [Hpos|Hz].
  - destruct (blit buf 0 tok) as [t| |]; simpl in *; [|done..]. by rewrite Hst.
  - destruct tok; [|unfold blen in Hz; simpl in Hz; lia].
    simpl. rewrite blit_ok in Hst by lia. simpl in Hst. rewrite drop_0 in Hst.
    simpl in Hst. by rewrite Hst.
Qed.

Lemma intro_payload_length (seq cols rows : Z) (tok : bytes) (ws : bool) :
  blen (intro_payload seq cols rows tok ws) = (if ws then 14 else 6) + blen tok.
Proof. unfold intro_payload, blen. destruct ws; simpl; lia. Qed.

Lemma sub_ptr (p a b : bytes) (off n : Z) :
  p = a ++ b -> off = blen a -> n = blen b -> sub p off n = Done b.
Proof. intros -> -> ->. rewrite <- (app_nil_r b) at 1. by apply sub_app_mid. Qed.

Definition valid_intro (seq cols rows : Z) (tok : bytes) : Prop :=
  0 <= seq < 2 ^ 64 /\ 0 <= cols < 2 ^ 16 /\ 0 <= rows < 2 ^ 16 /\
  blen tok <= OPTY_MAX_TOKEN.

(** The parser, once its reads at the offsets of the layout are known. *)
Lemma parse_intro_payload_reads (t seq cols rows : Z) (p tok buf : bytes) (ws : bool) :
  let off := if ws then 9 else 1 in
  blen p = (if ws then 14 else 6) + blen tok -> blen tok <= 255 -> blen tok < blen buf ->
  byte_at p 0 = Done (z2b OPTY_VERSION) ->
  (if ws then opty_get_u64 (ptr p 1) else Done 0) = Done seq ->
  opty_get_u16 (ptr p off) = Done cols ->
  opty_get_u16 (ptr p (off + 2)) = Done rows ->
  byte_at p (off + 4) = Done (z2b (blen tok)) ->
  sub p (off + 5) (blen tok) = Done tok ->
  opty_parse_intro_payload (Frame t (blen p) p) buf ws =
  Done (Intro seq cols rows (token_buf tok buf)).
Proof.
  intros off Hl Ht Hbuf H0 Hseq Hc Hr Htl Hsub. pose proof (blen_nonneg tok).
  unfold opty_parse_intro_payload. cbn [f_len f_payload].
  assert ((blen p <? (if ws then 14 else 6)) = false) as -> by lia.
  rewrite H0. cbn -[Z.ltb blen]. rewrite Hseq. cbn -[Z.ltb blen b2z z2b].
  fold off. rewrite Hc. cbn -[Z.ltb blen b2z z2b]. rewrite Hr. cbn -[Z.ltb blen b2z z2b].
  rewrite Htl. cbn -[Z.ltb blen b2z z2b]. rewrite (b2z_z2b_small (blen tok)) by lia.
  assert ((blen p =? off + 5 + blen tok) = true) as -> by (unfold off; destruct ws; lia).
  assert ((blen buf <? blen tok + 1) = false) as -> by lia.
  rewrite Hsub. by apply store_token'.
Qed.

Lemma parse_intro_payload_ok (t seq cols rows : Z) (tok buf : bytes) (ws : bool) :
  valid_intro seq cols rows tok -> blen tok < blen buf ->
  let p := intro_payload seq cols rows tok ws in
  opty_parse_intro_payload (Frame t (blen p) p) buf ws =
  Done (Intro (if ws then seq else 0) cols rows (token_buf tok buf)).
Proof.
  intros (Hs&Hc&Hr&Ht) Hbuf p.
  apply parse_intro_payload_reads; [apply intro_payload_length|done|done|by destruct ws|..].
  - destruct ws; [|done].
    change (ptr p 1) with (opty_put_u64 seq ++ ptr p 9). by apply get_put_u64.
  - trans (opty_get_u16 (opty_put_u16 cols ++ opty_put_u16 rows ++ [z2b (blen tok)] ++ tok));
      [by destruct ws|by apply get_put_u16].
  - trans (opty_get_u16 (opty_put_u16 rows ++ [z2b (blen tok)] ++ tok));
      [by destruct ws|by apply get_put_u16].
  - by destruct ws.
  - apply (sub_ptr _ (take (if ws then 14 else 6)%nat p)); by destruct ws.
Qed.

(** ** Strictness and safety of the parsers

    A parser given any frame the receiver can hand out stays inside the
    payload, and what it accepts is exactly what the sender would have sent. *)

(** Name the first bytes of a payload known to be long enough. *)
Tactic Notation "name_bytes" int_or_var(n) ident(p) hyp(H) :=
  do n (destruct p as [|? p]; [exfalso; unfold blen in H; simpl in H; lia|]).

Definition stored (tok buf r : bytes) : Prop :=
  (blen tok < blen buf /\ r = token_buf tok buf) \/ (buf = [] /\ tok = [] /\ r = []).

(** The token tail shared by the two intro layouts. *)
Lemma store_token_inv (p tok buf : bytes) (off n : Z) {B} (k : bytes -> B) :
  sub p off n = Done tok -> n + 1 <= blen buf ->
  (token ← (if 0 <? n then t ← sub p off n; blit buf 0 t else Done buf);
   token ← (if 0 <? blen buf then blit token n [Byte.x00] else Done token);
   Done (k token)) = Done (k (token_buf tok buf)).
Proof.
  intros Hsub Hn. destruct (sub_done _ _ _ _ Hsub) as (?&?&?&<-&_).
  rewrite Hsub. apply (store_token' tok buf (fun t => Done (k t))). lia.
Qed.

Lemma byte_at_cons (b : byte) (p : bytes) (i : Z) :
  0 < i -> byte_at (b :: p) i = byte_at p (i - 1).
Proof.
  intros. unfold byte_at. replace (Z.to_nat i) with (S (Z.to_nat (i - 1))) by lia. done.
Qed.

Lemma put_get_u16' (p0 p1 : byte) :
  opty_put_u16 (b2z p0 * 256 + b2z p1) = [p0; p1] /\ 0 <= b2z p0 * 256 + b2z p1 < 2 ^ 16.
Proof. apply (put_get_u16 _ []); [done|]. apply get_u16_val. Qed.

Lemma get_u64_any (p : bytes) :
  (8 <= length p)%nat ->
  exists v, opty_get_u64 p = Done v /\ opty_put_u64 v = take 8 p /\ 0 <= v < 2 ^ 64.
Proof.
  intros Hl. destruct (opty_get_u64 p) as [v|e|] eqn:E;
    (do 8 (destruct p as [|? p]; [simpl in Hl; lia|])); [|done|done].
  exists v. split; [done|]. apply (put_get_u64 _ p); done.
Qed.

Lemma get_u16_any (p : bytes) :
  (2 <= length p)%nat ->
  exists v, opty_get_u16 p = Done v /\ opty_put_u16 v = take 2 p /\ 0 <= v < 2 ^ 16.
Proof.
  intros Hl. destruct (opty_get_u16 p) as [v|e|] eqn:E;
    (do 2 (destruct p as [|? p]; [simpl in Hl; lia|])); [|done|done].
  exists v. split; [done|]. apply (put_get_u16 _ p); done.
Qed.

Lemma byte_at_any (p : bytes) (i : Z) :
  0 <= i < blen p -> exists b, byte_at p i = Done b /\ take 1 (ptr p i) = [b].
Proof.
  intros Hi. unfold byte_at, ptr.
  destruct (p !! Z.to_nat i) as [b|] eqn:E.
  - exists b. split; [done|]. by rewrite (drop_S _ _ _ E).
  - apply lookup_ge_None in E. unfold blen in Hi. lia.
Qed.

(** Consecutive pieces of a payload. *)
Lemma ptr_split (p : bytes) (off off' : Z) (n : nat) :
  0 <= off -> off' = off + Z.of_nat n -> ptr p off = take n (ptr p off) ++ ptr p off'.
Proof.
  intros ? ->. unfold ptr. rewrite Z2Nat.inj_add, Nat2Z.id by lia.
  by rewrite <- drop_drop, take_drop.
Qed.

Lemma ptr_length (p : bytes) (off : Z) :
  0 <= off <= blen p -> Z.of_nat (length (ptr p off)) = blen p - off.
Proof. intros. unfold ptr, blen in *. rewrite length_drop. lia. Qed.

Lemma ptr_all (p : bytes) (off n : Z) :
  0 <= off -> 0 <= n -> off + n = blen p -> sub p off n = Done (ptr p off).
Proof.
  intros. rewrite sub_ok by lia. unfold ptr. f_equal. apply take_ge.
  rewrite length_drop. unfold blen in *. lia.
Qed.

(** A payload put together again from the fields read at their offsets. *)
Lemma intro_payload_of (p : bytes) (ws : bool) (v tl : byte) (seq cols rows : Z) :
  let off := if ws then 9 else 1 in
  take 1 (ptr p 0) = [v] -> b2z v = OPTY_VERSION ->
  (if ws then opty_put_u64 seq else []) = take (if ws then 8 else 0)%nat (ptr p 1) ->
  opty_put_u16 cols = take 2 (ptr p off) -> opty_put_u16 rows = take 2 (ptr p (off + 2)) ->
  take 1 (ptr p (off + 4)) = [tl] -> blen (ptr p (off + 5)) = b2z tl ->
  p = intro_payload seq cols rows (ptr p (off + 5)) ws.
Proof.
  intros off Hv Hver Hseq Hc Hr Htl Htok.
  assert (0 <= off) by (unfold off; by destruct ws).
  change p with (ptr p 0) at 1. rewrite (ptr_split p 0 1 1), Hv by lia.
  unfold intro_payload. rewrite <- Hver, z2b_b2z, Hseq, Hc, Hr, Htok, z2b_b2z, <- Htl.
  rewrite <- (ptr_split p (off + 4) (off + 5) 1), <- (ptr_split p (off + 2) (off + 4) 2),
    <- (ptr_split p off (off + 2) 2) by lia.
  f_equal. destruct ws; [|done]. by rewrite <- (ptr_split p 1 off 8).
Qed.

Lemma parse_intro_payload_inv (f : opty_frame) (buf : bytes) (ws : bool) :
  frame_ok f ->
  match opty_parse_intro_payload f buf ws with
  | UB => False
  | Fail e => e = EPROTO \/ e = ENOSPC
  | Done i => exists tok,
      f_payload f = intro_payload (i_seq i) (i_cols i) (i_rows i) tok ws /\
      valid_intro (i_seq i) (i_cols i) (i_rows i) tok /\ stored tok buf (i_token i)
  end.
Proof.
  intros [Hlen _]. unfold opty_parse_intro_payload.
  destruct f as [t len p]. simpl in Hlen. cbn [f_len f_payload]. subst len.
  destruct (Z.ltb_spec (blen p) (if ws then 14 else 6)) as [|Hneed]; [by left|].
  set (off := if ws then 9 else 1).
  assert (1 <= off /\ off + 5 <= blen p) as Hoff by (unfold off; destruct ws; lia).
  destruct (byte_at_any p 0) as (v&Hv&Hv'); [lia|]. rewrite Hv. cbn -[Z.ltb blen b2z z2b].
  destruct (Z.eqb_spec (b2z v) OPTY_VERSION) as [Hver|]; [|by left]. cbn -[Z.ltb blen b2z z2b].
  assert (exists seq, (if ws then opty_get_u64 (ptr p 1) else Done 0) = Done seq /\
            (if ws then opty_put_u64 seq else []) = take (if ws then 8 else 0)%nat (ptr p 1) /\
            0 <= seq < 2 ^ 64) as (seq&Hseq&Hseq'&Hs).
  { destruct ws; [|exists 0; split_and!; [done|done|lia|lia]].
    apply get_u64_any. unfold ptr. rewrite length_drop. unfold blen in *. lia. }
  rewrite Hseq. cbn -[Z.ltb blen b2z z2b].
  destruct (get_u16_any (ptr p off)) as (cols&Hc&Hc'&?); [pose proof (ptr_length p off); lia|].
  rewrite Hc. cbn -[Z.ltb blen b2z z2b].
  destruct (get_u16_any (ptr p (off + 2))) as (rows&Hr&Hr'&?); [pose proof (ptr_length p (off + 2)); lia|].
  rewrite Hr. cbn -[Z.ltb blen b2z z2b].
  destruct (byte_at_any p (off + 4)) as (tl&Htl&Htl'); [lia|].
  rewrite Htl. cbn -[Z.ltb blen b2z z2b]. pose proof (b2z_range tl).
  destruct (Z.eqb_spec (blen p) (off + 5 + b2z tl)) as [Htot|]; [|by left].
  cbn -[Z.ltb blen b2z z2b].
  assert (blen (ptr p (off + 5)) = b2z tl) as Htok by (unfold blen at 1; rewrite ptr_length; lia).
  pose proof (intro_payload_of p ws v tl seq cols rows Hv' Hver Hseq' Hc' Hr' Htl' Htok) as Hp.
  assert (valid_intro seq cols rows (ptr p (off + 5))) by (unfold valid_intro, OPTY_MAX_TOKEN; lia).
  destruct (Z.ltb_spec (blen buf) (b2z tl + 1)) as [Hsmall|Hroom].
  - destruct (Z.eqb_spec (blen buf) 0) as [Hb|]; [|by right].
    destruct (Z.eqb_spec (b2z tl) 0) as [Hz|]; [|by right].
    cbn -[Z.ltb blen b2z z2b]. exists (ptr p (off + 5)). split_and!; [done|done|].
    right. rewrite Hz in Htok. split_and!; by apply blen_0.
  - rewrite (store_token_inv p (ptr p (off + 5)) buf (off + 5) (b2z tl) (fun t => Intro seq cols rows t));
      [|apply ptr_all; lia|lia].
    exists (ptr p (off + 5)). split_and!; [done|done|]. left. split; [lia|done].
Qed.

Ltac mbind_cbn :=
  cbn -[Z.ltb Z.eqb blen b2z z2b opty_get_u16 opty_get_u64 opty_put_u16 opty_put_u64].

Lemma parse_resize_inv (f : opty_frame) :
  frame_ok f ->
  match opty_parse_resize f with
  | UB => False
  | Fail e => e = EPROTO
  | Done (cols, rows) =>
      f_type f = msg_code OPTY_MSG_RESIZE /\
      f_payload f = opty_put_u16 cols ++ opty_put_u16 rows /\
      0 <= cols < 2 ^ 16 /\ 0 <= rows < 2 ^ 16
  end.
Proof.
  intros [Hlen _]. unfold opty_parse_resize. destruct f as [t len p]. cbn [f_len f_type f_payload msg_code] in *. subst len.
  destruct (Z.eqb_spec t 6); [|done]. destruct (Z.eqb_spec (blen p) 4) as [H4|]; [|done].
  mbind_cbn. name_bytes 4 p H4.
  assert (p = []) as -> by (apply blen_0; unfold blen in *; simpl in *; lia).
  rewrite get_u16_val. mbind_cbn. change (ptr _ 2) with [b1; b2]. rewrite get_u16_val. mbind_cbn.
  destruct (put_get_u16' b b0) as [-> ?], (put_get_u16' b1 b2) as [-> ?]. done.
Qed.

Lemma parse_ack_inv (f : opty_frame) :
  frame_ok f ->
  match opty_parse_ack f with
  | UB => False
  | Fail e => e = EPROTO
  | Done seq =>
      f_type f = msg_code OPTY_MSG_ACK /\ f_payload f = opty_put_u64 seq /\ 0 <= seq < 2 ^ 64
  end.
Proof.
  intros [Hlen _]. unfold opty_parse_ack. destruct f as [t len p]. cbn [f_len f_type f_payload msg_code] in *. subst len.
  destruct (Z.eqb_spec t 7); [|done]. destruct (Z.eqb_spec (blen p) 8) as [H8|]; [|done].
  mbind_cbn. destruct (get_u64_any p) as (v&->&Hv&?); [unfold blen in H8; lia|].
  split_and!; [done| |lia|lia]. rewrite Hv, take_ge; [done|]. unfold blen in H8; lia.
Qed.

Lemma parse_stream_inv (f : opty_frame) :
  frame_ok f ->
  match opty_parse_stream f with
  | UB => False
  | Fail e => e = EPROTO
  | Done (seq, data) =>
      (f_type f = msg_code OPTY_MSG_STDOUT \/ f_type f = msg_code OPTY_MSG_REPLAY) /\
      f_payload f = opty_put_u64 seq ++ data /\ 0 <= seq < 2 ^ 64
  end.
Proof.
  intros [Hlen _]. unfold opty_parse_stream. destruct f as [t len p]. cbn [f_len f_type f_payload msg_code] in *. subst len.
  destruct (Z.eqb_spec t 5), (Z.eqb_spec t 8); mbind_cbn; try done.
  all: destruct (Z.ltb_spec (blen p) 8); [done|].
  all: destruct (get_u64_any p) as (v&->&Hv&?); [unfold blen in *; lia|]; mbind_cbn.
  all: rewrite (ptr_all p 8) by lia; mbind_cbn; rewrite Hv.
  all: split_and!; auto; try lia; symmetry; apply take_drop.
Qed.

Lemma parse_welcome_inv (f : opty_frame) :
  frame_ok f ->
  match opty_parse_welcome f with
  | UB => False
  | Fail e => e = EPROTO
  | Done (base, next) =>
      f_type f = msg_code OPTY_MSG_WELCOME /\
      f_payload f = opty_put_u64 base ++ opty_put_u64 next /\
      0 <= base < 2 ^ 64 /\ 0 <= next < 2 ^ 64
  end.
Proof.
  intros [Hlen _]. unfold opty_parse_welcome. destruct f as [t len p]. cbn [f_len f_type f_payload msg_code] in *. subst len.
  destruct (Z.eqb_spec t 3); [|done]. destruct (Z.eqb_spec (blen p) 16) as [H16|]; [|done].
  mbind_cbn. destruct (get_u64_any p) as (v&->&Hv&?); [unfold blen in *; lia|]. mbind_cbn.
  destruct (get_u64_any (ptr p 8)) as (w&->&Hw&?).
  { pose proof (ptr_length p 8). lia. }
  mbind_cbn. split_and!; [done| |lia..]. rewrite Hv, Hw.
  rewrite (take_ge (ptr p 8)) by (pose proof (ptr_length p 8); lia).
  symmetry. apply take_drop.
Qed.

Lemma store_token_ctl (p tok buf : bytes) (off n : Z) {B} (k : bytes -> outcome B) :
  sub p off n = Done tok -> n + 1 <= blen buf ->
  (token ← (if 0 <? n then t ← sub p off n; blit buf 0 t else Done buf);
   token ← blit token n [Byte.x00]; k token) = k (token_buf tok buf).
Proof.
  intros Hsub Hn. destruct (sub_done _ _ _ _ Hsub) as (?&?&?&<-&_).
  rewrite Hsub, <- (store_token' tok buf k) by lia.
  by assert ((0 <? blen buf) = true) as -> by lia.
Qed.

Lemma parse_control_inv (f : opty_frame) (buf : bytes) :
  frame_ok f ->
  match opty_parse_control_shutdown f buf with
  | UB => False
  | Fail e => e = EPROTO
  | Done (tb, input) => exists tok,
      f_type f = msg_code OPTY_MSG_CONTROL_SHUTDOWN /\
      f_payload f = control_payload tok input /\
      blen tok <= OPTY_MAX_TOKEN /\ blen tok < blen buf /\
      blen input <= OPTY_MAX_GRACEFUL_INPUT /\ tb = token_buf tok buf
  end.
Proof.
  intros [Hlen _]. unfold opty_parse_control_shutdown. destruct f as [t len p].
  cbn [f_len f_payload f_type] in *. subst len.
  destruct (Z.eqb_spec (blen buf) 0); [done|].
  destruct (Z.eqb_spec t (msg_code OPTY_MSG_CONTROL_SHUTDOWN)); [|done].
  destruct (Z.ltb_spec (blen p) 4); [done|]. mbind_cbn.
  destruct (byte_at_any p 0) as (v&->&Hv); [lia|]. mbind_cbn.
  destruct (Z.eqb_spec (b2z v) OPTY_VERSION) as [Hver|]; [|done]. mbind_cbn.
  destruct (byte_at_any p 1) as (tl&->&Htl); [lia|]. mbind_cbn. pose proof (b2z_range tl).
  destruct (Z.ltb_spec (blen buf) (b2z tl + 1)); [done|].
  destruct (Z.ltb_spec (blen p) (2 + b2z tl + 2)); [done|]. mbind_cbn.
  pose (tok := take (Z.to_nat (b2z tl)) (ptr p 2)).
  assert (blen tok = b2z tl) as Hlt
    by (unfold tok, blen; rewrite length_take; pose proof (ptr_length p 2); lia).
  assert (sub p 2 (b2z tl) = Done tok) as Hsub by (rewrite sub_ok by lia; done).
  rewrite (store_token_ctl p tok buf 2 (b2z tl)) by (done || lia). destruct (get_u16_any (ptr p (2 + b2z tl))) as (g&->&Hg&?);
    [pose proof (ptr_length p (2 + b2z tl)); lia|]. mbind_cbn.
  destruct (Z.ltb_spec OPTY_MAX_GRACEFUL_INPUT g); [done|].
  destruct (Z.eqb_spec (blen p) (2 + b2z tl + 2 + g)) as [Htot|]; [|done]. mbind_cbn.
  rewrite ptr_all by lia. mbind_cbn. exists tok.
  assert (blen (ptr p (2 + b2z tl + 2)) = g) as Hgl by (unfold blen at 1; rewrite ptr_length; lia).
  split_and!; [done| |unfold OPTY_MAX_TOKEN; lia|lia|lia|done].
  change p with (ptr p 0) at 1. rewrite (ptr_split p 0 1 1), Hv by lia.
  unfold control_payload.
  match goal with |- _ = ?a :: ?b :: ?r => change (a :: b :: r) with ([a] ++ [b] ++ r) end.
  rewrite <- Hver, z2b_b2z, Hlt, z2b_b2z, <- Htl, Hgl.
  unfold u16. rewrite Z.mod_small, Hg by lia.
  rewrite <- (ptr_split p (2 + b2z tl) (2 + b2z tl + 2) 2) by lia.
  unfold tok. rewrite <- (ptr_split p 2 (2 + b2z tl)) by lia.
  by rewrite <- (ptr_split p 1 2 1) by lia.
Qed.

(** ** What the parsers find in a sender's payload *)

Lemma parse_control_ok (tok input buf : bytes) :
  blen tok <= OPTY_MAX_TOKEN -> blen tok < blen buf ->
  blen input <= OPTY_MAX_GRACEFUL_INPUT ->
  let p := control_payload tok input in
  opty_parse_control_shutdown
    (Frame (msg_code OPTY_MSG_CONTROL_SHUTDOWN) (blen p) p) buf =
  Done (token_buf tok buf, input).
Proof.
  intros Ht Hb Hi p. pose proof (blen_nonneg tok). pose proof (blen_nonneg input).
  assert (blen p = 4 + blen tok + blen input) as Hl
    by (unfold p, control_payload; rewrite !blen_app, put_u16_length; blen_lia).
  unfold OPTY_MAX_TOKEN, OPTY_MAX_GRACEFUL_INPUT in *.
  assert (sub p 2 (blen tok) = Done tok) as Hsub.
  { apply (sub_app_mid [z2b OPTY_VERSION; z2b (blen tok)] tok); done. }
  assert (ptr p (2 + blen tok) = opty_put_u16 (blen input) ++ input) as Hptr.
  { unfold p, control_payload, ptr. rewrite !app_assoc, <- app_assoc.
    rewrite drop_app_ge by blen_lia. unfold u16. rewrite Z.mod_small by lia.
    by replace (_ - _)%nat with 0%nat by blen_lia. }
  assert (byte_at p 0 = Done (z2b OPTY_VERSION)) as Hv by done.
  assert (byte_at p 1 = Done (z2b (blen tok))) as Htl by done.
  clearbody p.
  assert (sub p (2 + blen tok + 2) (blen input) = Done input) as Hinp.
  { rewrite ptr_all by lia. f_equal.
    rewrite (ptr_split p (2 + blen tok) (2 + blen tok + 2) 2) in Hptr by lia.
    apply (app_inj_1 _ _ _ _) in Hptr as [_ Hx]; [done|].
    rewrite length_take. pose proof (ptr_length p (2 + blen tok)). change (length (opty_put_u16 _)) with 2%nat. lia. }
  unfold opty_parse_control_shutdown. cbn [f_len f_payload f_type].
  destruct (Z.eqb_spec (blen buf) 0); [lia|]. rewrite Z.eqb_refl.
  destruct (Z.ltb_spec (blen p) 4); [lia|]. mbind_cbn. rewrite Hv. mbind_cbn.
  rewrite (b2z_z2b_small OPTY_VERSION) by (unfold OPTY_VERSION; lia). rewrite Z.eqb_refl. mbind_cbn.
  rewrite Htl. mbind_cbn. rewrite b2z_z2b_small by lia.
  destruct (Z.ltb_spec (blen buf) (blen tok + 1)); [lia|].
  destruct (Z.ltb_spec (blen p) (2 + blen tok + 2)); [lia|]. mbind_cbn.
  rewrite (store_token_ctl p tok buf 2 (blen tok)) by (done || lia).
  rewrite Hptr, get_put_u16 by lia. mbind_cbn. unfold OPTY_MAX_GRACEFUL_INPUT.
  destruct (Z.ltb_spec 4096 (blen input)); [lia|].
  destruct (Z.eqb_spec (blen p) (2 + blen tok + 2 + blen input)); [|lia]. mbind_cbn.
  by rewrite Hinp.
Qed.

Lemma parse_stream_ok (t : opty_msg_type) (seq : Z) (data : bytes) :
  t = OPTY_MSG_STDOUT \/ t = OPTY_MSG_REPLAY -> 0 <= seq < 2 ^ 64 ->
  opty_parse_stream (Frame (msg_code t) (8 + blen data) (opty_put_u64 seq ++ data)) =
  Done (seq, data).
Proof.
  intros Ht Hs. pose proof (blen_nonneg data). unfold opty_parse_stream.
  cbn [f_len f_payload f_type].
  assert ((negb (msg_code t =? msg_code OPTY_MSG_STDOUT) &&
           negb (msg_code t =? msg_code OPTY_MSG_REPLAY)) = false) as ->
    by (destruct Ht as [-> | ->]; done).
  destruct (Z.ltb_spec (8 + blen data) 8); [lia|]. mbind_cbn.
  rewrite get_put_u64 by done. mbind_cbn.
  rewrite (sub_ptr _ (opty_put_u64 seq) data) by (done || lia). done.
Qed.

(** Sending a stream frame is sending one frame, whenever the copy fits. *)
Lemma send_stream_frame_eq (malloc_ok : Z -> bool) (t seq : Z) (data : bytes) (s : stream) :
  malloc_ok (8 + blen data) = true -> blen data <= SIZE_MAX - 8 ->
  opty_send_stream_frame malloc_ok t seq (Some data) (blen data) s =
  opty_send_frame t (Some (opty_put_u64 seq ++ data)) (8 + blen data) s.
Proof.
  intros Hm Hl. unfold opty_send_stream_frame.
  rewrite bool_decide_false, andb_false_r, Hm by done. cbn [negb].
  destruct (Z.ltb_spec (SIZE_MAX - 8) (blen data)); [lia|].
  rewrite (io_lift_bind _ _ data); [done|].
  destruct (Z.ltb_spec 0 (blen data)) as [|Hz].
  - rewrite sub_ok by lia. unfold blen. by rewrite Nat2Z.id, firstn_all.
  - by rewrite (blen_0 data) by (pose proof (blen_nonneg data); lia).
Qed.

(** ** Properties *)

(** Whatever the sizes, a token or a graceful input too long for its length
    field is refused before anything is written. *)
Lemma opty_token_payload_spec (token : option bytes) :
  opty_token_payload token =
  match token with
  | Some t => if bool_decide (blen t <= OPTY_MAX_TOKEN) then Done t else Fail EMSGSIZE
  | None => Done []
  end.
Proof.
  unfold opty_token_payload. destruct token as [t|]; [|done].
  case_bool_decide; destruct (Z.ltb_spec OPTY_MAX_TOKEN (blen t)); done || lia.
Qed.

Lemma send_intro_eq (type seq cols rows : Z) (tok : bytes) (ws : bool) (s : stream) :
  blen tok <= OPTY_MAX_TOKEN ->
  opty_send_tokenized_intro type seq cols rows (Some tok) ws s =
  opty_send_frame type (Some (intro_payload seq cols rows tok ws))
    (blen (intro_payload seq cols rows tok ws)) s.
Proof.
  intros H. unfold opty_send_tokenized_intro.
  rewrite (io_lift_bind _ _ tok); [done|].
  rewrite opty_token_payload_spec. by rewrite bool_decide_true.
Qed.

(** [C33] A HELLO or RECONNECT the client sends is received, over any
    fragmentation, as one frame within the unauthenticated limit, and
    [opty_parse_client_intro] finds the terminal size, the last sequence number
    (0 for HELLO) and the NUL-terminated token that were sent. *)
Theorem intro_roundtrip (malloc_ok : Z -> bool) (seq cols rows : Z) (tok buf : bytes) :
  (forall n, 0 <= n <= OPTY_MAX_UNAUTH_PAYLOAD -> malloc_ok n = true) ->
  valid_intro seq cols rows tok -> blen tok < blen buf ->
  roundtrips malloc_ok (opty_send_hello cols rows (Some tok)) OPTY_MAX_UNAUTH_PAYLOAD
    (fun f => opty_parse_client_intro f buf) (Intro 0 cols rows (token_buf tok buf)) /\
  roundtrips malloc_ok (opty_send_reconnect seq cols rows (Some tok)) OPTY_MAX_UNAUTH_PAYLOAD
    (fun f => opty_parse_client_intro f buf) (Intro seq cols rows (token_buf tok buf)).
Proof.
  intros Hm Hv Hb. pose proof Hv as (?&?&?&Ht). pose proof (blen_nonneg tok).
  assert (valid_intro 0 cols rows tok) as Hv0 by (unfold valid_intro; lia).
  pose proof (intro_payload_length 0 cols rows tok false).
  pose proof (intro_payload_length seq cols rows tok true).
  unfold OPTY_MAX_TOKEN, OPTY_MAX_UNAUTH_PAYLOAD, OPTY_MAX_GRACEFUL_INPUT in *.
  split; (eapply frame_roundtrips;
    [ intros s; by apply send_intro_eq
    | by vm_compute
    | unfold OPTY_MAX_TOKEN; lia
    | unfold OPTY_MAX_FRAME; lia
    | apply Hm; unfold OPTY_MAX_TOKEN; lia
    | first [ exact (parse_intro_payload_ok _ 0 cols rows tok buf false Hv0 Hb)
            | exact (parse_intro_payload_ok _ seq cols rows tok buf true Hv Hb) ] ]).
Qed.

Lemma intro_roundtrip_witness :
  roundtrips (fun _ => true) (opty_send_hello 120 40 (Some (cstr "token")))
    OPTY_MAX_UNAUTH_PAYLOAD (fun f => opty_parse_client_intro f (zeros 256))
    (Intro 0 120 40 (token_buf (cstr "token") (zeros 256))) /\
  roundtrips (fun _ => true) (opty_send_reconnect 99 120 40 (Some (cstr "token")))
    OPTY_MAX_UNAUTH_PAYLOAD (fun f => opty_parse_client_intro f (zeros 256))
    (Intro 99 120 40 (token_buf (cstr "token") (zeros 256))).
Proof.
  apply (intro_roundtrip (fun _ => true) 99 120 40 (cstr "token") (zeros 256));
    [done|unfold valid_intro; by vm_compute|by vm_compute].
Defined.

(** STDOUT and REPLAY frames carry their sequence number and their data
    through the wire unchanged, over any fragmentation. *)
Theorem stream_roundtrip (malloc_ok : Z -> bool) (seq : Z) (data : bytes) :
  (forall n, 0 <= n < OPTY_MAX_FRAME -> malloc_ok n = true) ->
  0 <= seq < 2 ^ 64 -> blen data <= OPTY_MAX_FRAME - 9 ->
  roundtrips malloc_ok (opty_send_stdout malloc_ok seq (Some data) (blen data))
    (OPTY_MAX_FRAME - 1) opty_parse_stream (seq, data) /\
  roundtrips malloc_ok (opty_send_replay malloc_ok seq (Some data) (blen data))
    (OPTY_MAX_FRAME - 1) opty_parse_stream (seq, data).
Proof.
  intros Hm Hs Hd. pose proof (blen_nonneg data). unfold OPTY_MAX_FRAME in *.
  assert (blen (opty_put_u64 seq ++ data) = 8 + blen data) as Hl
    by (by rewrite blen_app, put_u64_length).
  split; (eapply (frame_roundtrips _ _ _ (opty_put_u64 seq ++ data));
    [ intros s; rewrite Hl; apply send_stream_frame_eq; [apply Hm; lia|unfold SIZE_MAX; lia]
    | by vm_compute
    | lia
    | unfold OPTY_MAX_FRAME; lia
    | apply Hm; lia
    | rewrite Hl; apply parse_stream_ok; auto ]).
Qed.

Lemma stream_roundtrip_witness :
  roundtrips (fun _ => true) (opty_send_stdout (fun _ => true) 55 (Some (cstr "opty"))
      (blen (cstr "opty")))
    (OPTY_MAX_FRAME - 1) opty_parse_stream (55, cstr "opty") /\
  roundtrips (fun _ => true) (opty_send_replay (fun _ => true) 55 (Some (cstr "opty"))
      (blen (cstr "opty")))
    (OPTY_MAX_FRAME - 1) opty_parse_stream (55, cstr "opty").
Proof. apply (stream_roundtrip (fun _ => true) 55 (cstr "opty")); [done|lia|by vm_compute]. Defined.

(** A stop request carries the control token and the graceful input
    through the wire, within the limit the server puts on unauthenticated
    frames, for every token and input the session file can hold. *)
Theorem control_roundtrip (malloc_ok : Z -> bool) (tok input buf : bytes) :
  (forall n, 0 <= n <= OPTY_MAX_UNAUTH_PAYLOAD -> malloc_ok n = true) ->
  blen tok <= OPTY_MAX_TOKEN -> blen tok < blen buf ->
  blen input <= OPTY_MAX_GRACEFUL_INPUT ->
  roundtrips malloc_ok (opty_send_control_shutdown (Some tok) (Some input) (blen input))
    OPTY_MAX_UNAUTH_PAYLOAD (fun f => opty_parse_control_shutdown f buf)
    (token_buf tok buf, input).
Proof.
  intros Hm Ht Hb Hi. pose proof (blen_nonneg tok). pose proof (blen_nonneg input).
  assert (blen (control_payload tok input) = 4 + blen tok + blen input) as Hl
    by (unfold control_payload; rewrite !blen_app, put_u16_length; blen_lia).
  unfold OPTY_MAX_UNAUTH_PAYLOAD in *.
  eapply (frame_roundtrips _ (msg_code OPTY_MSG_CONTROL_SHUTDOWN) _ (control_payload tok input)).
  - intros s. unfold opty_send_control_shutdown.
    destruct (Z.ltb_spec OPTY_MAX_GRACEFUL_INPUT (blen input)); [lia|].
    rewrite bool_decide_false, andb_false_r by done. rewrite (io_lift_bind _ _ tok).
    2:{ rewrite opty_token_payload_spec. by rewrite bool_decide_true. }
    rewrite (io_lift_bind _ _ input); [done|]. destruct (Z.ltb_spec 0 (blen input)).
    + rewrite sub_ok by lia. unfold blen. by rewrite Nat2Z.id, firstn_all.
    + by rewrite (blen_0 input) by lia.
  - by vm_compute.
  - lia.
  - unfold OPTY_MAX_FRAME, OPTY_MAX_TOKEN, OPTY_MAX_GRACEFUL_INPUT in *. lia.
  - apply Hm. lia.
  - by apply parse_control_ok.
Qed.

Lemma control_roundtrip_witness :
  roundtrips (fun _ => true)
    (opty_send_control_shutdown (Some (cstr "stop-token")) (Some (cstr "/exit"))
      (blen (cstr "/exit")))
    OPTY_MAX_UNAUTH_PAYLOAD (fun f => opty_parse_control_shutdown f (zeros 256))
    (token_buf (cstr "stop-token") (zeros 256), cstr "/exit").
Proof.
  apply (control_roundtrip (fun _ => true) (cstr "stop-token") (cstr "/exit") (zeros 256));
    [done|by vm_compute..].
Defined.

(** RESIZE, ACK and WELCOME carry their fields through the wire, over any
    fragmentation. *)
Theorem fixed_frames_roundtrip (malloc_ok : Z -> bool) (cols rows seq base : Z) :
  (forall n, 0 <= n <= 16 -> malloc_ok n = true) ->
  0 <= cols < 2 ^ 16 -> 0 <= rows < 2 ^ 16 -> 0 <= seq < 2 ^ 64 -> 0 <= base < 2 ^ 64 ->
  roundtrips malloc_ok (opty_send_resize cols rows) 4 opty_parse_resize (cols, rows) /\
  roundtrips malloc_ok (opty_send_ack seq) 8 opty_parse_ack seq /\
  roundtrips malloc_ok (opty_send_welcome base seq) 16 opty_parse_welcome (base, seq).
Proof.
  intros Hm Hc Hr Hs Hb.
  split_and!; (eapply frame_roundtrips; [intros s; reflexivity|by vm_compute|done|done
    |apply Hm; rewrite ?blen_app, ?put_u16_length, ?put_u64_length; lia|]).
  - unfold opty_parse_resize. cbn [f_type f_len f_payload].
    rewrite !blen_app, !put_u16_length. mbind_cbn.
    rewrite get_put_u16 by done. mbind_cbn.
    change (ptr _ 2) with (opty_put_u16 rows ++ []). by rewrite get_put_u16.
  - unfold opty_parse_ack. cbn [f_type f_len f_payload]. rewrite put_u64_length. mbind_cbn.
    rewrite <- (app_nil_r (opty_put_u64 seq)). by apply get_put_u64.
  - unfold opty_parse_welcome. cbn [f_type f_len f_payload].
    rewrite !blen_app, !put_u64_length. mbind_cbn.
    rewrite get_put_u64 by done. mbind_cbn.
    change (ptr _ 8) with (opty_put_u64 seq ++ []). by rewrite get_put_u64.
Qed.

Lemma fixed_frames_roundtrip_witness :
  roundtrips (fun _ => true) (opty_send_resize 200 60) 4 opty_parse_resize (200, 60) /\
  roundtrips (fun _ => true) (opty_send_ack 1234) 8 opty_parse_ack 1234 /\
  roundtrips (fun _ => true) (opty_send_welcome 10 1234) 16 opty_parse_welcome (10, 1234).
Proof. apply (fixed_frames_roundtrip (fun _ => true) 200 60 1234 10); [done|lia..]. Defined.

(** [C32] No parser reads outside the payload or writes outside the caller's
    token buffer, on any frame the receiver can return and for any buffer. *)
Theorem parsers_safe (f : opty_frame) (buf : bytes) :
  frame_ok f ->
  safe (opty_parse_client_intro f buf) /\ safe (opty_parse_resize f) /\
  safe (opty_parse_ack f) /\ safe (opty_parse_stream f) /\ safe (opty_parse_welcome f) /\
  safe (opty_parse_control_shutdown f buf).
Proof.
  intros Hf. split_and!.
  - unfold opty_parse_client_intro. case_match; [|case_match; [|done]];
      intros E; [pose proof (parse_intro_payload_inv f buf false Hf) as H'
                |pose proof (parse_intro_payload_inv f buf true Hf) as H']; by rewrite E in H'.
  - intros E. pose proof (parse_resize_inv f Hf) as H. by rewrite E in H.
  - intros E. pose proof (parse_ack_inv f Hf) as H. by rewrite E in H.
  - intros E. pose proof (parse_stream_inv f Hf) as H. by rewrite E in H.
  - intros E. pose proof (parse_welcome_inv f Hf) as H. by rewrite E in H.
  - intros E. pose proof (parse_control_inv f buf Hf) as H. by rewrite E in H.
Qed.

Lemma parsers_safe_witness :
  frame_ok (Frame 10 4 (cstr "abcd")) /\
  safe (opty_parse_control_shutdown (Frame 10 4 (cstr "abcd")) (zeros 256)).
Proof.
  assert (frame_ok (Frame 10 4 (cstr "abcd"))) as H by (split; [done|cbn; lia]).
  split; [exact H|]. apply (parsers_safe (Frame 10 4 (cstr "abcd")) (zeros 256) H).
Defined.

(** The intro parser is strict: a frame it accepts is byte for byte the
    HELLO or RECONNECT that [opty_send_tokenized_intro] builds from the fields
    it returns, so no two different intros are taken for one another. *)
Theorem intro_parser_strict (f : opty_frame) (buf : bytes) (i : intro) :
  frame_ok f -> opty_parse_client_intro f buf = Done i ->
  exists tok with_seq,
    f_type f = msg_code (if with_seq : bool then OPTY_MSG_RECONNECT else OPTY_MSG_HELLO) /\
    f_payload f = intro_payload (i_seq i) (i_cols i) (i_rows i) tok with_seq /\
    valid_intro (i_seq i) (i_cols i) (i_rows i) tok /\ stored tok buf (i_token i).
Proof.
  intros Hf. unfold opty_parse_client_intro.
  destruct (Z.eqb_spec (f_type f) (msg_code OPTY_MSG_HELLO)) as [Ht|].
  { intros Hp. pose proof (parse_intro_payload_inv f buf false Hf) as H. rewrite Hp in H.
    destruct H as (tok&?&?&?). by exists tok, false. }
  destruct (Z.eqb_spec (f_type f) (msg_code OPTY_MSG_RECONNECT)) as [Ht|]; [|done].
  intros Hp. pose proof (parse_intro_payload_inv f buf true Hf) as H. rewrite Hp in H.
  destruct H as (tok&?&?&?). by exists tok, true.
Qed.

Lemma intro_parser_strict_witness :
  let p := intro_payload 7 80 24 (cstr "t") true in
  exists tok with_seq,
    2 = msg_code (if with_seq : bool then OPTY_MSG_RECONNECT else OPTY_MSG_HELLO) /\
    p = intro_payload 7 80 24 tok with_seq /\
    valid_intro 7 80 24 tok /\ stored tok (zeros 2) (cstr "t" ++ [Byte.x00]).
Proof.
  intros p.
  apply (intro_parser_strict (Frame 2 (blen p) p) (zeros 2)
           (Intro 7 80 24 (cstr "t" ++ [Byte.x00]))).
  - split; [done|cbn; lia].
  - by vm_compute.
Defined.
