(* ===== verification/Replay.v ===== *)
(** * The replay log: what the server relies on

    The abstract specification of the ring buffer.  A replay log of capacity
    [cap] is the whole stream appended so far, of which the last [cap] bytes can
    still be asked for.  The class states what the server needs of an
    implementation; Ring.v discharges it. *)

From S2P Require Import Prelude.

(** What [opty_ring_snapshot_window] reports: the base, where the snapshot
    starts, the next sequence number, the length, and the copied block ([None]
    is a null return: an empty window, or no memory). *)
Record window := Window {
  w_base : Z;
  w_from : Z;
  w_next : Z;
  w_len : Z;
  w_data : option bytes
}.

(** ** The specification *)

(** The oldest sequence number still held. *)
Definition log_base (cap : Z) (hist : bytes) : Z := Z.max 0 (blen hist - cap).

(** A requested sequence number, brought into the window. *)
Definition log_from (cap : Z) (hist : bytes) (requested : Z) : Z :=
  Z.max (log_base cap hist) (Z.min requested (blen hist)).

(** The stream from sequence number [from] on. *)
Definition log_since (hist : bytes) (from : Z) : bytes := drop (Z.to_nat from) hist.

(** The report a reader who asks for [requested] gets; the block is absent when
    it is empty or when there is no memory for it. *)
Definition log_window (malloc_ok : Z -> bool) (cap : Z) (hist : bytes) (requested : Z) : window :=
  let from := log_from cap hist requested in
  let data := log_since hist from in
  Window (log_base cap hist) from (blen hist) (blen data)
    (if (blen data =? 0) || negb (malloc_ok (blen data)) then None else Some data).

(** ** The interface *)

Class ReplayOps (R : Type) := {
  rb_append : R -> option bytes -> Z -> outcome (R * option Z);
  rb_window : (Z -> bool) -> R -> Z -> outcome window;
  (* [rb_repr r cap hist]: [r] holds the end of the stream [hist] *)
  rb_repr : R -> Z -> bytes -> Prop
}.

Class ReplayLaws (R : Type) `{!ReplayOps R} : Prop := {
  rb_append_ok (r : R) (cap : Z) (hist data : bytes) :
    rb_repr r cap hist -> blen hist + blen data < 2 ^ 64 ->
    exists r', rb_append r (Some data) (blen data) = Done (r', Some (blen hist)) /\
      rb_repr r' cap (hist ++ data);
  rb_window_ok (malloc_ok : Z -> bool) (r : R) (cap : Z) (hist : bytes) (requested : Z) :
    rb_repr r cap hist ->
    rb_window malloc_ok r requested = Done (log_window malloc_ok cap hist requested);
  rb_repr_bound (r : R) (cap : Z) (hist : bytes) :
    rb_repr r cap hist -> 0 < cap /\ blen hist < 2 ^ 64
}.

(** ** Facts about the specification *)

Lemma log_from_bounds (cap : Z) (hist : bytes) (q : Z) :
  0 < cap -> 0 <= log_from cap hist q <= blen hist.
Proof. unfold log_from, log_base. pose proof (blen_nonneg hist). lia. Qed.

Lemma log_since_length (hist : bytes) (from : Z) :
  0 <= from <= blen hist -> blen (log_since hist from) = blen hist - from.
Proof. unfold log_since, blen. rewrite length_drop. lia. Qed.

(** The window of a reader who continues where it stopped starts exactly there,
    as long as it is not more than [cap] bytes behind. *)
Lemma log_from_resume (cap : Z) (hist : bytes) (q : Z) :
  0 <= q <= blen hist -> blen hist - cap <= q -> log_from cap hist q = q.
Proof. unfold log_from, log_base. lia. Qed.

Lemma log_since_app (hist data : bytes) (from : Z) :
  0 <= from <= blen hist -> log_since (hist ++ data) from = log_since hist from ++ data.
Proof. intros. unfold log_since, blen in *. apply drop_app_le. lia. Qed.

Lemma log_since_split (hist : bytes) (a b : Z) :
  0 <= a <= b -> b <= blen hist ->
  log_since hist a = take (Z.to_nat (b - a)) (log_since hist a) ++ log_since hist b.
Proof.
  intros. unfold log_since. rewrite <- (take_drop (Z.to_nat (b - a)) (drop (Z.to_nat a) hist)) at 1.
  rewrite drop_drop. repeat f_equal. lia.
Qed.
