(* ===== verification/Ring.v ===== *)
(** * The replay ring (src/src/ring.c, ring.h)

    A byte array of [cap] bytes addressed by sequence number modulo [cap]; the
    window [base_seq, next_seq) is what it still holds of the stream appended so
    far.  Each operation runs under [ring->mu], so it is one atomic function. *)

From S2P Require Import Prelude.
From S2P Require Import Replay.

(** ** State and operations *)

(** [struct opty_ring]; [r_buf = None] is the [NULL] buffer of a ring that was
    never initialised or was destroyed. *)
Record opty_ring := Ring {
  r_buf : option bytes;
  r_cap : Z;
  base_seq : Z;
  next_seq : Z
}.

Definition opty_min_size (a b : Z) : Z := if a <? b then a else b.

(** [opty_ring_init]: [buf] is what [malloc(capacity)] returned (its bytes are
    indeterminate), [mu_rc] what [pthread_mutex_init] returned. *)
Definition opty_ring_init (buf : option bytes) (mu_rc : option errno) (capacity : Z)
    : outcome opty_ring :=
  if capacity =? 0 then Fail EINVAL
  else match buf with
       | None => Fail ENOMEM
       | Some b =>
           match mu_rc with
           | Some e => Fail e
           | None => Done (Ring (Some b) capacity 0 0)
           end
       end.

Definition opty_ring_destroy (ring : opty_ring) : opty_ring := Ring None 0 0 0.

(** [memcpy] into a buffer in two runs: [src] from [dest], then the rest of it
    from index 0. *)
Definition copy_in (buf src : bytes) (dest first keep : Z) : outcome bytes :=
  head ← sub src 0 first;
  buf ← blit buf dest head;
  if first <? keep then tail ← sub src first (keep - first); blit buf 0 tail
  else Done buf.

(** [opty_ring_append]: the new ring and the [*start_seq] it reports ([None]
    when the ring has no buffer and nothing is reported). [data = None] is a
    null pointer. *)
Definition opty_ring_append (ring : opty_ring) (data : option bytes) (len : Z)
    : outcome (opty_ring * option Z) :=
  match r_buf ring with
  | None => Done (ring, None)
  | Some buf =>
      if r_cap ring =? 0 then Done (ring, None) else
      let old_next := next_seq ring in
      let old_base := base_seq ring in
      match data with
      | None => Done (ring, Some old_next)
      | Some d =>
          if len =? 0 then Done (ring, Some old_next) else
          let new_next := u64 (old_next + len) in
          let window := u64 (old_next - old_base) in
          let keep := opty_min_size len (r_cap ring) in
          let src_off := len - keep in
          let dest := u64 (old_next + src_off) mod r_cap ring in
          let first := opty_min_size (r_cap ring - dest) keep in
          src ← sub d src_off keep;
          buf ← copy_in buf src dest first keep;
          let base := if r_cap ring <? u64 (window + len)
                      then u64 (new_next - r_cap ring) else old_base in
          Done (Ring (Some buf) (r_cap ring) base new_next, Some old_next)
      end
  end.

Definition opty_ring_snapshot_window (malloc_ok : Z -> bool) (ring : opty_ring)
    (requested_seq : Z) : outcome window :=
  match r_buf ring with
  | None => Fail EINVAL
  | Some buf =>
      if r_cap ring =? 0 then Fail EINVAL else
      let from :=
        if requested_seq <? base_seq ring then base_seq ring
        else if next_seq ring <? requested_seq then next_seq ring
        else requested_seq in
      let end_ := next_seq ring in
      let out_len := u64 (end_ - from) in
      let report := Window (base_seq ring) from end_ out_len in
      if out_len =? 0 then Done (report None)
      else if negb (malloc_ok out_len) then Done (report None)
      else
        let start_idx := from mod r_cap ring in
        let first := opty_min_size (r_cap ring - start_idx) out_len in
        head ← sub buf start_idx first;
        tail ← (if first <? out_len then sub buf 0 (out_len - first) else Done []);
        Done (report (Some (head ++ tail)))
  end.

Definition opty_ring_snapshot_from (malloc_ok : Z -> bool) (ring : opty_ring)
    (requested_seq : Z) : outcome (Z * Z * Z * option bytes) :=
  w ← opty_ring_snapshot_window malloc_ok ring requested_seq;
  Done (w_from w, w_next w, w_len w, w_data w).

Definition opty_ring_bounds (ring : opty_ring) : option (Z * Z) :=
  match r_buf ring with
  | None => None
  | Some _ => if r_cap ring =? 0 then None else Some (base_seq ring, next_seq ring)
  end.

(** ** Refinement of the replay log *)

(** The ring [r] of capacity [cap] holds the end of [hist]: each byte of the
    window sits at its sequence number modulo [cap]. *)
Definition ring_repr (r : opty_ring) (cap : Z) (hist : bytes) : Prop :=
  exists buf, r_buf r = Some buf /\ r_cap r = cap /\ 0 < cap <= SIZE_MAX /\ blen buf = cap /\
    next_seq r = blen hist /\ blen hist < 2 ^ 64 /\ base_seq r = log_base cap hist /\
    forall i : Z, log_base cap hist <= i < blen hist ->
      buf !! Z.to_nat (i mod cap) = hist !! Z.to_nat i.

(** *** Arithmetic of the circular index *)

Lemma min_size_spec (a b : Z) : opty_min_size a b = Z.min a b.
Proof. unfold opty_min_size. destruct (Z.ltb_spec a b); lia. Qed.

Lemma mod_step (cap s k : Z) :
  0 < cap -> 0 <= k < cap ->
  (s + k) mod cap = if s mod cap + k <? cap then s mod cap + k else s mod cap + k - cap.
Proof.
  intros Hc Hk. pose proof (Z.mod_pos_bound s cap Hc). pose proof (Z.div_mod s cap).
  destruct (Z.ltb_spec (s mod cap + k) cap).
  - symmetry. apply (Z.mod_unique_pos _ _ (s / cap)); lia.
  - symmetry. apply (Z.mod_unique_pos _ _ (s / cap + 1)); lia.
Qed.

(** Two sequence numbers less than [cap] apart never share a slot. *)
Lemma mod_distinct (cap i j : Z) :
  0 < cap -> i < j < i + cap -> i mod cap <> j mod cap.
Proof.
  intros Hc Hij. replace j with (i + (j - i)) by lia. rewrite mod_step by lia.
  pose proof (Z.mod_pos_bound i cap Hc). case_match; lia.
Qed.

(** *** Writing [src] at the slots of [start], [start + 1], ... *)

(** The buffer after the two [memcpy] runs, slot by slot. *)
Lemma copy_in_lookup (cap : Z) (buf src : bytes) (dest : Z) :
  blen buf = cap -> blen src <= cap -> 0 <= dest < cap ->
  let first := opty_min_size (cap - dest) (blen src) in
  exists buf', copy_in buf src dest first (blen src) = Done buf' /\ blen buf' = cap /\
    forall i : Z, 0 <= i < cap -> buf' !! Z.to_nat i =
      if bool_decide (dest <= i < dest + first) then src !! Z.to_nat (i - dest)
      else if bool_decide (i < blen src - first) then src !! Z.to_nat (first + i)
      else buf !! Z.to_nat i.
Proof.
  intros Hb Hs Hd first. unfold first. rewrite min_size_spec. clear first.
  set (first := Z.min (cap - dest) (blen src)). pose proof (blen_nonneg src).
  assert (0 <= first <= blen src /\ first <= cap - dest) as Hf by lia.
  unfold copy_in. rewrite (sub_ok src 0 first) by lia. cbn -[Z.ltb sub blit].
  set (hd := take (Z.to_nat first) _).
  assert (blen hd = first) as Hhd by (unfold hd; blen_lia).
  destruct (blit buf dest hd) as [b1| |] eqn:Hb1; [|by rewrite blit_ok in Hb1 by lia..].
  pose proof (blit_length _ _ _ _ Hb1) as Hb1l. cbn -[Z.ltb sub blit].
  assert (forall i, 0 <= i -> b1 !! Z.to_nat i =
    if bool_decide (dest <= i < dest + first) then src !! Z.to_nat (i - dest)
    else buf !! Z.to_nat i) as Hb1i.
  { intros i Hi. rewrite (blit_lookup _ _ _ _ _ Hb1), Hhd, Z2Nat.id by lia.
    case_bool_decide; [|done]. unfold hd. rewrite lookup_take_lt by lia.
    rewrite drop_0. f_equal. lia. }
  destruct (Z.ltb_spec first (blen src)) as [Hwrap|Hnowrap].
  - rewrite sub_ok by lia. cbn -[blit]. set (tl := take _ (drop _ src)).
    assert (blen tl = blen src - first) as Htl by (unfold tl; blen_lia).
    assert (blen b1 = cap) by (unfold blen in *; lia).
    destruct (blit b1 0 tl) as [b2| |] eqn:Hb2; [|by rewrite blit_ok in Hb2 by lia..].
    pose proof (blit_length _ _ _ _ Hb2) as Hb2l.
    exists b2. split_and!; [done|unfold blen in *; lia|]. intros i Hi.
    rewrite (blit_lookup _ _ _ _ _ Hb2), Htl, Z2Nat.id, Hb1i by lia.
    repeat case_bool_decide; try lia; try done.
    unfold tl. rewrite lookup_take_lt, lookup_drop by lia. f_equal. lia.
  - exists b1. split_and!; [done|unfold blen in *; lia|]. intros i Hi.
    rewrite Hb1i by lia. repeat case_bool_decide; try done; lia.
Qed.

Lemma copy_in_ok (cap : Z) (buf src : bytes) (start : Z) :
  0 < cap -> blen buf = cap -> blen src <= cap ->
  let dest := start mod cap in
  exists buf', copy_in buf src dest (opty_min_size (cap - dest) (blen src)) (blen src) = Done buf' /\
    blen buf' = cap /\
    (forall k, 0 <= k < blen src ->
       buf' !! Z.to_nat ((start + k) mod cap) = src !! Z.to_nat k) /\
    (forall i, 0 <= i < cap -> (forall k, 0 <= k < blen src -> (start + k) mod cap <> i) ->
       buf' !! Z.to_nat i = buf !! Z.to_nat i).
Proof.
  intros Hc Hb Hs dest. pose proof (Z.mod_pos_bound start cap Hc) as Hd. fold dest in Hd.
  destruct (copy_in_lookup cap buf src dest Hb Hs Hd) as (buf'&->&Hl&Hi).
  rewrite min_size_spec in Hi. exists buf'. split_and!; [done|done|..].
  - intros k Hk. rewrite mod_step by lia. fold dest.
    destruct (Z.ltb_spec (dest + k) cap); rewrite Hi by lia.
    + rewrite bool_decide_true by lia. f_equal. lia.
    + rewrite bool_decide_false, bool_decide_true by lia. f_equal. lia.
  - intros i Hr Hnot. rewrite Hi by done. repeat case_bool_decide; [..|done]; exfalso.
    + apply (Hnot (i - dest)); [lia|]. rewrite mod_step by lia. fold dest.
      destruct (Z.ltb_spec (dest + (i - dest)) cap); lia.
    + apply (Hnot (Z.min (cap - dest) (blen src) + i)); [lia|]. rewrite mod_step by lia. fold dest.
      destruct (Z.ltb_spec (dest + (Z.min (cap - dest) (blen src) + i)) cap); lia.
Qed.

(** *** [opty_ring_append] *)

(** The base [opty_ring_append] computes, 64-bit arithmetic and all. *)
Lemma append_base (cap : Z) (hist data : bytes) :
  0 < cap -> blen hist + blen data < 2 ^ 64 ->
  (if cap <? u64 (u64 (blen hist - log_base cap hist) + blen data)
   then u64 (u64 (blen hist + blen data) - cap) else log_base cap hist) =
  log_base cap (hist ++ data).
Proof.
  intros Hc Hb. pose proof (blen_nonneg hist). pose proof (blen_nonneg data).
  unfold log_base. rewrite blen_app.
  rewrite (u64_small (blen hist - _)), (u64_small (_ + blen data)), (u64_small (blen hist + _)) by lia.
  destruct (Z.ltb_spec cap (blen hist - Z.max 0 (blen hist - cap) + blen data)).
  - rewrite u64_small; lia.
  - lia.
Qed.

Lemma opty_ring_append_refines (r : opty_ring) (cap : Z) (hist data : bytes) :
  ring_repr r cap hist -> blen hist + blen data < 2 ^ 64 ->
  exists r', opty_ring_append r (Some data) (blen data) = Done (r', Some (blen hist)) /\
    ring_repr r' cap (hist ++ data).
Proof.
  intros (buf&Hbuf&Hcap&Hc&Hlb&Hnext&Hlt&Hbase&Hwin) Hbound.
  unfold opty_ring_append. rewrite Hbuf, Hcap, Hnext, Hbase.
  pose proof (blen_nonneg hist). pose proof (blen_nonneg data).
  destruct (Z.eqb_spec cap 0); [lia|].
  destruct (Z.eqb_spec (blen data) 0) as [Hd0|Hd0].
  { rewrite (blen_0 _ Hd0), app_nil_r. exists r. split; [done|].
    exists buf. split_and!; auto; lia. }
  rewrite !min_size_spec, append_base by lia.
  rewrite (u64_small (blen hist + blen data)), (u64_small (blen hist + _)) by lia.
  set (keep := Z.min (blen data) cap). set (start := blen hist + (blen data - keep)).
  rewrite sub_ok by lia. cbn -[copy_in Z.ltb]. set (src := take _ (drop _ data)).
  assert (blen src = keep) as Hsrc by (unfold src; blen_lia).
  destruct (copy_in_ok cap buf src start) as (buf'&Hcopy&Hlb'&Hnew&Hold); [lia..|].
  rewrite min_size_spec, Hsrc in Hcopy. rewrite Hcopy. cbn -[Z.ltb].
  eexists. split; [done|].
  exists buf'. rewrite blen_app. cbn. split_and!; try done; try lia.
  unfold log_base in *. rewrite blen_app. intros i Hi.
  destruct (decide (start <= i)) as [Hge|Hlt'].
  - replace (i mod cap) with ((start + (i - start)) mod cap) by (f_equal; lia).
    rewrite Hnew by lia. rewrite lookup_app_r by (unfold blen in *; lia).
    unfold src. rewrite lookup_take_lt, lookup_drop by lia. f_equal. unfold blen in *. lia.
  - rewrite lookup_app_l by (unfold blen in *; lia). rewrite <- Hwin by lia.
    apply Hold; [apply Z.mod_pos_bound; lia|]. intros k Hk Heq.
    apply (mod_distinct cap i (start + k)); [lia|lia|done].
Qed.

(** *** [opty_ring_snapshot_window] *)

(** Reading [n] slots from that of [from], in two runs. *)
Lemma copy_out_ok (cap : Z) (buf hist : bytes) (from n : Z) :
  0 < cap -> blen buf = cap -> 0 <= n <= cap -> 0 <= from -> from + n = blen hist ->
  (forall i : Z, from <= i < blen hist -> buf !! Z.to_nat (i mod cap) = hist !! Z.to_nat i) ->
  let idx := from mod cap in
  let first := opty_min_size (cap - idx) n in
  (head ← sub buf idx first;
   tail ← (if first <? n then sub buf 0 (n - first) else Done []);
   Done (head ++ tail)) = Done (log_since hist from).
Proof.
  intros Hc Hb Hn Hf Hlen Hwin idx first. unfold first. rewrite min_size_spec. clear first.
  pose proof (Z.mod_pos_bound from cap Hc) as Hidx. fold idx in Hidx.
  set (first := Z.min (cap - idx) n).
  rewrite (sub_ok buf idx first) by lia. cbn -[Z.ltb sub]. set (hd := take _ (drop _ buf)).
  assert (blen hd = first) as Hhd by (unfold hd; blen_lia).
  assert ((if first <? n then sub buf 0 (n - first) else Done []) =
          Done (take (Z.to_nat (n - first)) buf)) as ->.
  { destruct (Z.ltb_spec first n); [rewrite sub_ok by lia; by rewrite drop_0|].
    by replace (n - first) with 0 by lia. }
  cbn. f_equal. apply list_eq_same_length with (length (log_since hist from)); [done|..].
  { unfold log_since, hd. unfold blen in *. rewrite length_app, !length_take, !length_drop. lia. }
  intros i x y Hi Hx Hy. unfold log_since in *. rewrite lookup_drop in Hy.
  rewrite length_drop in Hi.
  pose proof (Hwin (from + Z.of_nat i)) as Hw. rewrite mod_step in Hw by (unfold blen in *; lia).
  fold idx in Hw.
  replace (Z.to_nat (from + Z.of_nat i)) with (Z.to_nat from + i)%nat in Hw by lia.
  rewrite Hy in Hw. cut (Some x = Some y); [congruence|].
  rewrite <- Hx, <- Hw by (unfold blen in *; lia). clear Hw Hx Hy.
  destruct (decide (Z.of_nat i < first)).
  - rewrite lookup_app_l by (unfold blen in *; lia). unfold hd.
    rewrite lookup_take_lt, lookup_drop by lia.
    destruct (Z.ltb_spec (idx + Z.of_nat i) cap); [|lia]. f_equal. lia.
  - rewrite lookup_app_r by (unfold blen in *; lia).
    replace (i - length hd)%nat with (Z.to_nat (Z.of_nat i - first)) by (unfold blen in *; lia).
    rewrite lookup_take_lt by (unfold blen in *; lia).
    destruct (Z.ltb_spec (idx + Z.of_nat i) cap); [unfold blen in *; lia|]. f_equal.
    unfold blen in *. lia.
Qed.

Lemma opty_ring_window_refines (malloc_ok : Z -> bool) (r : opty_ring) (cap : Z)
    (hist : bytes) (requested : Z) :
  ring_repr r cap hist ->
  opty_ring_snapshot_window malloc_ok r requested =
  Done (log_window malloc_ok cap hist requested).
Proof.
  intros (buf&Hbuf&Hcap&Hc&Hlb&Hnext&Hlt&Hbase&Hwin).
  unfold opty_ring_snapshot_window. rewrite Hbuf, Hcap, Hnext, Hbase.
  destruct (Z.eqb_spec cap 0); [lia|].
  pose proof (log_from_bounds cap hist requested ltac:(lia)) as Hfb.
  assert ((if requested <? log_base cap hist then log_base cap hist
           else if blen hist <? requested then blen hist else requested)
          = log_from cap hist requested) as ->.
  { unfold log_from, log_base in *. pose proof (blen_nonneg hist).
    destruct (Z.ltb_spec requested (Z.max 0 (blen hist - cap))); [lia|].
    destruct (Z.ltb_spec (blen hist) requested); lia. }
  set (from := log_from cap hist requested) in *.
  assert (log_base cap hist <= from) by (unfold from, log_from; lia).
  rewrite u64_small by lia.
  unfold log_window. fold from. rewrite log_since_length by done.
  destruct (Z.eqb_spec (blen hist - from) 0); [done|].
  destruct (malloc_ok (blen hist - from)); [|done]. cbn [negb orb].
  assert (forall i : Z, from <= i < blen hist ->
            buf !! Z.to_nat (i mod cap) = hist !! Z.to_nat i) as Hwin'
    by (intros; apply Hwin; lia).
  pose proof (copy_out_ok cap buf hist from (blen hist - from) ltac:(lia) Hlb
    ltac:(unfold log_base in *; lia) ltac:(lia) ltac:(lia) Hwin') as Hcopy.
  cbn zeta in Hcopy.
  destruct (sub buf (from mod cap) _) as [hd| |]; [|done..]. cbn -[Z.ltb sub] in Hcopy |- *.
  destruct (if _ <? _ then _ else _) as [tl| |]; [|done..]. cbn in Hcopy |- *.
  by injection Hcopy as ->.
Qed.

Lemma ring_repr_cap (r : opty_ring) (cap : Z) (hist : bytes) :
  ring_repr r cap hist -> 0 < cap /\ blen hist < 2 ^ 64.
Proof. intros (buf&?&?&?&?&?&?&_). lia. Qed.

(** *** The ring implements the interface *)

#[export] Instance ring_ops : ReplayOps opty_ring := {
  rb_append := opty_ring_append;
  rb_window := opty_ring_snapshot_window;
  rb_repr := ring_repr
}.

#[export] Instance ring_laws : ReplayLaws opty_ring.
Proof.
  split.
  - exact opty_ring_append_refines.
  - exact opty_ring_window_refines.
  - exact ring_repr_cap.
Qed.

Lemma ring_init_repr (buf : bytes) (cap : Z) :
  0 < cap <= SIZE_MAX -> blen buf = cap ->
  exists r, opty_ring_init (Some buf) None cap = Done r /\ ring_repr r cap [].
Proof.
  intros Hc Hl. unfold opty_ring_init. destruct (Z.eqb_spec cap 0); [lia|].
  eexists. split; [done|]. exists buf. cbn. unfold log_base, blen in *. cbn.
  split_and!; try done; lia.
Qed.

(** ** Properties *)

(** [C7] Appending any block, longer than the ring or not, never touches memory
    outside the two buffers, reports the old end of the stream as its start,
    and leaves a ring that holds the end of the longer stream (as long as fewer
    than 2^64 bytes were ever appended). *)
Theorem ring_append_correct (r : opty_ring) (cap : Z) (hist data : bytes) :
  ring_repr r cap hist -> blen hist + blen data < 2 ^ 64 ->
  exists r', opty_ring_append r (Some data) (blen data) = Done (r', Some (blen hist)) /\
    ring_repr r' cap (hist ++ data).
Proof. apply opty_ring_append_refines. Qed.

(** A ring of five bytes that holds nothing yet, for the examples. *)
Definition ring5 : opty_ring := Ring (Some (zeros 5)) 5 0 0.

Lemma ring5_repr : ring_repr ring5 5 [].
Proof.
  exists (zeros 5). unfold SIZE_MAX. split_and!; try done.
  intros i Hi. unfold log_base, blen in Hi. simpl in Hi. lia.
Defined.

Lemma ring_append_correct_witness :
  exists r', opty_ring_append ring5 (Some (cstr "abcdefghij")) 10 = Done (r', Some 0) /\
    ring_repr r' 5 (cstr "abcdefghij").
Proof.
  apply (ring_append_correct ring5 5 [] (cstr "abcdefghij")); [exact ring5_repr|by vm_compute].
Defined.

(** [C8] A snapshot is the stream from the requested sequence number on: a
    request older than the window starts at its base, one from the future at
    its end, and the copied block is exactly the bytes appended since. *)
Theorem ring_window_correct (malloc_ok : Z -> bool) (r : opty_ring) (cap : Z)
    (hist : bytes) (requested : Z) :
  ring_repr r cap hist ->
  opty_ring_snapshot_window malloc_ok r requested =
    Done (log_window malloc_ok cap hist requested) /\
  opty_ring_bounds r = Some (log_base cap hist, blen hist).
Proof.
  intros H. split; [by apply opty_ring_window_refines|].
  destruct H as (buf&Hbuf&Hcap&Hc&_&Hn&_&Hb&_). unfold opty_ring_bounds.
  rewrite Hbuf, Hcap, Hb, Hn. by destruct (Z.eqb_spec cap 0); [lia|].
Qed.

(** The same ring after "abcdefghij": it wraps, and holds the last five bytes. *)
Definition ring5_full : opty_ring :=
  match opty_ring_append ring5 (Some (cstr "abcdefghij")) 10 with Done (r, _) => r | _ => ring5 end.

Lemma ring5_full_repr : ring_repr ring5_full 5 (cstr "abcdefghij").
Proof.
  destruct (opty_ring_append_refines ring5 5 [] (cstr "abcdefghij")) as (r&Hr&H);
    [exact ring5_repr|by vm_compute|].
  change (blen (cstr "abcdefghij")) with 10 in Hr. unfold ring5_full. rewrite Hr. exact H.
Qed.

(** A request before the window is served from its base, one inside from where it is. *)
Example ring5_full_windows :
  opty_ring_snapshot_window (fun _ => true) ring5_full 2 =
    Done (Window 5 5 10 5 (Some (cstr "fghij"))) /\
  opty_ring_snapshot_window (fun _ => true) ring5_full 7 =
    Done (Window 5 7 10 3 (Some (cstr "hij"))).
Proof. split; vm_compute; reflexivity. Qed.

Lemma ring_window_correct_witness :
  opty_ring_snapshot_window (fun _ => true) ring5_full 7 =
    Done (log_window (fun _ => true) 5 (cstr "abcdefghij") 7) /\
  opty_ring_bounds ring5_full = Some (log_base 5 (cstr "abcdefghij"), blen (cstr "abcdefghij")).
Proof.
  apply (ring_window_correct (fun _ => true) ring5_full 5 (cstr "abcdefghij") 7 ring5_full_repr).
Defined.

(** The reads of the PTY thread, appended one after the other. *)
Fixpoint ring_appends (r : opty_ring) (chunks : list bytes) : outcome opty_ring :=
  match chunks with
  | [] => Done r
  | c :: rest =>
      '(r', _) ← opty_ring_append r (Some c) (blen c);
      ring_appends r' rest
  end.

Lemma ring_appends_repr (chunks : list bytes) (r : opty_ring) (cap : Z) (hist : bytes) :
  ring_repr r cap hist -> blen hist + blen (concat chunks) < 2 ^ 64 ->
  exists r', ring_appends r chunks = Done r' /\ ring_repr r' cap (hist ++ concat chunks).
Proof.
  revert r hist. induction chunks as [|c chunks IH]; intros r hist Hr Hb; simpl in *.
  { exists r. by rewrite app_nil_r. }
  rewrite blen_app in Hb. pose proof (blen_nonneg (concat chunks)).
  destruct (opty_ring_append_refines r cap hist c) as (r1&->&Hr1); [done|lia|].
  destruct (IH r1 (hist ++ c)) as (r2&?&?); [done|rewrite blen_app; lia|].
  exists r2. by rewrite app_assoc.
Qed.

(** A reader who has seen the first [q] bytes of the output loses nothing
    and sees nothing twice when it asks for the rest, provided at most [cap]
    bytes came since; whatever the chunks the output came in.  Further behind,
    it gets the last [cap] bytes and is told where they start. *)
Theorem ring_resume (r : opty_ring) (cap q : Z) (chunks : list bytes) :
  ring_repr r cap [] -> blen (concat chunks) < 2 ^ 64 -> 0 <= q <= blen (concat chunks) ->
  let all := concat chunks in
  exists r' w, ring_appends r chunks = Done r' /\
    opty_ring_snapshot_window (fun _ => true) r' q = Done w /\
    w_next w = blen all /\
    (blen all - cap <= q -> w_from w = q /\ take (Z.to_nat q) all ++ default [] (w_data w) = all) /\
    (q < blen all - cap -> w_from w = blen all - cap /\
       default [] (w_data w) = drop (Z.to_nat (blen all - cap)) all).
Proof.
  intros Hr Hb Hq all. destruct (ring_appends_repr chunks r cap [] Hr) as (r'&Happ&Hr');
    [by rewrite Z.add_0_l|].
  simpl in Hr'. fold all in Hr', Hb, Hq.
  exists r', (log_window (fun _ => true) cap all q).
  split_and!; [done|by apply opty_ring_window_refines|done|..].
  all: intros Hcap; unfold log_window; cbn [w_from w_data];
    pose proof (ring_repr_cap r' cap all Hr') as Hc.
  all: assert (forall d : bytes, default [] (if (blen d =? 0) || negb true then None else Some d) = d)
    as Hdef by (intros d; destruct (Z.eqb_spec (blen d) 0) as [Hz|]; [by rewrite (blen_0 d Hz)|done]).
  all: rewrite Hdef; clear Hdef.
  - rewrite log_from_resume by lia. split; [done|apply take_drop].
  - assert (log_from cap all q = blen all - cap) as -> by (unfold log_from, log_base; lia). done.
Qed.

Lemma ring_resume_witness :
  let all := concat [cstr "abc"; cstr "defghij"] in
  exists r' w, ring_appends ring5 [cstr "abc"; cstr "defghij"] = Done r' /\
    opty_ring_snapshot_window (fun _ => true) r' 7 = Done w /\
    w_next w = blen all /\
    (blen all - 5 <= 7 -> w_from w = 7 /\ take (Z.to_nat 7) all ++ default [] (w_data w) = all) /\
    (7 < blen all - 5 -> w_from w = blen all - 5 /\
       default [] (w_data w) = drop (Z.to_nat (blen all - 5)) all).
Proof.
  apply (ring_resume ring5 5 7 [cstr "abc"; cstr "defghij"]);
    [exact ring5_repr|by vm_compute|by vm_compute].
Defined.

(** The scenario of tests/protocol_ring_test.c. *)
Example ring_test_scenario :
  (r' ← ring_appends ring5 [cstr "abc"; cstr "defghij"];
   w ← opty_ring_snapshot_window (fun _ => true) r' 2;
   Done (opty_ring_bounds r', w)) =
  Done (Some (5, 10), Window 5 5 10 5 (Some (cstr "fghij"))).
Proof. reflexivity. Qed.
