(* ===== verification/Child.v ===== *)
(** * The child process (src/src/server.c: server_poll_child_locked,
    server_wait_child_deadline, server_wait_child_blocking, server_signal_child) *)

From S2P Require Import Prelude.

(** What the coming [waitpid] calls find.  [WaitNone] is a child still running:
    a [WNOHANG] call returns 0 there, a blocking one waits for what follows.  Past
    the end of the script the child has exited with status 0. *)
Inductive wait_ev :=
| WaitExit (status : Z)
| WaitNone
| WaitErr (e : errno).

Inductive signal := SIGHUP | SIGTERM | SIGKILL.

(** The child's part of [struct server], the kernel's script, and what was done
    to the child so far: the signals sent and the milliseconds slept. *)
Record child_state := Child {
  child_pid : Z;
  child_reaped : bool;
  child_status : Z;
  waits : list wait_ev;
  kills : list signal;
  slept : Z
}.

Definition OPTY_STOP_GRACE_MS : Z := 2000.
Definition OPTY_STOP_SIGNAL_GRACE_MS : Z := 1000.

Definition set_waits (ws : list wait_ev) (c : child_state) : child_state :=
  Child (child_pid c) (child_reaped c) (child_status c) ws (kills c) (slept c).
Definition set_reaped (status : Z) (ws : list wait_ev) (c : child_state) : child_state :=
  Child (child_pid c) true status ws (kills c) (slept c).

(** [server_sleep_millis]: interrupted sleeps are resumed, so it sleeps that long. *)
Definition server_sleep_millis (millis : Z) (c : child_state) : child_state :=
  Child (child_pid c) (child_reaped c) (child_status c) (waits c) (kills c) (slept c + millis).

(** The [WNOHANG] loop of [server_poll_child_locked]. *)
Fixpoint poll_loop (ws : list wait_ev) (c : child_state) : Z * child_state :=
  match ws with
  | [] => (1, set_reaped 0 [] c)
  | WaitExit status :: ws' => (1, set_reaped status ws' c)
  | WaitNone :: ws' => (0, set_waits ws' c)
  | WaitErr EINTR :: ws' => poll_loop ws' c
  | WaitErr ECHILD :: ws' => (1, set_reaped (child_status c) ws' c)
  | WaitErr _ :: ws' => (-1, set_waits ws' c)
  end.

Definition server_poll_child_locked (c : child_state) : Z * child_state :=
  if child_reaped c || (child_pid c <=? 0) then (1, c)
  else poll_loop (waits c) c.

(** One unit of fuel per poll. *)
Fixpoint wait_deadline_loop (fuel : nat) (millis waited : Z) (c : child_state)
    : outcome (Z * child_state) :=
  match fuel with
  | O => UB
  | S fuel' =>
      let '(done, c) := server_poll_child_locked c in
      if negb (done =? 0) then Done (if 0 <? done then 1 else -1, c)
      else if millis <=? waited then Done (0, c)
      else wait_deadline_loop fuel' millis (waited + 50) (server_sleep_millis 50 c)
  end.

Definition server_wait_child_deadline (millis : Z) (c : child_state)
    : outcome (Z * child_state) :=
  wait_deadline_loop (Z.to_nat (millis / 50) + 2) millis 0 c.

(** The blocking [waitpid] loop: a running child is waited for. *)
Fixpoint blocking_loop (ws : list wait_ev) (c : child_state) : child_state :=
  match ws with
  | [] => set_reaped 0 [] c
  | WaitExit status :: ws' => set_reaped status ws' c
  | WaitNone :: ws' | WaitErr EINTR :: ws' => blocking_loop ws' c
  | WaitErr ECHILD :: ws' => set_reaped (child_status c) ws' c
  | WaitErr _ :: ws' => set_waits ws' c
  end.

Definition server_wait_child_blocking (c : child_state) : child_state :=
  if negb (child_reaped c) && (0 <? child_pid c) then blocking_loop (waits c) c else c.

Definition server_signal_child (signo : signal) (c : child_state) : child_state :=
  if negb (child_reaped c) && (0 <? child_pid c)
  then Child (child_pid c) (child_reaped c) (child_status c) (waits c)
             (kills c ++ [signo]) (slept c)
  else c.

(** The escalation inside [server_request_shutdown]. *)
Definition stop_child (c : child_state) : outcome child_state :=
  '(done, c) ← server_wait_child_deadline OPTY_STOP_GRACE_MS c;
  '(done, c) ← (if done =? 0
                then server_wait_child_deadline OPTY_STOP_SIGNAL_GRACE_MS
                       (server_signal_child SIGHUP c)
                else Done (done, c));
  '(done, c) ← (if done =? 0
                then server_wait_child_deadline OPTY_STOP_SIGNAL_GRACE_MS
                       (server_signal_child SIGTERM c)
                else Done (done, c));
  Done (if done =? 0 then server_wait_child_blocking (server_signal_child SIGKILL c) else c).

(** ** Polling *)

(** A [waitpid] that fails for no reason the code handles. *)
Definition benign_wait (ev : wait_ev) : Prop :=
  match ev with WaitErr e => e = EINTR \/ e = ECHILD | _ => True end.

(** What waiting leaves alone. *)
Definition same_child (c c' : child_state) : Prop :=
  child_pid c' = child_pid c /\ kills c' = kills c.

Lemma poll_loop_spec (ws : list wait_ev) (c c' : child_state) (d : Z) :
  poll_loop ws c = (d, c') ->
  same_child c c' /\ slept c' = slept c /\
  ((d = 1 /\ child_reaped c' = true) \/
   (d = 0 /\ child_reaped c' = child_reaped c) \/
   (d = -1 /\ ~ Forall benign_wait ws)) /\
  (Forall benign_wait ws -> Forall benign_wait (waits c')).
Proof.
  revert c. induction ws as [|ev ws IH]; intros c H; simpl in H.
  { simplify_eq. unfold same_child. simpl. auto 10. }
  destruct ev as [st| |e].
  - simplify_eq. unfold same_child. simpl. split_and!; auto. by inversion 1.
  - simplify_eq. unfold same_child. simpl. split_and!; auto. by inversion 1.
  - assert (forall P, P -> (Forall benign_wait (WaitErr e :: ws) -> P)) as _ by auto.
    destruct e; simplify_eq; unfold same_child; simpl;
      try (split_and!; auto; [right; right; split; [done|inversion 1 as [|? ? Hb]; by destruct Hb]
                             |by inversion 1]).
    + destruct (IH c H) as (?&?&Hd&Hw). split_and!; auto; [by destruct H0..| |].
      * destruct Hd as [?|[?|[? Hn]]]; auto. right; right. split; [done|].
        intros Hf. apply Hn. by inversion Hf.
      * inversion 1. auto.
    + split_and!; auto. by inversion 1.
Qed.

(** A child that was forked and not reaped yet. *)
Definition running (c : child_state) : Prop := child_reaped c = false /\ 0 < child_pid c.

#[export] Instance running_dec (c : child_state) : Decision (running c).
Proof. unfold running. apply _. Defined.

Lemma server_poll_child_locked_spec (c c' : child_state) (d : Z) :
  server_poll_child_locked c = (d, c') ->
  same_child c c' /\ slept c' = slept c /\
  ((d = 1 /\ (child_reaped c' = true \/ child_pid c' <= 0)) \/ (d = 0 /\ running c') \/
   (d = -1 /\ ~ Forall benign_wait (waits c))) /\
  (Forall benign_wait (waits c) -> Forall benign_wait (waits c')) /\
  (child_reaped c = true \/ child_pid c <= 0 -> d = 1 /\ c' = c).
Proof.
  unfold server_poll_child_locked. intros H.
  destruct (child_reaped c) eqn:Hr; simpl in H.
  { simplify_eq. unfold same_child. split_and!; auto. }
  destruct (Z.leb_spec (child_pid c) 0).
  { simplify_eq. unfold same_child. split_and!; auto. }
  destruct (poll_loop_spec _ _ _ _ H) as (?&?&Hd&?). split_and!; auto.
  - destruct Hd as [[??]|[[? Hc]|[??]]]; auto. right; left. split; [done|].
    destruct H1 as [Hp _]. unfold running. rewrite Hc, Hp. auto.
  - intros [?|?]; [done|lia].
Qed.

(** ** Waiting with a deadline

    The loop sleeps in slices of 50 ms; a result of 0 means that the whole time
    was spent. *)
Definition deadline_post (millis : Z) (c c' : child_state) (d : Z) : Prop :=
  same_child c c' /\ slept c <= slept c' <= slept c + millis /\
  ((d = 1 /\ (child_reaped c' = true \/ child_pid c' <= 0)) \/
   (d = 0 /\ slept c' = slept c + millis /\ running c') \/
   (d = -1 /\ ~ Forall benign_wait (waits c))) /\
  (Forall benign_wait (waits c) -> Forall benign_wait (waits c')) /\
  (child_reaped c = true \/ child_pid c <= 0 -> d = 1 /\ c' = c).

Lemma wait_deadline_loop_spec (fuel : nat) (n : nat) (waited : Z) (c : child_state) :
  (n < fuel)%nat ->
  exists d c', wait_deadline_loop fuel (waited + 50 * Z.of_nat n) waited c = Done (d, c') /\
    deadline_post (50 * Z.of_nat n) c c' d.
Proof.
  revert n waited c. induction fuel as [|fuel IH]; intros n waited c Hf; [lia|].
  cbn [wait_deadline_loop].
  destruct (server_poll_child_locked c) as [d c1] eqn:Hp.
  destruct (server_poll_child_locked_spec _ _ _ Hp) as (Hs&Hsl&Hd&Hb&Hr).
  destruct (Z.eqb_spec d 0) as [->|Hd0]; cbn [negb].
  - destruct (Z.leb_spec (waited + 50 * Z.of_nat n) waited).
    { exists 0, c1. split; [done|]. unfold deadline_post. split_and!; auto; [lia..|].
      right; left. destruct Hd as [[??]|[[??]|[??]]]; [done|split_and!; auto; lia|done]. }
    destruct n as [|n]; [lia|].
    destruct (IH n (waited + 50) (server_sleep_millis 50 c1)) as (d&c2&He&Hs2&Hsl2&Hd2&Hb2&_);
      [lia|].
    exists d, c2. replace (waited + 50 * Z.of_nat (S n)) with (waited + 50 + 50 * Z.of_nat n) by lia.
    split; [done|]. unfold deadline_post, same_child in *. simpl in *.
    destruct Hs2, Hs. split_and!; auto; try congruence; try lia.
    + destruct Hd2 as [?|[(?&?&?)|[??]]]; [auto|right; left; split_and!; auto; lia|].
      right; right. split; [done|]. intros Hw. auto.
    + intros Hx. by destruct (Hr Hx).
  - exists (if 0 <? d then 1 else -1), c1. split; [done|].
    unfold deadline_post. split_and!; auto; try lia.
    + destruct Hd as [[-> ?]|[[-> ?]|[-> ?]]]; simpl; auto. done.
    + intros Hx. by destruct (Hr Hx) as [-> ->].
Qed.

Lemma server_wait_child_deadline_spec (n : nat) (c : child_state) :
  exists d c', server_wait_child_deadline (50 * Z.of_nat n) c = Done (d, c') /\
    deadline_post (50 * Z.of_nat n) c c' d.
Proof.
  unfold server_wait_child_deadline.
  apply (wait_deadline_loop_spec _ n 0 c).
  rewrite Z.mul_comm, Z.div_mul by lia. lia.
Qed.

(** ** Waiting without one *)

Lemma blocking_loop_spec (ws : list wait_ev) (c : child_state) :
  let c' := blocking_loop ws c in
  same_child c c' /\ slept c' = slept c /\
  (Forall benign_wait ws -> child_reaped c' = true).
Proof.
  cbv zeta. revert c. induction ws as [|ev ws IH]; intros c; simpl; [by unfold same_child|].
  destruct (IH c) as (Hs&Hsl&Hb).
  destruct ev as [st| |[]]; (split; [done|]); (split; [done|]); inversion 1 as [|?? He]; auto;
    by destruct He.
Qed.

Lemma server_wait_child_blocking_spec (c : child_state) :
  let c' := server_wait_child_blocking c in
  same_child c c' /\ slept c' = slept c /\
  (Forall benign_wait (waits c) -> child_reaped c' = true \/ child_pid c' <= 0) /\
  (child_reaped c = true \/ child_pid c <= 0 -> c' = c).
Proof.
  unfold server_wait_child_blocking. cbv zeta.
  destruct (child_reaped c) eqn:Hr; simpl; [by unfold same_child; auto|].
  destruct (Z.ltb_spec 0 (child_pid c)); [|unfold same_child; auto 10].
  destruct (blocking_loop_spec (waits c) c) as (?&?&?). split_and!; auto.
  intros [?|?]; [done|lia].
Qed.

(** ** Properties *)

(** The escalation, and how long the server has waited before each signal. *)
Definition escalation : list signal := [SIGHUP; SIGTERM; SIGKILL].
Definition grace (n : nat) : Z :=
  match n with O => 0 | 1%nat => 2000 | 2%nat => 3000 | _ => 4000 end.

(** Signalling a running child and waiting [n] slices more. *)
Lemma escalate_step (signo : signal) (n : nat) (c : child_state) :
  running c ->
  exists d c', server_wait_child_deadline (50 * Z.of_nat n) (server_signal_child signo c) =
      Done (d, c') /\
    child_pid c' = child_pid c /\ kills c' = kills c ++ [signo] /\
    slept c <= slept c' <= slept c + 50 * Z.of_nat n /\
    (d = 0 -> slept c' = slept c + 50 * Z.of_nat n /\ running c') /\
    (Forall benign_wait (waits c) ->
     Forall benign_wait (waits c') /\ (d = 0 \/ child_reaped c' = true)).
Proof.
  intros [Hr Hpid]. destruct (server_wait_child_deadline_spec n (server_signal_child signo c))
    as (d&c'&He&Hp). exists d, c'. split; [done|]. revert Hp.
  unfold server_signal_child, deadline_post.
  rewrite Hr. destruct (Z.ltb_spec 0 (child_pid c)); [simpl|lia].
  intros ([Hp Hk]&Hsl&Hd&Hb&_). simpl in *. split_and!; auto; try lia.
  - intros ->. destruct Hd as [[??]|[(?&?&?)|[??]]]; done.
  - intros Hw. split; [auto|]. destruct Hd as [[_ [?|?]]|[(?&?&?)|[_ ?]]]; auto; first [lia|done].
Qed.

(** After [n] signals to the child of [c], where [d] is the last poll's result. *)
Definition stage (c : child_state) (n : nat) (d : Z) (c' : child_state) : Prop :=
  child_pid c' = child_pid c /\ kills c' = kills c ++ take n escalation /\
  slept c + grace n <= slept c' <= slept c + grace (S n) /\
  (d = 0 -> slept c' = slept c + grace (S n) /\ running c') /\
  (Forall benign_wait (waits c) ->
   Forall benign_wait (waits c') /\ (d = 0 \/ child_reaped c' = true)).

Lemma stage_first (c : child_state) :
  running c ->
  exists d c', server_wait_child_deadline OPTY_STOP_GRACE_MS c = Done (d, c') /\ stage c 0 d c'.
Proof.
  intros Hrun. destruct (server_wait_child_deadline_spec 40 c) as (d&c'&He&[Hp Hk]&Hsl&Hd&Hb&_).
  change (50 * Z.of_nat 40) with 2000 in *. exists d, c'. split; [done|].
  unfold stage. rewrite app_nil_r. simpl. destruct Hrun. split_and!; auto; try lia.
  - intros ->. destruct Hd as [[??]|[(?&?&?)|[??]]]; done.
  - intros Hw. split; [auto|]. destruct Hd as [[_ [?|?]]|[(?&?&?)|[_ ?]]]; auto; first [lia|done].
Qed.

Lemma stage_next (c c1 : child_state) (n : nat) (signo : signal) :
  stage c n 0 c1 -> (n < 2)%nat -> escalation !! n = Some signo ->
  exists d c', server_wait_child_deadline OPTY_STOP_SIGNAL_GRACE_MS
      (server_signal_child signo c1) = Done (d, c') /\ stage c (S n) d c'.
Proof.
  intros (Hp&Hk&Hsl&H0&Hb) Hn Hs. destruct H0 as [Hs0 Hrun]; [done|].
  destruct (escalate_step signo 20 c1 Hrun) as (d&c'&He&Hp'&Hk'&Hsl'&H0'&Hb').
  change (50 * Z.of_nat 20) with 1000 in *. exists d, c'. split; [done|].
  assert (grace (S (S n)) = grace (S n) + 1000) as Hg by (destruct n as [|[|]]; [done..|lia]).
  unfold stage. rewrite Hg. split_and!; try congruence; try lia.
  - rewrite Hk', Hk, (take_S_r _ _ signo) by done. by rewrite app_assoc.
  - intros Hd. destruct (H0' Hd). split; [lia|done].
  - naive_solver.
Qed.

Lemma stop_child_stopped (c : child_state) : ~ running c -> stop_child c = Done c.
Proof.
  intros Hn. unfold stop_child.
  destruct (server_wait_child_deadline_spec 40 c) as (d&c1&He&_&_&_&_&Hr).
  change (50 * Z.of_nat 40) with 2000 in *. change OPTY_STOP_GRACE_MS with 2000. rewrite He.
  destruct Hr as [-> ->]; [|done].
  destruct (child_reaped c) eqn:E; [by left|right]. unfold running in Hn. rewrite E in Hn. lia.
Qed.

Lemma stop_child_running (c : child_state) :
  running c ->
  exists c' n, stop_child c = Done c' /\ kills c' = kills c ++ take n escalation /\
    (n <= 3)%nat /\ slept c + grace n <= slept c' <= slept c + grace (S n) /\
    (Forall benign_wait (waits c) -> child_reaped c' = true).
Proof.
  intros Hrun.
  assert (forall n d c', stage c n d c' -> d <> 0 -> (n <= 2)%nat ->
    kills c' = kills c ++ take n escalation /\ (n <= 3)%nat /\
    slept c + grace n <= slept c' <= slept c + grace (S n) /\
    (Forall benign_wait (waits c) -> child_reaped c' = true)) as Hdone.
  { intros n d c' (_&?&?&_&?) ??. split_and!; auto; try lia. naive_solver. }
  destruct (stage_first c Hrun) as (d&c1&He&H1). unfold stop_child. rewrite He. simpl.
  destruct (Z.eqb_spec d 0) as [->|Hd]; simpl.
  2: { destruct (Z.eqb_spec d 0); [done|]. simpl. destruct (Z.eqb_spec d 0); [done|]. eauto 10. }
  destruct (stage_next c c1 0 SIGHUP) as (d&c2&He2&H2); [done|lia|done|]. rewrite He2. simpl.
  destruct (Z.eqb_spec d 0) as [->|Hd]; simpl.
  2: { destruct (Z.eqb_spec d 0); [done|]. eauto 10. }
  destruct (stage_next c c2 1 SIGTERM) as (d&c3&He3&H3); [done|lia|done|]. rewrite He3. simpl.
  destruct (Z.eqb_spec d 0) as [->|Hd]; [|eauto 10].
  destruct H3 as (Hp&Hk&Hsl&[Hs0 [Hr Hpid]]&Hb); [done|].
  eexists _, 3%nat. split; [done|].
  unfold server_signal_child. rewrite Hr. destruct (Z.ltb_spec 0 (child_pid c3)); [simpl|lia].
  match goal with |- context [server_wait_child_blocking ?x] =>
    destruct (server_wait_child_blocking_spec x) as ([Hp4 Hk4]&Hs4&Hb4&_);
    set (c4 := server_wait_child_blocking x) in *; clearbody c4 end.
  simpl in *. rewrite Hk4, Hs4, Hk. split_and!; [by rewrite <- app_assoc|lia..|].
  intros Hw. destruct (Hb Hw) as [Hw3 _]. destruct Hb4; [done..|lia].
Qed.

(** [C31] Stopping the child always ends, and it is gentle: an already reaped child
    is left alone; otherwise the signals sent are SIGHUP, SIGTERM, SIGKILL in that
    order and no more of them than needed, the first after two seconds of grace,
    the next ones a second apart, never more than four seconds in all; and when
    [waitpid] fails only for EINTR or ECHILD the child is reaped at the end. *)
Theorem stop_child_escalates (c : child_state) :
  exists c' n, stop_child c = Done c' /\
    (running c -> kills c' = kills c ++ take n escalation) /\ (n <= 3)%nat /\
    (running c -> slept c + grace n <= slept c' <= slept c + grace (S n)) /\
    (~ running c -> c' = c) /\
    (running c -> Forall benign_wait (waits c) -> child_reaped c' = true).
Proof.
  destruct (decide (running c)) as [Hrun|Hn].
  - destruct (stop_child_running c Hrun) as (c'&n&?&?&?&?&?). exists c', n. naive_solver.
  - exists c, 0%nat. rewrite stop_child_stopped by done. split_and!; try done; naive_solver lia.
Qed.

Lemma stop_child_escalates_witness :
  let c := Child 7 false 0 (repeat WaitNone 42 ++ [WaitErr EINTR; WaitExit 256]) [] 0 in
  exists c' n, stop_child c = Done c' /\
    (running c -> kills c' = kills c ++ take n escalation) /\ (n <= 3)%nat /\
    (running c -> slept c + grace n <= slept c' <= slept c + grace (S n)) /\
    (~ running c -> c' = c) /\
    (running c -> Forall benign_wait (waits c) -> child_reaped c' = true).
Proof. intros c. apply (stop_child_escalates c). Defined.
