(* ===== verification/Server.v ===== *)
(** * The server: clients, broadcast, attach (src/src/server.c)

    [struct client] objects live in a heap indexed by address; reading one that
    is not there (never allocated, or freed) is undefined behaviour, the [None]
    of [srvM].  C return codes are kept as integers.  The code that runs under
    one mutex is one definition, so that System.v can interleave the definitions
    the way the threads do; the C functions that take several locks are the
    composition of those definitions. *)

From stdpp Require Import gmap.
From S2P Require Import Prelude.
From S2P Require Import Io.
From S2P Require Import Wire.
From S2P Require Import Messages.
From S2P Require Import Replay.
From S2P Require Import Child.

(** ** State *)

(** The address of a [struct client]. *)
Definition cid := nat.

(** [struct client]; [sock] is the connection behind [fd]. *)
Record client := Client {
  refs : nat;
  in_list : bool;
  dead : bool;
  authenticated : bool;
  live_seq : Z;
  sock : stream
}.

(** The PTY master: a descriptor, its window size, and what the coming
    [TIOCSWINSZ] requests return (an exhausted script: success). *)
Record pty := Pty {
  p_io : stream;
  p_cols : Z;
  p_rows : Z;
  p_ioctl : list bool
}.

Record server (R : Type) := Server {
  clients : list cid;
  heap : gmap cid client;
  ring : R;
  master : pty;
  child : child_state;
  listening : bool;                 (* listen_fd >= 0 *)
  token : option bytes;             (* 256-byte buffers, or NULL *)
  control_token : option bytes
}.
Arguments Server {R}.
Arguments clients {R}.
Arguments heap {R}.
Arguments ring {R}.
Arguments master {R}.
Arguments child {R}.
Arguments listening {R}.
Arguments token {R}.
Arguments control_token {R}.

Definition set_refs (n : nat) (cl : client) : client :=
  Client n (in_list cl) (dead cl) (authenticated cl) (live_seq cl) (sock cl).
Definition set_in_list (b : bool) (cl : client) : client :=
  Client (refs cl) b (dead cl) (authenticated cl) (live_seq cl) (sock cl).
Definition set_dead (b : bool) (cl : client) : client :=
  Client (refs cl) (in_list cl) b (authenticated cl) (live_seq cl) (sock cl).
Definition set_attached (seq : Z) (cl : client) : client :=
  Client (refs cl) (in_list cl) (dead cl) true seq (sock cl).
Definition set_live_seq (seq : Z) (cl : client) : client :=
  Client (refs cl) (in_list cl) (dead cl) (authenticated cl) seq (sock cl).
Definition set_sock (s : stream) (cl : client) : client :=
  Client (refs cl) (in_list cl) (dead cl) (authenticated cl) (live_seq cl) s.

(** ** Tokens *)

(** [server_store_token(dst, cap, src)]: [memset] then [memcpy] of [strlen(src)]
    bytes. *)
Definition server_store_token (cap : Z) (src : bytes) : outcome bytes :=
  blit (zeros cap) 0 src.

(** The loop of [server_tokens_equal] over the indices from [i] on. *)
Fixpoint tokens_diff (n : nat) (i : Z) (expected actual : bytes) (diff : Z) : outcome Z :=
  match n with
  | O => Done diff
  | S n' =>
      e ← byte_at expected i;
      a ← byte_at actual i;
      tokens_diff n' (i + 1) expected actual
        (Z.lor diff (Z.land (Z.lxor (b2z e) (b2z a)) 255))
  end.

Definition server_tokens_equal (expected actual : option bytes) : outcome bool :=
  match expected, actual with
  | Some e, Some a =>
      diff ← tokens_diff (Z.to_nat (OPTY_MAX_TOKEN + 1)) 0 e a 0;
      Done (diff =? 0)
  | _, _ => Done false
  end.

Section Server.

Context {R : Type} `{!ReplayOps R}.

(** Whether [malloc] of that many bytes, [calloc] of that many client pointers
    succeeds. *)
Variable malloc_ok : Z -> bool.
Variable calloc_ok : Z -> bool.

(** ** Computations on the server *)

Definition srvM (A : Type) : Type := server R -> option (A * server R).

#[export] Instance srv_ret : MRet srvM := fun A a s => Some (a, s).
#[export] Instance srv_bind : MBind srvM := fun A B f m s =>
  match m s with
  | Some (a, s') => f a s'
  | None => None
  end.

Definition set_clients (l : list cid) (s : server R) : server R :=
  Server l (heap s) (ring s) (master s) (child s) (listening s) (token s) (control_token s).
Definition set_heap (h : gmap cid client) (s : server R) : server R :=
  Server (clients s) h (ring s) (master s) (child s) (listening s) (token s) (control_token s).
Definition set_ring (r : R) (s : server R) : server R :=
  Server (clients s) (heap s) r (master s) (child s) (listening s) (token s) (control_token s).
Definition set_master (p : pty) (s : server R) : server R :=
  Server (clients s) (heap s) (ring s) p (child s) (listening s) (token s) (control_token s).
Definition set_child (c : child_state) (s : server R) : server R :=
  Server (clients s) (heap s) (ring s) (master s) c (listening s) (token s) (control_token s).
Definition set_listening (b : bool) (s : server R) : server R :=
  Server (clients s) (heap s) (ring s) (master s) (child s) b (token s) (control_token s).

(** [*c] and [*c = cl]. *)
Definition get_client (c : cid) : srvM client := fun s =>
  match heap s !! c with Some cl => Some (cl, s) | None => None end.

Definition put_client (c : cid) (cl : client) : srvM unit := fun s =>
  match heap s !! c with
  | Some _ => Some (tt, set_heap (<[c := cl]> (heap s)) s)
  | None => None
  end.

(** An I/O computation on the client's descriptor, as its return code. *)
Definition on_sock (c : cid) (m : io unit) : srvM Z :=
  cl ← get_client c;
  match m (sock cl) with
  | (Done _, sk) => put_client c (set_sock sk cl);; mret 0
  | (Fail _, sk) => put_client c (set_sock sk cl);; mret (-1)
  | (UB, _) => fun _ => None
  end.

(** ** Reference counts *)

(** Closes the descriptor and frees the object. *)
Definition client_free (c : cid) : srvM unit := fun s =>
  match heap s !! c with
  | Some _ => Some (tt, set_heap (delete c (heap s)) s)
  | None => None
  end.

Definition client_release_locked (c : cid) : srvM Z :=
  cl ← get_client c;
  if (refs cl =? 0)%nat then mret 0
  else
    let n := (refs cl - 1)%nat in
    put_client c (set_refs n cl);;
    if (n =? 0)%nat then client_free c;; mret 1 else mret 0.

Fixpoint client_release_many_locked (c : cid) (n : nat) : srvM unit :=
  match n with
  | O => mret tt
  | S n' =>
      freed ← client_release_locked c;
      if freed =? 0 then client_release_many_locked c n' else mret tt
  end.

(** The walk along the [next] pointers that unlinks [c]. *)
Fixpoint unlink (h : gmap cid client) (l : list cid) (c : cid) : option (list cid) :=
  match l with
  | [] => Some []
  | x :: rest =>
      if decide (x = c) then Some rest
      else match h !! x with
           | Some _ => rest' ← unlink h rest c; Some (x :: rest')
           | None => None
           end
  end.

Definition server_drop_from_list_locked (c : cid) : srvM Z :=
  cl ← get_client c;
  if negb (in_list cl) then mret 0
  else
    (fun s => match unlink (heap s) (clients s) c with
              | Some l => Some (tt, set_clients l s)
              | None => None
              end);;
    put_client c (set_in_list false cl);;
    mret 1.

Definition server_mark_dead_locked (c : cid) : srvM Z :=
  cl ← get_client c;
  (if dead cl then mret tt
   else put_client c (set_sock (sys_shutdown (sock cl)) (set_dead true cl)));;
  server_drop_from_list_locked c.

(** ** Snapshots *)

(** The clients of the list that are authenticated and not dead. *)
Fixpoint live_clients (h : gmap cid client) (l : list cid) : option (list cid) :=
  match l with
  | [] => Some []
  | c :: rest =>
      match h !! c with
      | Some cl =>
          live ← live_clients h rest;
          Some (if authenticated cl && negb (dead cl) then c :: live else live)
      | None => None
      end
  end.

Fixpoint take_refs (l : list cid) : srvM unit :=
  match l with
  | [] => mret tt
  | c :: rest =>
      cl ← get_client c;
      put_client c (set_refs (S (refs cl)) cl);;
      take_refs rest
  end.

(** The returned array ([None] is [NULL]) and [*count_out]. *)
Definition server_snapshot_clients : srvM (option (list cid) * Z) := fun s =>
  match live_clients (heap s) (clients s) with
  | None => None
  | Some live =>
      let count := Z.of_nat (length live) in
      if count =? 0 then Some ((None, 0), s)
      else if negb (calloc_ok count) then Some ((None, 0), s)
      else (take_refs live;; mret (Some live, count)) s
  end.

Fixpoint release_all (l : list cid) : srvM unit :=
  match l with
  | [] => mret tt
  | c :: rest => client_release_locked c;; release_all rest
  end.

Definition server_release_snapshot (snap : option (list cid)) : srvM unit :=
  match snap with
  | None => mret tt
  | Some l => release_all l
  end.

(** ** Broadcast *)

(** The body of the broadcast loop under [c->write_mu]; the returned code is
    [rc]. *)
Definition broadcast_send (seq : Z) (data : bytes) (c : cid) : srvM Z :=
  cl ← get_client c;
  let end_seq := u64 (seq + blen data) in
  if live_seq cl <? end_seq then
    let off := if seq <? live_seq cl then u64 (live_seq cl - seq) else 0 in
    let send_seq := if seq <? live_seq cl then live_seq cl else seq in
    rc ← on_sock c (opty_send_stdout malloc_ok send_seq (Some (ptr data off)) (blen data - off));
    (if rc =? 0 then cl ← get_client c; put_client c (set_live_seq end_seq cl) else mret tt);;
    mret rc
  else mret 0.

(** What follows a failed send, under [clients_mu]. *)
Definition broadcast_kill (c : cid) : srvM unit :=
  n ← server_mark_dead_locked c;
  client_release_many_locked c (Z.to_nat n).

Fixpoint broadcast_loop (seq : Z) (data : bytes) (snap : list cid) : srvM unit :=
  match snap with
  | [] => mret tt
  | c :: rest =>
      rc ← broadcast_send seq data c;
      (if rc <? 0 then broadcast_kill c else mret tt);;
      broadcast_loop seq data rest
  end.

Definition server_broadcast_stdout (seq : Z) (data : bytes) : srvM Z :=
  '(snap, count) ← server_snapshot_clients;
  if count =? 0 then mret 0
  else match snap with
       | None => mret (-1)
       | Some l =>
           broadcast_loop seq data l;;
           server_release_snapshot (Some l);;
           mret 0
       end.

(** ** The PTY *)

(** [ioctl] fails on a closed master ([close_master]). *)
Definition server_resize_pty (cols rows : Z) : srvM Z := fun s =>
  let p := master s in
  if wr_shut (p_io p) then Some (-1, s)
  else match p_ioctl p with
  | false :: rest => Some (-1, set_master (Pty (p_io p) (p_cols p) (p_rows p) rest) s)
  | true :: rest => Some (0, set_master (Pty (p_io p) cols rows rest) s)
  | [] => Some (0, set_master (Pty (p_io p) cols rows []) s)
  end.

Definition server_write_pty (data : bytes) (len : Z) : srvM Z := fun s =>
  if len =? 0 then Some (0, s)
  else
    let p := master s in
    match sub data 0 len with
    | Done d =>
        match opty_write_full d (p_io p) with
        | (Done _, io') => Some (0, set_master (Pty io' (p_cols p) (p_rows p) (p_ioctl p)) s)
        | (Fail _, io') => Some (-1, set_master (Pty io' (p_cols p) (p_rows p) (p_ioctl p)) s)
        | (UB, _) => None
        end
    | _ => None
    end.

(** [close(master_fd)]: every later call on the descriptor fails.  The callers do not
    look at errno, so the mark of a shut down stream stands for it. *)
Definition close_master : srvM unit := fun s =>
  let p := master s in
  Some (tt, set_master (Pty (sys_shutdown (p_io p)) (p_cols p) (p_rows p) (p_ioctl p)) s).

Definition server_send_error (c : cid) (msg : bytes) : srvM Z :=
  on_sock c (opty_send_error (Some msg)).

(** ** Attach *)

(** Under [clients_mu] and [c->write_mu]: the ring snapshot, and the client
    becomes visible to broadcasts from [w_next] on.  [None] is the return of -1
    for want of memory. *)
Definition attach_begin (c : cid) (requested_seq : Z) : srvM (option window) := fun s =>
  match rb_window malloc_ok (ring s) requested_seq with
  | Done w =>
      if (0 <? w_len w) && bool_decide (w_data w = None) then Some (None, s)
      else (cl ← get_client c;
            put_client c (set_attached (w_next w) cl);;
            mret (Some w)) s
  | Fail _ => 
      (* the window of a ring without a buffer: all out-parameters stay 0 *)
      (cl ← get_client c;
       put_client c (set_attached 0 cl);;
       mret (Some (Window 0 0 0 0 None))) s
  | UB => None
  end.

(** Still under [c->write_mu]: the WELCOME and REPLAY frames. *)
Definition attach_send (c : cid) (w : window) : srvM Z :=
  rc ← on_sock c (opty_send_welcome (w_base w) (w_next w));
  if rc =? 0 then on_sock c (opty_send_replay malloc_ok (w_from w) (w_data w) (w_len w))
  else mret rc.

Definition server_send_welcome_and_replay (c : cid) (requested_seq : Z) : srvM Z :=
  w ← attach_begin c requested_seq;
  match w with
  | None => mret (-1)
  | Some w => attach_send c w
  end.

Definition server_finish_client (c : cid) : srvM unit :=
  n ← server_mark_dead_locked c;
  client_release_many_locked c (Z.to_nat (1 + n)).

(** ** Stopping *)

Definition server_close_listener : srvM unit := fun s =>
  Some (tt, if listening s then set_listening false s else s).

(** [shutdown(c->fd)] along the list. *)
Fixpoint shutdown_socks (l : list cid) : srvM unit :=
  match l with
  | [] => mret tt
  | c :: rest =>
      cl ← get_client c;
      put_client c (set_sock (sys_shutdown (sock cl)) cl);;
      shutdown_socks rest
  end.

Definition server_shutdown_clients : srvM unit := fun s => shutdown_socks (clients s) s.

Definition server_stop_child : srvM unit := fun s =>
  match stop_child (child s) with
  | Done ch => Some (tt, set_child ch s)
  | _ => None
  end.

(** [server_request_shutdown] cut at its lock operations.  [StopPoll n waited] is
    the deadline loop after [n] signals, with [waited] milliseconds spent in it;
    [StopReap] is the blocking wait, which holds [child_mu] until the child ends. *)
Inductive stop_phase :=
| StopWrite (input : bytes)
| StopPoll (n : nat) (waited : Z)
| StopSignal (n : nat)
| StopReap
| StopListener
| StopClients.

Definition stop_millis (n : nat) : Z :=
  match n with O => OPTY_STOP_GRACE_MS | _ => OPTY_STOP_SIGNAL_GRACE_MS end.

Definition stop_signal (n : nat) : signal :=
  match n with O => SIGHUP | 1%nat => SIGTERM | _ => SIGKILL end.

Definition stop_step (ph : stop_phase) : srvM (option stop_phase) :=
  match ph with
  | StopWrite input =>
      (if 0 <? blen input then server_write_pty input (blen input);; mret tt else mret tt);;
      mret (Some (StopPoll 0 0))
  | StopPoll n waited => fun s =>
      let '(done, ch) := server_poll_child_locked (child s) in
      if negb (done =? 0) then Some (Some StopListener, set_child ch s)
      else if stop_millis n <=? waited then Some (Some (StopSignal n), set_child ch s)
      else Some (Some (StopPoll n (waited + 50)), set_child (server_sleep_millis 50 ch) s)
  | StopSignal n => fun s =>
      Some (Some (if (n <? 2)%nat then StopPoll (S n) 0 else StopReap),
            set_child (server_signal_child (stop_signal n) (child s)) s)
  | StopReap => fun s =>
      Some (Some StopListener, set_child (server_wait_child_blocking (child s)) s)
  | StopListener => server_close_listener;; mret (Some StopClients)
  | StopClients => server_shutdown_clients;; mret None
  end.

Definition server_request_shutdown (input : bytes) : srvM unit :=
  (if 0 <? blen input then server_write_pty input (blen input);; mret tt else mret tt);;
  server_stop_child;;
  server_close_listener;;
  server_shutdown_clients.

(** ** The first frame *)

(** A [Done] outcome, where a failure has no place. *)
Definition srv_lift {A} (o : outcome A) : srvM A := fun s =>
  match o with Done a => Some (a, s) | _ => None end.

(** [srv->token != NULL && srv->token[0] != 0 && !server_tokens_equal(...)] *)
Definition intro_refused (expected : option bytes) (actual : bytes) : outcome bool :=
  match expected with
  | None => Done false
  | Some t =>
      b ← byte_at t 0;
      if b2z b =? 0 then Done false
      else eq ← server_tokens_equal (Some t) (Some actual); Done (negb eq)
  end.

(** [srv->control_token == NULL || srv->control_token[0] == 0 || !...] *)
Definition control_refused (expected : option bytes) (actual : bytes) : outcome bool :=
  match expected with
  | None => Done true
  | Some t =>
      b ← byte_at t 0;
      if b2z b =? 0 then Done true
      else eq ← server_tokens_equal (Some t) (Some actual); Done (negb eq)
  end.

(** [server_process_intro] up to the attach: the return code so far and the
    sequence number to replay from. *)
Definition server_check_intro (frame : opty_frame) : srvM (Z * Z) := fun s =>
  match opty_parse_client_intro frame (zeros (OPTY_MAX_TOKEN + 1)) with
  | UB => None
  | Fail _ => Some ((-1, 0), s)
  | Done i =>
      if (i_cols i =? 0) || (i_rows i =? 0) then Some ((-1, 0), s)
      else
        (refused ← srv_lift (intro_refused (token s) (i_token i));
         if refused : bool then mret (-2, 0)
         else
           rc ← server_resize_pty (i_cols i) (i_rows i);
           if rc <? 0 then mret (-1, 0)
           else mret (0, if f_type frame =? msg_code OPTY_MSG_RECONNECT then i_seq i else 0)) s
  end.

Definition server_process_intro (c : cid) (frame : opty_frame) : srvM Z :=
  '(rc, requested) ← server_check_intro frame;
  if rc <? 0 then mret rc
  else
    rc ← server_send_welcome_and_replay c requested;
    mret (if rc <? 0 then -1 else 0).

(** [server_process_control_shutdown] up to the shutdown: the return code so far
    and the graceful input. *)
Definition server_check_control (frame : opty_frame) : srvM (Z * bytes) := fun s =>
  match opty_parse_control_shutdown frame (zeros (OPTY_MAX_TOKEN + 1)) with
  | UB => None
  | Fail _ => Some ((-1, []), s)
  | Done (tok, input) =>
      (refused ← srv_lift (control_refused (control_token s) tok);
       if refused : bool then mret (-2, []) else mret (0, input)) s
  end.

Definition server_process_control_shutdown (frame : opty_frame) : srvM Z :=
  '(rc, input) ← server_check_control frame;
  if rc <? 0 then mret rc
  else server_request_shutdown input;; mret 0.

(** ** The client thread

    [client_thread_main] cut at its lock operations: what the thread is about to
    do.  The first frame, the loop's frames and the checks on them are private to
    the thread. *)
Inductive thread_phase :=
| TFirst                      (* receive and check the first frame *)
| TAttach (requested : Z)     (* take clients_mu and write_mu, snapshot the ring *)
| TSend (w : window)          (* holding write_mu: WELCOME and REPLAY *)
| TLoop                       (* receive and handle the next frame *)
| TError (msg : bytes)        (* server_send_error *)
| TStop (ph : stop_phase)     (* inside server_request_shutdown *)
| TFinish.                    (* server_finish_client *)

(** [opty_recv_frame_limited(c->fd, &frame, cap)]: the return code and [frame]. *)
Definition client_recv (c : cid) (cap : Z) : srvM (Z * opty_frame) :=
  cl ← get_client c;
  match opty_recv_frame_limited malloc_ok cap (sock cl) with
  | (Done (RecvFrame f), sk) => put_client c (set_sock sk cl);; mret (0, f)
  | (Done RecvEof, sk) => put_client c (set_sock sk cl);; mret (1, frame_zero)
  | (Fail _, sk) => put_client c (set_sock sk cl);; mret (-1, frame_zero)
  | (UB, _) => fun _ => None
  end.

Definition first_frame (frame : opty_frame) : srvM thread_phase :=
  if f_type frame =? msg_code OPTY_MSG_CONTROL_SHUTDOWN then
    '(rc, input) ← server_check_control frame;
    mret (if rc =? -2 then TError (cstr "control authentication failed")
          else if rc <? 0 then TError (cstr "bad control request")
          else TStop (StopWrite input))
  else if negb (f_type frame =? msg_code OPTY_MSG_HELLO) &&
          negb (f_type frame =? msg_code OPTY_MSG_RECONNECT) then
    mret (TError (cstr "expected hello or reconnect"))
  else
    '(rc, requested) ← server_check_intro frame;
    mret (if rc =? -2 then TError (cstr "authentication failed")
          else if rc <? 0 then TError (cstr "bad intro")
          else TAttach requested).

(** One round of the loop: [true] when it goes on. *)
Definition handle_frame (frame : opty_frame) : srvM bool :=
  if f_type frame =? msg_code OPTY_MSG_STDIN then
    rc ← server_write_pty (f_payload frame) (f_len frame);
    mret (negb (rc <? 0))
  else if f_type frame =? msg_code OPTY_MSG_RESIZE then
    match opty_parse_resize frame with
    | UB => fun _ => None
    | Fail _ => mret false
    | Done (cols, rows) =>
        if (cols =? 0) || (rows =? 0) then mret false
        else rc ← server_resize_pty cols rows; mret (negb (rc <? 0))
    end
  else if f_type frame =? msg_code OPTY_MSG_ACK then
    match opty_parse_ack frame with
    | UB => fun _ => None
    | Fail _ => mret false
    | Done _ => mret true
    end
  else mret false.

Definition client_step (c : cid) (ph : thread_phase) : srvM (option thread_phase) :=
  match ph with
  | TFirst =>
      '(rc, frame) ← client_recv c OPTY_MAX_UNAUTH_PAYLOAD;
      if rc <? 0 then mret (Some TFinish)
      else next ← first_frame frame; mret (Some next)
  | TAttach requested =>
      w ← attach_begin c requested;
      mret (Some (match w with Some w => TSend w | None => TError (cstr "bad intro") end))
  | TSend w =>
      rc ← attach_send c w;
      mret (Some (if rc <? 0 then TError (cstr "bad intro") else TLoop))
  | TLoop =>
      '(rc, frame) ← client_recv c (OPTY_MAX_FRAME - 1);
      if rc <? 0 then mret (Some TFinish)
      else go ← handle_frame frame; mret (Some (if go : bool then TLoop else TFinish))
  | TError msg => server_send_error c msg;; mret (Some TFinish)
  | TStop ph =>
      next ← stop_step ph;
      mret (Some (match next with Some ph' => TStop ph' | None => TFinish end))
  | TFinish => server_finish_client c;; mret None
  end.

(** The thread run alone, one unit of fuel per phase. *)
Fixpoint client_run (fuel : nat) (c : cid) (ph : thread_phase) : srvM bool :=
  match fuel with
  | O => mret false
  | S fuel' =>
      next ← client_step c ph;
      match next with
      | None => mret true
      | Some ph' => client_run fuel' c ph'
      end
  end.

Definition client_thread_main (fuel : nat) (c : cid) : srvM bool := client_run fuel c TFirst.

(** ** The PTY thread *)

Inductive pty_phase :=
| PRead                                                (* read and append *)
| PSnap (seq : Z) (data : bytes)                       (* snapshot the clients *)
| PSend (seq : Z) (data : bytes) (todo snap : list cid)
| PKill (seq : Z) (data : bytes) (c : cid) (todo snap : list cid)
| PListener
| PClients
| PWait                                                (* lock child_mu *)
| PReap                                                (* wait, holding child_mu *)
| PDone.

Definition set_master_io (io' : stream) (s : server R) : server R :=
  let p := master s in set_master (Pty io' (p_cols p) (p_rows p) (p_ioctl p)) s.

(** [read(master_fd, buf, 4096)] and [opty_ring_append], whose return code is
    ignored. *)
Definition pty_read : srvM pty_phase := fun s =>
  match sys_read 4096 (p_io (master s)) with
  | (inr e, io') => Some (if decide (e = EINTR) then PRead else PListener, set_master_io io' s)
  | (inl [], io') => Some (PListener, set_master_io io' s)
  | (inl data, io') =>
      match rb_append (ring s) (Some data) (blen data) with
      | Done (r', seq) => Some (PSnap (default 0 seq) data, set_ring r' (set_master_io io' s))
      | Fail _ => Some (PSnap 0 data, set_master_io io' s)
      | UB => None
      end
  end.

Definition pty_step (ph : pty_phase) : srvM pty_phase :=
  match ph with
  | PRead => pty_read
  | PSnap seq data =>
      '(snap, count) ← server_snapshot_clients;
      mret (if count =? 0 then PRead
            else match snap with Some l => PSend seq data l l | None => PListener end)
  | PSend seq data [] snap => server_release_snapshot (Some snap);; mret PRead
  | PSend seq data (c :: todo) snap =>
      rc ← broadcast_send seq data c;
      mret (if rc <? 0 then PKill seq data c todo snap else PSend seq data todo snap)
  | PKill seq data c todo snap => broadcast_kill c;; mret (PSend seq data todo snap)
  | PListener => server_close_listener;; mret PClients
  | PClients => server_shutdown_clients;; mret PWait
  | PWait => mret PReap
  | PReap => (fun s => Some (tt, set_child (server_wait_child_blocking (child s)) s));; mret PDone
  | PDone => mret PDone
  end.

(** ** New connections *)

(** The object of a new connection, linked at the head of the list; [c] is the
    address [calloc] returned. *)
Definition add_client_link (c : cid) (sk : stream) : srvM unit := fun s =>
  Some (tt, set_heap (<[c := Client 2 true false false 0 sk]> (heap s))
              (set_clients (c :: clients s) s)).

(** [server_add_client]; the flags tell whether [calloc], [pthread_mutex_init] and
    [pthread_create] succeed. *)
Definition server_add_client (c : cid) (sk : stream) (alloc_ok mutex_ok thread_ok : bool)
    : srvM Z :=
  if negb alloc_ok || negb mutex_ok then mret (-1)
  else
    add_client_link c sk;;
    if negb thread_ok then server_finish_client c;; mret (-1) else mret 0.

End Server.
