(* ===== verification/ServerSpec.v ===== *)
(** * What the server's operations do to clients

    The fields of a client that the invariants speak of form its view; [abs] is
    the heap of views.  Each operation of Server.v gets one lemma that gives its
    effect on [clients] and [abs]; the operations that only receive, write to the
    PTY or handle the child leave both alone ([quiet]). *)

From stdpp Require Import gmap.
From S2P Require Import Prelude.
From S2P Require Import Io.
From S2P Require Import Wire.
From S2P Require Import Messages.
From S2P Require Import Replay.
From S2P Require Import Child.
From S2P Require Import Server.

Record view := View {
  v_refs : nat;
  v_list : bool;
  v_dead : bool;
  v_auth : bool;
  v_live : Z;
  v_out : bytes
}.

Definition view_of (cl : client) : view :=
  View (refs cl) (in_list cl) (dead cl) (authenticated cl) (live_seq cl) (out (sock cl)).

Definition v_set_refs (n : nat) (v : view) : view :=
  View n (v_list v) (v_dead v) (v_auth v) (v_live v) (v_out v).
Definition v_gone (n : nat) (v : view) : view :=
  View n false true (v_auth v) (v_live v) (v_out v).
Definition v_attach (seq : Z) (v : view) : view :=
  View (v_refs v) (v_list v) (v_dead v) true seq (v_out v).
Definition v_set_live (seq : Z) (v : view) : view :=
  View (v_refs v) (v_list v) (v_dead v) (v_auth v) seq (v_out v).
Definition v_send (p : bytes) (v : view) : view :=
  View (v_refs v) (v_list v) (v_dead v) (v_auth v) (v_live v) (v_out v ++ p).

(** ** Tokens *)

(** A token option of the server: absent, or a buffer of [OPTY_MAX_TOKEN + 1]
    bytes. *)
Definition token_wf (t : option bytes) : Prop :=
  match t with Some b => blen b = OPTY_MAX_TOKEN + 1 | None => True end.

Lemma lor_0_iff (a b : Z) : Z.lor a b = 0 <-> a = 0 /\ b = 0.
Proof. apply Z.lor_eq_0_iff. Qed.

Lemma xor_byte_0 (a b : byte) : Z.land (Z.lxor (b2z a) (b2z b)) 255 = 0 <-> a = b.
Proof.
  split; [|intros ->; by rewrite Z.lxor_nilpotent].
  pose proof (b2z_range a). pose proof (b2z_range b). intros Hx. apply b2z_inj.
  apply Z.bits_inj'. intros i Hi. destruct (Z.lt_ge_cases i 8) as [Hlt|Hge].
  - pose proof (f_equal (fun z => Z.testbit z i) Hx) as Ht. cbv beta in Ht.
    change 255 with (Z.ones 8) in Ht.
    rewrite Z.land_spec, Z.lxor_spec, Z.ones_spec_low, Z.bits_0, andb_true_r in Ht by lia.
    by apply xorb_eq.
  - rewrite <- (Z.mod_small (b2z a) (2 ^ 8)), <- (Z.mod_small (b2z b) (2 ^ 8)) by lia.
    by rewrite !Z.mod_pow2_bits_high by lia.
Qed.

Lemma tokens_diff_ok (n : nat) (i : Z) (e a : bytes) (diff : Z) :
  0 <= i -> i + Z.of_nat n <= blen e -> i + Z.of_nat n <= blen a ->
  exists d, tokens_diff n i e a diff = Done d /\
    (d = 0 <-> diff = 0 /\ take n (ptr e i) = take n (ptr a i)).
Proof.
  revert i diff. induction n as [|n IH]; intros i diff Hi He Ha.
  { exists diff. naive_solver. }
  cbn [tokens_diff].
  destruct (byte_at_any e i) as (x&Hx&Hxe); [lia|]. destruct (byte_at_any a i) as (y&Hy&Hya); [lia|].
  rewrite Hx, Hy. cbn [mbind outcome_bind].
  destruct (IH (i + 1) (Z.lor diff (Z.land (Z.lxor (b2z x) (b2z y)) 255))) as (d&Hd&Hz); [lia..|].
  exists d. split; [done|]. rewrite Hz, lor_0_iff, xor_byte_0.
  rewrite (ptr_split e i (i + 1) 1), (ptr_split a i (i + 1) 1), Hxe, Hya by lia.
  cbn. split; [intros [[-> ->] ->]; done|intros [-> Hxy]; by simplify_eq].
Qed.

Lemma tokens_equal_ok (e a : bytes) :
  blen e = OPTY_MAX_TOKEN + 1 -> blen a = OPTY_MAX_TOKEN + 1 ->
  server_tokens_equal (Some e) (Some a) = Done (bool_decide (e = a)).
Proof.
  unfold OPTY_MAX_TOKEN. intros He Ha. unfold server_tokens_equal.
  destruct (tokens_diff_ok (Z.to_nat (OPTY_MAX_TOKEN + 1)) 0 e a 0) as (d&->&Hd);
    [done|unfold OPTY_MAX_TOKEN; lia..|]. cbn [mbind outcome_bind]. f_equal.
  unfold ptr in Hd. rewrite !drop_0 in Hd.
  rewrite !take_ge in Hd by (unfold blen, OPTY_MAX_TOKEN in *; lia).
  destruct (Z.eqb_spec d 0); [rewrite bool_decide_true|rewrite bool_decide_false]; naive_solver.
Qed.

Section Specs.

Context {R : Type} `{!ReplayOps R}.
Variable malloc_ok : Z -> bool.
Variable calloc_ok : Z -> bool.

Definition abs (s : server R) : gmap cid view := view_of <$> heap s.

(** [s'] is [s] with other clients and views. *)
Definition only_clients (s s' : server R) : Prop :=
  ring s' = ring s /\ token s' = token s /\ control_token s' = control_token s.

Definition quiet (s s' : server R) : Prop :=
  clients s' = clients s /\ abs s' = abs s /\ only_clients s s'.

Lemma only_clients_refl (s : server R) : only_clients s s.
Proof. done. Qed.

Lemma only_clients_trans (s1 s2 s3 : server R) :
  only_clients s1 s2 -> only_clients s2 s3 -> only_clients s1 s3.
Proof. intros (H1&H2&H3) (H4&H5&H6). unfold only_clients. by rewrite H4, H5, H6. Qed.

Lemma quiet_refl (s : server R) : quiet s s.
Proof. done. Qed.

Lemma quiet_trans (s1 s2 s3 : server R) : quiet s1 s2 -> quiet s2 s3 -> quiet s1 s3.
Proof.
  intros (Hc&Ha&Ho) (Hc'&Ha'&Ho'). unfold quiet. rewrite Hc', Ha'.
  split_and!; [done..|by eapply only_clients_trans].
Qed.

Hint Resolve only_clients_refl quiet_refl : core.

(** ** Reading and writing one client *)

Lemma abs_lookup (s : server R) (c : cid) (v : view) :
  abs s !! c = Some v <-> exists cl, heap s !! c = Some cl /\ view_of cl = v.
Proof. unfold abs. rewrite lookup_fmap, fmap_Some. split; intros (cl&?&?); eauto. Qed.

Lemma abs_heap (s : server R) (c : cid) (cl : client) :
  heap s !! c = Some cl -> abs s !! c = Some (view_of cl).
Proof. intros. apply abs_lookup. eauto. Qed.

Lemma abs_heap_inv (s : server R) (c : cid) (v : view) :
  abs s !! c = Some v -> exists cl, heap s !! c = Some cl /\ view_of cl = v.
Proof. apply abs_lookup. Qed.

Lemma abs_insert (s : server R) (c : cid) (cl : client) :
  abs (set_heap (<[c := cl]> (heap s)) s) = <[c := view_of cl]> (abs s).
Proof. unfold abs. simpl. by rewrite fmap_insert. Qed.

Lemma abs_delete (s : server R) (c : cid) :
  abs (set_heap (delete c (heap s)) s) = delete c (abs s).
Proof. unfold abs. simpl. by rewrite fmap_delete. Qed.

Lemma get_bind {A} (s : server R) (c : cid) (cl : client) (k : client -> srvM A) :
  heap s !! c = Some cl -> mbind k (get_client c) s = k cl s.
Proof. intros H. unfold mbind, srv_bind, get_client. by rewrite H. Qed.

Lemma put_ok (s : server R) (c : cid) (cl cl' : client) :
  heap s !! c = Some cl ->
  put_client c cl' s = Some (tt, set_heap (<[c := cl']> (heap s)) s).
Proof. intros H. unfold put_client. by rewrite H. Qed.

Lemma put_bind {A} (s : server R) (c : cid) (cl cl' : client) (k : unit -> srvM A) :
  heap s !! c = Some cl ->
  mbind k (put_client c cl') s = k tt (set_heap (<[c := cl']> (heap s)) s).
Proof. intros H. unfold mbind, srv_bind. by rewrite (put_ok _ _ _ _ H). Qed.

(** What a computation that succeeds leaves to its continuation. *)
Lemma bind_ok {A B} (s s1 : server R) (m : srvM A) (k : A -> srvM B) (a : A) :
  m s = Some (a, s1) -> mbind k m s = k a s1.
Proof. intros H. unfold mbind, srv_bind. by rewrite H. Qed.

(** ** Sending *)

Definition rc_of {A} (o : outcome A) : Z := match o with Done _ => 0 | _ => -1 end.

(** [m] sends [w]: all of it, or a prefix when it fails. *)
Definition sends (m : io unit) (w : bytes) : Prop :=
  forall sk o sk', m sk = (o, sk') ->
    exists p, out sk' = out sk ++ p /\
      match o with Done _ => p = w | Fail _ => p `prefix_of` w | UB => False end.

Lemma sends_frame (t : Z) (p : bytes) :
  blen p <= OPTY_MAX_FRAME - 1 ->
  sends (opty_send_frame t (Some p) (blen p)) (encode_frame t p).
Proof.
  intros Hp sk o sk' H. apply opty_send_frame_spec in H as [H _]; [|done].
  destruct o as [a|e|]; [|destruct H as (k&_&H)|done]; destruct H as (?&_);
    eexists; (split; [done|]); [done|]. eexists. by rewrite take_drop.
Qed.

Lemma sends_nothing (e : errno) (w : bytes) : sends (io_fail e) w.
Proof.
  intros sk o sk' H. unfold io_fail in H. simplify_eq. exists [].
  rewrite app_nil_r. split; [done|apply prefix_nil].
Qed.

Lemma sends_ext (m m' : io unit) (w : bytes) :
  (forall sk, m sk = m' sk) -> sends m' w -> sends m w.
Proof. intros He H sk o sk' Hm. rewrite He in Hm. by eapply H. Qed.

Lemma sends_stream (t seq : Z) (data : option bytes) (len : Z) :
  (data = None /\ len = 0 \/ exists d, data = Some d /\ len = blen d) ->
  sends (opty_send_stream_frame malloc_ok t seq data len)
    (encode_frame t (opty_put_u64 seq ++ default [] data)).
Proof.
  intros Hd. set (d := default [] data).
  assert (len = blen d /\ (0 < len -> data = Some d)) as [-> Hsome].
  { unfold d. destruct Hd as [[-> ->]|(d'&->&->)]; [|done]. split; [done|lia]. }
  pose proof (blen_nonneg d). unfold opty_send_stream_frame.
  assert ((0 <? blen d) && bool_decide (data = None) = false) as ->.
  { destruct (Z.ltb_spec 0 (blen d)); [|done]. rewrite Hsome by done. by rewrite bool_decide_false. }
  destruct (SIZE_MAX - 8 <? blen d); [apply sends_nothing|].
  destruct (malloc_ok (8 + blen d)); [cbn [negb]|apply sends_nothing].
  assert (blen (opty_put_u64 seq ++ d) = 8 + blen d) as Hl by (rewrite blen_app; reflexivity).
  eapply sends_ext.
  { intros sk. apply (io_lift_bind _ _ d).
    destruct (Z.ltb_spec 0 (blen d)).
    - rewrite Hsome by done. rewrite sub_ok by lia. unfold blen. by rewrite Nat2Z.id, firstn_all.
    - by rewrite (blen_0 d) by lia. }
  destruct (Z.le_gt_cases (8 + blen d) (OPTY_MAX_FRAME - 1)).
  - rewrite <- Hl. apply sends_frame. lia.
  - eapply sends_ext; [|apply sends_nothing]. intros sk.
    rewrite opty_send_frame_too_big by lia. done.
Qed.

Lemma sends_error (msg : bytes) : sends (opty_send_error (Some msg)) (encode_frame (msg_code OPTY_MSG_ERROR) msg).
Proof.
  unfold opty_send_error. destruct (Z.ltb_spec (OPTY_MAX_FRAME - 1) (blen msg)).
  - apply sends_nothing.
  - by apply sends_frame.
Qed.

Lemma on_sock_sends (s : server R) (c : cid) (v : view) (m : io unit) (w : bytes) :
  abs s !! c = Some v -> sends m w ->
  exists rc p s', on_sock c m s = Some (rc, s') /\ abs s' = <[c := v_send p v]> (abs s) /\
    clients s' = clients s /\ only_clients s s' /\
    ((rc = 0 /\ p = w) \/ (rc = -1 /\ p `prefix_of` w)).
Proof.
  intros (cl&Hc&<-)%abs_heap_inv Hm. unfold on_sock. rewrite (get_bind s c cl) by done.
  destruct (m (sock cl)) as [o sk] eqn:E. destruct (Hm _ _ _ E) as (p&Hout&Hp).
  exists (rc_of o), p, (set_heap (<[c := set_sock sk cl]> (heap s)) s).
  rewrite abs_insert. unfold view_of, v_send at 1. simpl. rewrite Hout.
  destruct o; [..|done]; rewrite (put_bind s c cl) by done; split_and!; auto; done.
Qed.

(** ** Broadcast *)

(** The frame that brings a client from [v_live v] (or from [seq], if that is
    later) to the end of [data]. *)
Definition update_frame (seq : Z) (data : bytes) (v : view) : bytes :=
  let from := Z.max seq (v_live v) in
  encode_frame (msg_code OPTY_MSG_STDOUT)
    (opty_put_u64 from ++ drop (Z.to_nat (from - seq)) data).

Lemma broadcast_send_ok (s : server R) (c : cid) (v : view) (seq : Z) (data : bytes) :
  abs s !! c = Some v -> 0 <= seq -> 0 <= v_live v -> seq + blen data < 2 ^ 64 ->
  (seq + blen data <= v_live v /\ broadcast_send malloc_ok seq data c s = Some (0, s)) \/
  (v_live v < seq + blen data /\ exists rc s', broadcast_send malloc_ok seq data c s = Some (rc, s') /\
     clients s' = clients s /\ only_clients s s' /\
     ((rc = 0 /\ abs s' = <[c := v_set_live (seq + blen data)
                                  (v_send (update_frame seq data v) v)]> (abs s)) \/
      (rc = -1 /\ exists p, p `prefix_of` update_frame seq data v /\
         abs s' = <[c := v_send p v]> (abs s)))).
Proof.
  intros Hv H0 Hl Hb. pose proof (blen_nonneg data).
  destruct (abs_heap_inv _ _ _ Hv) as (cl&Hc&Hcl).
  assert (live_seq cl = v_live v) as Hlv by (by rewrite <- Hcl).
  unfold broadcast_send. rewrite (get_bind s c cl) by done. rewrite Hlv, (u64_small (seq + _)) by lia.
  destruct (Z.ltb_spec (v_live v) (seq + blen data)); [right; split; [done|]|left; split; [lia|done]].
  set (off := if seq <? v_live v then u64 (v_live v - seq) else 0).
  set (from := if seq <? v_live v then v_live v else seq).
  assert (from = Z.max seq (v_live v) /\ off = from - seq) as [Hfrom Hoff].
  { unfold from, off. destruct (Z.ltb_spec seq (v_live v)); [rewrite u64_small by lia|]; lia. }
  assert (sends (opty_send_stdout malloc_ok from (Some (ptr data off)) (blen data - off))
            (update_frame seq data v)) as Hs.
  { unfold update_frame. rewrite <- Hfrom, <- Hoff. apply sends_stream. right.
    exists (ptr data off). split; [done|]. unfold blen at 2. rewrite ptr_length; lia. }
  destruct (on_sock_sends s c v _ _ Hv Hs) as (rc&p&s1&He&Ha&Hcs&Ho&Hrc).
  rewrite (bind_ok _ _ _ _ _ He). destruct Hrc as [[-> ->]|[-> Hp]].
  - assert (exists cl1, heap s1 !! c = Some cl1 /\ view_of cl1 = v_send (update_frame seq data v) v)
      as (cl1&Hc1&Hv1) by (apply abs_heap_inv; rewrite Ha; by rewrite lookup_insert_eq).
    exists 0. eexists. split.
    { erewrite bind_ok; [done|]. change (0 =? 0) with true. cbn iota.
      rewrite (get_bind s1 c cl1) by done. by apply (put_ok _ _ cl1). }
    split_and!; [done|done|]. left. split; [done|]. rewrite abs_insert, Ha, insert_insert_eq.
    f_equal. rewrite <- Hv1. done.
  - exists (-1), s1. split; [done|]. split_and!; [done..|]. right. eauto.
Qed.

(** ** Attaching *)

Lemma attach_begin_ok `{!ReplayLaws R} (s : server R) (c : cid) (v : view) (cap : Z)
    (hist : bytes) (q : Z) :
  abs s !! c = Some v -> rb_repr (ring s) cap hist ->
  let w := log_window malloc_ok cap hist q in
  attach_begin malloc_ok c q s = Some (None, s) \/
  ((w_data w = None /\ w_len w = 0 \/ exists d, w_data w = Some d /\ w_len w = blen d) /\
   exists s', attach_begin malloc_ok c q s = Some (Some w, s') /\
     clients s' = clients s /\ only_clients s s' /\
     abs s' = <[c := v_attach (blen hist) v]> (abs s)).
Proof.
  intros (cl&Hc&<-)%abs_heap_inv Hr w. unfold attach_begin.
  rewrite (rb_window_ok malloc_ok _ _ _ q Hr). fold w.
  destruct ((0 <? w_len w) && bool_decide (w_data w = None)) eqn:E; [by left|right].
  split.
  - revert E. unfold w, log_window. cbn [w_len w_data].
    pose proof (blen_nonneg (log_since hist (log_from cap hist q))).
    case_match; [|eauto]. rewrite bool_decide_true by done.
    destruct (Z.ltb_spec 0 (blen (log_since hist (log_from cap hist q)))); [done|].
    left. split; [done|lia].
  - eexists. split; [rewrite (get_bind s c cl), (put_bind s c cl) by done; done|].
    split_and!; [done|done|]. by rewrite abs_insert.
Qed.

Definition welcome_frame (w : window) : bytes :=
  encode_frame (msg_code OPTY_MSG_WELCOME) (opty_put_u64 (w_base w) ++ opty_put_u64 (w_next w)).
Definition replay_frame (w : window) : bytes :=
  encode_frame (msg_code OPTY_MSG_REPLAY) (opty_put_u64 (w_from w) ++ default [] (w_data w)).

Lemma attach_send_ok (s : server R) (c : cid) (v : view) (w : window) :
  abs s !! c = Some v ->
  (w_data w = None /\ w_len w = 0 \/ exists d, w_data w = Some d /\ w_len w = blen d) ->
  exists rc p s', attach_send malloc_ok c w s = Some (rc, s') /\
    clients s' = clients s /\ only_clients s s' /\ abs s' = <[c := v_send p v]> (abs s) /\
    ((rc = 0 /\ p = welcome_frame w ++ replay_frame w) \/ rc = -1).
Proof.
  intros Hv Hw. unfold attach_send.
  assert (sends (opty_send_welcome (w_base w) (w_next w)) (welcome_frame w)) as H1
    by (by apply sends_frame).
  assert (sends (opty_send_replay malloc_ok (w_from w) (w_data w) (w_len w)) (replay_frame w)) as H2
    by (by apply sends_stream).
  destruct (on_sock_sends s c v _ _ Hv H1) as (rc&p&s1&He&Ha&Hcs&Ho&Hrc).
  rewrite (bind_ok _ _ _ _ _ He). destruct Hrc as [[-> ->]|[-> Hp]]; cbn.
  - destruct (on_sock_sends s1 c (v_send (welcome_frame w) v)
                (opty_send_replay malloc_ok (w_from w) (w_data w) (w_len w)) (replay_frame w))
      as (rc&p&s2&He2&Ha2&Hcs2&Ho2&Hrc2); [by rewrite Ha, lookup_insert_eq|done|].
    exists rc, (welcome_frame w ++ p), s2. split_and!; [done|congruence|by eapply only_clients_trans| |].
    + rewrite Ha2, Ha, insert_insert_eq. f_equal. unfold v_send. cbn [v_out v_refs v_list v_dead v_auth v_live].
      f_equal. by rewrite app_assoc.
    + destruct Hrc2 as [[-> ->]|[-> _]]; auto.
  - exists (-1), p, s1. split_and!; auto.
Qed.

(** ** Releasing references *)

(** Taking [k] references away; the last one frees the object. *)
Lemma release_many_ok (s : server R) (c : cid) (v : view) (k m : nat) :
  abs s !! c = Some v -> v_refs v = (k + m)%nat -> (0 < v_refs v)%nat ->
  exists s', client_release_many_locked c k s = Some (tt, s') /\
    clients s' = clients s /\ only_clients s s' /\
    abs s' = if decide (m = 0%nat) then delete c (abs s) else <[c := v_set_refs m v]> (abs s).
Proof.
  revert s v. induction k as [|k IH]; intros s v Hv Hr Hpos.
  { exists s. split_and!; [done..|]. rewrite decide_False by lia.
    symmetry. apply insert_id. rewrite Hv. f_equal. destruct v; simpl in *. by subst. }
  destruct (abs_heap_inv _ _ _ Hv) as (cl&Hc&Hcl).
  assert (refs cl = S k + m)%nat as Hrefs by (by rewrite <- Hr, <- Hcl).
  set (s1 := set_heap (<[c := set_refs (k + m) cl]> (heap s)) s).
  assert (heap s1 !! c = Some (set_refs (k + m) cl)) as Hc1 by apply lookup_insert_eq.
  assert (abs s1 = <[c := v_set_refs (k + m) v]> (abs s)) as Ha1
    by (unfold s1; rewrite abs_insert; by rewrite <- Hcl).
  assert (client_release_locked c s =
    if decide (k + m = 0)%nat then Some (1, set_heap (delete c (heap s1)) s1) else Some (0, s1)) as He.
  { unfold client_release_locked. rewrite (get_bind s c cl) by done. rewrite Hrefs.
    destruct (Nat.eqb_spec (S k + m) 0); [lia|]. replace (S k + m - 1)%nat with (k + m)%nat by lia.
    rewrite (put_bind s c cl) by done. fold s1.
    destruct (Nat.eqb_spec (k + m) 0), (decide ((k + m)%nat = 0%nat)); try lia; [|done].
    unfold mbind, srv_bind, client_free. by rewrite Hc1. }
  cbn [client_release_many_locked]. destruct (decide ((k + m)%nat = 0%nat)).
  - rewrite (bind_ok _ _ _ _ _ He). cbn. eexists. split_and!; [done..|].
    rewrite decide_True by lia. change (set_heap _ s1) with (set_heap (delete c (heap s1)) s1).
    rewrite abs_delete, Ha1. by rewrite delete_insert_eq.
  - rewrite (bind_ok _ _ _ _ _ He). cbn.
    destruct (IH s1 (v_set_refs (k + m) v)) as (s'&He'&Hcs&Ho&Ha');
      [by rewrite Ha1, lookup_insert_eq|done|simpl; lia|].
    exists s'. split_and!; [done..|]. rewrite Ha', Ha1.
    destruct (decide (m = 0%nat)); [by rewrite delete_insert_eq|by rewrite insert_insert_eq].
Qed.

Lemma filter_absent (l : list cid) (c : cid) : c ∉ l -> filter (fun x => x <> c) l = l.
Proof.
  induction l as [|x l IH]; intros Hc; [done|]. rewrite filter_cons_True by set_solver.
  rewrite IH by set_solver. done.
Qed.

(** The walk along the list reaches only clients of the list. *)
Lemma unlink_ok (h : gmap cid client) (l : list cid) (c : cid) :
  NoDup l -> (forall x, x ∈ l -> is_Some (h !! x)) ->
  unlink h l c = Some (filter (fun x => x <> c) l).
Proof.
  induction l as [|x l IH]; intros Hn Hl; [done|]. inversion Hn as [|?? Hx Hn']; subst.
  cbn [unlink]. destruct (decide (x = c)) as [->|Hne].
  - rewrite filter_cons_False by naive_solver. f_equal. by rewrite filter_absent.
  - destruct (Hl x) as [cl ->]; [set_solver|]. rewrite IH by (try done; set_solver).
    by rewrite filter_cons_True.
Qed.

(** Marking dead: the client leaves the list; the result tells whether it was in
    it. *)
Lemma mark_dead_ok (s : server R) (c : cid) (v : view) :
  abs s !! c = Some v -> NoDup (clients s) ->
  (forall x, x ∈ clients s -> is_Some (abs s !! x)) -> (v_list v = true <-> c ∈ clients s) ->
  exists s', server_mark_dead_locked c s = Some (if v_list v then 1 else 0, s') /\
    clients s' = filter (fun x => x <> c) (clients s) /\ only_clients s s' /\
    abs s' = <[c := v_gone (v_refs v) v]> (abs s).
Proof.
  intros Hv Hn Hl Hin. destruct (abs_heap_inv _ _ _ Hv) as (cl&Hc&Hcl).
  assert (exists cl1 s1, (if dead cl then mret tt
      else put_client c (set_sock (sys_shutdown (sock cl)) (set_dead true cl))) s = Some (tt, s1) /\
    heap s1 !! c = Some cl1 /\ view_of cl1 = View (v_refs v) (v_list v) true (v_auth v) (v_live v) (v_out v) /\
    clients s1 = clients s /\ only_clients s s1 /\
    abs s1 = <[c := view_of cl1]> (abs s) /\ (forall x, x ∈ clients s -> is_Some (heap s1 !! x)))
    as (cl1&s1&He&Hc1&Hv1&Hcs1&Ho1&Ha1&Hl1).
  { assert (forall x, x ∈ clients s -> is_Some (heap s !! x)) as Hh.
    { intros x Hx. destruct (Hl x Hx) as [vx (clx&?&?)%abs_heap_inv]. eauto. }
    destruct (dead cl) eqn:Hd.
    - exists cl, s. split_and!; try done.
      + rewrite <- Hcl. unfold view_of. simpl. by rewrite Hd.
      + symmetry. apply insert_id. by rewrite Hv, Hcl.
    - eexists _, _. split; [by apply (put_ok s c cl)|]. simpl. rewrite lookup_insert_eq.
      split_and!; try done; [by rewrite <- Hcl|by rewrite abs_insert|].
      intros x Hx. destruct (decide (x = c)) as [->|]; [by rewrite lookup_insert_eq|].
      rewrite lookup_insert_ne by done. auto. }
  unfold server_mark_dead_locked. rewrite (get_bind s c cl) by done. rewrite (bind_ok _ _ _ _ _ He).
  unfold server_drop_from_list_locked. rewrite (get_bind s1 c cl1) by done.
  assert (in_list cl1 = v_list v) as -> by (by change (in_list cl1) with (v_list (view_of cl1)); rewrite Hv1).
  destruct (v_list v) eqn:Hlist; cbn [negb].
  - rewrite (bind_ok _ (set_clients (filter (fun x => x <> c) (clients s)) s1) _ _ tt)
      by (rewrite Hcs1, unlink_ok; done).
    rewrite (put_bind _ c cl1) by done. eexists. split_and!; [done|done|done|].
    match goal with |- abs (set_heap ?h ?x) = _ =>
      change (set_heap h x) with (set_clients (clients x) (set_heap h s1)) end.
    change (abs (set_clients ?l ?x)) with (abs x). cbn [heap set_clients].
    rewrite abs_insert, Ha1, insert_insert_eq. f_equal. revert Hv1. unfold view_of, v_gone.
    cbn. intros [= H1 H2 H3 H4 H5 H6]. by rewrite H1, H3, H4, H5, H6.
  - exists s1. split_and!; [done| |done|].
    + rewrite Hcs1, filter_absent; [done|]. intros Hx. by apply Hin in Hx.
    + rewrite Ha1, Hv1. unfold v_gone. done.
Qed.

(** [server_finish_client] ([j = 1]) and what follows a failed broadcast ([j = 0]):
    the client leaves the list and gives back the list's reference and [j] more;
    [h] references besides the list's were held. *)
Lemma leave_ok (s : server R) (c : cid) (v : view) (j h : nat) :
  abs s !! c = Some v -> NoDup (clients s) ->
  (forall x, x ∈ clients s -> is_Some (abs s !! x)) -> (v_list v = true <-> c ∈ clients s) ->
  v_refs v = (Nat.b2n (v_list v) + h)%nat -> (j <= h)%nat -> (0 < v_refs v)%nat ->
  exists s', (n ← server_mark_dead_locked c;
              client_release_many_locked c (Z.to_nat (Z.of_nat j + n))) s = Some (tt, s') /\
    clients s' = filter (fun x => x <> c) (clients s) /\ only_clients s s' /\
    abs s' = if decide (h - j = 0)%nat then delete c (abs s)
             else <[c := v_gone (h - j) v]> (abs s).
Proof.
  intros Hv Hn Hl Hin Hr Hj Hpos.
  destruct (mark_dead_ok s c v Hv Hn Hl Hin) as (s1&He&Hcs&Ho&Ha).
  rewrite (bind_ok _ _ _ _ _ He).
  replace (Z.to_nat (Z.of_nat j + (if v_list v then 1 else 0))) with (j + Nat.b2n (v_list v))%nat
    by (destruct (v_list v); simpl; lia).
  destruct (release_many_ok s1 c (v_gone (v_refs v) v) (j + Nat.b2n (v_list v)) (h - j))
    as (s2&He2&Hcs2&Ho2&Ha2); [by rewrite Ha, lookup_insert_eq|simpl; lia|done|].
  exists s2. split_and!; [done|by rewrite Hcs2|by eapply only_clients_trans|].
  rewrite Ha2, Ha.
  destruct (decide (h - j = 0)%nat); [by rewrite delete_insert_eq|by rewrite insert_insert_eq].
Qed.

(** ** Snapshots *)

Definition take_ref (l : list cid) (m : gmap cid view) (c : cid) : option view :=
  v ← m !! c; Some (if decide (c ∈ l) then v_set_refs (S (v_refs v)) v else v).

Lemma live_clients_ok (s : server R) (l : list cid) :
  (forall c, c ∈ l -> is_Some (abs s !! c)) ->
  exists live, live_clients (heap s) l = Some live /\
    forall c, c ∈ live <->
      c ∈ l /\ exists v, abs s !! c = Some v /\ v_auth v = true /\ v_dead v = false.
Proof.
  induction l as [|x l IH]; intros Hl.
  { exists []. split; [done|]. intros c. set_solver. }
  destruct IH as (live&He&Hlive); [set_solver|].
  destruct (Hl x) as [vx (clx&Hx&<-)%abs_heap_inv]; [set_solver|].
  cbn. rewrite Hx, He. cbn. eexists. split; [done|]. intros c.
  destruct (decide (c = x)) as [->|Hne].
  - destruct (authenticated clx) eqn:Ea, (dead clx) eqn:Ed; cbn; (split; [|]);
      rewrite ?elem_of_cons, ?Hlive, ?(abs_heap _ _ _ Hx); unfold view_of; rewrite ?Ea, ?Ed;
      naive_solver.
  - assert (c ∈ (if authenticated clx && negb (dead clx) then x :: live else live) <-> c ∈ live) as ->
      by (case_match; set_solver).
    rewrite Hlive. set_solver.
Qed.

Lemma live_clients_sublist (h : gmap cid client) (l live : list cid) :
  live_clients h l = Some live -> live `sublist_of` l.
Proof.
  revert live. induction l as [|x l IH]; intros live H; cbn in H; [by simplify_eq|].
  destruct (h !! x); [|done]. destruct (live_clients h l) as [live'|] eqn:E; [|done].
  cbn in H. specialize (IH _ eq_refl). simplify_eq. case_match; by constructor.
Qed.

Lemma take_refs_ok (s : server R) (l : list cid) :
  NoDup l -> (forall c, c ∈ l -> is_Some (abs s !! c)) ->
  exists s', take_refs l s = Some (tt, s') /\ clients s' = clients s /\ only_clients s s' /\
    forall c, abs s' !! c = take_ref l (abs s) c.
Proof.
  revert s. induction l as [|x l IH]; intros s Hn Hl.
  { exists s. split_and!; [done..|]. intros c. unfold take_ref. by destruct (abs s !! c). }
  inversion Hn as [|?? Hx Hn']; subst.
  destruct (Hl x) as [vx (clx&Hc&<-)%abs_heap_inv]; [set_solver|].
  cbn [take_refs]. rewrite (get_bind s x clx), (put_bind s x clx) by done.
  set (s1 := set_heap _ s).
  assert (abs s1 = <[x := v_set_refs (S (refs clx)) (view_of clx)]> (abs s)) as Ha
    by (unfold s1; by rewrite abs_insert).
  destruct (IH s1) as (s'&He&Hcs&Ho&Ha'); [done| |].
  { intros c Hc'. rewrite Ha, lookup_insert_ne by set_solver. apply Hl. set_solver. }
  exists s'. split_and!; [done..|]. intros c. rewrite Ha', Ha. unfold take_ref.
  destruct (decide (c = x)) as [->|Hne].
  - rewrite lookup_insert_eq, (abs_heap _ _ _ Hc). cbn.
    rewrite decide_False by done. by rewrite decide_True by set_solver.
  - rewrite lookup_insert_ne by done. destruct (abs s !! c); [|done]. cbn.
    destruct (decide (c ∈ l)); [by rewrite decide_True by set_solver|].
    by rewrite decide_False by set_solver.
Qed.

Lemma snapshot_ok (s : server R) :
  NoDup (clients s) -> (forall c, c ∈ clients s -> is_Some (abs s !! c)) ->
  exists live, NoDup live /\
    (forall c, c ∈ live <->
      c ∈ clients s /\ exists v, abs s !! c = Some v /\ v_auth v = true /\ v_dead v = false) /\
    ((server_snapshot_clients calloc_ok s = Some ((None, 0), s) /\
      (live = [] \/ calloc_ok (Z.of_nat (length live)) = false)) \/
     (live <> [] /\ exists s', server_snapshot_clients calloc_ok s =
        Some ((Some live, Z.of_nat (length live)), s') /\
      clients s' = clients s /\ only_clients s s' /\
      forall c, abs s' !! c = take_ref live (abs s) c)).
Proof.
  intros Hn Hl. destruct (live_clients_ok s (clients s) Hl) as (live&He&Hlive).
  assert (NoDup live) as Hnl by (by eapply sublist_NoDup, live_clients_sublist).
  exists live. split; [done|]. split; [done|].
  unfold server_snapshot_clients. rewrite He.
  destruct live as [|x live]; [left; auto|].
  replace (Z.of_nat (length (x :: live)) =? 0) with false by (symmetry; apply Z.eqb_neq; simpl; lia).
  destruct (calloc_ok _) eqn:Ec; cbn [negb]; [right|left; auto].
  destruct (take_refs_ok s (x :: live) Hnl) as (s'&He'&Hcs&Ho&Ha); [set_solver|].
  split; [done|]. exists s'. split_and!; [|done..]. by rewrite (bind_ok _ _ _ _ _ He').
Qed.

Definition drop_ref (l : list cid) (m : gmap cid view) (c : cid) : option view :=
  v ← m !! c;
  if decide (c ∈ l) then
    match v_refs v with
    | S (S n) => Some (v_set_refs (S n) v)
    | _ => None
    end
  else Some v.

Lemma release_all_ok (s : server R) (l : list cid) :
  NoDup l -> (forall c, c ∈ l -> exists v, abs s !! c = Some v /\ (0 < v_refs v)%nat) ->
  exists s', release_all l s = Some (tt, s') /\ clients s' = clients s /\ only_clients s s' /\
    forall c, abs s' !! c = drop_ref l (abs s) c.
Proof.
  clear malloc_ok calloc_ok.
  revert s. induction l as [|x l IH]; intros s Hn Hl.
  { exists s. split_and!; [done..|]. intros c. unfold drop_ref. by destruct (abs s !! c). }
  inversion Hn as [|?? Hx Hn']; subst.
  destruct (Hl x) as (vx&Hv&Hpos); [set_solver|].
  destruct (release_many_ok s x vx 1 (v_refs vx - 1) Hv) as (s1&He&Hcs&Ho&Ha); [lia|done|].
  assert (exists r, client_release_locked x s = Some (r, s1)) as [r Hr].
  { cbn in He. unfold mbind, srv_bind in He. destruct (client_release_locked x s) as [[r s2]|]; [|done].
    exists r. by destruct (r =? 0); unfold mret, srv_ret in He; simplify_eq. }
  cbn [release_all]. rewrite (bind_ok _ _ _ _ _ Hr).
  assert (forall c, c <> x -> abs s1 !! c = abs s !! c) as Hne.
  { intros c Hc. rewrite Ha. case_decide; [by rewrite lookup_delete_ne|by rewrite lookup_insert_ne]. }
  destruct (IH s1) as (s'&He'&Hcs'&Ho'&Ha'); [done| |].
  { intros c Hc. rewrite Hne by set_solver. apply Hl. set_solver. }
  exists s'. split_and!; [done|by rewrite Hcs'|by eapply only_clients_trans|]. intros c.
  rewrite Ha'. unfold drop_ref. destruct (decide (c = x)) as [->|Hc].
  - rewrite Ha, Hv. cbn. rewrite (decide_True (P := x ∈ x :: l)) by set_solver.
    destruct (v_refs vx) as [|[|n]]; [lia| |]; simpl.
    + by rewrite lookup_delete_eq.
    + rewrite lookup_insert_eq. cbn. by rewrite decide_False.
  - rewrite Hne by done. destruct (abs s !! c); [|done]. cbn.
    destruct (decide (c ∈ l)); [by rewrite decide_True by set_solver|].
    by rewrite decide_False by set_solver.
Qed.

(** ** Operations that leave the clients alone *)

(** [m] runs without undefined behaviour, leaves the clients alone and returns
    something that satisfies [P]. *)
Definition calm {A} (m : srvM A) (P : A -> Prop) (s : server R) : Prop :=
  exists a s', m s = Some (a, s') /\ quiet s s' /\ P a.

Local Ltac calm_now := eexists _, _; split; [reflexivity|]; by split_and!.

Lemma calm_ret {A} (a : A) (P : A -> Prop) (s : server R) : P a -> calm (mret a) P s.
Proof. intros. by exists a, s. Qed.

Lemma calm_bind {A B} (m : srvM A) (k : A -> srvM B) (P : A -> Prop) (Q : B -> Prop)
    (s : server R) :
  calm m P s -> (forall a s', quiet s s' -> P a -> calm (k a) Q s') -> calm (mbind k m) Q s.
Proof.
  intros (a&s1&He&Hq&Ha) Hk. destruct (Hk a s1 Hq Ha) as (b&s2&He2&Hq2&Hb).
  exists b, s2. split; [by rewrite (bind_ok _ _ _ _ _ He)|].
  split; [by eapply quiet_trans|done].
Qed.

Lemma calm_weaken {A} (m : srvM A) (P Q : A -> Prop) (s : server R) :
  calm m P s -> (forall a, P a -> Q a) -> calm m Q s.
Proof. intros (a&s'&?&?&?) HPQ. exists a, s'. auto. Qed.

Lemma calm_resize (cols rows : Z) (s : server R) :
  calm (server_resize_pty cols rows) (fun _ => True) s.
Proof.
  unfold calm, server_resize_pty. destruct (wr_shut (p_io (master s))); [calm_now|].
  destruct (p_ioctl (master s)) as [|[] ?]; calm_now.
Qed.

Lemma calm_write_pty (data : bytes) (len : Z) (s : server R) :
  0 <= len <= blen data -> calm (server_write_pty data len) (fun _ => True) s.
Proof.
  intros Hl. unfold calm, server_write_pty. destruct (len =? 0); [calm_now|].
  rewrite sub_ok by lia. destruct (opty_write_full _ _) as [[n|e|] io'] eqn:E; [calm_now..|].
  apply opty_write_full_spec in E as [E _]. done.
Qed.

Lemma calm_lift {A} (o : outcome A) (a : A) (s : server R) :
  o = Done a -> calm (srv_lift o) (eq a) s.
Proof. intros ->. by exists a, s. Qed.

Lemma calm_close_listener (s : server R) : calm server_close_listener (fun _ => True) s.
Proof. unfold calm, server_close_listener. destruct (listening s); calm_now. Qed.

Lemma shutdown_socks_quiet (s : server R) (l : list cid) :
  (forall c, c ∈ l -> is_Some (abs s !! c)) -> calm (shutdown_socks l) (fun _ => True) s.
Proof.
  revert s. induction l as [|x l IH]; intros s Hl; [by apply calm_ret|].
  destruct (Hl x) as [vx (cl&Hc&Hcl)%abs_heap_inv]; [set_solver|]. cbn [shutdown_socks].
  set (s1 := set_heap (<[x := set_sock (sys_shutdown (sock cl)) cl]> (heap s)) s).
  assert (quiet s s1) as Hq.
  { split; [done|]. split; [|done]. unfold s1. rewrite abs_insert.
    apply insert_id. rewrite (abs_heap _ _ _ Hc). done. }
  destruct (IH s1) as (a&s2&He&Hq2&_).
  { intros c Hc'. destruct Hq as (_&->&_). apply Hl. set_solver. }
  exists a, s2. rewrite (get_bind s x cl), (put_bind s x cl) by done.
  split; [done|]. split; [by eapply quiet_trans|done].
Qed.

Lemma calm_shutdown_clients (s : server R) :
  (forall c, c ∈ clients s -> is_Some (abs s !! c)) ->
  calm server_shutdown_clients (fun _ => True) s.
Proof. apply shutdown_socks_quiet. Qed.

(** *** Receiving *)

Lemma frame_zero_ok : frame_ok frame_zero.
Proof. by split. Qed.

Lemma calm_recv (s : server R) (c : cid) (v : view) (cap : Z) :
  abs s !! c = Some v -> calm (client_recv malloc_ok c cap) (fun r => frame_ok (snd r)) s.
Proof.
  intros (cl&Hc&<-)%abs_heap_inv. unfold calm, client_recv. rewrite (get_bind s c cl) by done.
  destruct (opty_recv_frame_limited malloc_ok cap (sock cl)) as [o sk] eqn:E.
  apply opty_recv_frame_limited_spec in E as [Ho Hf].
  assert (quiet s (set_heap (<[c := set_sock sk cl]> (heap s)) s)) as Hq.
  { split; [done|]. split; [|done]. rewrite abs_insert. apply insert_id.
    rewrite (abs_heap _ _ _ Hc). unfold view_of. simpl. destruct Ho as (Ho&_). by rewrite Ho. }
  pose proof frame_zero_ok.
  destruct o as [[f|]|e|]; [..|done]; rewrite (put_bind s c cl) by done;
    eexists _, _; (split; [done|]); (split; [done|]); simpl; naive_solver.
Qed.

(** *** Checking the first frame *)

Lemma token_buf_length (tok buf : bytes) :
  blen tok < blen buf -> blen (token_buf tok buf) = blen buf.
Proof. unfold token_buf. intros. blen_lia. Qed.

Lemma stored_length (tok r : bytes) (buf : bytes) : stored tok buf r -> blen r = blen buf.
Proof. intros [[? ->]|(->&->&->)]; [by apply token_buf_length|done]. Qed.

(** What the two checks compute, once the wire token is in its buffer. *)
Definition empty_token (t : option bytes) : bool :=
  match t with Some (b :: _) => b2z b =? 0 | _ => true end.

Lemma intro_refused_ok (t : option bytes) (a : bytes) :
  token_wf t -> blen a = OPTY_MAX_TOKEN + 1 ->
  intro_refused t a = Done (negb (empty_token t) && negb (bool_decide (t = Some a))).
Proof.
  intros Ht Ha. destruct t as [t|]; [|done]. simpl in Ht. unfold intro_refused.
  rewrite tokens_equal_ok by done.
  destruct t as [|b t]; [done|]. change (byte_at (b :: t) 0) with (Done b).
  cbn [mbind outcome_bind empty_token].
  destruct (b2z b =? 0); [done|]. cbn [negb andb orb]. do 2 f_equal.
  apply bool_decide_ext. naive_solver.
Qed.

Lemma control_refused_ok (t : option bytes) (a : bytes) :
  token_wf t -> blen a = OPTY_MAX_TOKEN + 1 ->
  control_refused t a = Done (empty_token t || negb (bool_decide (t = Some a))).
Proof.
  intros Ht Ha. destruct t as [t|]; [|done]. simpl in Ht. unfold control_refused.
  rewrite tokens_equal_ok by done.
  destruct t as [|b t]; [done|]. change (byte_at (b :: t) 0) with (Done b).
  cbn [mbind outcome_bind empty_token].
  destruct (b2z b =? 0); [done|]. cbn [negb andb orb]. do 2 f_equal.
  apply bool_decide_ext. naive_solver.
Qed.

Lemma parse_client_intro_token (f : opty_frame) (buf : bytes) (i : intro) :
  frame_ok f -> opty_parse_client_intro f buf = Done i -> blen (i_token i) = blen buf.
Proof.
  intros Hf. unfold opty_parse_client_intro.
  destruct (f_type f =? msg_code OPTY_MSG_HELLO);
    [|destruct (f_type f =? msg_code OPTY_MSG_RECONNECT); [|done]]; intros Hi;
    [pose proof (parse_intro_payload_inv f buf false Hf) as H
    |pose proof (parse_intro_payload_inv f buf true Hf) as H];
    rewrite Hi in H; destruct H as (tok&_&_&Hs); by eapply stored_length.
Qed.

Lemma parse_client_intro_safe (f : opty_frame) (buf : bytes) :
  frame_ok f -> opty_parse_client_intro f buf <> UB.
Proof.
  intros Hf. unfold opty_parse_client_intro.
  destruct (f_type f =? msg_code OPTY_MSG_HELLO);
    [|destruct (f_type f =? msg_code OPTY_MSG_RECONNECT); [|done]]; intros Hi;
    [pose proof (parse_intro_payload_inv f buf false Hf) as H
    |pose proof (parse_intro_payload_inv f buf true Hf) as H];
    by rewrite Hi in H.
Qed.

Lemma calm_check_intro (f : opty_frame) (s : server R) :
  frame_ok f -> token_wf (token s) -> calm (server_check_intro f) (fun _ => True) s.
Proof.
  intros Hf Ht. unfold calm, server_check_intro.
  destruct (opty_parse_client_intro f (zeros (OPTY_MAX_TOKEN + 1))) as [i|e|] eqn:E;
    [|calm_now|by eapply parse_client_intro_safe in E].
  apply parse_client_intro_token in E; [|done].
  destruct ((i_cols i =? 0) || (i_rows i =? 0)); [calm_now|].
  apply (calm_bind _ _ _ (fun _ => True) s (calm_lift _ _ s (intro_refused_ok _ _ Ht E))).
  intros a s1 _ _. destruct a; [by apply calm_ret|].
  apply (calm_bind _ _ (fun _ => True)); [apply calm_resize|]. intros rc s2 _ _.
  destruct (rc <? 0); by apply calm_ret.
Qed.

Lemma calm_check_control (f : opty_frame) (s : server R) :
  frame_ok f -> token_wf (control_token s) -> calm (server_check_control f) (fun _ => True) s.
Proof.
  intros Hf Ht. unfold calm, server_check_control.
  pose proof (parse_control_inv f (zeros (OPTY_MAX_TOKEN + 1)) Hf) as H.
  destruct (opty_parse_control_shutdown f _) as [[tok input]|e|]; [|calm_now|done].
  destruct H as (tok'&_&_&?&?&_&->).
  assert (blen (token_buf tok' (zeros (OPTY_MAX_TOKEN + 1))) = OPTY_MAX_TOKEN + 1) as Hl
    by (by rewrite token_buf_length).
  apply (calm_bind _ _ _ (fun _ => True) s (calm_lift _ _ s (control_refused_ok _ _ Ht Hl))).
  intros a s1 _ _. destruct a; by apply calm_ret.
Qed.

(** *** Whole phases *)

Definition error_messages : list bytes :=
  [cstr "control authentication failed"; cstr "bad control request";
   cstr "expected hello or reconnect"; cstr "authentication failed"; cstr "bad intro"].

(** What the first frame can lead to. *)
Definition after_first (ph : thread_phase) : Prop :=
  match ph with
  | TError msg => msg ∈ error_messages
  | TAttach _ => True
  | TStop (StopWrite _) => True
  | _ => False
  end.

Lemma calm_first_frame (f : opty_frame) (s : server R) :
  frame_ok f -> token_wf (token s) -> token_wf (control_token s) ->
  calm (first_frame f) after_first s.
Proof.
  intros Hf Ht Hc. unfold first_frame.
  destruct (f_type f =? msg_code OPTY_MSG_CONTROL_SHUTDOWN).
  { apply (calm_bind _ _ (fun _ => True)); [by apply calm_check_control|].
    intros [rc input] s' _ _. apply calm_ret.
    destruct (rc =? -2); [|destruct (rc <? 0)]; simpl; set_solver. }
  destruct (negb _ && negb _); [apply calm_ret; simpl; set_solver|].
  apply (calm_bind _ _ (fun _ => True)); [by apply calm_check_intro|].
  intros [rc requested] s' _ _. apply calm_ret.
  destruct (rc =? -2); [|destruct (rc <? 0)]; simpl; set_solver.
Qed.

Lemma calm_handle_frame (f : opty_frame) (s : server R) :
  frame_ok f -> calm (handle_frame f) (fun _ => True) s.
Proof.
  intros Hf. unfold handle_frame.
  destruct (f_type f =? msg_code OPTY_MSG_STDIN).
  { apply (calm_bind _ _ (fun _ => True)); [|intros; by apply calm_ret].
    apply calm_write_pty. destruct Hf as [-> _]. pose proof (blen_nonneg (f_payload f)). lia. }
  destruct (f_type f =? msg_code OPTY_MSG_RESIZE).
  { pose proof (parse_resize_inv f Hf) as H.
    destruct (opty_parse_resize f) as [[cols rows]|e|]; [|by apply calm_ret|done].
    destruct ((cols =? 0) || (rows =? 0)); [by apply calm_ret|].
    apply (calm_bind _ _ (fun _ => True)); [apply calm_resize|]. intros; by apply calm_ret. }
  destruct (f_type f =? msg_code OPTY_MSG_ACK); [|by apply calm_ret].
  pose proof (parse_ack_inv f Hf) as H.
  destruct (opty_parse_ack f) as [seq|e|]; [by apply calm_ret..|done].
Qed.

Lemma calm_set_child (ch : child_state) (s : server R) : quiet s (set_child ch s).
Proof. by split_and!. Qed.

Lemma calm_stop_step (ph : stop_phase) (s : server R) :
  (forall c, c ∈ clients s -> is_Some (abs s !! c)) -> calm (stop_step ph) (fun _ => True) s.
Proof.
  intros Hl. destruct ph as [input|n waited|n| | |]; cbn [stop_step].
  - apply (calm_bind _ _ (fun _ => True)); [|intros; by apply calm_ret].
    destruct (0 <? blen input); [|by apply calm_ret].
    apply (calm_bind _ _ (fun _ => True)); [|intros; by apply calm_ret].
    apply calm_write_pty. pose proof (blen_nonneg input). lia.
  - unfold calm. destruct (server_poll_child_locked (child s)) as [d ch].
    destruct (negb (d =? 0)); [|destruct (stop_millis n <=? waited)]; calm_now.
  - unfold calm. calm_now.
  - unfold calm. calm_now.
  - apply (calm_bind _ _ (fun _ => True)); [apply calm_close_listener|]. intros; by apply calm_ret.
  - apply (calm_bind _ _ (fun _ => True)); [by apply calm_shutdown_clients|].
    intros; by apply calm_ret.
Qed.

(** Reading the PTY: what was read is appended to the ring. *)
Lemma pty_read_ok `{!ReplayLaws R} (s : server R) (cap : Z) (hist : bytes) :
  rb_repr (ring s) cap hist -> blen hist + 4096 < 2 ^ 64 ->
  exists ph s', pty_read s = Some (ph, s') /\
    clients s' = clients s /\ abs s' = abs s /\ token s' = token s /\
    control_token s' = control_token s /\
    ((ring s' = ring s /\ (ph = PRead \/ ph = PListener)) \/
     (exists data, ph = PSnap (blen hist) data /\ 0 < blen data <= 4096 /\
        rb_repr (ring s') cap (hist ++ data))).
Proof.
  intros Hr Hb. unfold pty_read. destruct (sys_read 4096 (p_io (master s))) as [[data|e] io'] eqn:E.
  - destruct data as [|b data].
    { eexists _, _. split; [reflexivity|]. split_and!; try done. left. auto. }
    assert (blen (b :: data) <= 4096) as Hl.
    { revert E. unfold sys_read. destruct (inq (p_io (master s))) as [|[bs|e] q]; [done| |done].
      intros [= E _]. rewrite <- E. unfold blen. rewrite length_take. lia. }
    destruct (rb_append_ok (ring s) cap hist (b :: data) Hr) as (r'&He&Hr'); [lia|].
    rewrite He. eexists _, _. split; [reflexivity|]. split_and!; try done. right.
    exists (b :: data). split_and!; [done|unfold blen; simpl; lia|done|done].
  - eexists _, _. split; [reflexivity|]. split_and!; try done. left.
    split; [done|]. case_decide; auto.
Qed.

End Specs.
