(* ===== verification/System.v ===== *)
(** * The server as a concurrent system (src/src/server.c)

    Client threads, the PTY thread and the accept loop interleave at their lock
    operations: one step of the system runs one phase of one of them, that is, the
    code between two lock operations, together with the code that is private to
    the thread.  A step that needs a mutex which another thread keeps across steps
    is not enabled: [write_mu] is kept by a client thread that sends WELCOME and
    REPLAY, [child_mu] by the PTY thread that waits for the child. *)

From stdpp Require Import gmap.
From S2P Require Import Prelude.
From S2P Require Import Io.
From S2P Require Import Wire.
From S2P Require Import Messages.
From S2P Require Import Replay.
From S2P Require Import Child.
From S2P Require Import Server.
From S2P Require Import ServerSpec.

(** ** The accept loop *)

Inductive main_phase :=
| MAccept                   (* the head of the loop: the signal flag, then srv.listen_fd *)
| MAccepting (fd : bool)    (* in accept, on what was read from srv.listen_fd *)
| MThread (c : cid)                       (* pthread_create for the new client *)
| MStop (ph : stop_phase) (again : bool)  (* back to the head afterwards, or leave *)
| MJoin (status : Z)        (* pthread_join *)
| MClose (status : Z)       (* close(master_fd) *)
| MExit (status : Z).       (* return status *)

(** What [accept], [calloc], [pthread_create] and the signal flag do. *)
Inductive main_event :=
| EvConn (c : cid) (sk : stream)   (* a connection; its object is at address c *)
| EvDrop                           (* a connection, but no memory or no mutex *)
| EvSignal                         (* g_shutdown_requested is set *)
| EvRetry                          (* EINTR, or out of descriptors *)
| EvBadFd                          (* EBADF or EINVAL: the listener is closed *)
| EvFatal                          (* any other error *)
| EvThread (ok : bool)             (* pthread_create *)
| EvGo.                            (* the next phase, when nothing decides about it *)

Section System.

Context {R : Type} `{!ReplayOps R}.
Variable malloc_ok : Z -> bool.
Variable calloc_ok : Z -> bool.

(** The next phase, and the client whose thread starts. *)
Definition main_step (ev : main_event) (ph : main_phase) : srvM (R := R) (main_phase * option cid) :=
  match ph, ev with
  | MAccept, EvSignal => mret (MStop (StopWrite []) true, None)
  | MAccept, EvGo => fun s => Some ((MAccepting (listening s), None), s)
  | MAccepting _, EvConn c sk => add_client_link c sk;; mret (MThread c, None)
  | MAccepting _, EvSignal => mret (MStop (StopWrite []) true, None)
  | MAccepting _, EvFatal => mret (MStop (StopWrite []) false, None)
  | MAccepting _, EvBadFd => mret (MJoin 0, None)
  | MAccepting _, EvDrop | MAccepting _, EvRetry => mret (MAccept, None)
  | MThread c, EvThread true => mret (MAccept, Some c)
  | MThread c, EvThread false => server_finish_client c;; mret (MAccept, None)
  | MStop ph again, EvGo =>
      next ← stop_step ph;
      mret (match next with
            | Some ph' => MStop ph' again
            | None => if again : bool then MAccept else MJoin 1
            end, None)
  | MJoin status, EvGo => mret (MClose status, None)
  | MClose status, EvGo => close_master;; mret (MExit status, None)
  | _, _ => mret (ph, None)
  end.

(** ** States *)

(** [hist] is what was read from the PTY and appended so far; [att] remembers the
    window each attached client was sent, [asks] what its connection held when its
    thread began to read it.  The program keeps none of these. *)
Record sys := Sys {
  srv : server R;
  pp : pty_phase;
  mp : main_phase;
  threads : gmap cid thread_phase;
  hist : bytes;
  att : gmap cid window;
  asks : gmap cid bytes
}.

(** Nobody keeps the client's [write_mu] across steps. *)
Definition write_mu_free (σ : sys) (c : cid) : bool :=
  match threads σ !! c with Some (TSend _) => false | _ => true end.

Definition child_mu_free (σ : sys) : bool :=
  match pp σ with PReap => false | _ => true end.

Definition stop_may_run (σ : sys) (ph : stop_phase) : bool :=
  match ph with
  | StopPoll _ _ | StopSignal _ | StopReap => child_mu_free σ
  | _ => true
  end.

Definition client_may_run (σ : sys) (ph : thread_phase) : bool :=
  match ph with TStop ph => stop_may_run σ ph | _ => true end.

Definition pty_may_run (σ : sys) : bool :=
  match pp σ with
  | PSend _ _ (c :: _) _ => write_mu_free σ c
  | _ => true
  end.

(** [calloc] returns an address that is not in use, and nothing was written to a
    new connection. *)
Definition main_may_run (σ : sys) (ev : main_event) : bool :=
  match mp σ, ev with
  | MAccepting fd, EvConn c sk =>
      match heap (srv σ) !! c, out sk with
      | None, [] => fd && listening (srv σ)
      | _, _ => false
      end
  | MStop ph _, EvGo => stop_may_run σ ph
  | MJoin _, EvGo => match pp σ with PDone => true | _ => false end
  | _, _ => true
  end.

(** ** Steps *)

Definition after_client (σ : sys) (c : cid) (ph : thread_phase) (next : option thread_phase)
    (s' : server R) : sys :=
  Sys s' (pp σ) (mp σ)
    (match next with Some ph' => <[c := ph']> (threads σ) | None => delete c (threads σ) end)
    (hist σ)
    (match ph, next with TSend w, Some TLoop => <[c := w]> (att σ) | _, _ => att σ end)
    (match ph, next, heap (srv σ) !! c with
     | TFirst, Some (TAttach _), Some cl => <[c := content (inq (sock cl))]> (asks σ)
     | _, _, _ => asks σ
     end).

Definition after_pty (σ : sys) (ph' : pty_phase) (s' : server R) : sys :=
  Sys s' ph' (mp σ) (threads σ)
    (match pp σ, ph' with PRead, PSnap _ data => hist σ ++ data | _, _ => hist σ end)
    (att σ) (asks σ).

Definition after_main (σ : sys) (ev : main_event) (ph' : main_phase) (new : option cid)
    (s' : server R) : sys :=
  Sys s' (pp σ) ph'
    (match new with Some c => <[c := TFirst]> (threads σ) | None => threads σ end)
    (hist σ)
    (match mp σ, ev with MAccepting _, EvConn c _ => delete c (att σ) | _, _ => att σ end)
    (asks σ).

Inductive step (σ : sys) : sys -> Prop :=
| step_client c ph next s' :
    threads σ !! c = Some ph -> client_may_run σ ph = true ->
    client_step malloc_ok c ph (srv σ) = Some (next, s') ->
    step σ (after_client σ c ph next s')
| step_pty ph' s' :
    pty_may_run σ = true ->
    pty_step malloc_ok calloc_ok (pp σ) (srv σ) = Some (ph', s') ->
    step σ (after_pty σ ph' s')
| step_main ev ph' new s' :
    main_may_run σ ev = true ->
    main_step ev (mp σ) (srv σ) = Some ((ph', new), s') ->
    step σ (after_main σ ev ph' new s').

Inductive steps : sys -> sys -> Prop :=
| steps_refl σ : steps σ σ
| steps_snoc σ1 σ2 σ3 : steps σ1 σ2 -> step σ2 σ3 -> steps σ1 σ3.

(** *** Schedules

    An executable scheduler, for concrete runs. *)
Inductive action := AClient (c : cid) | APty | AMain (ev : main_event).

Definition exec (a : action) (σ : sys) : option sys :=
  match a with
  | AClient c =>
      ph ← threads σ !! c;
      if client_may_run σ ph then
        '(next, s') ← client_step malloc_ok c ph (srv σ);
        Some (after_client σ c ph next s')
      else None
  | APty =>
      if pty_may_run σ then
        '(ph', s') ← pty_step malloc_ok calloc_ok (pp σ) (srv σ);
        Some (after_pty σ ph' s')
      else None
  | AMain ev =>
      if main_may_run σ ev then
        '(ph', new, s') ← main_step ev (mp σ) (srv σ);
        Some (after_main σ ev ph' new s')
      else None
  end.

Fixpoint exec_all (l : list action) (σ : sys) : option sys :=
  match l with
  | [] => Some σ
  | a :: rest => σ' ← exec a σ; exec_all rest σ'
  end.

Lemma exec_step (a : action) (σ σ' : sys) : exec a σ = Some σ' -> step σ σ'.
Proof.
  destruct a as [c| |ev]; cbn.
  - destruct (threads σ !! c) as [ph|] eqn:Hth; [cbn|done].
    destruct (client_may_run σ ph) eqn:Hr; [|done].
    destruct (client_step malloc_ok c ph (srv σ)) as [[next s']|] eqn:He; [cbn|done].
    intros [= <-]. by econstructor.
  - destruct (pty_may_run σ) eqn:Hr; [|done].
    destruct (pty_step malloc_ok calloc_ok (pp σ) (srv σ)) as [[ph' s']|] eqn:He; [cbn|done].
    intros [= <-]. by apply step_pty.
  - destruct (main_may_run σ ev) eqn:Hr; [|done].
    destruct (main_step ev (mp σ) (srv σ)) as [[[ph' new] s']|] eqn:He; [cbn|done].
    intros [= <-]. by apply step_main.
Qed.

Lemma steps_trans (σ1 σ2 σ3 : sys) : steps σ1 σ2 -> steps σ2 σ3 -> steps σ1 σ3.
Proof.
  intros H1 H2. induction H2 as [|a b d _ IH Hs]; [done|].
  eapply steps_snoc; [by apply IH|done].
Qed.

Lemma exec_all_steps (l : list action) (σ σ' : sys) : exec_all l σ = Some σ' -> steps σ σ'.
Proof.
  revert σ. induction l as [|a l IH]; intros σ H; cbn in H; [simplify_eq; constructor|].
  destruct (exec a σ) as [σ1|] eqn:E; [cbn in H|done].
  eapply steps_trans; [eapply steps_snoc; [constructor|by eapply exec_step]|by apply IH].
Qed.

(** The state in which [main] starts the PTY thread and enters its loop: no
    client, an empty ring, the token buffers of the command line. *)
Definition initial (cap : Z) (σ : sys) : Prop :=
  clients (srv σ) = [] /\ heap (srv σ) = ∅ /\ rb_repr (ring (srv σ)) cap [] /\
  token_wf (token (srv σ)) /\ token_wf (control_token (srv σ)) /\
  pp σ = PRead /\ mp σ = MAccept /\ threads σ = ∅ /\ hist σ = [] /\ att σ = ∅ /\ asks σ = ∅.

(** Reachable from a start, without exhausting the 64-bit sequence numbers. *)
Definition reachable (cap : Z) (σ : sys) : Prop :=
  exists σ0, initial cap σ0 /\ steps σ0 σ /\ blen (hist σ) + 4096 < 2 ^ 64.

(** ** After main has returned

    [struct server] is an automatic variable of [main], and the client threads are
    detached: the process ends only after [main] has returned, and in between a thread
    that still runs may use the object no more.  [step] lets such a thread go on as if the
    object were still there; [orphan_step] is what it may really do, on its own
    connection: [None] for a use of *srv. *)

Definition main_returned (σ : sys) : bool := match mp σ with MExit _ => true | _ => false end.

Definition uses_srv {A} : srvM (R := R) A := fun _ => None.

Definition orphan_first (frame : opty_frame) : srvM (R := R) thread_phase :=
  if f_type frame =? msg_code OPTY_MSG_CONTROL_SHUTDOWN then
    match opty_parse_control_shutdown frame (zeros (OPTY_MAX_TOKEN + 1)) with
    | Fail _ => mret (TError (cstr "bad control request"))
    | _ => uses_srv                                (* srv->control_token *)
    end
  else if negb (f_type frame =? msg_code OPTY_MSG_HELLO) &&
          negb (f_type frame =? msg_code OPTY_MSG_RECONNECT) then
    mret (TError (cstr "expected hello or reconnect"))
  else
    match opty_parse_client_intro frame (zeros (OPTY_MAX_TOKEN + 1)) with
    | Fail _ => mret (TError (cstr "bad intro"))
    | Done i =>
        if (i_cols i =? 0) || (i_rows i =? 0) then mret (TError (cstr "bad intro"))
        else uses_srv                              (* srv->token *)
    | UB => uses_srv
    end.

Definition orphan_frame (frame : opty_frame) : srvM (R := R) bool :=
  if f_type frame =? msg_code OPTY_MSG_STDIN then
    if f_len frame =? 0 then mret true else uses_srv     (* srv->pty_mu *)
  else if f_type frame =? msg_code OPTY_MSG_RESIZE then
    match opty_parse_resize frame with
    | Fail _ => mret false
    | Done (cols, rows) =>
        if (cols =? 0) || (rows =? 0) then mret false else uses_srv
    | UB => uses_srv
    end
  else handle_frame frame.

Definition orphan_step (c : cid) (ph : thread_phase) : srvM (R := R) (option thread_phase) :=
  match ph with
  | TFirst =>
      '(rc, frame) ← client_recv malloc_ok c OPTY_MAX_UNAUTH_PAYLOAD;
      if rc <? 0 then mret (Some TFinish)
      else next ← orphan_first frame; mret (Some next)
  | TLoop =>
      '(rc, frame) ← client_recv malloc_ok c (OPTY_MAX_FRAME - 1);
      if rc <? 0 then mret (Some TFinish)
      else go ← orphan_frame frame; mret (Some (if go : bool then TLoop else TFinish))
  | TError msg => client_step malloc_ok c (TError msg)
  | TSend w => client_step malloc_ok c (TSend w)
  | _ => uses_srv                    (* srv->clients_mu, srv->ring, srv->child_mu ... *)
  end.

(** Where it is defined, the orphan does what the thread did before. *)
Lemma orphan_step_sound (c : cid) (ph : thread_phase) (s : server R) r :
  orphan_step c ph s = Some r -> client_step malloc_ok c ph s = Some r.
Proof.
  assert (forall {A} (m : srvM (R := R) (Z * opty_frame)) (j k : Z * opty_frame -> srvM (R := R) A) s r,
    (forall x s r, j x s = Some r -> k x s = Some r) -> (m ≫= j) s = Some r -> (m ≫= k) s = Some r) as Hbind.
  { intros A m j k s0 r0 H. unfold mbind, srv_bind. destruct (m s0) as [[x s1]|]; [apply H|done]. }
  destruct ph; cbn [orphan_step]; try done; cbn [client_step]; apply Hbind;
    intros [rc frame] s1 r1; (destruct (rc <? 0); [done|]).
  - unfold orphan_first, first_frame, server_check_control, server_check_intro.
    unfold mbind, srv_bind, mret, srv_ret, uses_srv. repeat case_match; intros; simplify_eq; done.
  - unfold orphan_frame, handle_frame, server_write_pty.
    unfold mbind, srv_bind, mret, srv_ret, uses_srv. repeat case_match; intros; simplify_eq; done.
Qed.

End System.

Arguments sys : clear implicits.
