(* ===== verification/Keeps.v ===== *)
(** * What the server's functions leave alone

    [keeps f m]: the computation [m] does not change [f], a part of the server's state.
    What no client, no terminal and no listener is a part of ([Aside]) is kept by
    everything but the stop of the child; what the child and the ring are not a part of
    either is kept by every step of the system. *)

From stdpp Require Import gmap.
From S2P Require Import Prelude.
From S2P Require Import Io.
From S2P Require Import Wire.
From S2P Require Import Messages.
From S2P Require Import Replay.
From S2P Require Import Child.
From S2P Require Import Server.
From S2P Require Import ServerSpec.
From S2P Require Import System.

Definition keeps {R A B : Type} (f : server R -> B) (m : srvM (R := R) A) : Prop :=
  forall s a s', m s = Some (a, s') -> f s' = f s.

(** A part of the state apart from the clients, the terminal and the listener. *)
Class Aside {R B : Type} (f : server R -> B) : Prop := {
  aside_heap h s : f (set_heap h s) = f s;
  aside_clients l s : f (set_clients l s) = f s;
  aside_master p s : f (set_master p s) = f s;
  aside_listening b s : f (set_listening b s) = f s
}.

#[export] Instance aside_child {R B} (g : child_state -> B) : Aside (R := R) (fun s => g (child s)).
Proof. done. Qed.
#[export] Instance aside_token {R} : Aside (R := R) token.
Proof. done. Qed.
#[export] Instance aside_control_token {R} : Aside (R := R) control_token.
Proof. done. Qed.

Create HintDb keeps.

Section Keeps.

Context {R B : Type} `{!ReplayOps R} (f : server R -> B) `{!Aside f}.
Variable malloc_ok : Z -> bool.
Variable calloc_ok : Z -> bool.

(** The state is the old one, but for clients, terminal and listener. *)
Local Ltac aside := simplify_eq; rewrite ?aside_heap, ?aside_clients, ?aside_master, ?aside_listening; done.

Lemma keeps_ret {A} (a : A) : keeps f (mret a).
Proof. intros s b s' H. unfold mret, srv_ret in H. by simplify_eq. Qed.

Lemma keeps_bind {A A'} (m : srvM (R := R) A) (k : A -> srvM (R := R) A') :
  keeps f m -> (forall a, keeps f (k a)) -> keeps f (mbind k m).
Proof.
  intros Hm Hk s b s' H. unfold mbind, srv_bind in H.
  destruct (m s) as [[a s1]|] eqn:E; [|done]. rewrite (Hk a _ _ _ H). by eapply Hm.
Qed.

Lemma keeps_none {A} : keeps f (fun _ : server R => None (A := A * server R)).
Proof. by intros s b s' H. Qed.

Hint Resolve keeps_ret keeps_bind keeps_none : keeps.

Lemma keeps_get (c : cid) : keeps f (get_client c).
Proof. intros s a s' H. unfold get_client in H. destruct (heap s !! c); by simplify_eq. Qed.

Lemma keeps_put (c : cid) (cl : client) : keeps f (put_client c cl).
Proof. intros s a s' H. unfold put_client in H. destruct (heap s !! c); [aside|done]. Qed.

Hint Resolve keeps_get keeps_put : keeps.

(** Case on what the computation tests, and compose. *)
Local Ltac keep :=
  repeat first
    [ solve [eauto 2 with keeps]
    | apply keeps_bind; [|intros ?]
    | case_match ].

(** The same for the computation that [H] runs. *)
Local Ltac keep_in H :=
  revert H;
  match goal with |- ?m _ = _ -> _ =>
    let Hk := fresh "Hkeeps" in assert (keeps f m) as Hk; [keep|intros H; by eapply Hk]
  end.

Lemma keeps_on_sock (c : cid) (m : io unit) : keeps f (on_sock c m).
Proof. unfold on_sock. keep. Qed.

Lemma keeps_release (c : cid) : keeps f (client_release_locked c).
Proof.
  unfold client_release_locked. keep. intros s0 u s1 H'. unfold client_free in H'.
  destruct (heap s0 !! c); [aside|done].
Qed.

Hint Resolve keeps_on_sock keeps_release : keeps.

Lemma keeps_release_many (c : cid) (n : nat) : keeps f (client_release_many_locked c n).
Proof. induction n as [|n IH]; cbn [client_release_many_locked]; keep. Qed.

Lemma keeps_mark_dead (c : cid) : keeps f (server_mark_dead_locked c).
Proof.
  unfold server_mark_dead_locked, server_drop_from_list_locked. keep.
  intros s0 u s1 H'. destruct (unlink _ _ _); aside.
Qed.

Lemma keeps_take (l : list cid) : keeps f (take_refs l).
Proof. induction l as [|c l IH]; cbn [take_refs]; keep. Qed.

Lemma keeps_release_all (l : list cid) : keeps f (release_all l).
Proof. induction l as [|c l IH]; cbn [release_all]; keep. Qed.

Hint Resolve keeps_release_many keeps_mark_dead keeps_take keeps_release_all : keeps.

Lemma keeps_snapshot : keeps f (server_snapshot_clients calloc_ok).
Proof.
  intros s a s' H. unfold server_snapshot_clients in H.
  destruct (live_clients (heap s) (clients s)) as [live|]; [|done].
  destruct (_ =? 0); [by simplify_eq|]. destruct (negb _); [by simplify_eq|].
  keep_in H.
Qed.

Lemma keeps_resize (cols rows : Z) : keeps f (server_resize_pty cols rows).
Proof.
  intros s a s' H. unfold server_resize_pty in H. destruct (wr_shut _); [by simplify_eq|].
  destruct (p_ioctl (master s)) as [|[] ?]; aside.
Qed.

Lemma keeps_write (data : bytes) (len : Z) : keeps f (server_write_pty data len).
Proof.
  intros s a s' H. unfold server_write_pty in H. destruct (len =? 0); [by simplify_eq|].
  destruct (sub data 0 len); [|done..]. destruct (opty_write_full _ _) as [[] ?]; [aside|aside|done].
Qed.

Lemma keeps_close : keeps f server_close_listener.
Proof. intros s a s' H. unfold server_close_listener in H. destruct (listening s); aside. Qed.

Lemma keeps_close_master : keeps f close_master.
Proof. intros s a s' H. unfold close_master in H. aside. Qed.

Lemma keeps_shutdown_socks (l : list cid) : keeps f (shutdown_socks l).
Proof. induction l as [|c l IH]; cbn [shutdown_socks]; keep. Qed.

Lemma keeps_shutdown : keeps f server_shutdown_clients.
Proof. intros s a s' H. unfold server_shutdown_clients in H. by eapply keeps_shutdown_socks. Qed.

Lemma keeps_lift {A} (o : outcome A) : keeps f (srv_lift o).
Proof. intros s a s' H. unfold srv_lift in H. destruct o; by simplify_eq. Qed.

Hint Resolve keeps_snapshot keeps_resize keeps_write keeps_close keeps_close_master keeps_shutdown keeps_lift : keeps.

Lemma keeps_check_intro (fr : opty_frame) : keeps f (server_check_intro fr).
Proof.
  intros s a s' H. unfold server_check_intro in H.
  destruct (opty_parse_client_intro _ _) as [i|e|]; [|by simplify_eq|done].
  destruct (_ || _); [by simplify_eq|]. keep_in H.
Qed.

Lemma keeps_check_control (fr : opty_frame) : keeps f (server_check_control fr).
Proof.
  intros s a s' H. unfold server_check_control in H.
  destruct (opty_parse_control_shutdown _ _) as [[tok input]|e|]; [|by simplify_eq|done].
  keep_in H.
Qed.

Lemma keeps_attach_begin (c : cid) (q : Z) : keeps f (attach_begin malloc_ok c q).
Proof.
  intros s a s' H. unfold attach_begin in H.
  destruct (rb_window _ _ _) as [w|e|]; [| |done].
  - destruct (_ && _); [by simplify_eq|]. keep_in H.
  - keep_in H.
Qed.

Hint Resolve keeps_check_intro keeps_check_control keeps_attach_begin : keeps.

(** Everything a client thread does but stopping the child. *)
Lemma keeps_client_step (c : cid) (ph : thread_phase) :
  (forall sp, ph = TStop sp -> keeps f (stop_step sp)) -> keeps f (client_step malloc_ok c ph).
Proof.
  intros Hs. destruct ph as [|q|w| |msg|sp|]; cbn [client_step].
  6: apply keeps_bind; [by apply Hs|intros; apply keeps_ret].
  all: unfold client_recv, first_frame, handle_frame, attach_send, server_send_error,
    server_finish_client; keep.
Qed.

(** The phases of a stop that do not touch the child. *)
Lemma keeps_stop_step (sp : stop_phase) :
  (forall n, sp <> StopSignal n) -> (forall n w, sp <> StopPoll n w) -> sp <> StopReap ->
  keeps f (stop_step sp).
Proof.
  intros H1 H2 H3. destruct sp as [input|n w|n| | |]; cbn [stop_step];
    [keep|exfalso; by eapply H2|exfalso; by eapply H1|done|keep|keep].
Qed.

Lemma keeps_main_step (ev : main_event) (mp : main_phase) :
  (forall sp again, mp = MStop sp again -> keeps f (stop_step sp)) -> keeps f (main_step ev mp).
Proof.
  intros Hs. unfold main_step, server_finish_client.
  destruct mp as [|fd|c|sp again| | |], ev as [c' sk| | | | | |[]|]; try apply keeps_ret; try (by keep).
  - intros s0 u s1 H'. by simplify_eq.
  - apply keeps_bind; [|intros; apply keeps_ret].
    intros s0 u s1 H'. unfold add_client_link in H'. aside.
Qed.

(** *** Apart from the child and the ring, too *)

Hypothesis f_child : forall c s, f (set_child c s) = f s.
Hypothesis f_ring : forall r s, f (set_ring r s) = f s.

Lemma keeps_stop (sp : stop_phase) : keeps f (stop_step sp).
Proof.
  destruct sp as [input|n w|n| | |]; [by apply keeps_stop_step|..|by apply keeps_stop_step|by apply keeps_stop_step].
  all: cbn [stop_step]; intros s a s' H; repeat case_match; simplify_eq; by rewrite f_child.
Qed.

Lemma keeps_pty (ph : pty_phase) : keeps f (pty_step malloc_ok calloc_ok ph).
Proof.
  destruct ph as [|seq data|seq data [|c todo] snap|seq data c todo snap| | | | |]; cbn [pty_step].
  - intros s a s' H. unfold pty_read, set_master_io in H.
    repeat case_match; simplify_eq; rewrite ?f_ring; aside.
  - keep.
  - unfold server_release_snapshot. keep.
  - unfold broadcast_send. keep.
  - unfold broadcast_kill. keep.
  - keep.
  - keep.
  - keep.
  - apply keeps_bind; [|intros; apply keeps_ret]. intros s a s' H. simplify_eq. by rewrite f_child.
  - keep.
Qed.

Lemma steps_keep (σ σ' : sys R) : steps malloc_ok calloc_ok σ σ' -> f (srv σ') = f (srv σ).
Proof.
  induction 1 as [|σ1 σ2 σ3 _ IH Hs]; [done|]. rewrite <- IH.
  destruct Hs as [c ph next s' _ _ He|ph' s' _ He|ev ph' new s' _ He]; cbn.
  - eapply keeps_client_step; [|exact He]. intros; apply keeps_stop.
  - by eapply keeps_pty.
  - eapply keeps_main_step; [|exact He]. intros; apply keeps_stop.
Qed.

End Keeps.

(** The tokens are those of the command line, for ever. *)
Lemma steps_tokens {R} `{!ReplayOps R} (malloc_ok calloc_ok : Z -> bool) (σ σ' : sys R) :
  steps malloc_ok calloc_ok σ σ' ->
  token (srv σ') = token (srv σ) /\ control_token (srv σ') = control_token (srv σ).
Proof. intros H. split; by eapply (steps_keep _ malloc_ok calloc_ok). Qed.
