(* ===== verification/Safety.v ===== *)
(** * Invariants of the concurrent server

    What holds in every reachable state of System.v: the reference counts are
    exact, so no client object is used after it was freed; and the bytes each
    attached client was given are WELCOME, REPLAY and STDOUT frames that carry
    the PTY stream without a gap or a repetition. *)

From stdpp Require Import gmap.
From S2P Require Import Prelude.
From S2P Require Import Io.
From S2P Require Import Wire.
From S2P Require Import Messages.
From S2P Require Import Replay.
From S2P Require Import Child.
From S2P Require Import Server.
From S2P Require Import ServerSpec.
From S2P Require Import System.

(** ** Reference counts *)

(** [held c] counts the references to [c] besides the list's. *)
Record refs_ok (l : list cid) (A : gmap cid view) (held : cid -> nat) : Prop := {
  ro_nodup : NoDup l;
  ro_list c : c ∈ l <-> exists v, A !! c = Some v /\ v_list v = true;
  ro_refs c v : A !! c = Some v ->
    v_refs v = (Nat.b2n (v_list v) + held c)%nat /\ (0 < v_refs v)%nat;
  ro_held c : (0 < held c)%nat -> is_Some (A !! c)
}.
Arguments ro_nodup {l A held} _.
Arguments ro_list {l A held} _ _.
Arguments ro_refs {l A held} _ _ _ _.
Arguments ro_held {l A held} _ _ _.

Lemma ro_some l A held (c : cid) : refs_ok l A held -> c ∈ l -> is_Some (A !! c).
Proof. intros H Hc. apply (ro_list H) in Hc as (v&->&_). eauto. Qed.

Lemma ro_list_iff l A held (c : cid) (v : view) :
  refs_ok l A held -> A !! c = Some v -> (v_list v = true <-> c ∈ l).
Proof. intros H Hv. rewrite (ro_list H). split; [eauto|]. intros (v'&?&?). by simplify_eq. Qed.

(** The part of a view that reference counting depends on. *)
Definition counts (v : view) : nat * bool := (v_refs v, v_list v).

Lemma refs_ok_ext l A A' held held' :
  refs_ok l A held -> (forall c, counts <$> A' !! c = counts <$> A !! c) ->
  (forall c, held' c = held c) -> refs_ok l A' held'.
Proof.
  intros H Hc Hh.
  assert (forall c v', A' !! c = Some v' ->
    exists v, A !! c = Some v /\ v_refs v = v_refs v' /\ v_list v = v_list v') as Hfwd.
  { intros c v' Hv'. specialize (Hc c). rewrite Hv' in Hc. cbn in Hc.
    symmetry in Hc. apply fmap_Some in Hc as (v&?&?). exists v. unfold counts in *.
    split; [done|split; congruence]. }
  assert (forall c v, A !! c = Some v ->
    exists v', A' !! c = Some v' /\ v_refs v = v_refs v' /\ v_list v = v_list v') as Hbwd.
  { intros c v Hv. specialize (Hc c). rewrite Hv in Hc. cbn in Hc.
    apply fmap_Some in Hc as (v'&?&?). exists v'. unfold counts in *.
    split; [done|split; congruence]. }
  constructor.
  - apply H.
  - intros c. rewrite (ro_list H). split.
    + intros (v&Hv&Hl). destruct (Hbwd c v Hv) as (v'&?&?&?). exists v'. split; [done|congruence].
    + intros (v'&Hv&Hl). destruct (Hfwd c v' Hv) as (v&?&?&?). exists v. split; [done|congruence].
  - intros c v' Hv. destruct (Hfwd c v' Hv) as (v&Hv2&<-&<-). rewrite Hh. by apply (ro_refs H).
  - intros c Hp. rewrite Hh in Hp. destruct (ro_held H c Hp) as [v Hv].
    destruct (Hbwd c v Hv) as (v'&->&_). eauto.
Qed.

(** Changing one view but not its counts. *)
Lemma refs_ok_update l A held held' (c : cid) (v v' : view) :
  refs_ok l A held -> A !! c = Some v -> counts v' = counts v ->
  (forall c, held' c = held c) -> refs_ok l (<[c := v']> A) held'.
Proof.
  intros H Hv Hc Hh. apply (refs_ok_ext l A _ held); [done| |done]. intros x.
  destruct (decide (x = c)) as [->|]; [|by rewrite lookup_insert_ne].
  rewrite lookup_insert_eq, Hv. cbn. by rewrite Hc.
Qed.

(** A client that leaves the list, giving back [j] more references. *)
Lemma refs_ok_leave l A held held' (c : cid) (v : view) (j h : nat) :
  refs_ok l A held -> A !! c = Some v -> held c = h -> (j <= h)%nat ->
  held' c = (h - j)%nat -> (forall x, x <> c -> held' x = held x) ->
  refs_ok (filter (fun x => x <> c) l)
    (if decide (h - j = 0)%nat then delete c A else <[c := v_gone (h - j) v]> A) held'.
Proof.
  intros H Hv Hh Hj Hc Hne. set (A' := if decide _ then _ else _).
  assert (forall x, x <> c -> A' !! x = A !! x) as Hx.
  { intros x Hx. unfold A'. case_decide; [by rewrite lookup_delete_ne|by rewrite lookup_insert_ne]. }
  constructor.
  - by apply list.NoDup_filter, (ro_nodup H).
  - intros x. rewrite list_elem_of_filter, (ro_list H). destruct (decide (x = c)) as [->|Hxc].
    + split; [by intros [? _]|]. intros (v'&Hv'&Hl). exfalso. revert Hv'. unfold A'.
      case_decide; [by rewrite lookup_delete_eq|]. rewrite lookup_insert_eq.
      intros [= <-]. done.
    + rewrite Hx by done. naive_solver.
  - intros x v'. destruct (decide (x = c)) as [->|Hxc].
    + unfold A'. case_decide; [by rewrite lookup_delete_eq|]. rewrite lookup_insert_eq.
      intros [= <-]. simpl. rewrite Hc. lia.
    + rewrite Hx, Hne by done. apply (ro_refs H).
  - intros x. destruct (decide (x = c)) as [->|Hxc].
    + rewrite Hc. intros Hp. unfold A'. rewrite decide_False by lia. by rewrite lookup_insert_eq.
    + rewrite Hx, Hne by done. apply (ro_held H).
Qed.

(** A snapshot holds one more reference to each of its clients. *)
Lemma refs_ok_take l A A' held held' (live : list cid) :
  refs_ok l A held -> (forall c, A' !! c = take_ref live A c) ->
  (forall c, c ∈ live -> is_Some (A !! c)) ->
  (forall c, held' c = (held c + (if decide (c ∈ live) then 1 else 0))%nat) ->
  refs_ok l A' held'.
Proof.
  intros H Ha Hs Hh. unfold take_ref in Ha. constructor.
  - apply H.
  - intros c. rewrite (ro_list H), Ha. destruct (A !! c) as [v|]; cbn; [|naive_solver].
    case_decide; naive_solver.
  - intros c v'. rewrite Ha, Hh. destruct (A !! c) as [v|] eqn:E; cbn; [|done].
    pose proof (ro_refs H c v E). case_decide; intros [= <-]; simpl; lia.
  - intros c Hp. rewrite Hh in Hp. rewrite Ha.
    assert (is_Some (A !! c)) as [v ->]; [|cbn; eauto].
    case_decide; [auto|]. apply (ro_held H). lia.
Qed.

Lemma refs_ok_drop l A A' held held' (live : list cid) :
  refs_ok l A held -> (forall c, A' !! c = drop_ref live A c) ->
  (forall c, held c = (held' c + (if decide (c ∈ live) then 1 else 0))%nat) ->
  refs_ok l A' held'.
Proof.
  intros H Ha Hh. unfold drop_ref in Ha.
  assert (forall c v, A !! c = Some v -> c ∈ live -> A' !! c =
    if decide (v_list v = false /\ held' c = 0%nat) then None
    else Some (v_set_refs (Nat.b2n (v_list v) + held' c) v)) as Hin.
  { intros c v Hv Hc. rewrite Ha, Hv. cbn. rewrite decide_True by done.
    pose proof (ro_refs H c v Hv) as [Hr _]. specialize (Hh c). rewrite decide_True in Hh by done.
    rewrite Hr, Hh. destruct (decide _) as [[-> ->]|Hd]; [done|].
    assert (Nat.b2n (v_list v) + held' c <> 0)%nat.
    { intros H0. apply Hd. destruct (v_list v); [done|]. by split. }
    destruct (Nat.b2n (v_list v) + held' c)%nat as [|n] eqn:En; [done|].
    by replace (Nat.b2n (v_list v) + (held' c + 1))%nat with (S (S n)) by lia. }
  assert (forall c, c ∉ live -> A' !! c = A !! c /\ held' c = held c) as Hout.
  { intros c Hc. rewrite Ha, Hh. split; [|rewrite decide_False by done; lia].
    destruct (A !! c); [|done]. cbn. by rewrite decide_False. }
  constructor.
  - apply H.
  - intros c. rewrite (ro_list H). destruct (decide (c ∈ live)) as [Hc|Hc];
      [|by destruct (Hout c Hc) as [-> _]].
    split.
    + intros (v&Hv&Hl). rewrite (Hin c v Hv Hc). rewrite decide_False by (intros [Hf _]; congruence). eauto.
    + destruct (A !! c) as [v|] eqn:E; [|intros (v&Hv&_); by rewrite Ha, E in Hv].
      rewrite (Hin c v E Hc). case_decide as Hd; [intros (?&?&?); done|].
      intros (v'&[= <-]&Hl). by exists v.
  - intros c v'. destruct (decide (c ∈ live)) as [Hc|Hc];
      [|destruct (Hout c Hc) as [-> ->]; apply (ro_refs H)].
    destruct (A !! c) as [v|] eqn:E; [|by rewrite Ha, E].
    rewrite (Hin c v E Hc). case_decide as Hd; [done|]. intros [= <-]. simpl. split; [done|].
    destruct (v_list v); simpl; [lia|]. destruct (held' c); [by destruct Hd|lia].
  - intros c Hp. destruct (decide (c ∈ live)) as [Hc|Hc];
      [|destruct (Hout c Hc) as [-> He]; apply (ro_held H); lia].
    destruct (ro_held H c) as [v Hv]; [rewrite Hh; lia|].
    rewrite (Hin c v Hv Hc). rewrite decide_False by lia. eauto.
Qed.

(** A new client, with the list's reference and its thread's. *)
Lemma refs_ok_add l A held held' (c : cid) (v : view) :
  refs_ok l A held -> A !! c = None -> v_refs v = 2%nat -> v_list v = true ->
  held' c = 1%nat -> (forall x, x <> c -> held' x = held x) ->
  refs_ok (c :: l) (<[c := v]> A) held'.
Proof.
  intros H Hn Hr Hl Hc Hne. constructor.
  - constructor; [|apply H]. intros Hin. by destruct (ro_some _ _ _ c H Hin) as [? ?]; simplify_eq.
  - intros x. rewrite elem_of_cons, (ro_list H). destruct (decide (x = c)) as [->|].
    + rewrite lookup_insert_eq. naive_solver.
    + rewrite lookup_insert_ne by done. naive_solver.
  - intros x v'. destruct (decide (x = c)) as [->|].
    + rewrite lookup_insert_eq, Hc. intros [= <-]. rewrite Hr, Hl. simpl. lia.
    + rewrite lookup_insert_ne, Hne by done. apply (ro_refs H).
  - intros x. destruct (decide (x = c)) as [->|].
    + rewrite lookup_insert_eq. eauto.
    + rewrite lookup_insert_ne, Hne by done. apply (ro_held H).
Qed.

(** ** What a client has been given *)

(** STDOUT frames for the chunks [ds], from sequence number [seq] on. *)
Fixpoint stdout_frames (seq : Z) (ds : list bytes) : bytes :=
  match ds with
  | [] => []
  | d :: rest =>
      encode_frame (msg_code OPTY_MSG_STDOUT) (opty_put_u64 seq ++ d) ++
      stdout_frames (seq + blen d) rest
  end.

Lemma stdout_frames_snoc (seq : Z) (ds : list bytes) (d : bytes) :
  stdout_frames seq (ds ++ [d]) =
  stdout_frames seq ds ++
  encode_frame (msg_code OPTY_MSG_STDOUT) (opty_put_u64 (seq + blen (concat ds)) ++ d).
Proof.
  revert seq. induction ds as [|x ds IH]; intros seq; cbn [stdout_frames app concat].
  - rewrite app_nil_r. do 3 f_equal. unfold blen. simpl. lia.
  - rewrite IH, <- app_assoc, blen_app. do 5 f_equal. lia.
Qed.

Definition attached_out (w : window) (ds : list bytes) : bytes :=
  welcome_frame w ++ replay_frame w ++ stdout_frames (w_next w) ds.

Lemma attached_out_nil (w : window) : attached_out w [] = welcome_frame w ++ replay_frame w.
Proof. unfold attached_out. cbn. by rewrite app_nil_r. Qed.

Lemma attached_out_snoc (w : window) (ds : list bytes) (d : bytes) :
  attached_out w (ds ++ [d]) =
  attached_out w ds ++
  encode_frame (msg_code OPTY_MSG_STDOUT) (opty_put_u64 (w_next w + blen (concat ds)) ++ d).
Proof. unfold attached_out. by rewrite stdout_frames_snoc, !app_assoc. Qed.

(** ** The PTY thread's phases *)

Definition snap_of (ph : pty_phase) : list cid :=
  match ph with PSend _ _ _ snap | PKill _ _ _ _ snap => snap | _ => [] end.
Definition todo_of (ph : pty_phase) : list cid :=
  match ph with PSend _ _ todo _ | PKill _ _ _ todo _ => todo | _ => [] end.
Definition seq_of (ph : pty_phase) : Z :=
  match ph with PSnap seq _ | PSend seq _ _ _ | PKill seq _ _ _ _ => seq | _ => 0 end.

(** [c] may still be owed the current chunk. *)
Definition pending (ph : pty_phase) (c : cid) : Prop :=
  match ph with PSnap _ _ => True | _ => c ∈ todo_of ph end.

(** A send to [c] has just failed. *)
Definition victim (ph : pty_phase) (c : cid) : Prop :=
  match ph with PKill _ _ x _ _ => x = c | _ => False end.

(** The stream of [c] is whole: it is alive, or the broadcast will come to it. *)
Definition exact (ph : pty_phase) (c : cid) (v : view) : Prop :=
  c ∈ todo_of ph \/ (v_dead v = false /\ ~ victim ph c).

(** The current chunk is the end of the stream, and no more than the PTY thread's
    buffer. *)
Definition chunk_ok (h : bytes) (seq : Z) (data : bytes) : Prop :=
  0 <= seq /\ seq + blen data = blen h /\ log_since h seq = data /\ blen data <= 4096.

Definition chunks_small (ds : list bytes) : Prop := Forall (fun d => blen d <= 4096) ds.

Definition pty_ok (h : bytes) (ph : pty_phase) : Prop :=
  match ph with
  | PSnap seq data => chunk_ok h seq data
  | PSend seq data todo snap => chunk_ok h seq data /\ NoDup snap /\ todo `suffix_of` snap
  | PKill seq data c todo snap => chunk_ok h seq data /\ NoDup snap /\ (c :: todo) `suffix_of` snap
  | _ => True
  end.

Section Safety.

Context {R : Type} `{!ReplayOps R, !ReplayLaws R}.
Variable malloc_ok : Z -> bool.
Variable calloc_ok : Z -> bool.
Variable cap : Z.

(** [w] is the report for a stream that [h] continues, with its block. *)
Definition window_ok (h : bytes) (w : window) : Prop :=
  (w_data w = None /\ w_len w = 0 \/ exists d, w_data w = Some d /\ w_len w = blen d) /\
  exists h0 q, h0 `prefix_of` h /\ w = log_window malloc_ok cap h0 q.

Lemma window_ok_app (h d : bytes) (w : window) : window_ok h w -> window_ok (h ++ d) w.
Proof.
  intros (Hs&h0&q&Hp&->). split; [done|]. exists h0, q. split; [|done]. by apply prefix_app_r.
Qed.

Lemma window_ok_next (h : bytes) (w : window) : window_ok h w -> 0 <= w_next w <= blen h.
Proof.
  intros (_&h0&q&[k ->]&->). simpl. rewrite blen_app.
  pose proof (blen_nonneg h0). pose proof (blen_nonneg k). lia.
Qed.

(** ** The invariant of one client

    [h] is the stream so far, [ph] the phase of the client's thread, [a] the
    window it was attached with, [v] its view. *)

Definition phase_ok (h : bytes) (a : option window) (ph : thread_phase) (v : view) : Prop :=
  match ph with
  | TFirst | TAttach _ | TStop _ => v_auth v = false /\ v_out v = []
  | TSend w => v_auth v = true /\ v_out v = [] /\ v_live v = w_next w /\ window_ok h w /\ a = None
  | TLoop => is_Some a
  | TError msg => msg ∈ error_messages /\ a = None /\ (v_auth v = false -> v_out v = [])
  | TFinish => True
  end.

Definition error_frame (msg : bytes) : bytes := encode_frame (msg_code OPTY_MSG_ERROR) msg.

(** The stream part; it needs the memory for the snapshots. *)
Definition stream_ok (pp : pty_phase) (h : bytes) (c : cid) (a : option window) (v : view) : Prop :=
  (v_auth v = true -> exact pp c v ->
     v_live v = blen h \/ (pending pp c /\ v_live v = seq_of pp)) /\
  (forall w, a = Some w -> exists ds,
     chunks_small ds /\ concat ds `prefix_of` log_since h (w_next w) /\
     v_out v `prefix_of` attached_out w ds /\
     (exact pp c v -> v_out v = attached_out w ds /\ v_live v = w_next w + blen (concat ds))).

Record client_ok (pp : pty_phase) (h : bytes) (c : cid) (ph : option thread_phase)
    (a : option window) (v : view) : Prop := {
  co_live : v_auth v = true -> 0 <= v_live v <= blen h;
  co_list : v_dead v = false -> v_list v = true;
  co_snap : c ∈ snap_of pp -> v_auth v = true;
  co_unauth : v_auth v = false ->
    a = None /\ exists msg, msg ∈ error_messages /\ v_out v `prefix_of` error_frame msg;
  co_phase p : ph = Some p -> phase_ok h a p v;
  co_window w : a = Some w -> v_auth v = true /\ window_ok h w;
  co_stream : (forall n, calloc_ok n = true) -> stream_ok pp h c a v
}.
Arguments co_live {pp h c ph a v} _ _.
Arguments co_list {pp h c ph a v} _ _.
Arguments co_snap {pp h c ph a v} _ _.
Arguments co_unauth {pp h c ph a v} _ _.
Arguments co_phase {pp h c ph a v} _ _ _.
Arguments co_window {pp h c ph a v} _ _ _.
Arguments co_stream {pp h c ph a v} _ _.

(** ** The invariant of the system *)

Definition main_holds (m : main_phase) (c : cid) : bool :=
  match m with MThread x => bool_decide (x = c) | _ => false end.

Definition held (σ : sys R) (c : cid) : nat :=
  (Nat.b2n (bool_decide (is_Some (threads σ !! c))) + Nat.b2n (main_holds (mp σ) c) +
   (if decide (c ∈ snap_of (pp σ)) then 1 else 0))%nat.

(** A client whose thread is being created counts as one before its first
    frame. *)
Definition phase_of (σ : sys R) (c : cid) : option thread_phase :=
  match threads σ !! c with
  | Some ph => Some ph
  | None => if main_holds (mp σ) c then Some TFirst else None
  end.

Record inv (σ : sys R) : Prop := {
  i_refs : refs_ok (clients (srv σ)) (abs (srv σ)) (held σ);
  i_main c : mp σ = MThread c -> threads σ !! c = None;
  i_ring : rb_repr (ring (srv σ)) cap (hist σ);
  i_token : token_wf (token (srv σ));
  i_control : token_wf (control_token (srv σ));
  i_pty : pty_ok (hist σ) (pp σ);
  i_clients c v : abs (srv σ) !! c = Some v ->
    client_ok (pp σ) (hist σ) c (phase_of σ c) (att σ !! c) v
}.
Arguments i_refs {σ} _.
Arguments i_main {σ} _ _ _.
Arguments i_ring {σ} _.
Arguments i_token {σ} _.
Arguments i_control {σ} _.
Arguments i_pty {σ} _.
Arguments i_clients {σ} _ _ _ _.

Lemma initial_inv (σ : sys R) : initial cap σ -> inv σ.
Proof.
  intros (Hc&Hh&Hr&Ht&Hct&Hp&Hm&Hth&Hhist&Ha).
  assert (abs (srv σ) = ∅) as Habs by (unfold abs; by rewrite Hh).
  constructor; rewrite ?Habs, ?Hc, ?Hhist, ?Hp, ?Hm; try done.
  - constructor.
    + constructor.
    + intros c. split; [set_solver|]. intros (v&Hv&_). by rewrite lookup_empty in Hv.
    + intros c v Hv. by rewrite lookup_empty in Hv.
    + intros c. unfold held. rewrite Hth, Hm, Hp, lookup_empty. simpl. lia.
Qed.

(** A thread's client is there. *)
Lemma inv_client (σ : sys R) (c : cid) (ph : thread_phase) :
  inv σ -> threads σ !! c = Some ph ->
  exists v, abs (srv σ) !! c = Some v /\
    client_ok (pp σ) (hist σ) c (Some ph) (att σ !! c) v.
Proof.
  intros H Hc. destruct (ro_held (i_refs H) c) as [v Hv].
  { unfold held. rewrite Hc. simpl. lia. }
  exists v. split; [done|]. pose proof (i_clients H c v Hv) as Hco.
  unfold phase_of in Hco. by rewrite Hc in Hco.
Qed.

(** ** Steps of a client's thread *)

(** A step that changes the thread's own client only, keeping its counts. *)
Lemma inv_own_step (σ : sys R) (c : cid) (ph ph' : thread_phase) (v v' : view)
    (s' : server R) (att' : gmap cid window) (ks : gmap cid bytes) :
  inv σ -> threads σ !! c = Some ph -> abs (srv σ) !! c = Some v ->
  clients s' = clients (srv σ) -> only_clients (srv σ) s' ->
  abs s' = <[c := v']> (abs (srv σ)) -> counts v' = counts v ->
  (forall x, x <> c -> att' !! x = att σ !! x) ->
  client_ok (pp σ) (hist σ) c (Some ph') (att' !! c) v' ->
  inv (Sys s' (pp σ) (mp σ) (<[c := ph']> (threads σ)) (hist σ) att' ks).
Proof.
  intros H Hth Hv Hcs (Hr&Ht&Hct) Ha Hcnt Hatt Hco.
  assert (forall x, is_Some (<[c := ph']> (threads σ) !! x) <-> is_Some (threads σ !! x)) as Hsome.
  { intros x. destruct (decide (x = c)) as [->|]; [rewrite lookup_insert_eq, Hth|
      rewrite lookup_insert_ne by done]; naive_solver. }
  constructor; cbn; rewrite ?Hcs, ?Ha, ?Hr, ?Ht, ?Hct; try apply H.
  - apply (refs_ok_update _ _ (held σ) _ c v); [apply H|done..|].
    intros x. unfold held. cbn. by rewrite (bool_decide_ext _ _ (Hsome x)).
  - intros x Hm. pose proof (i_main H x Hm) as Hx. destruct (decide (x = c)) as [->|]; [congruence|].
    by rewrite lookup_insert_ne.
  - intros x vx. unfold phase_of. cbn. destruct (decide (x = c)) as [->|Hx].
    + rewrite !lookup_insert_eq. by intros [= <-].
    + rewrite !lookup_insert_ne, Hatt by done. apply (i_clients H).
Qed.

(** The same, when the client's view does not change at all. *)
Lemma inv_calm_step (σ : sys R) (c : cid) (ph ph' : thread_phase) (v : view) (s' : server R)
    (ks : gmap cid bytes) :
  inv σ -> threads σ !! c = Some ph -> abs (srv σ) !! c = Some v -> quiet (srv σ) s' ->
  client_ok (pp σ) (hist σ) c (Some ph') (att σ !! c) v ->
  inv (Sys s' (pp σ) (mp σ) (<[c := ph']> (threads σ)) (hist σ) (att σ) ks).
Proof.
  intros H Hth Hv (Hcs&Ha&Ho) Hco. eapply (inv_own_step _ _ ph ph' v v); eauto.
  rewrite Ha. symmetry. by apply insert_id.
Qed.

(** Changing the phase of a client whose view stays. *)
Lemma client_ok_phase pp h c ph ph' a v :
  client_ok pp h c ph a v -> (forall p, ph' = Some p -> phase_ok h a p v) ->
  client_ok pp h c ph' a v.
Proof. intros [] ?. by constructor. Qed.

Definition client_goal (σ : sys R) (c : cid) (ph : thread_phase) : Prop :=
  exists next s', client_step malloc_ok c ph (srv σ) = Some (next, s') /\
    inv (after_client σ c ph next s').

(** A step that is calm towards the clients, with the phases it may lead to. *)
Lemma client_calm (σ : sys R) (c : cid) (ph : thread_phase) (v : view)
    (P : option thread_phase -> Prop) :
  inv σ -> threads σ !! c = Some ph -> abs (srv σ) !! c = Some v ->
  client_ok (pp σ) (hist σ) c (Some ph) (att σ !! c) v ->
  (forall w, ph <> TSend w) ->
  calm (client_step malloc_ok c ph) P (srv σ) ->
  (forall next, P next -> exists ph', next = Some ph' /\ phase_ok (hist σ) (att σ !! c) ph' v) ->
  client_goal σ c ph.
Proof.
  intros H Hth Hv Hco Hns (next&s'&He&Hq&HP) Hnext. exists next, s'. split; [done|].
  destruct (Hnext next HP) as (ph'&->&Hp). unfold after_client.
  destruct ph; try (by destruct (Hns w)); (eapply inv_calm_step; [done..|]);
    (eapply client_ok_phase; [done|]; by intros ? [= <-]).
Qed.

Lemma step_first (σ : sys R) (c : cid) :
  inv σ -> threads σ !! c = Some TFirst -> client_goal σ c TFirst.
Proof.
  intros H Hth. destruct (inv_client σ c _ H Hth) as (v&Hv&Hco).
  destruct (co_phase Hco _ eq_refl) as [Ha Ho]. destruct (co_unauth Hco Ha) as [Hatt _].
  apply (client_calm σ c TFirst v
           (fun next => exists ph, next = Some ph /\ (ph = TFinish \/ after_first ph))); try done.
  - cbn [client_step]. eapply calm_bind; [by eapply calm_recv|].
    intros [rc frame] s' (_&_&_&Ht&Hc) Hf. cbn in Hf.
    destruct (rc <? 0); [apply calm_ret; eauto|].
    eapply calm_bind; [apply calm_first_frame; rewrite ?Ht, ?Hc; by try apply H|].
    intros ph s2 _ Hph. apply calm_ret. eauto.
  - intros next (ph&->&Hph). exists ph. split; [done|].
    destruct Hph as [->|Hph]; [done|]. destruct ph as [| | | |msg|[]|]; try done.
Qed.

Lemma step_stop (σ : sys R) (c : cid) (sp : stop_phase) :
  inv σ -> threads σ !! c = Some (TStop sp) -> client_goal σ c (TStop sp).
Proof.
  intros H Hth. destruct (inv_client σ c _ H Hth) as (v&Hv&Hco).
  apply (client_calm σ c (TStop sp) v
           (fun next => exists ph, next = Some ph /\ (ph = TFinish \/ exists sp', ph = TStop sp')));
    try done.
  - cbn [client_step]. eapply calm_bind; [apply calm_stop_step|].
    { intros x Hx. by eapply ro_some; [apply H|]. }
    intros [sp'|] s' _ _; apply calm_ret; eauto 10.
  - intros next (ph&->&[->|[sp' ->]]); [by exists TFinish|].
    exists (TStop sp'). split; [done|]. apply (co_phase Hco _ eq_refl).
Qed.

Lemma step_loop (σ : sys R) (c : cid) :
  inv σ -> threads σ !! c = Some TLoop -> client_goal σ c TLoop.
Proof.
  intros H Hth. destruct (inv_client σ c _ H Hth) as (v&Hv&Hco).
  apply (client_calm σ c TLoop v (fun next => next = Some TFinish \/ next = Some TLoop)); try done.
  - cbn [client_step]. eapply calm_bind; [by eapply calm_recv|].
    intros [rc frame] s' _ Hf. destruct (rc <? 0); [apply calm_ret; eauto|].
    eapply calm_bind; [by apply calm_handle_frame|]. intros [] s2 _ _; apply calm_ret; auto.
  - intros next [->| ->]; [by exists TFinish|]. exists TLoop. split; [done|].
    apply (co_phase Hco _ eq_refl).
Qed.

Lemma step_attach (σ : sys R) (c : cid) (q : Z) :
  inv σ -> threads σ !! c = Some (TAttach q) -> client_goal σ c (TAttach q).
Proof.
  intros H Hth. destruct (inv_client σ c _ H Hth) as (v&Hv&Hco).
  destruct (co_phase Hco _ eq_refl) as [Hau Ho]. destruct (co_unauth Hco Hau) as [Hatt _].
  pose proof (i_ring H) as Hr. pose proof (blen_nonneg (hist σ)).
  destruct (attach_begin_ok malloc_ok (srv σ) c v cap (hist σ) q Hv Hr)
    as [He|(Hshape&s'&He&Hcs&Hoc&Ha)]; unfold client_goal; cbn [client_step].
  - eexists _, _. rewrite (bind_ok _ _ _ _ _ He). split; [done|].
    eapply inv_calm_step; [done..|]. eapply client_ok_phase; [done|]. intros ? [= <-].
    simpl. split_and!; [set_solver|done|done].
  - eexists _, _. rewrite (bind_ok _ _ _ _ _ He). split; [done|].
    eapply (inv_own_step _ _ _ _ v); [done..|]. rewrite Hatt. constructor; cbn.
    + lia.
    + apply Hco.
    + done.
    + done.
    + intros p [= <-]. cbn. split_and!; [done|done|done|split; [done|]|done].
      exists (hist σ), q. done.
    + done.
    + intros _. split; [by left|]. done.
Qed.

Lemma step_send (σ : sys R) (c : cid) (w : window) :
  inv σ -> threads σ !! c = Some (TSend w) -> client_goal σ c (TSend w).
Proof.
  intros H Hth. destruct (inv_client σ c _ H Hth) as (v&Hv&Hco).
  destruct (co_phase Hco _ eq_refl) as (Hau&Ho&Hl&Hw&Hatt). pose proof Hw as (Hshape&_).
  destruct (attach_send_ok malloc_ok (srv σ) c v w Hv Hshape) as (rc&p&s'&He&Hcs&Hoc&Ha&Hrc).
  unfold client_goal; cbn [client_step]. eexists _, _.
  rewrite (bind_ok _ _ _ _ _ He). split; [done|]. unfold after_client.
  destruct Hrc as [[-> ->]| ->]; cbn [Z.ltb Z.compare].
  - eapply (inv_own_step _ _ _ _ v); [done..| |].
    { intros x Hx. by rewrite lookup_insert_ne. }
    rewrite lookup_insert_eq. constructor; cbn; try (by apply Hco); try congruence.
    + intros ? [= <-]. by eexists.
    + intros ? [= <-]. done.
    + intros Hc. split; [by apply (co_stream Hco Hc)|]. intros ? [= <-]. exists [].
      rewrite attached_out_nil. cbn. rewrite Ho. cbn. split_and!; [by apply Forall_nil_2|apply prefix_nil|done|].
      intros _. split; [done|]. rewrite Hl. unfold blen. simpl. lia.
  - eapply (inv_own_step _ _ _ _ v); [done..|]. constructor; cbn; try (by apply Hco); try congruence.
    + intros ? [= <-]. cbn. split_and!; [set_solver|done|congruence].
    + intros Hc. split; [by apply (co_stream Hco Hc)|]. intros ??. congruence.
Qed.

Lemma step_error (σ : sys R) (c : cid) (msg : bytes) :
  inv σ -> threads σ !! c = Some (TError msg) -> client_goal σ c (TError msg).
Proof.
  intros H Hth. destruct (inv_client σ c _ H Hth) as (v&Hv&Hco).
  destruct (co_phase Hco _ eq_refl) as (Hm&Hatt&Ho).
  destruct (on_sock_sends (srv σ) c v _ _ Hv (sends_error msg)) as (rc&p&s'&He&Ha&Hcs&Hoc&Hrc).
  unfold client_goal; cbn [client_step]. unfold server_send_error. eexists _, _.
  rewrite (bind_ok _ _ _ _ _ He). split; [done|].
  eapply (inv_own_step _ _ _ _ v); [done..|]. constructor; cbn; try (by apply Hco).
  - intros Hau. split; [done|]. exists msg. split; [done|]. rewrite Ho by done. cbn.
    destruct Hrc as [[_ ->]|[_ ?]]; [done|done].
  - by intros ? [= <-].
  - intros Hc. split; [by apply (co_stream Hco Hc)|]. intros ??. congruence.
Qed.

(** ** A client that leaves *)

Lemma inv_leave (σ σ' : sys R) (c : cid) (v : view) (j h : nat) :
  inv σ -> abs (srv σ) !! c = Some v -> held σ c = h -> (j <= h)%nat ->
  held σ' c = (h - j)%nat -> (forall x, x <> c -> held σ' x = held σ x) ->
  clients (srv σ') = filter (fun x => x <> c) (clients (srv σ)) ->
  only_clients (srv σ) (srv σ') ->
  abs (srv σ') = (if decide (h - j = 0)%nat then delete c (abs (srv σ))
                  else <[c := v_gone (h - j) v]> (abs (srv σ))) ->
  hist σ' = hist σ -> att σ' = att σ ->
  (forall x, mp σ' = MThread x -> threads σ' !! x = None) -> pty_ok (hist σ) (pp σ') ->
  (forall x vx, x <> c -> client_ok (pp σ) (hist σ) x (phase_of σ x) (att σ !! x) vx ->
     client_ok (pp σ') (hist σ) x (phase_of σ' x) (att σ !! x) vx) ->
  client_ok (pp σ') (hist σ) c (phase_of σ' c) (att σ !! c) (v_gone (h - j) v) ->
  inv σ'.
Proof.
  intros H Hv Hh Hj Hhc Hne Hcs (Hr&Ht&Hct) Ha Hhist Hatt Hm Hp Hothers Hc.
  constructor; rewrite ?Hcs, ?Hr, ?Ht, ?Hct, ?Hhist, ?Ha; try done; try apply H.
  - by eapply refs_ok_leave; [apply H|..].
  - intros x vx Hx. rewrite Hatt. destruct (decide (x = c)) as [->|Hxc].
    + case_decide; [by rewrite lookup_delete_eq in Hx|].
      rewrite lookup_insert_eq in Hx. by simplify_eq.
    + apply Hothers; [done|]. apply (i_clients H).
      case_decide; [by rewrite lookup_delete_ne in Hx|by rewrite lookup_insert_ne in Hx].
Qed.

(** The dead view satisfies what the live one did. *)
Lemma client_ok_gone pp h c ph a v n ph' :
  client_ok pp h c ph a v -> (forall p, ph' = Some p -> p = TFinish \/ ph = Some p) ->
  client_ok pp h c ph' a (v_gone n v).
Proof.
  intros H Hph. constructor; cbn; try apply H; [done|..].
  - intros p Hp. destruct (Hph p Hp) as [->|Hp']; [done|].
    pose proof (co_phase H p Hp') as Hok. by destruct p.
  - intros Hc. destruct (co_stream H Hc) as [Hs Hd]. split.
    + intros Hau [Hx|[Hx _]]; [|done]. apply Hs; [done|by left].
    + intros w Hw. destruct (Hd w Hw) as (ds&?&?&?&He). exists ds. split_and!; [done..|].
      intros [Hx|[Hx _]]; [|done]. apply He. by left.
Qed.

(** [server_finish_client], by the thread or by the accept loop. *)
Lemma finish_ok (σ : sys R) (c : cid) (v : view) :
  inv σ -> abs (srv σ) !! c = Some v -> (1 <= held σ c)%nat ->
  exists s', server_finish_client c (srv σ) = Some (tt, s') /\
    clients s' = filter (fun x => x <> c) (clients (srv σ)) /\ only_clients (srv σ) s' /\
    abs s' = (if decide (held σ c - 1 = 0)%nat then delete c (abs (srv σ))
              else <[c := v_gone (held σ c - 1) v]> (abs (srv σ))).
Proof.
  intros H Hv Hheld. pose proof (i_refs H) as Hro. destruct (ro_refs Hro c v Hv).
  apply (leave_ok (srv σ) c v 1 (held σ c)); auto.
  - apply (ro_nodup Hro).
  - intros x Hx. by eapply ro_some.
  - by apply (ro_list_iff _ _ _ _ _ Hro).
Qed.

Lemma step_finish (σ : sys R) (c : cid) :
  inv σ -> threads σ !! c = Some TFinish -> client_goal σ c TFinish.
Proof.
  intros H Hth. destruct (inv_client σ c _ H Hth) as (v&Hv&Hco).
  assert (main_holds (mp σ) c = false) as Hmain.
  { destruct (mp σ) as [| |x| | | |] eqn:E; try done. cbn. apply bool_decide_false. intros ->.
    pose proof (i_main H c E). congruence. }
  assert (held σ c = S (if decide (c ∈ snap_of (pp σ)) then 1 else 0)) as Hh.
  { unfold held. rewrite Hth, Hmain. done. }
  destruct (finish_ok σ c v H Hv) as (s'&He&Hcs&Ho&Ha); [lia|].
  unfold client_goal. cbn [client_step]. eexists _, _. rewrite (bind_ok _ _ _ _ _ He). split; [done|].
  eapply (inv_leave σ _ c v 1 (held σ c)); cbn; try done; try lia.
  - unfold held at 1. cbn. rewrite lookup_delete_eq, Hmain, Hh. simpl. lia.
  - intros x Hx. unfold held. cbn. by rewrite lookup_delete_ne.
  - intros x Hm. pose proof (i_main H x Hm). by rewrite lookup_delete_None; auto.
  - apply H.
  - intros x vx Hx. unfold phase_of. cbn. by rewrite lookup_delete_ne.
  - unfold phase_of. cbn. rewrite lookup_delete_eq, Hmain. eapply client_ok_gone; [done|].
    intros ? [=].
Qed.

(** Every phase of every thread runs, and keeps the invariant. *)
Lemma client_step_inv (σ : sys R) (c : cid) (ph : thread_phase) :
  inv σ -> threads σ !! c = Some ph -> client_goal σ c ph.
Proof.
  destruct ph; eauto using step_first, step_attach, step_send, step_loop, step_error, step_stop,
    step_finish.
Qed.

(** ** Steps of the PTY thread *)

Definition pty_goal (σ : sys R) : Prop :=
  exists ph' s', pty_step malloc_ok calloc_ok (pp σ) (srv σ) = Some (ph', s') /\
    inv (after_pty σ ph' s').

(** The phases in which no chunk is under way. *)
Definition idle (ph : pty_phase) : Prop :=
  match ph with PSnap _ _ | PSend _ _ _ _ | PKill _ _ _ _ _ => False | _ => True end.

Lemma idle_exact (ph : pty_phase) (c : cid) (v : view) :
  idle ph -> exact ph c v <-> v_dead v = false.
Proof. unfold exact. destruct ph; try done; simpl; intros _; set_solver. Qed.

Lemma idle_pending (ph : pty_phase) (c : cid) : idle ph -> ~ pending ph c.
Proof. destruct ph; try done; simpl; set_solver. Qed.

(** Moving to another phase with the same stream and client. *)
Lemma client_ok_move pp pp' h c ph a v :
  client_ok pp h c ph a v ->
  (c ∈ snap_of pp' -> v_auth v = true) ->
  ((forall n, calloc_ok n = true) -> v_auth v = true -> exact pp' c v ->
     exact pp c v /\
     (v_live v = blen h \/ (pending pp c /\ v_live v = seq_of pp) ->
      v_live v = blen h \/ (pending pp' c /\ v_live v = seq_of pp'))) ->
  client_ok pp' h c ph a v.
Proof.
  intros H Hs He. constructor; try apply H; [done|]. intros Hc.
  destruct (co_stream H Hc) as [Hl Hd]. split.
  - intros Hau Hx. destruct (He Hc Hau Hx). auto.
  - intros w Hw. destruct (Hd w Hw) as (ds&?&?&?&Hx). exists ds. split_and!; [done..|].
    intros Hx'. apply Hx. destruct (co_window H w Hw) as [Hau _]. by apply He.
Qed.

Lemma held_pty (σ : sys R) (ph' : pty_phase) (s' : server R) h' (c : cid) :
  snap_of ph' = snap_of (pp σ) ->
  held (Sys s' ph' (mp σ) (threads σ) h' (att σ) (asks σ)) c = held σ c.
Proof. intros He. unfold held. cbn. by rewrite He. Qed.

(** A step that touches no client, between phases without a chunk. *)
Lemma pty_idle (σ : sys R) (ph' : pty_phase) (s' : server R) :
  inv σ -> idle (pp σ) -> idle ph' -> quiet (srv σ) s' ->
  inv (Sys s' ph' (mp σ) (threads σ) (hist σ) (att σ) (asks σ)).
Proof.
  intros H Hi Hi' (Hcs&Ha&Hr&Ht&Hct).
  assert (snap_of ph' = [] /\ snap_of (pp σ) = []) as [Hs' Hs]
    by (split; [destruct ph'|destruct (pp σ)]; done).
  constructor; cbn; rewrite ?Hcs, ?Ha, ?Hr, ?Ht, ?Hct; try apply H.
  - eapply refs_ok_ext; [apply H|done|]. intros c. apply held_pty. congruence.
  - by destruct ph'.
  - intros c v Hv. eapply client_ok_move; [by apply (i_clients H)|..].
    + rewrite Hs'. set_solver.
    + intros _ _. rewrite !idle_exact by done. intros Hd. split; [done|].
      intros [?|[Hp _]]; [by left|]. by apply idle_pending in Hp.
Qed.

Lemma log_since_all (h : bytes) : log_since h (blen h) = [].
Proof. unfold log_since, blen. by rewrite Nat2Z.id, drop_all. Qed.

(** Appending a chunk to the stream. *)
Lemma client_ok_append h c ph a v (data : bytes) :
  client_ok PRead h c ph a v -> client_ok (PSnap (blen h) data) (h ++ data) c ph a v.
Proof.
  intros H. pose proof (blen_nonneg data).
  constructor; try apply H.
  - intros Hau. destruct (co_live H Hau). rewrite blen_app. lia.
  - intros p Hp. pose proof (co_phase H p Hp) as Hok. destruct p; try done.
    destruct Hok as (?&?&?&?&?). split_and!; try done. by apply window_ok_app.
  - intros w Hw. destruct (co_window H w Hw). split; [done|]. by apply window_ok_app.
  - intros Hc. destruct (co_stream H Hc) as [Hl Hd].
    assert (exact (PSnap (blen h) data) c v -> exact PRead c v) as Hx.
    { intros [?|[? _]]; [by left|]. right. split; [done|intros []]. }
    split.
    + intros Hau He. destruct (Hl Hau (Hx He)) as [->|[Hp _]]; [by right|].
      by apply elem_of_nil in Hp.
    + intros w Hw. destruct (Hd w Hw) as (ds&Hsm&Hp&Ho&He). exists ds. split_and!; [done| |done|auto].
      destruct (co_window H w Hw) as [_ Hwin%window_ok_next].
      rewrite log_since_app by done. by apply prefix_app_r.
Qed.

Lemma step_read (σ : sys R) :
  inv σ -> pp σ = PRead -> blen (hist σ) + 4096 < 2 ^ 64 -> pty_goal σ.
Proof.
  intros H Hpp Hb. pose proof (i_ring H) as Hr.
  destruct (pty_read_ok (srv σ) cap (hist σ) Hr Hb) as (ph&s'&He&Hcs&Ha&Ht&Hct&Hcase).
  unfold pty_goal. rewrite Hpp. exists ph, s'. split; [done|]. unfold after_pty. rewrite Hpp.
  destruct Hcase as [[Hrs Hph]|(data&->&Hpos&Hr')].
  - replace (match ph with PSnap _ data => hist σ ++ data | _ => hist σ end) with (hist σ)
      by (by destruct Hph as [->| ->]).
    apply pty_idle; [done|by rewrite Hpp|by destruct Hph as [->| ->]|by split_and!].
  - constructor; cbn; rewrite ?Hcs, ?Ha, ?Ht, ?Hct; try done; try apply H.
    + eapply refs_ok_ext; [apply H|done|]. intros c. apply held_pty. by rewrite Hpp.
    + split_and!; [apply blen_nonneg|by rewrite blen_app| |lia].
      rewrite log_since_app by (pose proof (blen_nonneg (hist σ)); lia). by rewrite log_since_all.
    + intros c v Hv. apply client_ok_append. pose proof (i_clients H c v Hv) as Hc.
      by rewrite Hpp in Hc.
Qed.

(** Taking references changes no more than the counts. *)
Lemma client_ok_refs pp h c ph a v n :
  client_ok pp h c ph a v -> client_ok pp h c ph a (v_set_refs n v).
Proof.
  intros H. constructor; cbn; apply H.
Qed.

Lemma step_snap (σ : sys R) (seq : Z) (data : bytes) :
  inv σ -> pp σ = PSnap seq data -> pty_goal σ.
Proof.
  intros H Hpp. pose proof (i_refs H) as Hro. pose proof (i_pty H) as Hchunk.
  rewrite Hpp in Hchunk. cbn in Hchunk.
  destruct (snapshot_ok calloc_ok (srv σ) (ro_nodup Hro)) as (live&Hnd&Hlive&Hcase).
  { intros c Hc. by eapply ro_some. }
  assert (forall c v, abs (srv σ) !! c = Some v ->
    client_ok (PSnap seq data) (hist σ) c (phase_of σ c) (att σ !! c) v) as Hcl.
  { intros c v Hv. pose proof (i_clients H c v Hv) as Hc. by rewrite Hpp in Hc. }
  assert (forall c v, abs (srv σ) !! c = Some v -> v_auth v = true -> v_dead v = false -> c ∈ live)
    as Hin.
  { intros c v Hv Hau Hd. apply Hlive. split; [|eauto]. apply (ro_list Hro). exists v.
    split; [done|]. by apply (co_list (Hcl c v Hv)). }
  unfold pty_goal. rewrite Hpp. cbn [pty_step].
  destruct Hcase as [[He Hwhy]|(Hne&s'&He&Hcs&(Hr&Ht&Hct)&Ha)]; (eexists _, _);
    rewrite (bind_ok _ _ _ _ _ He).
  - split; [done|]. cbn. unfold after_pty. rewrite Hpp.
    constructor; cbn; try apply H; try done.
    + eapply refs_ok_ext; [apply H|done|]. intros c. apply held_pty. by rewrite Hpp.
    + intros c v Hv. eapply client_ok_move; [by apply Hcl|by intros ?%elem_of_nil|].
      intros Hc Hau Hx. apply idle_exact in Hx; [|done].
      pose proof (Hin c v Hv Hau Hx) as Hl. exfalso.
      destruct Hwhy as [->|Hw]; [set_solver|]. by rewrite Hc in Hw.
  - assert ((Z.of_nat (length live) =? 0) = false) as -> by (apply Z.eqb_neq; by destruct live).
    split; [done|]. unfold after_pty. rewrite Hpp.
    constructor; cbn; rewrite ?Hcs, ?Hr, ?Ht, ?Hct; try apply H.
    + eapply refs_ok_take; [apply H|done| |].
      * intros c Hc. apply Hlive in Hc as (_&v&->&_). eauto.
      * intros c. unfold held. cbn. rewrite Hpp. cbn. rewrite (decide_False (P := c ∈ [])) by set_solver.
        lia.
    + split_and!; [apply Hchunk..|done|done].
    + intros c v'. rewrite Ha. unfold take_ref. destruct (abs (srv σ) !! c) as [v|] eqn:Hv; [|done].
      cbn. intros Hv'.
      assert (client_ok (PSend seq data live live) (hist σ) c (phase_of σ c) (att σ !! c) v) as Hok.
      { eapply client_ok_move; [by apply Hcl| |].
        - intros Hc. apply Hlive in Hc as (_&vx&Hvx&?&_). by simplify_eq.
        - intros Hc Hau Hx. assert (c ∈ live) as Hl.
          { destruct Hx as [?|[Hd _]]; [done|by eapply Hin]. }
          split; [|intros [?|[_ ?]]; [by left|right; by split]].
          right. split; [|intros []]. apply Hlive in Hl as (_&vx&Hvx&_&?). by simplify_eq. }
      unfold phase_of in *. cbn. case_decide; simplify_eq; [by apply client_ok_refs|done].
Qed.

Lemma step_sent (σ : sys R) (seq : Z) (data : bytes) (snap : list cid) :
  inv σ -> pp σ = PSend seq data [] snap -> pty_goal σ.
Proof.
  intros H Hpp. pose proof (i_refs H) as Hro. pose proof (i_pty H) as Hp. rewrite Hpp in Hp.
  destruct Hp as (_&Hnd&_).
  assert (forall c, c ∈ snap -> exists v, abs (srv σ) !! c = Some v /\ (0 < v_refs v)%nat) as Hs.
  { intros c Hc. destruct (ro_held Hro c) as [v Hv].
    - unfold held. rewrite Hpp. cbn. rewrite decide_True by done. lia.
    - exists v. split; [done|]. by apply (ro_refs Hro c v). }
  destruct (release_all_ok (srv σ) snap Hnd Hs) as (s'&He&Hcs&(Hr&Ht&Hct)&Ha).
  unfold pty_goal. rewrite Hpp. cbn [pty_step server_release_snapshot]. eexists _, _.
  rewrite (bind_ok _ _ _ _ _ He). split; [done|]. unfold after_pty. rewrite Hpp.
  constructor; cbn; rewrite ?Hcs, ?Hr, ?Ht, ?Hct; try apply H; try done.
  - eapply refs_ok_drop; [apply H|done|]. intros c. unfold held. cbn. rewrite Hpp. cbn.
    rewrite (decide_False (P := c ∈ [])) by set_solver. lia.
  - intros c v'. rewrite Ha. unfold drop_ref.
    destruct (abs (srv σ) !! c) as [v|] eqn:Hv; [|done]. cbn. intros Hv'.
    assert (client_ok PRead (hist σ) c (phase_of σ c) (att σ !! c) v) as Hok.
    { eapply client_ok_move; [by apply (i_clients H)|by intros ?%elem_of_nil|].
      rewrite Hpp. intros Hc Hau Hx. apply idle_exact in Hx; [|done]. split.
      - right. split; [done|intros []].
      - intros [?|[?%elem_of_nil _]]; [by left|done]. }
    unfold phase_of in *. cbn. case_decide; [|by simplify_eq].
    destruct (v_refs v) as [|[|n]]; simplify_eq. by apply client_ok_refs.
Qed.

(** What is left of the list of clients to serve, after [c]. *)
Lemma suffix_cons_inv (c : cid) (todo snap : list cid) :
  NoDup snap -> (c :: todo) `suffix_of` snap ->
  (c ∉ todo) /\ (todo `suffix_of` snap) /\ (c ∈ snap).
Proof.
  intros Hn Hs. assert (NoDup (c :: todo)) as Hn'.
  { destruct Hs as [k ->]. apply NoDup_app in Hn. tauto. }
  inversion Hn'; subst. split; [done|]. split.
  - destruct Hs as [k ->]. exists (k ++ [c]). by rewrite <- app_assoc.
  - destruct Hs as [k ->]. set_solver.
Qed.

Lemma exact_cons seq data (c x : cid) todo snap v :
  x <> c -> exact (PSend seq data todo snap) x v -> exact (PSend seq data (c :: todo) snap) x v.
Proof. intros Hx [?|[? _]]; [left; simpl in *; set_solver|right; split; [done|intros []]]. Qed.

(** The other clients do not notice that [c] was served. *)
Lemma client_ok_served (σ : sys R) seq data (c x : cid) todo snap pp' ph a v :
  client_ok (PSend seq data (c :: todo) snap) (hist σ) x ph a v -> x <> c ->
  pp' = PSend seq data todo snap \/ pp' = PKill seq data c todo snap ->
  client_ok pp' (hist σ) x ph a v.
Proof.
  intros H Hx Hpp'. eapply client_ok_move; [done|..].
  - intros Hs. apply (co_snap H). by destruct Hpp' as [->| ->].
  - intros _ _ He. split.
    + apply exact_cons; [done|]. destruct Hpp' as [->| ->]; [done|].
      destruct He as [?|[? _]]; [by left|right; split; [done|intros []]].
    + intros [?|[Hp Hs]]; [by left|right].
      assert (x ∈ todo) as Hin by (simpl in Hp; set_solver).
      by destruct Hpp' as [->| ->].
Qed.

(** [c] itself, when it was up to date already. *)
Lemma client_ok_skip seq data (c : cid) todo snap h ph a v :
  client_ok (PSend seq data (c :: todo) snap) h c ph a v ->
  chunk_ok h seq data -> seq + blen data <= v_live v ->
  client_ok (PSend seq data todo snap) h c ph a v.
Proof.
  intros H (?&Hlen&_&_) Hle. eapply client_ok_move; [done|by apply H|].
  intros _ Hau _. split; [left; simpl; set_solver|]. intros _. left.
  pose proof (co_live H Hau). lia.
Qed.

Lemma exact_head seq data (c : cid) todo snap v : exact (PSend seq data (c :: todo) snap) c v.
Proof. left. simpl. set_solver. Qed.

(** The frame sent is the one that continues the client's stream. *)
Lemma update_frame_exact h seq data v ds (w : window) :
  chunk_ok h seq data -> v_live v = seq -> v_live v = w_next w + blen (concat ds) ->
  update_frame seq data v =
  encode_frame (msg_code OPTY_MSG_STDOUT) (opty_put_u64 (w_next w + blen (concat ds)) ++ data).
Proof.
  intros (?&?&?&_) Hs Hl. unfold update_frame. rewrite Z.max_r, <- Hl by lia.
  by rewrite Hs, Z.sub_diag.
Qed.

Lemma chunks_small_snoc (ds : list bytes) (d : bytes) :
  chunks_small ds -> blen d <= 4096 -> chunks_small (ds ++ [d]).
Proof. intros Hs Hd. apply Forall_app. split; [done|]. by apply Forall_cons_2; [|apply Forall_nil_2]. Qed.

Lemma chunk_prefix h seq data next (ds : list bytes) :
  chunk_ok h seq data -> 0 <= next -> seq = next + blen (concat ds) ->
  concat ds `prefix_of` log_since h next ->
  concat (ds ++ [data]) `prefix_of` log_since h next.
Proof.
  intros (?&Hlen&Hd&_) Hn Hs Hp. rewrite concat_app. cbn. rewrite app_nil_r.
  pose proof (blen_nonneg (concat ds)). pose proof (blen_nonneg data).
  rewrite (log_since_split h next seq) by lia. rewrite Hd.
  destruct Hp as [k Hk]. rewrite Hk.
  replace (Z.to_nat (seq - next)) with (length (concat ds)) by (unfold blen in *; lia).
  by rewrite take_app_length.
Qed.

(** A step that changes one client of the snapshot, keeping its counts. *)
Lemma inv_pty_update (σ : sys R) (pp' : pty_phase) (c : cid) (v v' : view) (s' : server R) :
  inv σ -> snap_of pp' = snap_of (pp σ) -> pty_ok (hist σ) pp' ->
  abs (srv σ) !! c = Some v -> counts v' = counts v ->
  clients s' = clients (srv σ) -> only_clients (srv σ) s' ->
  abs s' = <[c := v']> (abs (srv σ)) ->
  (forall x vx, x <> c -> client_ok (pp σ) (hist σ) x (phase_of σ x) (att σ !! x) vx ->
     client_ok pp' (hist σ) x (phase_of σ x) (att σ !! x) vx) ->
  client_ok pp' (hist σ) c (phase_of σ c) (att σ !! c) v' ->
  inv (Sys s' pp' (mp σ) (threads σ) (hist σ) (att σ) (asks σ)).
Proof.
  intros H Hsnap Hp Hv Hcnt Hcs (Hr&Ht&Hct) Ha Hothers Hc.
  constructor; cbn; rewrite ?Hcs, ?Ha, ?Hr, ?Ht, ?Hct; try done; try apply H.
  - eapply refs_ok_update; [apply H|done|done|]. intros x. by apply held_pty.
  - intros x vx. unfold phase_of in *. cbn. destruct (decide (x = c)) as [->|Hx].
    + rewrite lookup_insert_eq. by intros [= <-].
    + rewrite lookup_insert_ne by done. intros Hvx. apply Hothers; [done|].
      apply (i_clients H x vx Hvx).
Qed.

Lemma phase_ok_written h a p v v' :
  v_auth v = true -> v_auth v' = true -> (forall w, p <> TSend w) ->
  phase_ok h a p v -> phase_ok h a p v'.
Proof.
  intros Hv Hv' Hns Hp. destruct p as [|q|w| |msg|sp|]; simpl in *; try done;
    try (destruct Hp; congruence); [by destruct (Hns w)|].
  destruct Hp as (?&?&_). split_and!; [done..|congruence].
Qed.

#[local] Arguments update_frame : simpl never.
#[local] Arguments encode_frame : simpl never.

Lemma client_ok_sent seq data (c : cid) todo snap h ph a v :
  client_ok (PSend seq data (c :: todo) snap) h c ph a v ->
  v_auth v = true -> (forall w, ph <> Some (TSend w)) -> chunk_ok h seq data ->
  v_live v < seq + blen data ->
  client_ok (PSend seq data todo snap) h c ph a
    (v_set_live (seq + blen data) (v_send (update_frame seq data v) v)).
Proof.
  intros H Hau Hns Hchunk Hlt. pose proof Hchunk as (H0&Hlen&Hd&Hsm).
  pose proof (blen_nonneg data). constructor; cbn; try apply H.
  - lia.
  - congruence.
  - intros p Hp. apply (phase_ok_written h a p v); [done|done|congruence|by apply H].
  - intros Hc. destruct (co_stream H Hc) as [Hl Hdel]. split; [left; cbn; lia|].
    pose proof (exact_head seq data c todo snap v) as Hx.
    assert (v_live v = seq) as Hseq by (destruct (Hl Hau Hx) as [?|[_ ?]]; [lia|done]).
    intros w Hw. destruct (Hdel w Hw) as (ds&Hsms&Hpre&_&[Ho Hlv]%(fun f => f Hx)).
    destruct (co_window H w Hw) as [_ Hn%window_ok_next].
    exists (ds ++ [data]). rewrite attached_out_snoc. cbn. rewrite Ho.
    rewrite (update_frame_exact h seq data v ds w) by done.
    split_and!; [by apply chunks_small_snoc|apply (chunk_prefix h seq); try done; lia|done|].
    intros _. split; [done|]. rewrite concat_app, blen_app. cbn. rewrite app_nil_r. lia.
Qed.

Lemma client_ok_broken seq data (c : cid) todo snap h ph a v p :
  client_ok (PSend seq data (c :: todo) snap) h c ph a v ->
  v_auth v = true -> (forall w, ph <> Some (TSend w)) -> chunk_ok h seq data -> c ∉ todo ->
  v_live v < seq + blen data -> p `prefix_of` update_frame seq data v ->
  client_ok (PKill seq data c todo snap) h c ph a (v_send p v).
Proof.
  intros H Hau Hns Hchunk Hin Hlt Hp. pose proof Hchunk as (H0&Hlen&Hd&Hsm).
  constructor; cbn; try apply H.
  - congruence.
  - intros q Hq. apply (phase_ok_written h a q v); [done|done|congruence|by apply H].
  - assert (~ exact (PKill seq data c todo snap) c (v_send p v)) as Hnx.
    { intros [?|[_ Hv]]; [done|]. by apply Hv. }
    intros Hc. destruct (co_stream H Hc) as [Hl Hdel]. split; [done|].
    pose proof (exact_head seq data c todo snap v) as Hx.
    assert (v_live v = seq) as Hseq by (destruct (Hl Hau Hx) as [?|[_ ?]]; [lia|done]).
    intros w Hw. destruct (Hdel w Hw) as (ds&Hsms&Hpre&_&[Ho Hlv]%(fun f => f Hx)).
    destruct (co_window H w Hw) as [_ Hn%window_ok_next].
    exists (ds ++ [data]). rewrite attached_out_snoc. cbn. rewrite Ho.
    rewrite (update_frame_exact h seq data v ds w) in Hp by done.
    split_and!; [by apply chunks_small_snoc|apply (chunk_prefix h seq); try done; lia|
      by apply prefix_app|done].
Qed.

Lemma step_sending (σ : sys R) (seq : Z) (data : bytes) (c : cid) (todo snap : list cid) :
  inv σ -> pp σ = PSend seq data (c :: todo) snap -> write_mu_free σ c = true -> pty_goal σ.
Proof.
  intros H Hpp Hmu. pose proof (i_refs H) as Hro. pose proof (i_pty H) as Hp. rewrite Hpp in Hp.
  destruct Hp as (Hchunk&Hnd&Hsuf). pose proof Hchunk as (H0&Hlen&_).
  destruct (suffix_cons_inv c todo snap Hnd Hsuf) as (Hnin&Hsuf'&Hin).
  destruct (ro_held Hro c) as [v Hv].
  { unfold held. rewrite Hpp. cbn. rewrite decide_True by done. lia. }
  pose proof (i_clients H c v Hv) as Hco. rewrite Hpp in Hco.
  pose proof (co_snap Hco Hin) as Hau. destruct (co_live Hco Hau) as [Hl0 Hl1].
  destruct (rb_repr_bound _ _ _ (i_ring H)) as [_ Hb].
  assert (forall w, phase_of σ c <> Some (TSend w)) as Hns.
  { intros w. unfold phase_of. unfold write_mu_free in Hmu.
    destruct (threads σ !! c) as [[]|]; try done; by destruct (main_holds (mp σ) c). }
  assert (forall pp', pp' = PSend seq data todo snap \/ pp' = PKill seq data c todo snap ->
    forall x vx, x <> c -> client_ok (pp σ) (hist σ) x (phase_of σ x) (att σ !! x) vx ->
      client_ok pp' (hist σ) x (phase_of σ x) (att σ !! x) vx) as Hothers.
  { intros pp' Hpp' x vx Hx Hc. rewrite Hpp in Hc. by eapply client_ok_served. }
  destruct (broadcast_send_ok malloc_ok (srv σ) c v seq data Hv H0 Hl0)
    as [[Hle He]|(Hlt&rc&s'&He&Hcs&Ho&Hcase)]; [lia|..];
    unfold pty_goal; rewrite Hpp; cbn [pty_step]; eexists _, _;
    rewrite (bind_ok _ _ _ _ _ He); (split; [done|]); unfold after_pty; rewrite Hpp.
  - cbn. apply (inv_pty_update σ _ c v v); try done; auto; [by rewrite Hpp|..].
    + symmetry. by apply insert_id.
    + by eapply client_ok_skip.
  - destruct Hcase as [[-> Ha]|(->&p&Hpre&Ha)]; cbn;
      (eapply (inv_pty_update σ _ c v); [done|by rewrite Hpp|done|done| |done|done|done|by auto|]);
      try done.
    + by apply client_ok_sent.
    + by apply client_ok_broken.
Qed.

Lemma step_kill (σ : sys R) (seq : Z) (data : bytes) (c : cid) (todo snap : list cid) :
  inv σ -> pp σ = PKill seq data c todo snap -> pty_goal σ.
Proof.
  intros H Hpp. pose proof (i_refs H) as Hro. pose proof (i_pty H) as Hp. rewrite Hpp in Hp.
  destruct Hp as (Hchunk&Hnd&Hsuf). destruct (suffix_cons_inv c todo snap Hnd Hsuf) as (Hnin&Hsuf'&Hin).
  assert (1 <= held σ c)%nat as Hheld.
  { unfold held. rewrite Hpp. cbn. rewrite decide_True by done. lia. }
  destruct (ro_held Hro c) as [v Hv]; [lia|]. destruct (ro_refs Hro c v Hv) as [Hr Hpos].
  destruct (leave_ok (srv σ) c v 0 (held σ c)) as (s'&He&Hcs&Ho&Ha); auto with lia.
  { apply (ro_nodup Hro). }
  { intros x Hx. by eapply ro_some. }
  { by apply (ro_list_iff _ _ _ _ _ Hro). }
  unfold pty_goal. rewrite Hpp. cbn [pty_step]. unfold broadcast_kill. eexists _, _.
  rewrite (bind_ok _ _ _ _ _ He). split; [done|]. unfold after_pty. rewrite Hpp.
  eapply (inv_leave σ _ c v 0 (held σ c)); cbn; try done; try lia.
  - rewrite held_pty by (by rewrite Hpp). lia.
  - intros x Hx. apply held_pty. by rewrite Hpp.
  - apply H.
  - intros x vx Hx Hc. rewrite Hpp in Hc. eapply client_ok_move; [done|by apply Hc|].
    intros _ _ He'. split.
    + destruct He' as [?|[? _]]; [by left|]. right. split; [done|]. cbn. congruence.
    + intros [?|[? ?]]; [by left|by right].
  - pose proof (i_clients H c v Hv) as Hc. rewrite Hpp in Hc.
    eapply client_ok_move; [eapply client_ok_gone; [done|by auto]|by apply Hc|].
    intros _ _ [?|[? _]]; done.
Qed.

Lemma calm_pty (σ : sys R) (ph' : pty_phase) (m : srvM unit) :
  inv σ -> idle (pp σ) -> idle ph' -> pp σ <> PRead ->
  pty_step malloc_ok calloc_ok (pp σ) (srv σ) = (m;; mret ph') (srv σ) ->
  calm m (fun _ => True) (srv σ) -> pty_goal σ.
Proof.
  intros H Hi Hi' Hr He ([]&s'&Hm&Hq&_). exists ph', s'. rewrite He.
  rewrite (bind_ok _ _ _ _ _ Hm). split; [done|]. unfold after_pty.
  replace (match pp σ with PRead => _ | _ => hist σ end) with (hist σ) by (by destruct (pp σ)).
  by apply pty_idle.
Qed.

Lemma pty_step_inv (σ : sys R) :
  inv σ -> pty_may_run σ = true -> blen (hist σ) + 4096 < 2 ^ 64 -> pty_goal σ.
Proof.
  intros H Hrun Hb. destruct (pp σ) as [|seq data|seq data [|c todo] snap|seq data c todo snap| | | | |]
    eqn:Hpp; eauto using step_read, step_snap, step_sent, step_kill.
  - eapply step_sending; [done..|]. unfold pty_may_run in Hrun. by rewrite Hpp in Hrun.
  - eapply (calm_pty σ PClients server_close_listener); rewrite ?Hpp; try done.
    apply calm_close_listener.
  - eapply (calm_pty σ PWait server_shutdown_clients); rewrite ?Hpp; try done.
    apply calm_shutdown_clients. intros c Hc. by eapply ro_some; [apply H|].
  - eapply (calm_pty σ PReap (mret tt)); rewrite ?Hpp; try done. by apply calm_ret.
  - eapply (calm_pty σ PDone (fun s => Some (tt, set_child (server_wait_child_blocking (child s)) s)));
      rewrite ?Hpp; try done.
    eexists _, _. split; [reflexivity|]. by split_and!.
  - eapply (calm_pty σ PDone (mret tt)); rewrite ?Hpp; try done. by apply calm_ret.
Qed.

(** ** Steps of the accept loop *)

Definition main_goal (σ : sys R) (ev : main_event) : Prop :=
  exists ph' new s', main_step ev (mp σ) (srv σ) = Some ((ph', new), s') /\
    inv (after_main σ ev ph' new s').

Lemma inv_main_calm (σ : sys R) (mp' : main_phase) (s' : server R) :
  inv σ -> quiet (srv σ) s' -> (forall c, main_holds mp' c = main_holds (mp σ) c) ->
  inv (Sys s' (pp σ) mp' (threads σ) (hist σ) (att σ) (asks σ)).
Proof.
  intros H (Hcs&Ha&Hr&Ht&Hct) Hm. constructor; cbn; rewrite ?Hcs, ?Ha, ?Hr, ?Ht, ?Hct; try apply H.
  - eapply refs_ok_ext; [apply H|done|]. intros c. unfold held. cbn. by rewrite Hm.
  - intros c ->. specialize (Hm c). cbn in Hm. rewrite bool_decide_true in Hm by done.
    destruct (mp σ) as [|fd|x| | | |] eqn:E; try done. symmetry in Hm. cbn in Hm.
    apply bool_decide_eq_true in Hm as ->. by apply (i_main H).
  - intros c v Hv. unfold phase_of. cbn. rewrite Hm. by apply (i_clients H).
Qed.

Lemma step_conn (σ : sys R) (fd : bool) (c : cid) (sk : stream) :
  inv σ -> mp σ = MAccepting fd -> heap (srv σ) !! c = None -> out sk = [] -> main_goal σ (EvConn c sk).
Proof.
  intros H Hmp Hfree Hout. pose proof (i_refs H) as Hro.
  assert (abs (srv σ) !! c = None) as Hnone by (unfold abs; by rewrite lookup_fmap, Hfree).
  assert (held σ c = 0%nat) as Hheld.
  { destruct (held σ c) eqn:E; [done|]. destruct (ro_held Hro c) as [v Hv]; [lia|congruence]. }
  assert (threads σ !! c = None /\ c ∉ snap_of (pp σ)) as [Hth Hns].
  { unfold held in Hheld. split.
    - destruct (threads σ !! c); [simpl in Hheld; lia|done].
    - intros Hin. rewrite decide_True in Hheld by done. lia. }
  unfold main_goal. rewrite Hmp. cbn [main_step]. unfold add_client_link. eexists _, _, _.
  split; [reflexivity|]. unfold after_main. rewrite Hmp.
  set (s1 := set_heap _ _).
  assert (abs s1 = <[c := View 2 true false false 0 []]> (abs (srv σ))) as Ha.
  { unfold s1, abs. cbn. rewrite fmap_insert. unfold view_of. cbn. by rewrite Hout. }
  assert (clients s1 = c :: clients (srv σ)) as Hcs by done.
  assert (only_clients (srv σ) s1) as (Hr&Ht&Hct) by done. clearbody s1.
  constructor; cbn; rewrite ?Ha, ?Hcs, ?Hr, ?Ht, ?Hct; try apply H.
  - apply (refs_ok_add _ _ (held σ)); try done.
    + unfold held. cbn. rewrite Hth, (bool_decide_true (c = c)), decide_False by done. done.
    + intros x Hx. unfold held. cbn. rewrite Hmp. cbn. by rewrite (bool_decide_false (c = x)) by congruence.
  - by intros x [= <-].
  - intros x vx. unfold phase_of. cbn. destruct (decide (x = c)) as [->|Hx].
    + rewrite lookup_insert_eq, lookup_delete_eq, Hth, bool_decide_true by done. intros [= <-].
      constructor; cbn; try done.
      * intros _. split; [done|]. exists (cstr "bad intro"). split; [set_solver|apply prefix_nil].
      * by intros p [= <-].
    + rewrite lookup_insert_ne, lookup_delete_ne, bool_decide_false by congruence. intros Hvx.
      pose proof (i_clients H x vx Hvx) as Hc. unfold phase_of in Hc. by rewrite Hmp in Hc.
Qed.

Lemma step_thread_ok (σ : sys R) (c : cid) :
  inv σ -> mp σ = MThread c -> main_goal σ (EvThread true).
Proof.
  intros H Hmp. pose proof (i_main H c Hmp) as Hth.
  unfold main_goal. rewrite Hmp. cbn [main_step]. eexists _, _, _. split; [reflexivity|].
  unfold after_main. rewrite Hmp.
  constructor; cbn; try apply H; try done.
  - eapply refs_ok_ext; [apply H|done|]. intros x. unfold held. cbn. rewrite Hmp. cbn.
    destruct (decide (x = c)) as [->|Hx].
    + rewrite lookup_insert_eq, Hth, (bool_decide_true (c = c)) by done. done.
    + rewrite lookup_insert_ne, (bool_decide_false (c = x)) by congruence. done.
  - intros x vx Hvx. pose proof (i_clients H x vx Hvx) as Hc. unfold phase_of in *. cbn.
    rewrite Hmp in Hc. cbn in Hc. destruct (decide (x = c)) as [->|Hx].
    + rewrite lookup_insert_eq. rewrite Hth, bool_decide_true in Hc by done. done.
    + rewrite lookup_insert_ne by done. by rewrite (bool_decide_false (c = x)) in Hc by congruence.
Qed.

Lemma step_thread_fail (σ : sys R) (c : cid) :
  inv σ -> mp σ = MThread c -> main_goal σ (EvThread false).
Proof.
  intros H Hmp. pose proof (i_main H c Hmp) as Hth.
  assert (held σ c = S (if decide (c ∈ snap_of (pp σ)) then 1 else 0)) as Hh.
  { unfold held. rewrite Hth, Hmp. cbn. by rewrite bool_decide_true. }
  destruct (ro_held (i_refs H) c) as [v Hv]; [lia|].
  destruct (finish_ok σ c v H Hv) as (s'&He&Hcs&Ho&Ha); [lia|].
  unfold main_goal. rewrite Hmp. cbn [main_step]. eexists _, _, _.
  rewrite (bind_ok _ _ _ _ _ He). split; [done|]. unfold after_main. rewrite Hmp.
  eapply (inv_leave σ _ c v 1 (held σ c)); cbn; try done; try lia.
  - unfold held at 1. cbn. rewrite Hth, Hh. simpl. lia.
  - intros x Hx. unfold held. cbn. rewrite Hmp. cbn. by rewrite (bool_decide_false (c = x)) by congruence.
  - apply H.
  - intros x vx Hx. unfold phase_of. cbn. rewrite Hmp. cbn. by rewrite (bool_decide_false (c = x)) by congruence.
  - unfold phase_of at 1. cbn. rewrite Hth. eapply client_ok_gone; [by apply (i_clients H)|].
    intros ? [=].
Qed.

Lemma step_main_stop (σ : sys R) (sp : stop_phase) (again : bool) :
  inv σ -> mp σ = MStop sp again -> main_goal σ EvGo.
Proof.
  intros H Hmp. destruct (calm_stop_step sp (srv σ)) as (next&s'&He&Hq&_).
  { intros c Hc. by eapply ro_some; [apply H|]. }
  unfold main_goal. rewrite Hmp. cbn [main_step]. eexists _, _, _.
  rewrite (bind_ok _ _ _ _ _ He). split; [done|]. unfold after_main. rewrite Hmp.
  apply inv_main_calm; [done..|]. intros c. rewrite Hmp. destruct next, again; done.
Qed.

Lemma step_main_close (σ : sys R) (status : Z) :
  inv σ -> mp σ = MClose status -> main_goal σ EvGo.
Proof.
  intros H Hmp. unfold main_goal. rewrite Hmp. eexists _, _, _. split; [reflexivity|].
  unfold after_main. rewrite Hmp. apply inv_main_calm; [done..|]. by rewrite Hmp.
Qed.

Lemma main_step_inv (σ : sys R) (ev : main_event) :
  inv σ -> main_may_run σ ev = true -> main_goal σ ev.
Proof.
  intros H Hrun.
  assert (forall mp', (forall c, main_holds mp' c = main_holds (mp σ) c) ->
    main_step ev (mp σ) (srv σ) = Some ((mp', None), srv σ) ->
    after_main σ ev mp' None (srv σ) = Sys (srv σ) (pp σ) mp' (threads σ) (hist σ) (att σ) (asks σ) ->
    main_goal σ ev) as Hstay.
  { intros mp' Hm He Haf. exists mp', None, (srv σ). split; [done|]. rewrite Haf.
    by apply inv_main_calm. }
  assert (after_main σ ev (mp σ) None (srv σ) = Sys (srv σ) (pp σ) (mp σ) (threads σ) (hist σ) (att σ) (asks σ)
    \/ exists fd c sk, mp σ = MAccepting fd /\ ev = EvConn c sk) as Haf.
  { unfold after_main. destruct (mp σ), ev; eauto 10. }
  unfold main_may_run in Hrun.
  destruct (mp σ) as [|fd|c|sp again|st|st|st] eqn:Hmp, ev as [c' sk| | | | | |[]|];
    try (destruct Haf as [Haf|(?&?&?&?&?)]; [|done]; apply (Hstay _ (fun _ => eq_refl)); done);
    try (by eapply Hstay; [|reflexivity|unfold after_main; by rewrite Hmp]).
  - destruct (heap (srv σ) !! c') eqn:Hf, (out sk) eqn:Ho; try done. by eapply step_conn.
  - by eapply step_thread_ok.
  - by eapply step_thread_fail.
  - by eapply step_main_stop.
  - by eapply step_main_close.
Qed.

(** ** The invariant holds *)

Lemma hist_grows (σ σ' : sys R) :
  step malloc_ok calloc_ok σ σ' -> blen (hist σ) <= blen (hist σ').
Proof.
  destruct 1; cbn; try lia. destruct (pp σ), ph'; try lia. rewrite blen_app.
  pose proof (blen_nonneg data). lia.
Qed.

Lemma inv_step (σ σ' : sys R) :
  inv σ -> step malloc_ok calloc_ok σ σ' -> blen (hist σ) + 4096 < 2 ^ 64 -> inv σ'.
Proof.
  intros H Hs Hb. destruct Hs as [c ph next s' Hth Hrun He|ph' s' Hrun He|ev ph' new s' Hrun He].
  - destruct (client_step_inv σ c ph H Hth) as (?&?&He'&?). by simplify_eq.
  - destruct (pty_step_inv σ H Hrun Hb) as (?&?&He'&?). by simplify_eq.
  - destruct (main_step_inv σ ev H Hrun) as (?&?&?&He'&?). by simplify_eq.
Qed.

Lemma reachable_inv (σ : sys R) : reachable malloc_ok calloc_ok cap σ -> inv σ.
Proof.
  intros (σ0&Hi&Hs&Hb). induction Hs as [|σ1 σ2 σ3 Hs IH Hstep]; [by apply initial_inv|].
  pose proof (hist_grows _ _ Hstep). eapply inv_step; [|done|lia]. apply IH; [done|lia].
Qed.

End Safety.

Arguments co_live {malloc_ok calloc_ok cap pp h c ph a v} _ _.
Arguments co_list {malloc_ok calloc_ok cap pp h c ph a v} _ _.
Arguments co_snap {malloc_ok calloc_ok cap pp h c ph a v} _ _.
Arguments co_unauth {malloc_ok calloc_ok cap pp h c ph a v} _ _.
Arguments co_phase {malloc_ok calloc_ok cap pp h c ph a v} _ _ _.
Arguments co_window {malloc_ok calloc_ok cap pp h c ph a v} _ _ _.
Arguments co_stream {malloc_ok calloc_ok cap pp h c ph a v} _ _.
Arguments i_refs {R _ malloc_ok calloc_ok cap σ} _.
Arguments i_ring {R _ malloc_ok calloc_ok cap σ} _.
Arguments i_clients {R _ malloc_ok calloc_ok cap σ} _ _ _ _.
