(* ===== verification/ServerProps.v ===== *)
(** * What the server guarantees

    The properties of the server of src/src/server.c, read off the invariants of
    Safety.v and the operation lemmas of ServerSpec.v, and concrete runs on which
    they apply. *)

From stdpp Require Import gmap.
From S2P Require Import Prelude.
From S2P Require Import Io.
From S2P Require Import Wire.
From S2P Require Import Messages.
From S2P Require Import Replay.
From S2P Require Import Ring.
From S2P Require Import Child.
From S2P Require Import Server.
From S2P Require Import ServerSpec.
From S2P Require Import System.
From S2P Require Import Safety.

(** ** A concrete run

    One client connects while the PTY has printed "abc"; it attaches between the
    append and the snapshot, then "de" arrives. *)
Module Demo.

Definition hello_bytes (tok : bytes) : bytes :=
  encode_frame (msg_code OPTY_MSG_HELLO) (intro_payload 0 120 40 tok false).

Definition conn (input : bytes) : stream := Stream [RData input] [] [] false.

Definition server0 : server opty_ring :=
  Server [] ∅ ring5 (Pty (Stream [RData (cstr "abc"); RData (cstr "de")] [] [] false) 80 24 [])
    (Child 7 false 0 [] [] 0) true None None.

Definition sys0 : sys opty_ring := Sys server0 PRead MAccept ∅ [] ∅ ∅.

Definition schedule : list action :=
  [AMain EvGo; AMain (EvConn 1%nat (conn (hello_bytes []))); AMain (EvThread true); APty; AClient 1%nat;
   AClient 1%nat; APty; AClient 1%nat; APty; APty; APty; APty; APty; APty].

Definition always : Z -> bool := fun _ => true.

Definition sys1 : sys opty_ring := default sys0 (exec_all always always schedule sys0).

Definition client1 : client :=
  default (Client 0 false false false 0 (conn [])) (heap (srv sys1) !! 1%nat).

Lemma runs : exec_all always always schedule sys0 = Some sys1.
Proof. vm_compute. reflexivity. Qed.

Lemma sys0_initial : initial 5 sys0.
Proof. unfold initial. split_and!; try done. exact ring5_repr. Qed.

Lemma sys1_reachable : reachable always always 5 sys1.
Proof.
  exists sys0. split; [exact sys0_initial|split].
  - eapply exec_all_steps. exact runs.
  - vm_compute. reflexivity.
Qed.

Lemma client1_there : heap (srv sys1) !! 1%nat = Some client1.
Proof. vm_compute. reflexivity. Qed.

Example window1 : att sys1 !! 1%nat = Some (Window 0 0 3 3 (Some (cstr "abc"))).
Proof. vm_compute. reflexivity. Qed.

Example hist1 : hist sys1 = cstr "abcde" /\ pp sys1 = PRead /\ live_seq client1 = 5.
Proof. vm_compute. auto. Qed.

End Demo.

(** ** Memory safety and reference counts *)

Section Props.

Context {R : Type} `{!ReplayOps R, !ReplayLaws R}.
Variable malloc_ok : Z -> bool.
Variable calloc_ok : Z -> bool.
Variable cap : Z.


(** [C6] Reference counts are exact in every reachable state: an object is alive
    exactly as long as it is in the list, its thread (or the thread's creation)
    holds it, or the PTY thread's snapshot does, and [refs] is the number of these;
    the list holds the objects marked [in_list], each once. *)
Theorem refcounts_exact (σ : sys R) (c : cid) :
  reachable malloc_ok calloc_ok cap σ ->
  NoDup (clients (srv σ)) /\
  match heap (srv σ) !! c with
  | Some cl => refs cl = (Nat.b2n (in_list cl) + held σ c)%nat /\ (0 < refs cl)%nat /\
               (in_list cl = true <-> c ∈ clients (srv σ))
  | None => held σ c = 0%nat /\ c ∉ clients (srv σ)
  end.
Proof.
  intros Hr. pose proof (i_refs (reachable_inv _ _ _ _ Hr)) as H.
  split; [apply (ro_nodup H)|]. destruct (heap (srv σ) !! c) as [cl|] eqn:Hc.
  - apply abs_heap in Hc. destruct (ro_refs H c _ Hc). split_and!; [done..|].
    by apply (ro_list_iff _ _ _ _ _ H Hc).
  - assert (abs (srv σ) !! c = None) as Hn by (unfold abs; by rewrite lookup_fmap, Hc).
    split.
    + destruct (held σ c) eqn:E; [done|]. destruct (ro_held H c) as [v Hv]; [lia|congruence].
    + intros Hin. destruct (ro_some _ _ _ c H Hin) as [v Hv]. congruence.
Qed.

(** ** The stream each client gets *)

(** What REPLAY and the STDOUT frames carried together. *)
Definition carried (w : window) (ds : list bytes) : bytes := default [] (w_data w) ++ concat ds.

Lemma carried_prefix (h : bytes) (w : window) (ds : list bytes) :
  window_ok malloc_ok cap h w -> concat ds `prefix_of` log_since h (w_next w) -> 0 < cap ->
  carried w ds `prefix_of` log_since h (w_from w) /\
  w_next w + blen (concat ds) = w_from w + blen (carried w ds).
Proof.
  intros (Hs&h0&q&[k ->]&->) Hp Hcap. unfold log_window in Hp, Hs |- *. cbn in Hs, Hp.
  destruct (log_from_bounds cap h0 q Hcap) as [Hf0 Hf1].
  set (from := log_from cap h0 q) in *.
  assert (default [] (w_data (log_window malloc_ok cap h0 q)) = log_since h0 from) as Hd.
  { unfold log_window. fold from. cbn.
    destruct ((blen (log_since h0 from) =? 0) || negb (malloc_ok (blen (log_since h0 from)))) eqn:E;
      [|done]. destruct Hs as [[_ Hz]|(d&?&_)]; [|done]. cbn. symmetry. by apply blen_0. }
  unfold carried. unfold log_window in Hd. fold from in Hd. cbn [w_data w_from w_next] in *.
  rewrite Hd. rewrite log_since_app in Hp |- * by lia. rewrite log_since_all in Hp. split.
  - by apply prefix_app.
  - rewrite blen_app, log_since_length by lia. lia.
Qed.

(** What the invariant says of an attached client. *)
Lemma attached_facts (σ : sys R) (c : cid) (cl : client) (w : window) :
  reachable malloc_ok calloc_ok cap σ -> (forall n, calloc_ok n = true) ->
  heap (srv σ) !! c = Some cl -> att σ !! c = Some w ->
  window_ok malloc_ok cap (hist σ) w /\ 0 < cap /\ blen (hist σ) < 2 ^ 64 /\
  (idle (pp σ) -> dead cl = false -> live_seq cl = blen (hist σ)) /\
  exists ds, chunks_small ds /\ concat ds `prefix_of` log_since (hist σ) (w_next w) /\
    out (sock cl) `prefix_of` attached_out w ds /\
    carried w ds `prefix_of` log_since (hist σ) (w_from w) /\
    (exact (pp σ) c (view_of cl) ->
     out (sock cl) = attached_out w ds /\ live_seq cl = w_from w + blen (carried w ds)).
Proof.
  intros Hr Hm Hc Hw. pose proof (reachable_inv _ _ _ _ Hr) as H.
  apply abs_heap in Hc. pose proof (i_clients H c _ Hc) as Hco.
  destruct (co_stream Hco Hm) as [Hl Hs]. destruct (Hs w Hw) as (ds&Hsm&Hp&Ho&He).
  destruct (co_window Hco w Hw) as [Hau Hwin].
  destruct (rb_repr_bound _ _ _ (i_ring H)) as [Hcap Hb].
  destruct (carried_prefix (hist σ) w ds Hwin Hp Hcap) as [Hpre Hlen].
  split_and!; [done|done|done| |].
  - intros Hi Hd. destruct Hl as [?|[Hpend _]]; [done|by apply idle_exact|done|].
    by apply idle_pending in Hpend.
  - exists ds. split_and!; [done..|]. intros Hx. rewrite <- Hlen. by apply He.
Qed.

(** [C1] If [calloc] never fails (for the snapshots; otherwise see
    ServerFaults.failed_snapshot_leaves_gap), in every reachable state every attached
    client that is not dead, and that is not the one whose failed send the PTY thread is
    just about to punish ([victim]), was sent WELCOME, one REPLAY and STDOUT frames
    numbered without a gap, and what they carry is the PTY stream from the REPLAY's
    sequence number up to [live_seq], no byte missing, repeated or reordered, although
    attaching races with broadcasting. *)
Theorem attached_stream_exact (σ : sys R) (c : cid) (cl : client) (w : window) :
  reachable malloc_ok calloc_ok cap σ -> (forall n, calloc_ok n = true) ->
  heap (srv σ) !! c = Some cl -> att σ !! c = Some w ->
  dead cl = false -> ~ victim (pp σ) c ->
  window_ok malloc_ok cap (hist σ) w /\
  exists ds, out (sock cl) = attached_out w ds /\
    carried w ds `prefix_of` log_since (hist σ) (w_from w) /\
    live_seq cl = w_from w + blen (carried w ds).
Proof.
  intros Hr Hm Hc Hw Hd Hv.
  destruct (attached_facts σ c cl w Hr Hm Hc Hw) as (Hwin&_&_&_&ds&_&_&_&Hpre&He).
  destruct He as [Ho Hl]; [by right|]. split; [done|]. by exists ds.
Qed.

(** A client that was lost on the way (a failed or partial send, a shutdown)
    saw a beginning of such a stream: what it was given is a prefix of whole
    frames that carry a contiguous part of the PTY stream. *)
Theorem attached_stream_prefix (σ : sys R) (c : cid) (cl : client) (w : window) :
  reachable malloc_ok calloc_ok cap σ -> (forall n, calloc_ok n = true) ->
  heap (srv σ) !! c = Some cl -> att σ !! c = Some w ->
  exists ds, out (sock cl) `prefix_of` attached_out w ds /\
    carried w ds `prefix_of` log_since (hist σ) (w_from w).
Proof.
  intros Hr Hm Hc Hw.
  destruct (attached_facts σ c cl w Hr Hm Hc Hw) as (_&_&_&_&ds&_&_&Ho&Hpre&_). by exists ds.
Qed.

(** The window starts inside the stream. *)
Lemma window_from_range (h : bytes) (w : window) :
  window_ok malloc_ok cap h w -> 0 < cap -> 0 <= w_from w <= blen h.
Proof.
  intros Hwin Hcap. destruct (window_ok_next _ _ _ _ Hwin). destruct Hwin as (_&h0&q&_&->).
  pose proof (log_from_bounds cap h0 q Hcap). simpl in *. lia.
Qed.

(** A stream that was carried to the end was carried whole. *)
Lemma carried_whole (h : bytes) (w : window) (ds : list bytes) :
  window_ok malloc_ok cap h w -> 0 < cap -> carried w ds `prefix_of` log_since h (w_from w) ->
  w_from w + blen (carried w ds) = blen h -> carried w ds = log_since h (w_from w).
Proof.
  intros Hwin Hcap [k Hk] Hlen. pose proof (window_from_range h w Hwin Hcap).
  pose proof (f_equal blen Hk) as Hb. rewrite blen_app, log_since_length in Hb by done.
  rewrite (blen_0 k), app_nil_r in Hk by lia. by rewrite Hk.
Qed.

(** [C3] If [calloc] never fails (for the snapshots; otherwise see
    ServerFaults.failed_snapshot_leaves_gap), whenever the PTY thread is between chunks
    every attached client that is not dead has been sent everything the PTY printed since
    the position where its REPLAY starts: broadcasting leaves nobody behind, also those
    who attached during the broadcast. *)
Theorem attached_caught_up (σ : sys R) (c : cid) (cl : client) (w : window) :
  reachable malloc_ok calloc_ok cap σ -> (forall n, calloc_ok n = true) ->
  heap (srv σ) !! c = Some cl -> att σ !! c = Some w ->
  dead cl = false -> idle (pp σ) ->
  exists ds, out (sock cl) = attached_out w ds /\
    carried w ds = log_since (hist σ) (w_from w).
Proof.
  intros Hr Hm Hc Hw Hd Hi.
  destruct (attached_facts σ c cl w Hr Hm Hc Hw) as (Hwin&Hcap&_&Hl&ds&_&_&_&Hpre&He).
  destruct He as [Ho Hlive]; [by apply idle_exact|]. exists ds. split; [done|].
  apply carried_whole; [done..|]. rewrite <- Hlive. by apply Hl.
Qed.

(** [C27] A client that is not authenticated gets no byte of the PTY stream: in
    every reachable state it was sent at most one of the five ERROR messages. *)
Theorem unauthenticated_gets_nothing (σ : sys R) (c : cid) (cl : client) :
  reachable malloc_ok calloc_ok cap σ ->
  heap (srv σ) !! c = Some cl -> authenticated cl = false ->
  exists msg, msg ∈ error_messages /\ out (sock cl) `prefix_of` error_frame msg.
Proof.
  intros Hr Hc Ha. pose proof (reachable_inv _ _ _ _ Hr) as H.
  apply abs_heap in Hc. pose proof (i_clients H c _ Hc) as Hco.
  by destruct (co_unauth Hco Ha).
Qed.

End Props.

Module Witnesses.

Import Demo.


Lemma refcounts_exact_witness :
  NoDup (clients (srv sys1)) /\
  match heap (srv sys1) !! 1%nat with
  | Some cl => refs cl = (Nat.b2n (in_list cl) + held sys1 1%nat)%nat /\ (0 < refs cl)%nat /\
               (in_list cl = true <-> 1%nat ∈ clients (srv sys1))
  | None => held sys1 1%nat = 0%nat /\ 1%nat ∉ clients (srv sys1)
  end.
Proof. apply (refcounts_exact always always 5 sys1 1%nat sys1_reachable). Defined.

Lemma attached_stream_exact_witness :
  let w := Window 0 0 3 3 (Some (cstr "abc")) in
  window_ok always 5 (hist sys1) w /\
  exists ds, out (sock client1) = attached_out w ds /\
    carried w ds `prefix_of` log_since (hist sys1) (w_from w) /\
    live_seq client1 = w_from w + blen (carried w ds).
Proof.
  intros w. apply (attached_stream_exact always always 5 sys1 1%nat client1 w sys1_reachable);
    [done|exact client1_there|exact window1|by vm_compute|].
  vm_compute. intros [].
Defined.

Lemma attached_stream_prefix_witness :
  let w := Window 0 0 3 3 (Some (cstr "abc")) in
  exists ds, out (sock client1) `prefix_of` attached_out w ds /\
    carried w ds `prefix_of` log_since (hist sys1) (w_from w).
Proof.
  intros w. apply (attached_stream_prefix always always 5 sys1 1%nat client1 w sys1_reachable);
    [done|exact client1_there|exact window1].
Defined.

Lemma attached_caught_up_witness :
  let w := Window 0 0 3 3 (Some (cstr "abc")) in
  exists ds, out (sock client1) = attached_out w ds /\
    carried w ds = log_since (hist sys1) (w_from w).
Proof.
  intros w. apply (attached_caught_up always always 5 sys1 1%nat client1 w sys1_reachable);
    [done|exact client1_there|exact window1|by vm_compute|by vm_compute].
Defined.

(** The client that has only just connected. *)
Lemma unauthenticated_gets_nothing_witness :
  let σ := default sys0 (exec_all always always [AMain EvGo; AMain (EvConn 1%nat (conn []))] sys0) in
  exists msg, msg ∈ error_messages /\ [] `prefix_of` error_frame msg.
Proof.
  intros σ. apply (unauthenticated_gets_nothing always always 5 σ 1%nat
                     (Client 2 true false false 0 (conn []))); [|by vm_compute|done].
  exists sys0. split; [exact sys0_initial|split].
  - apply (exec_all_steps _ _ [AMain EvGo; AMain (EvConn 1%nat (conn []))]). by vm_compute.
  - by vm_compute.
Defined.

End Witnesses.
