(* ===== verification/ServerAuth.v ===== *)
(** * Who may do what

    The first frame decides whether a connection attaches, stops the server or is
    turned away (src/src/server.c: server_process_intro,
    server_process_control_shutdown, server_tokens_equal); what an attached client
    sends reaches the PTY (the loop of client_thread_main). *)

From stdpp Require Import gmap.
From S2P Require Import Prelude.
From S2P Require Import Io.
From S2P Require Import Wire.
From S2P Require Import Messages.
From S2P Require Import Replay.
From S2P Require Import Ring.
From S2P Require Import Child.
From S2P Require Import Server.
From S2P Require Import ServerSpec.
From S2P Require Import System.
From S2P Require Import ServerProps.

(** ** Tokens *)

Lemma store_token_ok (src : bytes) :
  blen src <= OPTY_MAX_TOKEN ->
  server_store_token (OPTY_MAX_TOKEN + 1) src =
  Done (src ++ zeros (OPTY_MAX_TOKEN + 1 - blen src)).
Proof.
  unfold OPTY_MAX_TOKEN. intros H. unfold server_store_token. pose proof (blen_nonneg src).
  rewrite blit_ok by (rewrite ?blen_zeros; lia).
  change (Z.to_nat 0) with 0%nat. rewrite take_0. cbn [app Nat.add]. do 2 f_equal.
  unfold zeros. rewrite drop_replicate. f_equal. unfold blen. lia.
Qed.

Lemma token_buf_zeros (tok : bytes) :
  blen tok <= OPTY_MAX_TOKEN ->
  token_buf tok (zeros (OPTY_MAX_TOKEN + 1)) = tok ++ zeros (OPTY_MAX_TOKEN + 1 - blen tok).
Proof.
  unfold OPTY_MAX_TOKEN. intros H. unfold token_buf. f_equal. unfold zeros.
  rewrite drop_replicate. change [Byte.x00] with (replicate 1 Byte.x00).
  rewrite <- replicate_add. f_equal. unfold blen in *. lia.
Qed.

(** Two tokens fill their buffers alike when one is the other followed by NULs. *)
Lemma padded_eq (src tok : bytes) (n : Z) :
  Byte.x00 ∉ src -> blen src < n -> blen tok < n ->
  src ++ zeros (n - blen src) = tok ++ zeros (n - blen tok) <->
  exists k, tok = src ++ replicate k Byte.x00.
Proof.
  intros Hsrc Hs Ht. unfold zeros. split.
  - intros H. destruct (Nat.le_gt_cases (length src) (length tok)) as [Hle|Hgt].
    + exists (length tok - length src)%nat. apply (f_equal (take (length tok))) in H.
      rewrite take_app_length, take_app_ge, take_replicate in H by done. rewrite <- H at 1.
      do 2 f_equal. unfold blen in *. lia.
    + exfalso. apply Hsrc. apply (f_equal (fun l => l !! length tok)) in H.
      rewrite lookup_app_l in H by done. rewrite lookup_app_r in H by done.
      rewrite Nat.sub_diag, lookup_replicate_2 in H by (unfold blen in *; lia).
      by eapply list_elem_of_lookup_2.
  - intros [k ->]. rewrite <- app_assoc. f_equal.
    rewrite <- replicate_add. f_equal.
    unfold blen in *. rewrite length_app, length_replicate in *. lia.
Qed.

(** The comparison of a stored command-line token (a C string) with the token
    of a frame looks at every byte and answers yes exactly when the frame's token
    is the stored one, possibly followed by NUL bytes. *)
Theorem tokens_equal_exact (src tok : bytes) :
  Byte.x00 ∉ src -> blen src <= OPTY_MAX_TOKEN -> blen tok <= OPTY_MAX_TOKEN ->
  exists e b, server_store_token (OPTY_MAX_TOKEN + 1) src = Done e /\
    server_tokens_equal (Some e) (Some (token_buf tok (zeros (OPTY_MAX_TOKEN + 1)))) = Done b /\
    (b = true <-> exists k, tok = src ++ replicate k Byte.x00).
Proof.
  intros Hn Hs Ht. rewrite store_token_ok, token_buf_zeros by done.
  eexists _, _. split; [done|]. pose proof (blen_nonneg src). pose proof (blen_nonneg tok).
  assert (forall t, blen t <= OPTY_MAX_TOKEN ->
    blen (t ++ zeros (OPTY_MAX_TOKEN + 1 - blen t)) = OPTY_MAX_TOKEN + 1) as Hl.
  { intros t Hb. pose proof (blen_nonneg t). rewrite blen_app, blen_zeros by lia. lia. }
  rewrite tokens_equal_ok by auto. split; [done|].
  rewrite bool_decide_eq_true. apply padded_eq; [done|lia|lia].
Qed.

Lemma tokens_equal_exact_witness :
  exists e b, server_store_token (OPTY_MAX_TOKEN + 1) (cstr "secret") = Done e /\
    server_tokens_equal (Some e)
      (Some (token_buf (cstr "secret" ++ [Byte.x00]) (zeros (OPTY_MAX_TOKEN + 1)))) = Done b /\
    (b = true <-> exists k, cstr "secret" ++ [Byte.x00] = cstr "secret" ++ replicate k Byte.x00).
Proof.
  apply (tokens_equal_exact (cstr "secret") (cstr "secret" ++ [Byte.x00]));
    [by apply (bool_decide_unpack _)
    |by vm_compute|by vm_compute].
Defined.

(** ** The first frame *)

Section Auth.

Context {R : Type} `{!ReplayOps R}.

(** The server's state apart from the PTY's window size and its ioctl script. *)
Definition same_but_size (s s' : server R) : Prop :=
  clients s' = clients s /\ heap s' = heap s /\ ring s' = ring s /\ child s' = child s /\
  listening s' = listening s /\ token s' = token s /\ control_token s' = control_token s /\
  p_io (master s') = p_io (master s).

Lemma resize_cases (cols rows : Z) (s : server R) :
  exists rc s', server_resize_pty cols rows s = Some (rc, s') /\ same_but_size s s' /\
    ((rc = 0 /\ p_cols (master s') = cols /\ p_rows (master s') = rows) \/
     (rc = -1 /\ p_cols (master s') = p_cols (master s) /\ p_rows (master s') = p_rows (master s))).
Proof.
  unfold server_resize_pty. destruct (wr_shut _), (p_ioctl (master s)) as [|[] rest]; eexists _, _;
    (split; [reflexivity|]); (split; [done|]); auto.
Qed.

(** [C28] A HELLO or RECONNECT gets as far as attaching only if it parses, its window
    is not empty, and the server has no token or an empty one or the frame carries
    that token; the PTY then has the client's size, and the replay will start at
    the requested sequence number of a RECONNECT, at 0 for a HELLO.  A refused
    intro changes nothing: no input reaches the PTY, no client becomes visible. *)
Theorem intro_gate (f : opty_frame) (s : server R) :
  frame_ok f -> token_wf (token s) ->
  exists rc q s', server_check_intro f s = Some ((rc, q), s') /\ same_but_size s s' /\
    (rc = 0 -> exists i,
       opty_parse_client_intro f (zeros (OPTY_MAX_TOKEN + 1)) = Done i /\
       i_cols i <> 0 /\ i_rows i <> 0 /\
       (empty_token (token s) = true \/ token s = Some (i_token i)) /\
       p_cols (master s') = i_cols i /\ p_rows (master s') = i_rows i /\
       q = (if f_type f =? msg_code OPTY_MSG_RECONNECT then i_seq i else 0)) /\
    (rc = -2 <-> exists i,
       opty_parse_client_intro f (zeros (OPTY_MAX_TOKEN + 1)) = Done i /\
       i_cols i <> 0 /\ i_rows i <> 0 /\
       empty_token (token s) = false /\ token s <> Some (i_token i)) /\
    (rc <> 0 -> p_cols (master s') = p_cols (master s) /\ p_rows (master s') = p_rows (master s)).
Proof.
  intros Hf Ht. unfold server_check_intro.
  destruct (opty_parse_client_intro f (zeros (OPTY_MAX_TOKEN + 1))) as [i|e|] eqn:E;
    [|eexists _, _, _; split; [reflexivity|]; split_and!; try done; split; [done|by intros (?&?&_)]
     |by apply parse_client_intro_safe in E].
  pose proof (parse_client_intro_token _ _ _ Hf E) as Hl.
  destruct (Z.eqb_spec (i_cols i) 0) as [|Hc]; cbn [orb].
  { eexists _, _, _; split; [reflexivity|]; split_and!; try done.
    split; [done|]. by intros (?&[= <-]&?&?&_). }
  destruct (Z.eqb_spec (i_rows i) 0) as [|Hr].
  { eexists _, _, _; split; [reflexivity|]; split_and!; try done.
    split; [done|]. by intros (?&[= <-]&?&?&_). }
  unfold srv_lift. unfold mbind, srv_bind. rewrite intro_refused_ok by done.
  destruct (empty_token (token s)) eqn:Em; cbn [negb andb];
    [|case_bool_decide as Htok; cbn [negb]].
  3: { eexists _, _, _; split; [reflexivity|]; split_and!; try done.
       split; [|done]. intros _. exists i. split_and!; done. }
  all: destruct (resize_cases (i_cols i) (i_rows i) s) as (rc&s'&->&Hs&Hcase);
    destruct Hcase as [(->&?&?)|(->&?&?)]; cbn;
    (eexists _, _, _; split; [reflexivity|]; split; [done|]; split_and!); try done.
  all: try (intros _; exists i; split_and!; by auto).
  all: split; [done|]; intros (i'&[= <-]&?&?&?&?); congruence.
Qed.

(** [C29] A CONTROL_SHUTDOWN is obeyed only by a server that has a control token,
    and only when the frame carries exactly that token; everything else leaves the
    server as it was. *)
Theorem control_gate (f : opty_frame) (s : server R) :
  frame_ok f -> token_wf (control_token s) ->
  exists rc input, server_check_control f s = Some ((rc, input), s) /\
    (rc = 0 <-> exists tok input',
       opty_parse_control_shutdown f (zeros (OPTY_MAX_TOKEN + 1)) = Done (tok, input') /\
       empty_token (control_token s) = false /\ control_token s = Some tok) /\
    (rc = 0 -> exists tok,
       opty_parse_control_shutdown f (zeros (OPTY_MAX_TOKEN + 1)) = Done (tok, input)) /\
    (control_token s = None -> rc <> 0).
Proof.
  intros Hf Ht. unfold server_check_control.
  pose proof (parse_control_inv f (zeros (OPTY_MAX_TOKEN + 1)) Hf) as H.
  destruct (opty_parse_control_shutdown f _) as [[tok input]|e|]; [| |done].
  2: { eexists _, _. split; [reflexivity|]. split_and!; try done. split; [done|by intros (?&?&?&_)]. }
  destruct H as (tok'&_&_&?&?&_&->).
  unfold srv_lift. unfold mbind, srv_bind.
  rewrite control_refused_ok by (try done; by rewrite token_buf_length).
  destruct (empty_token (control_token s)) eqn:Em; cbn [orb].
  { eexists _, _. split; [reflexivity|]. split_and!; try done. split; [done|by intros (?&?&_&?&_)]. }
  case_bool_decide as Htok; cbn [negb]; (eexists _, _; split; [reflexivity|]).
  - split_and!; [|by eauto|by rewrite Htok]. split; [|done]. intros _.
    eexists _, _. split; [done|]. auto.
  - split_and!; [|done|done]. split; [done|]. intros (?&?&[= <- <-]&_&?). done.
Qed.

End Auth.

Lemma intro_gate_witness :
  let f := Frame (msg_code OPTY_MSG_HELLO) 6 (intro_payload 0 80 24 [] false) in
  let s := Demo.server0 in
  exists rc q s', server_check_intro f s = Some ((rc, q), s') /\ same_but_size s s' /\
    (rc = 0 -> exists i,
       opty_parse_client_intro f (zeros (OPTY_MAX_TOKEN + 1)) = Done i /\
       i_cols i <> 0 /\ i_rows i <> 0 /\
       (empty_token (token s) = true \/ token s = Some (i_token i)) /\
       p_cols (master s') = i_cols i /\ p_rows (master s') = i_rows i /\
       q = (if f_type f =? msg_code OPTY_MSG_RECONNECT then i_seq i else 0)) /\
    (rc = -2 <-> exists i,
       opty_parse_client_intro f (zeros (OPTY_MAX_TOKEN + 1)) = Done i /\
       i_cols i <> 0 /\ i_rows i <> 0 /\
       empty_token (token s) = false /\ token s <> Some (i_token i)) /\
    (rc <> 0 -> p_cols (master s') = p_cols (master s) /\ p_rows (master s') = p_rows (master s)).
Proof. intros f s. apply (intro_gate f s); [by split|done]. Defined.

Lemma control_gate_witness :
  let f := Frame (msg_code OPTY_MSG_CONTROL_SHUTDOWN) 4 (control_payload [] []) in
  let s := Demo.server0 in
  exists rc input, server_check_control f s = Some ((rc, input), s) /\
    (rc = 0 <-> exists tok input',
       opty_parse_control_shutdown f (zeros (OPTY_MAX_TOKEN + 1)) = Done (tok, input') /\
       empty_token (control_token s) = false /\ control_token s = Some tok) /\
    (rc = 0 -> exists tok,
       opty_parse_control_shutdown f (zeros (OPTY_MAX_TOKEN + 1)) = Done (tok, input)) /\
    (control_token s = None -> rc <> 0).
Proof. intros f s. apply (control_gate f s); [by split|done]. Defined.

(** ** What an attached client sends *)

Section Input.

Context {R : Type} `{!ReplayOps R}.
Variable malloc_ok : Z -> bool.
Variable calloc_ok : Z -> bool.
Hypothesis malloc_total : forall n, 0 <= n < OPTY_MAX_FRAME -> malloc_ok n = true.

Definition stdin_frame (d : bytes) : bytes := encode_frame (msg_code OPTY_MSG_STDIN) d.

Lemma write_pty_healthy (d : bytes) (s : server R) :
  healthy (p_io (master s)) ->
  exists p', server_write_pty d (blen d) s = Some (0, set_master p' s) /\
    healthy (p_io p') /\ out (p_io p') = out (p_io (master s)) ++ d.
Proof.
  intros Hh. unfold server_write_pty. destruct (Z.eqb_spec (blen d) 0) as [Hz|Hz].
  - exists (master s). rewrite (blen_0 d Hz), app_nil_r. by destruct s.
  - rewrite sub_ok by (pose proof (blen_nonneg d); lia). cbn [drop].
    replace (take (Z.to_nat (blen d)) (drop (Z.to_nat 0) d)) with d
      by (unfold blen; rewrite Nat2Z.id, firstn_all; done).
    destruct (opty_write_full d (p_io (master s))) as [o io'] eqn:E.
    apply opty_write_full_spec in E as [Hpost Hok]. destruct (Hok Hh) as [[n ->] Hh'].
    destruct Hpost as [_ (Ho&_)]. eexists. split; [reflexivity|]. done.
Qed.

Lemma stdin_step (s : server R) (c : cid) (cl : client) (d rest : bytes) :
  heap s !! c = Some cl -> Forall benign_rd (inq (sock cl)) ->
  content (inq (sock cl)) = stdin_frame d ++ rest -> blen d <= OPTY_MAX_FRAME - 1 ->
  healthy (p_io (master s)) ->
  exists sk s', client_step malloc_ok c TLoop s = Some (Some TLoop, s') /\
    heap s' !! c = Some (set_sock sk cl) /\ Forall benign_rd (inq sk) /\ content (inq sk) = rest /\
    healthy (p_io (master s')) /\ out (p_io (master s')) = out (p_io (master s)) ++ d.
Proof.
  intros Hc Hb Hcont Hd Hh. cbn [client_step]. unfold client_recv.
  destruct (opty_recv_frame_limited_encode malloc_ok (OPTY_MAX_FRAME - 1)
              (msg_code OPTY_MSG_STDIN) d rest (sock cl)) as (sk&He&_&Hb'&Hr);
    [done|apply malloc_total; pose proof (blen_nonneg d); lia|done|done|done|done|].
  set (s1 := set_heap (<[c := set_sock sk cl]> (heap s)) s).
  erewrite bind_ok; [|rewrite (get_bind s c cl) by done; rewrite He, (put_bind s c cl) by done; reflexivity].
  fold s1. cbn [Z.ltb Z.compare].
  destruct (write_pty_healthy d s1 Hh) as (p'&Hw&Hh'&Ho).
  exists sk, (set_master p' s1). split; [|split_and!; try done; apply lookup_insert_eq].
  unfold handle_frame. cbn [f_type f_payload f_len]. rewrite Z.eqb_refl.
  erewrite bind_ok; [|erewrite bind_ok; [reflexivity|exact Hw]]. done.
Qed.

(** [C30] Keystrokes arrive: STDIN frames on an attached client's connection, however
    they were cut into reads, are typed into the PTY in order and in full, whatever
    short writes the PTY makes, and the thread stays in its loop. *)
Theorem stdin_reaches_pty (σ : sys R) (c : cid) (cl : client) (chunks : list bytes) (rest : bytes) :
  threads σ !! c = Some TLoop -> heap (srv σ) !! c = Some cl ->
  Forall benign_rd (inq (sock cl)) ->
  content (inq (sock cl)) = concat (stdin_frame <$> chunks) ++ rest ->
  Forall (fun d => blen d <= OPTY_MAX_FRAME - 1) chunks ->
  healthy (p_io (master (srv σ))) ->
  exists σ', exec_all malloc_ok calloc_ok (replicate (length chunks) (AClient c)) σ = Some σ' /\
    threads σ' !! c = Some TLoop /\
    out (p_io (master (srv σ'))) = out (p_io (master (srv σ))) ++ concat chunks.
Proof.
  revert σ cl. induction chunks as [|d chunks IH]; intros σ cl Hth Hc Hb Hcont Hd Hh.
  { exists σ. by rewrite app_nil_r. }
  inversion Hd as [|?? Hd1 Hd2]; subst. cbn in Hcont. rewrite <- app_assoc in Hcont.
  destruct (stdin_step (srv σ) c cl d _ Hc Hb Hcont Hd1 Hh) as (sk&s'&He&Hc'&Hb'&Hcont'&Hh'&Ho).
  destruct (IH (after_client σ c TLoop (Some TLoop) s') (set_sock sk cl)) as (σ'&He'&Hth'&Ho');
    [apply lookup_insert_eq|done..|].
  assert (exec malloc_ok calloc_ok (AClient c) σ = Some (after_client σ c TLoop (Some TLoop) s')) as Hx
    by (unfold exec; rewrite Hth; cbn -[client_step]; by rewrite He).
  exists σ'. cbn [length replicate exec_all]. rewrite Hx. split_and!; [done|done|].
  rewrite Ho'. cbn. by rewrite Ho, <- app_assoc.
Qed.

End Input.

(** An attached client that types "ls" and "exit". *)
Module Typing.

Definition client0 : client :=
  Client 2 true false true 0
    (Stream [RData (take 4 (stdin_frame (cstr "ls"))); RErr EINTR;
             RData (drop 4 (stdin_frame (cstr "ls")) ++ stdin_frame (cstr "exit"))] [] [] false).

Definition sys0 : sys opty_ring :=
  Sys (Server [1%nat] {[1%nat := client0]} ring5
         (Pty (Stream [] [WAccept 1; WErr EINTR] [] false) 80 24 [])
         (Child 7 false 0 [] [] 0) true None None)
    PRead MAccept {[1%nat := TLoop]} [] ∅ ∅.

Lemma stdin_reaches_pty_witness :
  exists σ', exec_all Demo.always Demo.always (replicate 2 (AClient 1%nat)) sys0 = Some σ' /\
    threads σ' !! 1%nat = Some TLoop /\
    out (p_io (master (srv σ'))) = [] ++ concat [cstr "ls"; cstr "exit"].
Proof.
  apply (stdin_reaches_pty Demo.always Demo.always (fun _ _ => eq_refl) sys0 1%nat client0
           [cstr "ls"; cstr "exit"] []).
  - done.
  - done.
  - repeat constructor.
  - by vm_compute.
  - repeat constructor; by vm_compute.
  - split; [done|]. repeat constructor.
Defined.

End Typing.
