(* ===== verification/ServerPhases.v ===== *)
(** * The phases are the functions

    System.v interleaves phases; Server.v also has the C functions as they are
    written.  Run without interruption, the phases compute what the functions
    compute. *)

From stdpp Require Import gmap.
From S2P Require Import Prelude.
From S2P Require Import Io.
From S2P Require Import Replay.
From S2P Require Import Ring.
From S2P Require Import Child.
From S2P Require Import Server.
From S2P Require Import ServerSpec.
From S2P Require Import System.
From S2P Require Import ServerProps.

(** The same phase function again and again, [n] times. *)
Fixpoint iterate {P S : Type} (f : P -> S -> option (P * S)) (n : nat) (p : P) (s : S)
    : option (P * S) :=
  match n with
  | O => Some (p, s)
  | S n' => '(p', s') ← f p s; iterate f n' p' s'
  end.

Definition runs_to {P S : Type} (f : P -> S -> option (P * S)) (p : P) (s : S) (p' : P) (s' : S)
    : Prop := exists n, iterate f n p s = Some (p', s').

Lemma runs_to_refl {P S} (f : P -> S -> option (P * S)) p s : runs_to f p s p s.
Proof. by exists 0%nat. Qed.

Lemma runs_to_step {P S} (f : P -> S -> option (P * S)) p s p1 s1 p2 s2 :
  f p s = Some (p1, s1) -> runs_to f p1 s1 p2 s2 -> runs_to f p s p2 s2.
Proof. intros He [n Hn]. exists (Datatypes.S n). cbn. by rewrite He. Qed.

Lemma runs_to_trans {P S} (f : P -> S -> option (P * S)) p s p1 s1 p2 s2 :
  runs_to f p s p1 s1 -> runs_to f p1 s1 p2 s2 -> runs_to f p s p2 s2.
Proof.
  intros [n Hn]. revert p s Hn. induction n as [|n IH]; intros p s Hn Hr; cbn in Hn; [by simplify_eq|].
  destruct (f p s) as [[p' s']|] eqn:E; [cbn in Hn|done]. eapply runs_to_step; eauto.
Qed.

Section Phases.

Context {R : Type} `{!ReplayOps R}.
Variable malloc_ok : Z -> bool.
Variable calloc_ok : Z -> bool.

(** What a computation that succeeded did first. *)
Lemma bind_inv {A B} (s s' : server R) (m : srvM A) (k : A -> srvM B) (b : B) :
  mbind k m s = Some (b, s') -> exists a s1, m s = Some (a, s1) /\ k a s1 = Some (b, s').
Proof.
  unfold mbind, srv_bind. destruct (m s) as [[a s1]|]; [|done]. eauto.
Qed.

Abbreviation pty := (pty_step (R := R) malloc_ok calloc_ok).

Lemma broadcast_loop_phases (seq : Z) (data : bytes) (todo snap : list cid) (s s' : server R) :
  broadcast_loop malloc_ok seq data todo s = Some (tt, s') ->
  runs_to pty (PSend seq data todo snap) s (PSend seq data [] snap) s'.
Proof.
  revert s. induction todo as [|c todo IH]; intros s H; cbn in H.
  { unfold mret, srv_ret in H. simplify_eq. apply runs_to_refl. }
  apply bind_inv in H as (rc&s1&Hsend&H).
  apply bind_inv in H as ([]&s2&Hkill&H).
  eapply runs_to_step; [cbn [pty_step]; by rewrite (bind_ok _ _ _ _ _ Hsend)|].
  destruct (rc <? 0).
  - eapply runs_to_step; [cbn [pty_step]; by rewrite (bind_ok _ _ _ _ _ Hkill)|]. by apply IH.
  - unfold mret, srv_ret in Hkill. simplify_eq. by apply IH.
Qed.

(** [server_broadcast_stdout] is what the PTY thread's phases compute when they
    are not interrupted: from the snapshot of the clients back to the next read, or
    to the end of the thread when it returns -1. *)
Theorem broadcast_is_phases (seq : Z) (data : bytes) (s s' : server R) (rc : Z) :
  server_broadcast_stdout malloc_ok calloc_ok seq data s = Some (rc, s') ->
  runs_to pty (PSnap seq data) s (if rc <? 0 then PListener else PRead) s'.
Proof.
  unfold server_broadcast_stdout. intros H.
  apply bind_inv in H as ([snap count]&s1&Hsnap&H).
  eapply runs_to_step; [cbn [pty_step]; by rewrite (bind_ok _ _ _ _ _ Hsnap)|].
  destruct (count =? 0). { unfold mret, srv_ret in H. simplify_eq. apply runs_to_refl. }
  destruct snap as [l|]; [|unfold mret, srv_ret in H; simplify_eq; apply runs_to_refl].
  apply bind_inv in H as ([]&s2&Hloop&H).
  eapply runs_to_trans; [by apply (broadcast_loop_phases _ _ _ l)|].
  apply bind_inv in H as ([]&s3&Hrel&H). unfold mret, srv_ret in H. simplify_eq.
  eapply runs_to_step; [cbn [pty_step]; by rewrite (bind_ok _ _ _ _ _ Hrel)|]. apply runs_to_refl.
Qed.

(** ** Stopping *)

(** [stop_step] with its end as a phase. *)
Definition stop_next (ph : option stop_phase) (s : server R)
    : option (option stop_phase * server R) :=
  match ph with Some ph => stop_step ph s | None => Some (None, s) end.

Lemma deadline_phases (fuel n : nat) (waited d : Z) (c' : child_state) (s : server R) :
  wait_deadline_loop fuel (stop_millis n) waited (child s) = Done (d, c') ->
  runs_to stop_next (Some (StopPoll n waited)) s
    (Some (if d =? 0 then StopSignal n else StopListener)) (set_child c' s).
Proof.
  revert waited s. induction fuel as [|fuel IH]; intros waited s H; [done|].
  cbn [wait_deadline_loop] in H.
  destruct (server_poll_child_locked (child s)) as [done c1] eqn:Hp.
  destruct (Z.eqb_spec done 0) as [->|Hne]; cbn [negb] in H.
  - destruct (stop_millis n <=? waited) eqn:Hw.
    + simplify_eq. eapply runs_to_step; [cbn; rewrite Hp; cbn; by rewrite Hw|]. apply runs_to_refl.
    + eapply runs_to_step; [cbn; rewrite Hp; cbn; by rewrite Hw|].
      destruct s. by apply (IH (waited + 50) (Server _ _ _ _ (server_sleep_millis 50 c1) _ _ _)).
  - simplify_eq. assert (((if 0 <? done then 1 else -1) =? 0) = false) as -> by (by case_match).
    eapply runs_to_step; [cbn; rewrite Hp|apply runs_to_refl].
    by destruct (Z.eqb_spec done 0).
Qed.

(** One stage: the signal when the last poll found the child running, the wait that
    follows. *)
Lemma set_child_set_child (c c' : child_state) (s : server R) :
  set_child c (set_child c' s) = set_child c s.
Proof. done. Qed.

Lemma child_set_child (c : child_state) (s : server R) : child (set_child c s) = c.
Proof. done. Qed.

Lemma signal_phases (n : nat) (fuel : nat) (d : Z) (c' : child_state) (s : server R) :
  (n < 2)%nat ->
  wait_deadline_loop fuel (stop_millis (S n)) 0 (server_signal_child (stop_signal n) (child s)) =
    Done (d, c') ->
  runs_to stop_next (Some (StopSignal n)) s
    (Some (if d =? 0 then StopSignal (S n) else StopListener)) (set_child c' s).
Proof.
  intros Hn H. eapply runs_to_step.
  { cbn [stop_next stop_step]. by rewrite (proj2 (Nat.ltb_lt n 2) Hn). }
  rewrite <- (set_child_set_child c' (server_signal_child (stop_signal n) (child s))).
  by apply (deadline_phases fuel).
Qed.

Lemma reap_phases (s : server R) :
  runs_to stop_next (Some (StopSignal 2)) s (Some StopListener)
    (set_child (server_wait_child_blocking (server_signal_child SIGKILL (child s))) s).
Proof.
  eapply runs_to_step; [reflexivity|]. eapply runs_to_step; [reflexivity|]. apply runs_to_refl.
Qed.

Lemma stop_child_phases (c' : child_state) (s : server R) :
  stop_child (child s) = Done c' ->
  runs_to stop_next (Some (StopPoll 0 0)) s (Some StopListener) (set_child c' s).
Proof.
  intros H. unfold stop_child in H.
  destruct (server_wait_child_deadline OPTY_STOP_GRACE_MS (child s)) as [[d c1]| |] eqn:E1;
    [cbn in H|done..].
  eapply runs_to_trans; [by eapply deadline_phases|].
  destruct (Z.eqb_spec d 0) as [->|Hd].
  2: { cbn in H. destruct (Z.eqb_spec d 0); [done|]. cbn in H.
       destruct (Z.eqb_spec d 0); [done|]. simplify_eq. apply runs_to_refl. }
  destruct (server_wait_child_deadline OPTY_STOP_SIGNAL_GRACE_MS _) as [[d c2]| |] eqn:E2 in H;
    [cbn in H|done..].
  eapply runs_to_trans.
  { eapply (signal_phases 0); [lia|]. exact E2. }
  rewrite set_child_set_child. destruct (Z.eqb_spec d 0) as [->|Hd].
  2: { cbn in H. destruct (Z.eqb_spec d 0); [done|]. simplify_eq. apply runs_to_refl. }
  destruct (server_wait_child_deadline OPTY_STOP_SIGNAL_GRACE_MS _) as [[d c3]| |] eqn:E3 in H;
    [cbn in H|done..].
  eapply runs_to_trans.
  { eapply (signal_phases 1); [lia|]. exact E3. }
  rewrite set_child_set_child. destruct (Z.eqb_spec d 0) as [->|Hd].
  - simplify_eq. apply (reap_phases (set_child c3 s)).
  - simplify_eq. apply runs_to_refl.
Qed.

(** [server_request_shutdown] is what its phases compute when they are not
    interrupted: the graceful input, the polls and signals, the listener, the
    clients. *)
Theorem shutdown_is_phases (input : bytes) (s s' : server R) :
  server_request_shutdown input s = Some (tt, s') ->
  runs_to stop_next (Some (StopWrite input)) s None s'.
Proof.
  unfold server_request_shutdown. intros H.
  apply bind_inv in H as ([]&s1&Hw&H). apply bind_inv in H as ([]&s2&Hs&H).
  apply bind_inv in H as ([]&s3&Hc&H).
  eapply runs_to_step; [cbn [stop_next stop_step]; by rewrite (bind_ok _ _ _ _ _ Hw)|].
  unfold server_stop_child in Hs.
  destruct (stop_child (child s1)) as [c'| |] eqn:E; [|done..]. simplify_eq.
  eapply runs_to_trans; [by apply stop_child_phases|].
  eapply runs_to_step; [cbn [stop_next stop_step]; by rewrite (bind_ok _ _ _ _ _ Hc)|].
  eapply runs_to_step; [cbn [stop_next stop_step]; by rewrite (bind_ok _ _ _ _ _ H)|].
  apply runs_to_refl.
Qed.

End Phases.

(** The two functions on the server of the concrete run. *)
Lemma broadcast_is_phases_witness :
  let s := srv Demo.sys1 in
  exists s', server_broadcast_stdout Demo.always Demo.always 5 (cstr "!") s = Some (0, s') /\
    runs_to (pty_step Demo.always Demo.always) (PSnap 5 (cstr "!")) s PRead s'.
Proof.
  intros s.
  destruct (server_broadcast_stdout Demo.always Demo.always 5 (cstr "!") s) as [[rc s']|] eqn:E;
    [|by vm_compute in E].
  assert (rc = 0) as -> by (vm_compute in E; by simplify_eq).
  exists s'. split; [done|]. by apply (broadcast_is_phases Demo.always Demo.always 5 (cstr "!") s s' 0).
Defined.

Lemma shutdown_is_phases_witness :
  let s := srv Demo.sys1 in
  exists s', server_request_shutdown (cstr "/exit") s = Some (tt, s') /\
    runs_to stop_next (Some (StopWrite (cstr "/exit"))) s None s'.
Proof.
  intros s.
  destruct (server_request_shutdown (cstr "/exit") s) as [[[] s']|] eqn:E; [|by vm_compute in E].
  exists s'. split; [done|]. by apply (shutdown_is_phases (cstr "/exit") s s').
Defined.
