(* ===== verification/ServerFaults.v ===== *)
(** * Where the server falls short

    Behaviours of src/src/server.c that its code and documentation do not mean: a ring
    larger than a frame locks everybody out, a failed snapshot allocation leaves a hole
    in the clients' streams, the wait for the child at the end of the PTY thread blocks a
    pending stop, and the end of the process races with the threads that still run. *)

From stdpp Require Import gmap.
From S2P Require Import Prelude.
From S2P Require Import Io.
From S2P Require Import Wire.
From S2P Require Import Messages.
From S2P Require Import Replay.
From S2P Require Import Ring.
From S2P Require Import Child.
From S2P Require Import Server.
From S2P Require Import ServerSpec.
From S2P Require Import System.
From S2P Require Import Safety.
From S2P Require Import ServerProps.
From S2P Require Import Keeps.

(** ** A replay that does not fit a frame *)

Section TooLarge.

Context {R : Type} `{!ReplayOps R, !ReplayLaws R}.
Variable malloc_ok : Z -> bool.
Hypothesis malloc_total : forall n, malloc_ok n = true.

(** The window is sent as one REPLAY frame, which holds at most
    [OPTY_MAX_FRAME] - 9 bytes: once the ring holds more than that after the
    requested sequence number ([-r] accepts any size), attaching fails on a healthy
    connection, after WELCOME and before any byte of the REPLAY. *)
Theorem oversized_replay_locks_out (s : server R) (c : cid) (cl : client) (cap q : Z)
    (hist : bytes) :
  rb_repr (ring s) cap hist -> heap s !! c = Some cl -> healthy (sock cl) ->
  OPTY_MAX_FRAME - 9 < blen hist - log_from cap hist q ->
  exists s' cl', server_send_welcome_and_replay malloc_ok c q s = Some (-1, s') /\
    heap s' !! c = Some cl' /\
    out (sock cl') = out (sock cl) ++ welcome_frame (log_window malloc_ok cap hist q).
Proof.
  intros Hr Hc Hh Hlen. destruct (rb_repr_bound _ _ _ Hr) as [Hcap _].
  destruct (log_from_bounds cap hist q Hcap) as [Hf0 Hf1].
  set (w := log_window malloc_ok cap hist q).
  assert (w_data w = Some (log_since hist (log_from cap hist q)) /\ w_len w = blen hist - log_from cap hist q)
    as [Hd Hl].
  { unfold w, log_window. cbn. rewrite malloc_total, log_since_length by done.
    destruct (Z.eqb_spec (blen hist - log_from cap hist q) 0); [unfold OPTY_MAX_FRAME in *; lia|done]. }
  assert (server_send_welcome_and_replay malloc_ok c q s =
    attach_send malloc_ok c w (set_heap (<[c := set_attached (w_next w) cl]> (heap s)) s)) as ->.
  { unfold server_send_welcome_and_replay, attach_begin. unfold mbind at 1, srv_bind at 1.
    rewrite (rb_window_ok malloc_ok _ _ _ q Hr). fold w.
    rewrite Hd, bool_decide_false, andb_false_r by done.
    by rewrite (get_bind s c cl), (put_bind s c cl) by done. }
  set (s1 := set_heap _ s). set (cl1 := set_attached (w_next w) cl).
  assert (heap s1 !! c = Some cl1) as Hc1 by apply lookup_insert_eq.
  destruct (send_frame_healthy (msg_code OPTY_MSG_WELCOME)
              (opty_put_u64 (w_base w) ++ opty_put_u64 (w_next w)) (sock cl1)) as (sk&He&_&Ho&_);
    [done|done|].
  set (s2 := set_heap (<[c := set_sock sk cl1]> (heap s1)) s1).
  assert (on_sock c (opty_send_welcome (w_base w) (w_next w)) s1 = Some (0, s2)) as Hw.
  { unfold on_sock. rewrite (get_bind s1 c cl1) by done. unfold opty_send_welcome.
    rewrite He. by rewrite (put_bind s1 c cl1). }
  set (cl2 := set_sock sk cl1). assert (heap s2 !! c = Some cl2) as Hc2 by apply lookup_insert_eq.
  assert (on_sock c (opty_send_replay malloc_ok (w_from w) (w_data w) (w_len w)) s2 =
    Some (-1, set_heap (<[c := set_sock (sock cl2) cl2]> (heap s2)) s2)) as Hp.
  { unfold on_sock. rewrite (get_bind s2 c cl2) by done.
    unfold opty_send_replay, opty_send_stream_frame.
    rewrite Hd, bool_decide_false, andb_false_r, malloc_total by done. cbn [negb].
    destruct (SIZE_MAX - 8 <? w_len w);
      [unfold io_fail; cbv iota beta; by rewrite (put_bind s2 c cl2)|].
    rewrite (io_lift_bind _ _ (log_since hist (log_from cap hist q))).
    - rewrite opty_send_frame_too_big by lia. cbv iota beta. by rewrite (put_bind s2 c cl2).
    - destruct (Z.ltb_spec 0 (w_len w)); [|unfold OPTY_MAX_FRAME in *; lia].
      rewrite Hl, sub_ok by (rewrite ?log_since_length by done; lia).
      rewrite <- (log_since_length hist) by done. unfold blen. by rewrite Nat2Z.id, firstn_all. }
  unfold attach_send. rewrite (bind_ok _ _ _ _ _ Hw). change (0 =? 0) with true. cbv iota.
  rewrite Hp. eexists _, (set_sock (sock cl2) cl2). split; [reflexivity|].
  split; [apply lookup_insert_eq|]. exact Ho.
Qed.

End TooLarge.

(** A ring that is full. *)
Lemma full_ring (n : Z) :
  0 < n < 2 ^ 32 -> exists r : opty_ring, ring_repr r n (zeros n) /\ blen (zeros n) = n.
Proof.
  intros Hn. assert (blen (zeros n) = n) as Hlen by (apply blen_zeros; lia).
  destruct (ring_init_repr (zeros n) n) as (r0&_&Hr0); [unfold SIZE_MAX; lia|exact Hlen|].
  destruct (opty_ring_append_refines r0 n [] (zeros n) Hr0) as (r&_&Hr);
    [rewrite Hlen; change (blen []) with 0; lia|].
  exists r. split; [exact Hr|exact Hlen].
Qed.

(** A ring of 32 MiB. *)
Lemma oversized_replay_locks_out_witness :
  let cl := Client 2 true false false 0 (Stream [] [] [] false) in
  exists (r : opty_ring) s' cl', ring_repr r 33554432 (zeros 33554432) /\
    server_send_welcome_and_replay Demo.always 1%nat 0
      (Server [1%nat] {[1%nat := cl]} r (Pty (Stream [] [] [] false) 80 24 [])
         (Child 7 false 0 [] [] 0) true None None) = Some (-1, s') /\
    heap s' !! 1%nat = Some cl' /\
    out (sock cl') = [] ++ welcome_frame (log_window Demo.always 33554432 (zeros 33554432) 0).
Proof.
  intros cl. destruct (full_ring 33554432) as (r&Hr&Hlen); [lia|].
  generalize dependent (zeros 33554432). intros h Hr Hlen. exists r.
  destruct (oversized_replay_locks_out Demo.always (fun _ => eq_refl)
      (Server [1%nat] {[1%nat := cl]} r (Pty (Stream [] [] [] false) 80 24 [])
         (Child 7 false 0 [] [] 0) true None None) 1%nat cl 33554432 0 h) as (s'&cl'&H1&H2&H3).
  - exact Hr.
  - by apply lookup_singleton_eq.
  - split; [done|constructor].
  - unfold log_from, log_base. rewrite Hlen. reflexivity.
  - exists s', cl'. split_and!; [exact Hr|exact H1|exact H2|exact H3].
Defined.

(** ** A snapshot without memory *)

(** When there is no memory for the snapshot of the live clients, the chunk is
    dropped without a trace: [server_broadcast_stdout] reports success and changes
    nothing ([server_snapshot_clients] has set the count to 0, so the test for a null
    snapshot is never reached), and nobody is marked dead. *)
Theorem snapshot_failure_is_silent {R : Type} (malloc_ok calloc_ok : Z -> bool) (seq : Z)
    (data : bytes) (s : server R) (live : list cid) :
  live_clients (heap s) (clients s) = Some live ->
  calloc_ok (Z.of_nat (length live)) = false ->
  server_broadcast_stdout malloc_ok calloc_ok seq data s = Some (0, s).
Proof.
  intros Hl Hc. unfold server_broadcast_stdout, server_snapshot_clients.
  unfold mbind, srv_bind. rewrite Hl, Hc. by destruct (Z.of_nat (length live) =? 0).
Qed.

Lemma snapshot_failure_is_silent_witness :
  server_broadcast_stdout Demo.always (fun _ => false) 5 (cstr "!") (srv Demo.sys1) =
  Some (0, srv Demo.sys1).
Proof.
  apply (snapshot_failure_is_silent Demo.always (fun _ => false) 5 (cstr "!") (srv Demo.sys1)
           [1%nat]); by vm_compute.
Defined.

(** Two clients are attached; "def" is printed while [calloc] cannot provide for two
    of them; the second leaves; "z" is printed. *)
Module Gap.

Definition small (n : Z) : bool := n <? 2.

Definition sys0 : sys opty_ring :=
  Sys (Server [] ∅ ring5 (Pty (Stream [RData (cstr "def"); RData (cstr "z")] [] [] false) 80 24 [])
         (Child 7 false 0 [] [] 0) true None None) PRead MAccept ∅ [] ∅ ∅.

Definition schedule : list action :=
  [AMain EvGo; AMain (EvConn 1%nat (Demo.conn (Demo.hello_bytes []))); AMain (EvThread true);
   AMain EvGo; AMain (EvConn 2%nat (Demo.conn (Demo.hello_bytes []))); AMain (EvThread true);
   AClient 1%nat; AClient 1%nat; AClient 1%nat; AClient 2%nat; AClient 2%nat; AClient 2%nat;
   APty; APty; AClient 2%nat; AClient 2%nat; APty; APty; APty; APty].

Definition sys1 : sys opty_ring := default sys0 (exec_all Demo.always small schedule sys0).

End Gap.

(** [C40] The hole is real: there is a reachable state in which a live attached
    client, with nothing under way, was sent the stream up to 0 and then STDOUT from
    3 on, so the bytes in between never reach it. *)
Theorem failed_snapshot_leaves_gap :
  exists (σ : sys opty_ring) cl w, reachable Demo.always Gap.small 5 σ /\
    heap (srv σ) !! 1%nat = Some cl /\ dead cl = false /\ pp σ = PRead /\
    att σ !! 1%nat = Some w /\ w_next w = 0 /\ hist σ = cstr "defz" /\
    live_seq cl = 4 /\
    out (sock cl) = welcome_frame w ++ replay_frame w ++
      encode_frame (msg_code OPTY_MSG_STDOUT) (opty_put_u64 3 ++ cstr "z").
Proof.
  exists Gap.sys1, (default Demo.client1 (heap (srv Gap.sys1) !! 1%nat)), (Window 0 0 0 0 None).
  split.
  - exists Gap.sys0. split; [|split].
    + unfold initial. split_and!; try done. exact ring5_repr.
    + apply (exec_all_steps _ _ Gap.schedule). by vm_compute.
    + by vm_compute.
  - by vm_compute.
Qed.

(** ** The end of the process *)

(** The PTY has ended: its thread is about to close the listener while the accept loop is
    at the head of its loop. *)
Module Shutdown.

Definition sys0 : sys opty_ring :=
  Sys (Server [] ∅ ring5 (Pty (Stream [] [] [] false) 80 24 []) (Child 7 false 0 [] [] 0) true None None)
    PRead MAccept ∅ [] ∅ ∅.






End Shutdown.


(** ** A stop that waits for the wrong thing *)

Section Reaping.

Context {R : Type} `{!ReplayOps R}.
Variable malloc_ok : Z -> bool.
Variable calloc_ok : Z -> bool.

Abbreviation kills_of := (fun s : server R => kills (child s)).

(** When the PTY ends before the child does (a program that closes its terminal
    and lives on), the PTY thread waits for the child holding [child_mu].  Until that
    wait is over no step of the server sends the child a signal, and a pending stop
    is stuck at its next poll: the escalation to SIGHUP, SIGTERM and SIGKILL never
    happens. *)
Theorem no_signal_while_reaping (σ σ' : sys R) :
  step malloc_ok calloc_ok σ σ' -> pp σ = PReap ->
  kills (child (srv σ')) = kills (child (srv σ)) /\
  (forall n w, client_may_run σ (TStop (StopPoll n w)) = false /\
               client_may_run σ (TStop (StopSignal n)) = false).
Proof.
  intros Hs Hpp. split; [|unfold client_may_run, stop_may_run, child_mu_free; by rewrite Hpp].
  assert (forall sp, stop_may_run σ sp = true -> keeps kills_of (stop_step sp)) as Hstop.
  { intros sp Hr. unfold stop_may_run, child_mu_free in Hr. rewrite Hpp in Hr.
    apply keeps_stop_step; try exact _; intros; intros ->; done. }
  destruct Hs as [c ph next s' Hth Hrun He|ph' s' Hrun He|ev ph' new s' Hrun He]; cbn.
  - unfold client_may_run in Hrun. eapply (keeps_client_step kills_of); [|exact He].
    intros sp ->. by apply Hstop.
  - rewrite Hpp in He. cbn in He. unfold mbind, srv_bind, mret, srv_ret in He. simplify_eq. cbn.
    pose proof (server_wait_child_blocking_spec (child (srv σ))) as ([_ ?]&_). done.
  - unfold main_may_run in Hrun. destruct (mp σ) as [|fd|c|sp again| | |] eqn:Hmp;
      try (eapply (keeps_main_step kills_of); [|exact He]; by intros ? ? [=]).
    destruct ev as [c' sk| | | | | | |]; try (by eapply (keeps_ret kills_of) in He).
    eapply (keeps_main_step kills_of); [|exact He]. intros ? ? [= <- <-]. by apply Hstop.
Qed.

End Reaping.

(** SIGTERM arrives while the PTY thread waits: the accept loop starts a stop. *)
Lemma no_signal_while_reaping_witness :
  let σ := Sys Demo.server0 PReap MAccept ∅ [] ∅ ∅ in
  let σ' := Sys Demo.server0 PReap (MStop (StopWrite []) true) ∅ [] ∅ ∅ in
  step Demo.always Demo.always σ σ' /\
  kills (child (srv σ')) = kills (child (srv σ)) /\
  (forall n w, client_may_run σ (TStop (StopPoll n w)) = false /\
               client_may_run σ (TStop (StopSignal n)) = false).
Proof.
  intros σ σ'.
  assert (step Demo.always Demo.always σ σ') as Hs
    by (apply (exec_step _ _ (AMain EvSignal)); by vm_compute).
  split; [exact Hs|]. by apply (no_signal_while_reaping Demo.always Demo.always σ σ' Hs).
Defined.
