(* ===== verification/Endpoint.v ===== *)
(** * Endpoints (src/src/common.c: opty_dup_range, opty_parse_endpoint)

    A C string is the list of its bytes without the terminating NUL; a pointer into
    it is the list from there on, so [p[0] == 0] is an empty list. *)

From stdpp Require Import sets.
From S2P Require Import Prelude.

Record opty_endpoint := Endpoint { host : bytes; port : bytes }.

(** [strchr(s, c)]: the offset of the first [c]. *)
Fixpoint strchr (s : bytes) (c : byte) : option nat :=
  match s with
  | [] => None
  | x :: rest => if decide (x = c) then Some O else S <$> strchr rest c
  end.

Definition LBRACKET : byte := Byte.x5b.
Definition RBRACKET : byte := Byte.x5d.
Definition COLON : byte := Byte.x3a.

Section Parse.

Variable malloc_ok : Z -> bool.

(** [None] is a null return. *)
Definition opty_dup_range (start : bytes) (len : Z) : outcome (option bytes) :=
  if negb (malloc_ok (len + 1)) then Done None
  else copy ← sub start 0 len; Done (Some copy).

(** A copy, or the error of the caller when there is no memory. *)
Definition dup_or_nomem (start : bytes) (len : Z) : outcome bytes :=
  copy ← opty_dup_range start len;
  match copy with Some c => Done c | None => Fail ENOMEM end.

(** [close] is what follows the bracket: a port, or nothing. *)
Definition parse_bracketed (rest default_port : bytes) : outcome opty_endpoint :=
  match strchr rest RBRACKET with
  | None | Some O => Fail EINVAL
  | Some host_len =>
      host ← dup_or_nomem rest (Z.of_nat host_len);
      match drop (S host_len) rest with
      | [] => Done (Endpoint host default_port)
      | b :: port =>
          if negb (bool_decide (b = COLON)) then Fail EINVAL
          else if bool_decide (port = []) then Fail EINVAL
          else port ← dup_or_nomem port (blen port); Done (Endpoint host port)
      end
  end.

Definition parse_plain (input default_host default_port : bytes) : outcome opty_endpoint :=
  match strchr input COLON with
  | None => Done (Endpoint input default_port)
  | Some first_colon =>
      let after := drop (S first_colon) input in
      if bool_decide (is_Some (strchr after COLON)) then Fail EINVAL
      else
        host ← (if (first_colon =? 0)%nat then Done default_host
                else dup_or_nomem input (Z.of_nat first_colon));
        if bool_decide (after = []) then Fail EINVAL
        else port ← dup_or_nomem after (blen after); Done (Endpoint host port)
  end.

Definition opty_parse_endpoint (input : option bytes) (default_host default_port : bytes)
    : outcome opty_endpoint :=
  match input with
  | None | Some [] => Done (Endpoint default_host default_port)
  | Some (b :: rest) =>
      if decide (b = LBRACKET) then parse_bracketed rest default_port
      else parse_plain (b :: rest) default_host default_port
  end.

End Parse.

(** ** Facts *)

Lemma strchr_spec (s : bytes) (c : byte) :
  match strchr s c with
  | Some k => exists a b, s = a ++ c :: b /\ length a = k /\ c ∉ a
  | None => c ∉ s
  end.
Proof.
  induction s as [|x s IH]; cbn; [by apply not_elem_of_nil|].
  destruct (decide (x = c)) as [->|Hne].
  - exists [], s. split_and!; [done|done|by apply not_elem_of_nil].
  - destruct (strchr s c) as [k|]; cbn.
    + destruct IH as (a&b&->&<-&Ha). exists (x :: a), b. split_and!; [done|done|].
      rewrite not_elem_of_cons. auto.
    + rewrite not_elem_of_cons. auto.
Qed.

Lemma strchr_app (a b : bytes) (c : byte) :
  c ∉ a -> strchr (a ++ c :: b) c = Some (length a).
Proof.
  induction a as [|x a IH]; cbn; intros Ha.
  - by rewrite decide_True.
  - apply not_elem_of_cons in Ha as [? ?]. rewrite decide_False, IH by auto. done.
Qed.

Lemma strchr_none (s : bytes) (c : byte) : strchr s c = None <-> c ∉ s.
Proof.
  pose proof (strchr_spec s c) as H. split; [by intros E; rewrite E in H|].
  intros Hc. destruct (strchr s c); [|done]. destruct H as (a&b&->&_). set_solver.
Qed.

Lemma dup_ok (malloc_ok : Z -> bool) (a b : bytes) :
  dup_or_nomem malloc_ok (a ++ b) (blen a) =
  if malloc_ok (blen a + 1) then Done a else Fail ENOMEM.
Proof.
  unfold dup_or_nomem, opty_dup_range. destruct (malloc_ok _); [cbn [negb]|done].
  rewrite (sub_ok _ 0 (blen a)); [|lia|apply blen_nonneg|].
  - change (Z.to_nat 0) with 0%nat. rewrite drop_0. cbn. unfold blen.
    by rewrite Nat2Z.id, take_app_length.
  - rewrite blen_app. pose proof (blen_nonneg b). lia.
Qed.

Lemma dup_whole (malloc_ok : Z -> bool) (a : bytes) :
  dup_or_nomem malloc_ok a (blen a) = if malloc_ok (blen a + 1) then Done a else Fail ENOMEM.
Proof. rewrite <- (app_nil_r a) at 1. apply dup_ok. Qed.


Lemma drop_past (a b : bytes) (c : byte) : drop (S (length a)) (a ++ c :: b) = b.
Proof. induction a; done. Qed.

(** ** What an endpoint string means

    The six forms; in all but the first the parts that are written are not empty. *)

Section Meaning.

Variables (default_host default_port : bytes).

Inductive denotes : bytes -> opty_endpoint -> Prop :=
| den_empty : denotes [] (Endpoint default_host default_port)
| den_host h :
    h <> [] -> head h <> Some LBRACKET -> COLON ∉ h -> denotes h (Endpoint h default_port)
| den_port p :
    p <> [] -> COLON ∉ p -> denotes (COLON :: p) (Endpoint default_host p)
| den_host_port h p :
    h <> [] -> head h <> Some LBRACKET -> COLON ∉ h -> p <> [] -> COLON ∉ p ->
    denotes (h ++ COLON :: p) (Endpoint h p)
| den_bracket h :
    h <> [] -> RBRACKET ∉ h -> denotes (LBRACKET :: h ++ [RBRACKET]) (Endpoint h default_port)
| den_bracket_port h p :
    h <> [] -> RBRACKET ∉ h -> p <> [] ->
    denotes (LBRACKET :: h ++ RBRACKET :: COLON :: p) (Endpoint h p).

Variable malloc_ok : Z -> bool.

Definition parse (s : bytes) : outcome opty_endpoint :=
  opty_parse_endpoint malloc_ok (Some s) default_host default_port.

Lemma dup_cases (a b : bytes) :
  dup_or_nomem malloc_ok (a ++ b) (blen a) = Done a \/
  (dup_or_nomem malloc_ok (a ++ b) (blen a) = Fail ENOMEM /\ exists n, malloc_ok n = false).
Proof. rewrite dup_ok. destruct (malloc_ok _) eqn:E; eauto. Qed.

Lemma dup_whole_cases (a : bytes) :
  dup_or_nomem malloc_ok a (blen a) = Done a \/
  (dup_or_nomem malloc_ok a (blen a) = Fail ENOMEM /\ exists n, malloc_ok n = false).
Proof. rewrite dup_whole. destruct (malloc_ok _) eqn:E; eauto. Qed.

Lemma bracketed_sound (rest : bytes) :
  match parse_bracketed malloc_ok rest default_port with
  | Done ep => denotes (LBRACKET :: rest) ep
  | Fail e => e = EINVAL \/ exists n, malloc_ok n = false
  | UB => False
  end.
Proof.
  unfold parse_bracketed. pose proof (strchr_spec rest RBRACKET) as Hs.
  destruct (strchr rest RBRACKET) as [[|k]|]; [by left| |by left].
  destruct Hs as (h&b&->&Hk&Ha). rewrite <- Hk.
  change (Z.of_nat (length h)) with (blen h). rewrite drop_past.
  assert (h <> []) as Hne by (by intros ->).
  destruct (dup_cases h (RBRACKET :: b)) as [->|[-> ?]]; cbn [mbind outcome_bind]; [|by right].
  destruct b as [|x p]; [by constructor|].
  case_bool_decide; cbn [negb]; [subst x|by left]. case_bool_decide; [by left|].
  destruct (dup_whole_cases p) as [->|[-> ?]]; cbn; [by constructor|by right].
Qed.

Lemma plain_sound (s : bytes) :
  s <> [] -> head s <> Some LBRACKET ->
  match parse_plain malloc_ok s default_host default_port with
  | Done ep => denotes s ep
  | Fail e => e = EINVAL \/ exists n, malloc_ok n = false
  | UB => False
  end.
Proof.
  intros Hs Hh. unfold parse_plain. pose proof (strchr_spec s COLON) as Hc.
  destruct (strchr s COLON) as [k|]; [|by constructor].
  destruct Hc as (h&p&->&<-&Ha). rewrite drop_past.
  case_bool_decide as Hcolon; [by left|].
  assert (COLON ∉ p) as Hp.
  { apply strchr_none. destruct (strchr p COLON); [|done]. by destruct Hcolon. }
  destruct (Nat.eqb_spec (length h) 0) as [Hz|Hz].
  - apply nil_length_inv in Hz as ->. cbn [mbind outcome_bind]. case_bool_decide; [by left|].
    destruct (dup_whole_cases p) as [->|[-> ?]]; cbn; [by constructor|by right].
  - change (Z.of_nat (length h)) with (blen h).
    destruct (dup_cases h (COLON :: p)) as [->|[-> ?]]; cbn [mbind outcome_bind]; [|by right].
    case_bool_decide; [by left|].
    destruct (dup_whole_cases p) as [->|[-> ?]]; cbn; [|by right].
    assert (h <> []) by (by intros ->). constructor; try done.
    by destruct h.
Qed.

Lemma parse_sound (s : bytes) :
  match parse s with
  | Done ep => denotes s ep
  | Fail e => e = EINVAL \/ exists n, malloc_ok n = false
  | UB => False
  end.
Proof.
  destruct s as [|b rest]; [constructor|]. unfold parse; cbn [opty_parse_endpoint].
  destruct (decide (b = LBRACKET)) as [->|Hb]; [apply bracketed_sound|].
  apply plain_sound; [done|]. cbn. congruence.
Qed.

Hypothesis malloc_total : forall n, malloc_ok n = true.

Lemma dup_total (a b : bytes) : dup_or_nomem malloc_ok (a ++ b) (blen a) = Done a.
Proof. by rewrite dup_ok, malloc_total. Qed.

Lemma dup_whole_total (a : bytes) : dup_or_nomem malloc_ok a (blen a) = Done a.
Proof. by rewrite dup_whole, malloc_total. Qed.

Lemma bracketed_complete (h b : bytes) :
  h <> [] -> RBRACKET ∉ h ->
  parse_bracketed malloc_ok (h ++ RBRACKET :: b) default_port =
  match b with
  | [] => Done (Endpoint h default_port)
  | x :: p => if negb (bool_decide (x = COLON)) then Fail EINVAL
              else if bool_decide (p = []) then Fail EINVAL else Done (Endpoint h p)
  end.
Proof.
  intros Hh Hr. unfold parse_bracketed. rewrite strchr_app by done.
  destruct (length h) as [|k] eqn:Hk; [by destruct h|]. rewrite <- Hk, drop_past.
  change (Z.of_nat (length h)) with (blen h). rewrite dup_total. cbn [mbind outcome_bind].
  destruct b as [|x p]; [done|]. by rewrite dup_whole_total.
Qed.

Lemma plain_complete (h p : bytes) :
  COLON ∉ h -> COLON ∉ p -> p <> [] ->
  parse_plain malloc_ok (h ++ COLON :: p) default_host default_port =
  Done (Endpoint (if decide (h = []) then default_host else h) p).
Proof.
  intros Hh Hp Hne. unfold parse_plain. rewrite strchr_app, drop_past by done.
  rewrite bool_decide_false by (rewrite (proj2 (strchr_none p COLON)) by done; by intros [? ?]).
  destruct (Nat.eqb_spec (length h) 0) as [Hz|Hz].
  - apply nil_length_inv in Hz as ->. cbn [mbind outcome_bind].
    rewrite bool_decide_false, dup_whole_total by done. done.
  - change (Z.of_nat (length h)) with (blen h). rewrite dup_total. cbn [mbind outcome_bind].
    rewrite bool_decide_false, dup_whole_total by done. cbn.
    by rewrite decide_False by (by intros ->).
Qed.

Lemma parse_plain_first (s : bytes) :
  s <> [] -> head s <> Some LBRACKET -> parse s = parse_plain malloc_ok s default_host default_port.
Proof.
  intros Hs Hh. destruct s as [|b rest]; [done|]. unfold parse; cbn [opty_parse_endpoint].
  rewrite decide_False; [done|]. cbn in Hh. congruence.
Qed.

Lemma parse_complete (s : bytes) (ep : opty_endpoint) : denotes s ep -> parse s = Done ep.
Proof.
  destruct 1 as [|h Hn Hh Hc|p Hn Hc|h p Hn Hh Hc Hp Hcp|h Hn Hr|h p Hn Hr Hp].
  - done.
  - rewrite parse_plain_first by done. unfold parse_plain. by rewrite (proj2 (strchr_none h COLON)).
  - rewrite parse_plain_first by done.
    exact (plain_complete [] p (not_elem_of_nil _) Hc Hn).
  - rewrite parse_plain_first; [|by destruct h|by destruct h].
    rewrite plain_complete by done. by rewrite decide_False.
  - unfold parse; cbn [opty_parse_endpoint]. rewrite decide_True by done. by rewrite bracketed_complete.
  - unfold parse; cbn [opty_parse_endpoint]. rewrite decide_True by done. rewrite bracketed_complete by done.
    by rewrite bool_decide_true, bool_decide_false.
Qed.

End Meaning.

(** ** Properties *)

(** The parser stays inside its argument, on every string. *)
Lemma parse_endpoint_defined (malloc_ok : Z -> bool) (s : option bytes) (h p : bytes) :
  safe (opty_parse_endpoint malloc_ok s h p).
Proof.
  assert (forall (x : bytes) n, 0 <= n <= blen x -> dup_or_nomem malloc_ok x n <> UB) as Hdup.
  { intros x n Hn. unfold dup_or_nomem, opty_dup_range. destruct (negb _); [done|].
    rewrite sub_ok by lia. done. }
  assert (forall (x : bytes) c k, strchr x c = Some k -> (k < length x)%nat) as Hchr.
  { intros x c. induction x as [|b x IH]; intros k H; [done|]. cbn in H |- *.
    case_match; [simplify_eq; lia|]. destruct (strchr x c) as [j|]; [|done]. cbn in H. simplify_eq.
    specialize (IH j eq_refl). lia. }
  unfold safe, opty_parse_endpoint. destruct s as [[|b rest]|]; [done| |done].
  case_decide.
  - unfold parse_bracketed. destruct (strchr rest RBRACKET) as [[|n]|] eqn:E; [done| |done].
    apply Hchr in E. pose proof (Hdup rest (Z.of_nat (S n)) ltac:(unfold blen; lia)).
    destruct (dup_or_nomem _ _ _); cbn; [|done..].
    destruct (drop (S (S n)) rest) as [|c q]; [done|]. repeat (case_match; [done|]).
    pose proof (Hdup q (blen q) ltac:(pose proof (blen_nonneg q); lia)). by destruct (dup_or_nomem _ _ _).
  - unfold parse_plain. destruct (strchr (b :: rest) COLON) as [n|] eqn:E; [|done].
    apply Hchr in E. case_match; [done|].
    assert ((if (n =? 0)%nat then Done h else dup_or_nomem malloc_ok (b :: rest) (Z.of_nat n)) <> UB) as Hh.
    { case_match; [done|]. apply Hdup. unfold blen. lia. }
    destruct (if (n =? 0)%nat then _ else _); cbn; [|done..]. case_match; [done|].
    pose proof (blen_nonneg (drop n rest)).
    pose proof (Hdup (drop n rest) (blen (drop n rest)) ltac:(lia)). by destruct (dup_or_nomem _ _ _).
Qed.

(** [C38] The parser accepts exactly the six documented forms ("", "host", ":port",
    "host:port", "[host]", "[host]:port", nothing empty), with the parts they
    denote; everything else is EINVAL, and the copies stay inside the input. *)
Theorem parse_endpoint_exact (malloc_ok : Z -> bool) (default_host default_port s : bytes) :
  (forall n, malloc_ok n = true) ->
  (forall ep, opty_parse_endpoint malloc_ok (Some s) default_host default_port = Done ep <->
              denotes default_host default_port s ep) /\
  ((forall ep, ~ denotes default_host default_port s ep) ->
   opty_parse_endpoint malloc_ok (Some s) default_host default_port = Fail EINVAL).
Proof.
  intros Hm. pose proof (parse_sound default_host default_port malloc_ok s) as Hs.
  split.
  - intros ep. split; [intros H; unfold parse in Hs; by rewrite H in Hs|by apply parse_complete].
  - intros Hn. unfold parse in Hs.
    destruct (opty_parse_endpoint _ _ _ _) as [ep|e|]; [by destruct (Hn ep)| |done].
    destruct Hs as [->|[n Hf]]; [done|]. by rewrite Hm in Hf.
Qed.

Lemma parse_endpoint_exact_witness :
  let parse := opty_parse_endpoint (fun _ => true) (Some (cstr "[::1]:7000"))
                 (cstr "127.0.0.1") (cstr "7777") in
  (forall ep, parse = Done ep <-> denotes (cstr "127.0.0.1") (cstr "7777") (cstr "[::1]:7000") ep) /\
  ((forall ep, ~ denotes (cstr "127.0.0.1") (cstr "7777") (cstr "[::1]:7000") ep) ->
   parse = Fail EINVAL).
Proof.
  apply (parse_endpoint_exact (fun _ => true) (cstr "127.0.0.1") (cstr "7777")
           (cstr "[::1]:7000")). done.
Defined.

Example parse_v6 :
  opty_parse_endpoint (fun _ => true) (Some (cstr "[::1]:7000")) (cstr "localhost") (cstr "1") =
  Done (Endpoint (cstr "::1") (cstr "7000")).
Proof. reflexivity. Qed.

Example parse_bare_v6 :
  opty_parse_endpoint (fun _ => true) (Some (cstr "::1")) (cstr "localhost") (cstr "1") = Fail EINVAL.
Proof. reflexivity. Qed.
