(* ===== verification/Text.v ===== *)
(** * C strings and numbers of the client (src/src/client.c)

    [strtoul], decimal printing, lines of a file; then the small string functions of
    client.c: session names, numeric sessions, escaping, graceful input, tokens. *)

From Stdlib Require Import DecimalString.
From stdpp Require Import sets.
From S2P Require Import Prelude.
From S2P Require Import Io.
From S2P Require Import Wire.
From S2P Require Import Endpoint.

(** ** The standard library *)

Definition between (lo hi : Z) (b : byte) : bool := (lo <=? b2z b) && (b2z b <=? hi).

Definition is_digit (b : byte) : bool := between 48 57 b.
Definition isspace (b : byte) : bool := (b2z b =? 32) || between 9 13 b.

Definition ULONG_MAX : Z := 2 ^ 64 - 1.

(** [printf("%lu")] and ["%zu"]. *)
Definition print_dec (n : Z) : bytes := cstr (NilZero.string_of_uint (N.to_uint (Z.to_N n))).

(** The digits at the front of [s]: their value and what follows. *)
Fixpoint scan_digits (s : bytes) (acc : Z) : Z * bytes :=
  match s with
  | b :: rest => if is_digit b then scan_digits rest (acc * 10 + (b2z b - 48)) else (acc, s)
  | [] => (acc, [])
  end.

Fixpoint skip_spaces (s : bytes) : bytes :=
  match s with
  | b :: rest => if isspace b then skip_spaces rest else s
  | [] => []
  end.

Record strtoul_result := Strtoul {
  ul_value : Z;
  ul_end : bytes;          (* what *endptr points to *)
  ul_converted : bool;     (* endptr is not the start *)
  ul_erange : bool
}.

(** [strtoul(s, &end, 10)]: leading blanks, an optional sign, digits; a minus sign
    negates in the unsigned type. *)
Definition strtoul (s : bytes) : strtoul_result :=
  let s1 := skip_spaces s in
  let neg := match s1 with b :: _ => b2z b =? 45 | [] => false end in
  let s2 := match s1 with b :: rest => if (b2z b =? 45) || (b2z b =? 43) then rest else s1 | [] => [] end in
  match s2 with
  | b :: _ =>
      if is_digit b then
        let '(v, rest) := scan_digits s2 0 in
        if ULONG_MAX <? v then Strtoul ULONG_MAX rest true true
        else Strtoul (if neg then u64 (- v) else v) rest true false
      else Strtoul 0 s false false
  | [] => Strtoul 0 s false false
  end.

(** [getline]: the lines of a file, each with its newline if it has one. *)
Fixpoint lines (text : bytes) : list bytes :=
  match text with
  | [] => []
  | b :: rest =>
      if decide (b = Byte.x0a) then [b] :: lines rest
      else match lines rest with
           | [] => [[b]]
           | l :: ls => (b :: l) :: ls
           end
  end.

(** A buffer as the string functions see it. *)
Fixpoint c_string (line : bytes) : bytes :=
  match line with
  | [] => []
  | b :: rest => if decide (b = Byte.x00) then [] else b :: c_string rest
  end.

(** ** Session names and numbers *)

Definition OPTY_SESSION_MAX_NAME : Z := 96.
Definition OPTY_SESSION_PORT_BASE : Z := 6077.
Definition OPTY_DEFAULT_HOST : bytes := cstr "127.0.0.1".
Definition OPTY_DEFAULT_PORT : bytes := cstr "6077".

Definition opty_is_decimal (value : option bytes) : bool :=
  match value with
  | None | Some [] => false
  | Some s => forallb is_digit s
  end.

Definition name_char (b : byte) : bool :=
  between 65 90 b || between 97 122 b || between 48 57 b ||
  (b2z b =? 95) || (b2z b =? 45) || (b2z b =? 46).

Definition opty_is_session_name (value : option bytes) : bool :=
  match value with
  | None | Some [] => false
  | Some ((b :: _) as s) =>
      if b2z b =? 45 then false
      else if (OPTY_SESSION_MAX_NAME <? blen s) || bool_decide (s = cstr ".") ||
              bool_decide (s = cstr "..") then false
      else forallb name_char s
  end.

Definition opty_numeric_session_endpoint (session : option bytes) (port_cap : Z)
    : outcome opty_endpoint :=
  if negb (opty_is_decimal session) then Fail EINVAL
  else
    let r := strtoul (default [] session) in
    if ul_erange r || negb (ul_converted r) || negb (bool_decide (ul_end r = [])) ||
       (ul_value r =? 0) then Fail EINVAL
    else
      let port := u64 (u64 (OPTY_SESSION_PORT_BASE + ul_value r) - 1) in
      if 65535 <? port then Fail EINVAL
      else if port_cap <=? blen (print_dec port) then Fail ENOSPC
      else Done (Endpoint OPTY_DEFAULT_HOST (print_dec port)).

(** ** Paths *)

(** [snprintf(buf, cap, ...)] with the caller's test for truncation. *)
Definition snprintf_fit (cap : Z) (s : bytes) : outcome bytes :=
  if cap <=? blen s then Fail ENOSPC else Done s.

(** [home] is [getenv("HOME")]. *)
Definition home_path (home : option bytes) (suffix : bytes) (cap : Z) : outcome bytes :=
  match home with
  | None | Some [] => Fail ENOENT
  | Some h => snprintf_fit cap (h ++ suffix)
  end.

Definition opty_session_root (home : option bytes) (cap : Z) : outcome bytes :=
  home_path home (cstr "/.0pty") cap.
Definition opty_session_dir (home : option bytes) (cap : Z) : outcome bytes :=
  home_path home (cstr "/.0pty/sessions") cap.
Definition opty_log_dir (home : option bytes) (cap : Z) : outcome bytes :=
  home_path home (cstr "/.0pty/logs") cap.

Definition opty_session_path (home session : option bytes) (cap : Z) : outcome bytes :=
  if negb (opty_is_session_name session) then Fail EINVAL
  else dir ← opty_session_dir home 512;
       snprintf_fit cap (dir ++ cstr "/" ++ default [] session ++ cstr ".session").

Definition opty_session_log_path (home session : option bytes) (cap : Z) : outcome bytes :=
  if negb (opty_is_session_name session) then Fail EINVAL
  else dir ← opty_log_dir home 512;
       snprintf_fit cap (dir ++ cstr "/" ++ default [] session ++ cstr ".log").

(** ** Lines *)

(** [opty_chomp], on the reversed line. *)
Fixpoint chomp_rev (line : bytes) : bytes :=
  match line with
  | b :: rest => if decide (b = Byte.x0a \/ b = Byte.x0d) then chomp_rev rest else line
  | [] => []
  end.

Definition opty_chomp (line : bytes) : bytes := reverse (chomp_rev (reverse line)).

(** ** The control token *)

Definition OPTY_CONTROL_TOKEN_BYTES : Z := 32.

Definition hex_digit (v : Z) : byte :=
  nth (Z.to_nat v) (cstr "0123456789abcdef") Byte.x00.

Definition hex_byte (b : byte) : bytes :=
  [hex_digit (Z.land (Z.shiftr (b2z b) 4) 15); hex_digit (Z.land (b2z b) 15)].

(** The stream is /dev/urandom. *)
Definition opty_generate_control_token (cap : Z) : io bytes := fun s =>
  if cap <? OPTY_CONTROL_TOKEN_BYTES * 2 + 1 then (Fail ENOSPC, s)
  else match opty_read_full OPTY_CONTROL_TOKEN_BYTES s with
       | (Done bs, s') =>
           if negb (blen bs =? OPTY_CONTROL_TOKEN_BYTES) then (Fail EOTHER, s')
           else (Done (concat (hex_byte <$> bs)), s')
       | (Fail e, s') => (Fail e, s')
       | (UB, s') => (UB, s')
       end.

(** ** Escaping *)

Definition BACKSLASH : byte := Byte.x5c.

(** The letter that stands for an escaped byte. *)
Definition escape_letter (b : byte) : option byte :=
  if decide (b = Byte.x0a) then Some Byte.x6e
  else if decide (b = Byte.x0d) then Some Byte.x72
  else if decide (b = Byte.x09) then Some Byte.x74
  else if decide (b = BACKSLASH) then Some BACKSLASH
  else None.

Fixpoint escape_bytes (value : bytes) : bytes :=
  match value with
  | [] => []
  | b :: rest =>
      match escape_letter b with
      | Some l => BACKSLASH :: l :: escape_bytes rest
      | None => b :: escape_bytes rest
      end
  end.

Definition opty_escape_session_value (malloc_ok : Z -> bool) (value : bytes) : outcome bytes :=
  if (SIZE_MAX - 1) / 2 <? blen value then Fail EOVERFLOW
  else if negb (malloc_ok (blen value * 2 + 1)) then Fail ENOMEM
  else Done (escape_bytes value).

(** What an escape letter stands for. *)
Definition unescape_letter (l : byte) : option byte :=
  if decide (l = Byte.x6e) then Some Byte.x0a
  else if decide (l = Byte.x72) then Some Byte.x0d
  else if decide (l = Byte.x74) then Some Byte.x09
  else if decide (l = BACKSLASH) then Some BACKSLASH
  else None.

(** An unknown escape is kept as it is; so is a backslash at the end. *)
Fixpoint decode_bytes (value : bytes) : bytes :=
  match value with
  | [] => []
  | b :: rest =>
      if decide (b = BACKSLASH) then
        match rest with
        | [] => [b]
        | l :: rest' =>
            match unescape_letter l with
            | Some c => c :: decode_bytes rest'
            | None => BACKSLASH :: l :: decode_bytes rest'
            end
        end
      else b :: decode_bytes rest
  end.

Definition opty_decode_session_value (malloc_ok : Z -> bool) (value : bytes) : outcome bytes :=
  if negb (malloc_ok (blen value + 1)) then Fail ENOMEM else Done (decode_bytes value).

(** [opty_decode_graceful_input]: strict, into a buffer of [cap] bytes; [len] bytes
    were stored. *)
Fixpoint decode_graceful (value : bytes) (cap len : Z) : outcome bytes :=
  match value with
  | [] => Done []
  | b :: rest =>
      if decide (b = BACKSLASH) then
        match rest with
        | [] => Fail EINVAL
        | l :: rest' =>
            match unescape_letter l with
            | Some c =>
                if len =? cap then Fail EMSGSIZE
                else out ← decode_graceful rest' cap (len + 1); Done (c :: out)
            | None => Fail EINVAL
            end
        end
      else if len =? cap then Fail EMSGSIZE
      else out ← decode_graceful rest cap (len + 1); Done (b :: out)
  end.

Definition opty_decode_graceful_input (value : bytes) (cap : Z) : outcome bytes :=
  decode_graceful value cap 0.

(** ** Program paths *)

(** [strrchr(s, '/')]: what stands before the last slash. *)
Fixpoint before_last_slash (s : bytes) : option bytes :=
  match s with
  | [] => None
  | b :: rest =>
      match before_last_slash rest with
      | Some d => Some (b :: d)
      | None => if decide (b = Byte.x2f) then Some [] else None
      end
  end.

Definition opty_server_path (malloc_ok : Z -> bool) (client_path : option bytes) : option bytes :=
  match before_last_slash (default [] client_path) with
  | None => if malloc_ok 12 then Some (cstr "0pty-server") else None
  | Some dir =>
      if malloc_ok (blen dir + 1 + 12) then Some (dir ++ cstr "/" ++ cstr "0pty-server") else None
  end.

(** ** Facts *)

Lemma unescape_escape (b l : byte) : escape_letter b = Some l -> unescape_letter l = Some b.
Proof.
  unfold escape_letter. repeat (case_decide; [intros [= <-]; by subst|]). done.
Qed.

Lemma escape_letter_clean (b l : byte) :
  escape_letter b = Some l -> l <> Byte.x0a /\ l <> Byte.x0d /\ l <> Byte.x09 /\ l <> Byte.x00.
Proof. unfold escape_letter. repeat (case_decide; [by intros [= <-]|]). done. Qed.

Lemma escape_none (b : byte) :
  escape_letter b = None -> b <> Byte.x0a /\ b <> Byte.x0d /\ b <> Byte.x09 /\ b <> BACKSLASH.
Proof. unfold escape_letter. repeat (case_decide; [done|]). auto. Qed.

Lemma decode_escape (v : bytes) : decode_bytes (escape_bytes v) = v.
Proof.
  induction v as [|b v IH]; [done|]. cbn [escape_bytes].
  destruct (escape_letter b) as [l|] eqn:E.
  - cbn [decode_bytes]. rewrite decide_True by done.
    by rewrite (unescape_escape _ _ E), IH.
  - destruct (escape_none _ E) as (_&_&_&?). cbn [decode_bytes]. by rewrite decide_False, IH.
Qed.

(** A byte that ends a line, or ends the string. *)
Definition line_clean (s : bytes) : Prop := (Byte.x0a ∉ s) /\ (Byte.x0d ∉ s).

Lemma escape_clean (v : bytes) : line_clean (escape_bytes v) /\ (Byte.x00 ∉ v -> Byte.x00 ∉ escape_bytes v).
Proof.
  unfold line_clean. induction v as [|b v [[IHn IHr] IHz]]; cbn [escape_bytes].
  { split_and!; set_solver. }
  destruct (escape_letter b) as [l|] eqn:E.
  - destruct (escape_letter_clean _ _ E) as (?&?&?&?).
    rewrite !not_elem_of_cons. unfold BACKSLASH. split_and!; try done; auto.
    intros [_ ?]. split_and!; auto; done.
  - destruct (escape_none _ E) as (?&?&?&?). rewrite !not_elem_of_cons.
    split_and!; auto. intros []. auto.
Qed.

Lemma escape_length (v : bytes) : blen v <= blen (escape_bytes v) <= 2 * blen v.
Proof.
  unfold blen. induction v as [|b v IH]; cbn [escape_bytes length]; [lia|].
  destruct (escape_letter b); cbn [length]; lia.
Qed.

Lemma decode_graceful_escape (v : bytes) (cap len : Z) :
  len <= cap ->
  decode_graceful (escape_bytes v) cap len =
  if len + blen v <=? cap then Done v else Fail EMSGSIZE.
Proof.
  revert len. induction v as [|b v IH]; intros len Hl.
  { change (blen []) with 0. rewrite Z.add_0_r. by destruct (Z.leb_spec len cap); [|lia]. }
  assert (forall (o : outcome bytes), (len <> cap -> o = out ← decode_graceful (escape_bytes v) cap (len + 1); Done (b :: out)) ->
    (len = cap -> o = Fail EMSGSIZE) ->
    o = if len + blen (b :: v) <=? cap then Done (b :: v) else Fail EMSGSIZE) as Hstep.
  { intros o H1 H2. unfold blen. simpl length.
    destruct (Z.eq_dec len cap) as [->|Hne].
    - rewrite H2 by done. destruct (Z.leb_spec (cap + Z.of_nat (S (length v))) cap); [lia|done].
    - rewrite H1, IH by (done || lia). unfold blen.
      destruct (Z.leb_spec (len + 1 + Z.of_nat (length v)) cap),
        (Z.leb_spec (len + Z.of_nat (S (length v))) cap); try lia; done. }
  apply Hstep; clear Hstep; intros Hc; cbn [escape_bytes];
    (destruct (escape_letter b) as [l|] eqn:E; cbn [decode_graceful];
     [rewrite decide_True, (unescape_escape _ _ E) by done
     |destruct (escape_none _ E) as (_&_&_&?); rewrite decide_False by done]);
    destruct (Z.eqb_spec len cap); done.
Qed.

Lemma decode_graceful_bound (value : bytes) (cap len : Z) (out : bytes) :
  decode_graceful value cap len = Done out -> len <= cap -> len + blen out <= cap.
Proof.
  revert len out. induction value as [value IH] using (induction_ltof1 _ length).
  intros len out H Hl. destruct value as [|b rest]; cbn in H.
  { simplify_eq. unfold blen. simpl. lia. }
  assert (forall r o' c, ltof _ length r (b :: rest) ->
    (if len =? cap then Fail EMSGSIZE else out ← decode_graceful r cap (len + 1); Done (c :: out)) = Done o' ->
    len + blen o' <= cap) as Hk.
  { intros r o' c Hr Ho. destruct (Z.eqb_spec len cap); [done|].
    destruct (decode_graceful r cap (len + 1)) as [o|e|] eqn:E; cbn in Ho; simplify_eq.
    apply IH in E; [|done|lia]. unfold blen in *. simpl length. lia. }
  destruct (decide (b = BACKSLASH)).
  - destruct rest as [|l rest']; [done|]. destruct (unescape_letter l); [|done].
    eapply Hk; [|done]. unfold ltof. simpl. lia.
  - eapply Hk; [|done]. unfold ltof. simpl. lia.
Qed.

(** ** Properties *)

(** Escaping protects any string: what is written has no newline and no carriage
    return, is at most twice as long, and decoding gives the string back; the same
    text read as graceful input is the string too, when it fits. *)
Theorem escape_roundtrip (malloc_ok : Z -> bool) (v e : bytes) (cap : Z) :
  (forall n, malloc_ok n = true) -> 0 <= cap ->
  opty_escape_session_value malloc_ok v = Done e ->
  line_clean e /\ blen e <= 2 * blen v /\ opty_decode_session_value malloc_ok e = Done v /\
  opty_decode_graceful_input e cap = (if blen v <=? cap then Done v else Fail EMSGSIZE).
Proof.
  intros Hm Hcap. unfold opty_escape_session_value. destruct (_ <? blen v); [done|].
  rewrite Hm. intros [= <-]. split_and!; try apply escape_clean; [apply escape_length| |].
  - unfold opty_decode_session_value. by rewrite Hm, decode_escape.
  - unfold opty_decode_graceful_input. by apply (decode_graceful_escape v cap 0).
Qed.

Lemma escape_roundtrip_witness :
  let v := cstr "a\b" ++ [Byte.x0a; Byte.x09] in
  let e := cstr "a\\b\n\t" in
  line_clean e /\ blen e <= 2 * blen v /\
  opty_decode_session_value (fun _ => true) e = Done v /\
  opty_decode_graceful_input e 4 = (if blen v <=? 4 then Done v else Fail EMSGSIZE).
Proof. apply (escape_roundtrip (fun _ => true)); [done|lia|reflexivity]. Defined.

(** Graceful input never overflows its buffer, whatever the session file says, and the
    default value decodes to a line. *)
Lemma graceful_input_bounded (value out : bytes) (cap : Z) :
  0 <= cap -> opty_decode_graceful_input value cap = Done out -> blen out <= cap.
Proof. intros Hc H. apply decode_graceful_bound in H; [|done]. lia. Qed.

Example graceful_default :
  opty_decode_graceful_input (cstr "/exit\n") 4096 = Done (cstr "/exit" ++ [Byte.x0a]).
Proof. reflexivity. Qed.

(** ** Names and paths *)

Lemma name_char_not_slash (b : byte) : name_char b = true -> b <> Byte.x2f /\ b <> Byte.x0a /\
  b <> Byte.x0d /\ b <> Byte.x00.
Proof. intros H. split_and!; intros ->; vm_compute in H; discriminate. Qed.

Lemma session_name_spec (s : bytes) :
  opty_is_session_name (Some s) = true ->
  s <> [] /\ s <> cstr "." /\ s <> cstr ".." /\ blen s <= OPTY_SESSION_MAX_NAME /\
  (Byte.x2f ∉ s) /\ (Byte.x00 ∉ s) /\ line_clean s /\ head s <> Some Byte.x2d.
Proof.
  destruct s as [|b s]; [done|]. cbn [opty_is_session_name].
  destruct (Z.eqb_spec (b2z b) 45) as [|Hdash]; [done|].
  destruct (Z.ltb_spec OPTY_SESSION_MAX_NAME (blen (b :: s))); [done|]. cbn [orb].
  case_bool_decide; [done|]. case_bool_decide; [done|]. cbn [orb]. intros Hall.
  assert (forall x, name_char x = false -> x ∉ b :: s) as Hno.
  { intros x Hx Hin. rewrite forallb_forall in Hall.
    specialize (Hall x). rewrite Hall in Hx; [done|]. by apply list_elem_of_In. }
  split_and!; try done; try (by apply Hno); [split; by apply Hno|].
  cbn. intros [= ->]. by apply Hdash.
Qed.

(** [C39] A session name never leads out of the session directory: the paths of its
    session file and its log are one component below $HOME/.0pty/sessions and
    $HOME/.0pty/logs, and fit their buffers; every other name is refused. *)
Theorem session_paths_contained (home : bytes) (session : option bytes) (cap : Z) (p : bytes) :
  opty_session_path (Some home) session cap = Done p ->
  exists name, session = Some name /\
    p = home ++ cstr "/.0pty/sessions/" ++ name ++ cstr ".session" /\ blen p < cap /\
    (Byte.x2f ∉ name ++ cstr ".session") /\ name <> [] /\ blen name <= OPTY_SESSION_MAX_NAME /\
    (opty_session_log_path (Some home) session cap = Fail ENOSPC \/
     opty_session_log_path (Some home) session cap =
       Done (home ++ cstr "/.0pty/logs/" ++ name ++ cstr ".log")).
Proof.
  unfold opty_session_path, opty_session_log_path, opty_session_dir, opty_log_dir, home_path.
  destruct session as [name|]; [|done].
  destruct (opty_is_session_name (Some name)) eqn:Hn; [cbn [negb]|done].
  apply session_name_spec in Hn as (Hne&_&_&Hlen&Hslash&_).
  destruct home as [|h home]; [done|]. set (hm := h :: home).
  change (default [] (Some name)) with name.
  assert (forall cap s p, snprintf_fit cap s = Done p -> p = s /\ blen s < cap) as Hfit.
  { intros k s q. unfold snprintf_fit. destruct (Z.leb_spec k (blen s)); [done|].
    intros [= <-]. auto. }
  assert (forall cap s, snprintf_fit cap s = Fail ENOSPC \/ snprintf_fit cap s = Done s) as Hcases.
  { intros k s. unfold snprintf_fit. destruct (k <=? blen s); auto. }
  destruct (snprintf_fit 512 (hm ++ cstr "/.0pty/sessions")) as [dir| |] eqn:Ed;
    cbn [mbind outcome_bind]; [|done..].
  apply Hfit in Ed as [-> _]. intros [-> Hb]%Hfit. exists name.
  replace ((hm ++ cstr "/.0pty/sessions") ++ cstr "/" ++ name ++ cstr ".session")
    with (hm ++ cstr "/.0pty/sessions/" ++ name ++ cstr ".session") in *
    by (by rewrite <- app_assoc).
  split_and!; try done.
  - rewrite not_elem_of_app. split; [done|]. by apply (bool_decide_unpack _).
  - destruct (Hcases 512 (hm ++ cstr "/.0pty/logs")) as [->| ->];
      cbn [mbind outcome_bind]; [by left|].
    destruct (Hcases cap ((hm ++ cstr "/.0pty/logs") ++ cstr "/" ++ name ++ cstr ".log"))
      as [->| ->]; [by left|right]. by rewrite <- app_assoc.
Qed.

Lemma session_paths_contained_witness :
  let p := cstr "/home/u/.0pty/sessions/work.session" in
  exists name, Some (cstr "work") = Some name /\
    p = cstr "/home/u" ++ cstr "/.0pty/sessions/" ++ name ++ cstr ".session" /\ blen p < 1024 /\
    (Byte.x2f ∉ name ++ cstr ".session") /\ name <> [] /\ blen name <= OPTY_SESSION_MAX_NAME /\
    (opty_session_log_path (Some (cstr "/home/u")) (Some (cstr "work")) 1024 = Fail ENOSPC \/
     opty_session_log_path (Some (cstr "/home/u")) (Some (cstr "work")) 1024 =
       Done (cstr "/home/u" ++ cstr "/.0pty/logs/" ++ name ++ cstr ".log")).
Proof.
  apply (session_paths_contained (cstr "/home/u") (Some (cstr "work")) 1024). reflexivity.
Defined.

(** ** Numeric sessions *)

Lemma digit_not_space (b : byte) : is_digit b = true ->
  isspace b = false /\ (b2z b =? 45) = false /\ (b2z b =? 43) = false.
Proof.
  unfold is_digit, isspace, between. rewrite andb_true_iff, !Z.leb_le. intros [H1 H2].
  split_and!; [|apply Z.eqb_neq; lia..].
  apply orb_false_iff. split; [apply Z.eqb_neq; lia|].
  apply andb_false_iff. right. apply Z.leb_gt. lia.
Qed.

Lemma scan_all_digits (s : bytes) (acc : Z) :
  forallb is_digit s = true -> 0 <= acc ->
  exists v, scan_digits s acc = (v, []) /\ acc <= v.
Proof.
  revert acc. induction s as [|b s IH]; intros acc Hs Ha; cbn in *; [exists acc; auto with lia|].
  apply andb_true_iff in Hs as [Hb Hs]. rewrite Hb.
  unfold is_digit, between in Hb. rewrite andb_true_iff, !Z.leb_le in Hb.
  destruct (IH (acc * 10 + (b2z b - 48)) Hs) as (v&->&?); [lia|]. exists v. split; [done|lia].
Qed.

(** The value of a decimal string. *)
Definition decimal_value (s : bytes) : Z := fst (scan_digits s 0).

Lemma strtoul_decimal (s : bytes) :
  opty_is_decimal (Some s) = true ->
  0 <= decimal_value s /\
  strtoul s = if ULONG_MAX <? decimal_value s then Strtoul ULONG_MAX [] true true
              else Strtoul (decimal_value s) [] true false.
Proof.
  unfold decimal_value. destruct s as [|b s]; [done|]. intros H. cbn [opty_is_decimal] in H.
  destruct (scan_all_digits (b :: s) 0 H) as (v&Hv&?); [lia|]. rewrite Hv. split; [done|].
  assert (is_digit b = true) as Hb by (cbn in H; by apply andb_true_iff in H as [? _]).
  destruct (digit_not_space b Hb) as (H1&H2&H3).
  unfold strtoul. cbn [skip_spaces]. rewrite H1, H2, H3. cbn [orb]. rewrite Hb, Hv. done.
Qed.

Lemma decimal_not_decimal (s : bytes) (cap : Z) :
  opty_is_decimal (Some s) = false -> opty_numeric_session_endpoint (Some s) cap = Fail EINVAL.
Proof. unfold opty_numeric_session_endpoint. by intros ->. Qed.

(** Checking a property of the integers from [z] on, one by one. *)
Fixpoint all_from (n : nat) (z : Z) (p : Z -> bool) : bool :=
  match n with
  | O => true
  | S n' => p z && all_from n' (z + 1) p
  end.

Lemma all_from_spec (n : nat) (z : Z) (p : Z -> bool) (i : Z) :
  all_from n z p = true -> z <= i < z + Z.of_nat n -> p i = true.
Proof.
  revert z. induction n as [|n IH]; intros z H Hi; [lia|]. cbn in H.
  apply andb_true_iff in H as [Hz H]. destruct (Z.eq_dec i z) as [->|]; [done|].
  apply (IH (z + 1)); [done|lia].
Qed.

Lemma print_port_length (n : Z) : 0 <= n <= 65535 -> blen (print_dec n) <= 5.
Proof.
  intros Hn. apply Z.leb_le.
  apply (all_from_spec (Z.to_nat 65536) 0 (fun n => blen (print_dec n) <=? 5)); [|lia].
  vm_compute. reflexivity.
Qed.

(** A numeric session name [n] stands for port 6076 + n on the default host, for
    1 <= n <= 59459; 0, numbers past the last port and numbers that do not fit
    [unsigned long] are refused.  The exception is the top of the range: the sum is
    computed in [unsigned long], so the 6076 numbers from 2^64 - 6076 on wrap around
    to the ports 0 to 6075 and are accepted. *)
Theorem numeric_session_ports (s : bytes) :
  opty_is_decimal (Some s) = true ->
  let n := decimal_value s in
  let r := opty_numeric_session_endpoint (Some s) 16 in
  (1 <= n <= 59459 -> r = Done (Endpoint OPTY_DEFAULT_HOST (print_dec (6076 + n)))) /\
  (n = 0 \/ 59459 < n < 2 ^ 64 - 6076 \/ 2 ^ 64 <= n -> r = Fail EINVAL) /\
  (2 ^ 64 - 6076 <= n < 2 ^ 64 ->
   r = Done (Endpoint OPTY_DEFAULT_HOST (print_dec (n + 6076 - 2 ^ 64)))).
Proof.
  intros Hs n r. destruct (strtoul_decimal s Hs) as [Hn Hul]. fold n in Hn, Hul.
  assert (forall port, 0 <= port <= 65535 -> (16 <=? blen (print_dec port)) = false) as Hlen.
  { intros port Hp. apply Z.leb_gt. pose proof (print_port_length port Hp). lia. }
  unfold r, opty_numeric_session_endpoint. rewrite Hs. cbn [negb].
  change (default [] (Some s)) with s. rewrite Hul. clear r Hul. clearbody n.
  destruct (Z.ltb_spec ULONG_MAX n) as [Hbig|Hsmall]; cbn [ul_erange ul_converted ul_end ul_value];
    unfold ULONG_MAX in *.
  { split_and!; [lia|done|lia]. }
  rewrite bool_decide_true by done. cbn [orb negb].
  destruct (Z.eqb_spec n 0) as [->|Hne]. { split_and!; [lia|done|lia]. }
  unfold OPTY_SESSION_PORT_BASE. split_and!; intros Hr.
  - rewrite !u64_small by (rewrite ?u64_small by lia; lia).
    destruct (Z.ltb_spec 65535 (6077 + n - 1)); [lia|]. rewrite Hlen by lia.
    by replace (6077 + n - 1) with (6076 + n) by lia.
  - assert (65535 < u64 (u64 (6077 + n) - 1)) as Hp.
    { unfold u64. destruct (Z.eq_dec n (2 ^ 64 - 6077)) as [->|]; [by vm_compute|].
      rewrite (Z.mod_small (6077 + n)) by lia. rewrite Z.mod_small by lia. lia. }
    by destruct (Z.ltb_spec 65535 (u64 (u64 (6077 + n) - 1))); [|lia].
  - assert (u64 (6077 + n) = 6077 + n - 2 ^ 64) as ->
      by (unfold u64; symmetry; apply (Z.mod_unique_pos _ _ 1); lia).
    rewrite u64_small by lia. destruct (Z.ltb_spec 65535 (6077 + n - 2 ^ 64 - 1)); [lia|].
    rewrite Hlen by lia. by replace (6077 + n - 2 ^ 64 - 1) with (n + 6076 - 2 ^ 64) by lia.
Qed.

Lemma numeric_session_ports_witness :
  let s := cstr "18446744073709551615" in
  let n := decimal_value s in
  let r := opty_numeric_session_endpoint (Some s) 16 in
  (1 <= n <= 59459 -> r = Done (Endpoint OPTY_DEFAULT_HOST (print_dec (6076 + n)))) /\
  (n = 0 \/ 59459 < n < 2 ^ 64 - 6076 \/ 2 ^ 64 <= n -> r = Fail EINVAL) /\
  (2 ^ 64 - 6076 <= n < 2 ^ 64 ->
   r = Done (Endpoint OPTY_DEFAULT_HOST (print_dec (n + 6076 - 2 ^ 64)))).
Proof. apply (numeric_session_ports (cstr "18446744073709551615")). reflexivity. Defined.

Example numeric_wraps :
  opty_numeric_session_endpoint (Some (cstr "18446744073709551615")) 16 =
  Done (Endpoint OPTY_DEFAULT_HOST (cstr "6075")).
Proof. vm_compute. reflexivity. Qed.

(** ** Control tokens *)

Definition is_hex (b : byte) : bool := between 48 57 b || between 97 102 b.

Lemma hex_byte_ok (b : byte) : forallb is_hex (hex_byte b) = true /\ length (hex_byte b) = 2%nat.
Proof. split; [|done]. destruct b; vm_compute; reflexivity. Qed.

Lemma hex_byte_inj (a b : byte) : hex_byte a = hex_byte b -> a = b.
Proof.
  intros H. apply b2z_inj.
  assert (forall x, exists i j, hex_byte x = [hex_digit i; hex_digit j] /\ b2z x = i * 16 + j /\
            0 <= i < 16 /\ 0 <= j < 16) as Hx.
  { intros x. exists (b2z x / 16), (b2z x mod 16). pose proof (b2z_range x).
    split; [destruct x; vm_compute; reflexivity|]. div_lia. }
  destruct (Hx a) as (i&j&Ha&->&?&?), (Hx b) as (k&l&Hb&->&?&?). rewrite Ha, Hb in H.
  assert (forall u v, 0 <= u < 16 -> 0 <= v < 16 -> hex_digit u = hex_digit v -> u = v) as Hd.
  { intros u v Hu Hv Huv.
    assert (all_from 16 0 (fun u => all_from 16 0 (fun v =>
      if decide (hex_digit u = hex_digit v) then u =? v else true)) = true) as Hall by (by vm_compute).
    pose proof (all_from_spec _ _ _ u Hall ltac:(lia)) as Hv1. cbv beta in Hv1.
    pose proof (all_from_spec _ _ _ v Hv1 ltac:(lia)) as Hv2. cbv beta in Hv2.
    rewrite decide_True in Hv2 by done. by apply Z.eqb_eq. }
  injection H as He1 He2. apply Hd in He1, He2; lia.
Qed.

Lemma hex_concat_inj (a b : bytes) : concat (hex_byte <$> a) = concat (hex_byte <$> b) -> a = b.
Proof.
  revert b. induction a as [|x a IH]; intros [|y b] H; try done. cbn in H.
  assert (hex_byte x = hex_byte y /\ concat (hex_byte <$> a) = concat (hex_byte <$> b)) as [H1 H2].
  { apply app_inj_1; [done|exact H]. }
  apply hex_byte_inj in H1 as ->. by rewrite (IH b).
Qed.

Lemma hex_concat_ok (a : bytes) :
  blen (concat (hex_byte <$> a)) = 2 * blen a /\ forallb is_hex (concat (hex_byte <$> a)) = true.
Proof.
  induction a as [|x a [IHl IHh]]; [done|]. change (hex_byte <$> x :: a) with (hex_byte x :: (hex_byte <$> a)).
  cbn [concat]. destruct (hex_byte_ok x) as [Hh Hl]. split.
  - rewrite blen_app, IHl. unfold blen. rewrite Hl. simpl length. lia.
  - rewrite forallb_app, IHh, Hh. done.
Qed.

(** A control token is the 64 hexadecimal digits of the 32 bytes read from
    /dev/urandom: it fits the wire's token field, every one of the bytes is used
    (other bytes give another token), and a short read or an error gives no token
    at all. *)
Theorem control_token_faithful (rd : list rd_ev) (tok : bytes) (s' : stream) :
  Forall benign_rd rd ->
  opty_generate_control_token 65 (Stream rd [] [] false) = (Done tok, s') ->
  32 <= blen (content rd) /\ tok = concat (hex_byte <$> take 32 (content rd)) /\
  blen tok = 64 /\ blen tok <= OPTY_MAX_TOKEN /\ forallb is_hex tok = true /\
  (forall other, concat (hex_byte <$> other) = tok -> other = take 32 (content rd)).
Proof.
  intros Hb. unfold opty_generate_control_token. cbn [Z.ltb Z.compare].
  change (65 <? OPTY_CONTROL_TOKEN_BYTES * 2 + 1) with false. cbv iota.
  set (s := Stream rd [] [] false).
  destruct (Z.le_gt_cases 32 (blen (content rd))) as [Hle|Hgt].
  - destruct (opty_read_full_benign 32 s) as (s1&He&_); [change (inq s) with rd; lia|done|].
    change OPTY_CONTROL_TOKEN_BYTES with 32. rewrite He. cbn [inq].
    change (Z.to_nat 32) with 32%nat. change (inq s) with rd.
    assert (blen (take 32 (content rd)) = 32) as Hl
      by (unfold blen in *; rewrite length_take; lia).
    rewrite Hl. change (32 =? 32) with true. cbn [negb]. intros [= <- <-].
    destruct (hex_concat_ok (take 32 (content rd))) as [H1 H2]. rewrite Hl in H1.
    unfold OPTY_MAX_TOKEN. split_and!; try done; try lia. intros other. apply hex_concat_inj.
  - destruct (opty_read_full_short 32 s) as (s1&He&_); [done|done|].
    change OPTY_CONTROL_TOKEN_BYTES with 32. rewrite He. by case_bool_decide.
Qed.

Lemma control_token_faithful_witness :
  let rd := [RErr EINTR; RData (repeat Byte.xa5 20); RData (repeat Byte.x00 20)] in
  let tok := concat (hex_byte <$> take 32 (content rd)) in
  32 <= blen (content rd) /\ tok = concat (hex_byte <$> take 32 (content rd)) /\
  blen tok = 64 /\ blen tok <= OPTY_MAX_TOKEN /\ forallb is_hex tok = true /\
  (forall other, concat (hex_byte <$> other) = tok -> other = take 32 (content rd)).
Proof.
  intros rd tok.
  apply (control_token_faithful rd tok (Stream [RData (repeat Byte.x00 8)] [] [] false));
    [by repeat constructor|by vm_compute].
Defined.
