(* ===== verification/Session.v ===== *)
(** * Session files (src/src/client.c: opty_write_session,
    opty_read_session_info, opty_read_session_endpoint and their helpers)

    A session file is text, one [key=value] per line.  The file system is a map from
    paths to contents, with a script that says which of the coming system calls
    fail, and how much a failing write has written. *)

From stdpp Require Import gmap.
From S2P Require Import Prelude.
From S2P Require Import Wire.
From S2P Require Import Endpoint.
From S2P Require Import Text.

Definition OPTY_SESSION_MAX_ARGC : Z := 128.

(** [struct opty_session_info]; [si_argv] has an entry for each pointer of [argv]
    that is not null. *)
Record opty_session_info := Info {
  si_name : bytes;
  si_host : bytes;
  si_port : bytes;
  si_log : bytes;
  si_cwd : bytes;
  si_restart_policy : bytes;
  si_control_token : bytes;
  si_graceful_input : bytes;
  si_command : bytes;
  si_argc : Z;
  si_argv : gmap nat bytes
}.

(** The sizes of the arrays. *)
Definition NAME_CAP : Z := OPTY_SESSION_MAX_NAME + 1.
Definition HOST_CAP : Z := 128.
Definition PORT_CAP : Z := 16.
Definition LOG_CAP : Z := 512.
Definition CWD_CAP : Z := 1024.
Definition POLICY_CAP : Z := 64.
Definition TOKEN_CAP : Z := OPTY_MAX_TOKEN + 1.
Definition GRACEFUL_CAP : Z := OPTY_MAX_GRACEFUL_INPUT + 1.
Definition COMMAND_CAP : Z := 1024.

(** ** Writing *)

Definition field (key value : bytes) : bytes := key ++ cstr "=" ++ value ++ [Byte.x0a].

Definition argv_key (i : nat) : bytes := cstr "argv" ++ print_dec (Z.of_nat i).

(** The [argv] lines from index [i] on, escaped. *)
Fixpoint argv_fields (malloc_ok : Z -> bool) (i : nat) (argv : list bytes) : outcome bytes :=
  match argv with
  | [] => Done []
  | a :: rest =>
      escaped ← opty_escape_session_value malloc_ok a;
      tail ← argv_fields malloc_ok (S i) rest;
      Done (field (argv_key i) escaped ++ tail)
  end.

(** What is written before the arguments. *)
Definition session_head (session : bytes) (ep : opty_endpoint) (log_path control_token : bytes)
    (argc : nat) : bytes :=
  field (cstr "name") session ++ field (cstr "host") (host ep) ++
  field (cstr "port") (port ep) ++ field (cstr "log") log_path ++
  field (cstr "restart_policy") (cstr "manual") ++
  field (cstr "control_token") control_token ++
  field (cstr "graceful_input") (cstr "/exit\n") ++
  field (cstr "argc") (print_dec (Z.of_nat argc)) ++
  field (cstr "argv_encoding") (cstr "escape").

(** [getcwd] leaves an empty string when it fails. *)
Definition cwd_field (cwd : bytes) : bytes :=
  if bool_decide (cwd = []) then [] else field (cstr "cwd") cwd.

(** The arguments that are printed before the first one that cannot be escaped. *)
Fixpoint argv_printed (malloc_ok : Z -> bool) (i : nat) (argv : list bytes) : bytes :=
  match argv with
  | [] => []
  | a :: rest =>
      match opty_escape_session_value malloc_ok a with
      | Done escaped => field (argv_key i) escaped ++ argv_printed malloc_ok (S i) rest
      | _ => []
      end
  end.

Definition session_text (malloc_ok : Z -> bool) (session : bytes) (ep : opty_endpoint)
    (log_path control_token : bytes) (argv : list bytes) (cwd : bytes) : outcome bytes :=
  args ← argv_fields malloc_ok 0 argv;
  Done (session_head session ep log_path control_token (length argv) ++ args ++ cwd_field cwd).

(** *** The file system *)

#[export] Instance byte_countable : Countable byte.
Proof.
  apply (inj_countable' Byte.to_N (fun n => default Byte.x00 (Byte.of_N n))).
  intros b. by destruct b.
Defined.

(** What a call does: a failing one that writes has written some bytes before. *)
Inductive fs_answer := FsOk | FsFail (written : nat).

Record fsys := Fsys {
  files : gmap bytes bytes;
  script : list fs_answer     (* the coming calls; past its end they succeed *)
}.

Definition fsM (A : Type) : Type := fsys -> outcome A * fsys.

#[export] Instance fs_ret : MRet fsM := fun A a s => (Done a, s).
#[export] Instance fs_bind : MBind fsM := fun A B f m s =>
  match m s with
  | (Done a, s') => f a s'
  | (Fail e, s') => (Fail e, s')
  | (UB, s') => (UB, s')
  end.

Definition fs_lift {A} (o : outcome A) : fsM A := fun s => (o, s).

(** A call that touches no file: [mkdir], [fdopen], [fsync], [fclose] with nothing left
    to write. *)
Definition fs_call : fsM unit := fun s =>
  match script s with
  | [] => (Done tt, s)
  | FsOk :: rest => (Done tt, Fsys (files s) rest)
  | FsFail _ :: rest => (Fail EIO, Fsys (files s) rest)
  end.

(** [open(path, O_CREAT | O_EXCL)]. *)
Definition fs_new_file (path : bytes) : fsM unit := fun s =>
  match files s !! path with
  | Some _ => (Fail EOTHER, s)
  | None => (Done tt, Fsys (<[path := []]> (files s)) (script s))
  end.

Definition fs_create (path : bytes) : fsM unit := fs_call;; fs_new_file path.

(** The [fprintf]s of [text] and [fflush]: whether all of it was written. *)
Definition fs_flush (path text : bytes) : fsM unit := fun s =>
  match script s with
  | [] => (Done tt, Fsys (<[path := text]> (files s)) [])
  | FsOk :: rest => (Done tt, Fsys (<[path := text]> (files s)) rest)
  | FsFail n :: rest => (Fail EIO, Fsys (<[path := take n text]> (files s)) rest)
  end.

(** [fclose] on an error path, its result ignored: it tries to write what is left of
    [text] in the buffer. *)
Definition fs_finish (path text : bytes) : fsM unit := fun s =>
  match script s with
  | [] => (Done tt, Fsys (<[path := text]> (files s)) [])
  | FsOk :: rest => (Done tt, Fsys (<[path := text]> (files s)) rest)
  | FsFail n :: rest =>
      (Done tt, Fsys (<[path := take (length (default [] (files s !! path)) + n) text]> (files s)) rest)
  end.

(** [unlink], whose result is ignored: when it fails the file stays. *)
Definition fs_unlink (path : bytes) : fsM unit := fun s =>
  match script s with
  | [] => (Done tt, Fsys (delete path (files s)) [])
  | FsOk :: rest => (Done tt, Fsys (delete path (files s)) rest)
  | FsFail _ :: rest => (Done tt, Fsys (files s) rest)
  end.

Definition fs_move (from to : bytes) : fsM unit := fun s =>
  match files s !! from with
  | Some text => (Done tt, Fsys (<[to := text]> (delete from (files s))) (script s))
  | None => (Fail ENOENT, s)
  end.

Definition fs_rename (from to : bytes) : fsM unit := fs_call;; fs_move from to.

(** [m], and on failure the removal of [path]. *)
Definition or_unlink {A} (path : bytes) (m : fsM A) : fsM A := fun s =>
  match m s with
  | (Fail e, s') => (Fail e, snd (fs_unlink path s'))
  | r => r
  end.

(** [m], and on failure the [fclose] of the stream that [text] was printed to. *)
Definition or_close {A} (path text : bytes) (m : fsM A) : fsM A := fun s =>
  match m s with
  | (Fail e, s') => (Fail e, snd (fs_finish path text s'))
  | r => r
  end.

Definition opty_ensure_session_dir (home : option bytes) : fsM unit :=
  fs_lift (opty_session_root home 512);;
  fs_lift (opty_session_dir home 512);;
  fs_lift (opty_log_dir home 512);;
  fs_call;; fs_call;; fs_call.

(** [argv] is the list up to its null pointer, [cwd] what [getcwd] gives. *)
Definition opty_write_session (malloc_ok : Z -> bool) (home : option bytes) (pid : Z)
    (session : option bytes) (ep : opty_endpoint) (log_path control_token : bytes)
    (argv : list bytes) (cwd : bytes) : fsM unit :=
  opty_ensure_session_dir home;;
  path ← fs_lift (opty_session_path home session 1024);
  if bool_decide (control_token = []) || (OPTY_MAX_TOKEN <? blen control_token)
  then fs_lift (Fail EINVAL)
  else
    tmp_path ← fs_lift (snprintf_fit 1100 (path ++ cstr ".tmp." ++ print_dec pid));
    if OPTY_SESSION_MAX_ARGC <? Z.of_nat (length argv) then fs_lift (Fail E2BIG)
    else
      fs_create tmp_path;;
      or_unlink tmp_path
        (fs_call;;                                              (* fdopen *)
         match session_text malloc_ok (default [] session) ep log_path control_token argv cwd with
         | Done text =>
             or_close tmp_path text (fs_flush tmp_path text;; fs_call);;   (* fsync *)
             fs_call;;                                          (* fclose *)
             fs_rename tmp_path path
         | Fail e =>                                (* an argument could not be escaped *)
             fs_finish tmp_path
               (session_head (default [] session) ep log_path control_token (length argv) ++
                argv_printed malloc_ok 0 argv);;
             fs_lift (Fail e)
         | UB => fs_lift UB
         end).

(** ** Reading *)

(** The key and the value of a line. *)
Definition split_field (line : bytes) : option (bytes * bytes) :=
  k ← strchr line Byte.x3d; Some (take k line, drop (S k) line).

(** A line as [getline] and [opty_chomp] leave it. *)
Definition read_line (raw : bytes) : bytes := opty_chomp (c_string raw).

Definition opty_copy_field (cap : Z) (src : bytes) : outcome bytes :=
  if cap <=? blen src then Fail EINVAL else Done src.

(** [snprintf(dst, cap, "%s", src)] cuts. *)
Definition snprintf_cut (cap : Z) (s : bytes) : bytes := take (Z.to_nat (cap - 1)) s.

Definition opty_session_info_init (fallback_name : option bytes) : opty_session_info :=
  Info (snprintf_cut NAME_CAP (default [] fallback_name)) OPTY_DEFAULT_HOST [] [] []
    (cstr "manual") [] (cstr "/exit\n") [] 0 ∅.

(** [Done None] is the return value 0, [Fail] is -1. *)
Definition opty_parse_argv_key (key : bytes) : outcome (option nat) :=
  if negb (bool_decide (take 4 key = cstr "argv")) || bool_decide (drop 4 key = []) ||
     negb (opty_is_decimal (Some (drop 4 key))) then Done None
  else
    let r := strtoul (drop 4 key) in
    if ul_erange r || negb (ul_converted r) || negb (bool_decide (ul_end r = [])) ||
       (OPTY_SESSION_MAX_ARGC <=? ul_value r) then Fail EINVAL
    else Done (Some (Z.to_nat (ul_value r))).

(** The chain of [strcmp]s on the key. *)
Inductive key_kind :=
| KName | KHost | KPort | KLog | KCwd | KPolicy | KToken | KGraceful | KCommand | KEncoding
| KArgc | KArgv (i : nat) | KBadArgv | KOther.

Definition session_key (key : bytes) : key_kind :=
  if decide (key = cstr "name") then KName
  else if decide (key = cstr "host") then KHost
  else if decide (key = cstr "port") then KPort
  else if decide (key = cstr "log") then KLog
  else if decide (key = cstr "cwd") then KCwd
  else if decide (key = cstr "restart_policy") then KPolicy
  else if decide (key = cstr "control_token") then KToken
  else if decide (key = cstr "graceful_input") then KGraceful
  else if decide (key = cstr "command") then KCommand
  else if decide (key = cstr "argv_encoding") then KEncoding
  else if decide (key = cstr "argc") then KArgc
  else match opty_parse_argv_key key with
       | Done None => KOther
       | Done (Some i) => KArgv i
       | _ => KBadArgv
       end.

Definition parse_argc (value : bytes) : outcome Z :=
  let r := strtoul value in
  if ul_erange r || negb (ul_converted r) || negb (bool_decide (ul_end r = [])) ||
     (OPTY_SESSION_MAX_ARGC <? ul_value r) then Fail EINVAL
  else Done (ul_value r).

(** One field: [argv_escaped] and the info after it. *)
Definition session_field (malloc_ok : Z -> bool) (escaped : bool) (i : opty_session_info)
    (key value : bytes) : outcome (bool * opty_session_info) :=
  let '(Info name host port log cwd policy token graceful command argc argv) := i in
  match session_key key with
  | KName => v ← opty_copy_field NAME_CAP value;
      Done (escaped, Info v host port log cwd policy token graceful command argc argv)
  | KHost => v ← opty_copy_field HOST_CAP value;
      Done (escaped, Info name v port log cwd policy token graceful command argc argv)
  | KPort => v ← opty_copy_field PORT_CAP value;
      Done (escaped, Info name host v log cwd policy token graceful command argc argv)
  | KLog => v ← opty_copy_field LOG_CAP value;
      Done (escaped, Info name host port v cwd policy token graceful command argc argv)
  | KCwd => v ← opty_copy_field CWD_CAP value;
      Done (escaped, Info name host port log v policy token graceful command argc argv)
  | KPolicy => v ← opty_copy_field POLICY_CAP value;
      Done (escaped, Info name host port log cwd v token graceful command argc argv)
  | KToken => v ← opty_copy_field TOKEN_CAP value;
      Done (escaped, Info name host port log cwd policy v graceful command argc argv)
  | KGraceful => v ← opty_copy_field GRACEFUL_CAP value;
      Done (escaped, Info name host port log cwd policy token v command argc argv)
  | KCommand =>
      Done (escaped, Info name host port log cwd policy token graceful
                       (snprintf_cut COMMAND_CAP value) argc argv)
  | KEncoding => Done (bool_decide (value = cstr "escape") || escaped, i)
  | KArgc => n ← parse_argc value;
      Done (escaped, Info name host port log cwd policy token graceful command n argv)
  | KArgv k =>
      v ← (if escaped : bool then opty_decode_session_value malloc_ok value
           else if malloc_ok (blen value + 1) then Done value else Fail ENOMEM);
      Done (escaped, Info name host port log cwd policy token graceful command argc
                       (<[k := v]> argv))
  | KBadArgv => Fail EINVAL
  | KOther => Done (escaped, i)
  end.

(** The loop over the lines of the file. *)
Fixpoint session_lines (malloc_ok : Z -> bool) (escaped : bool) (i : opty_session_info)
    (ls : list bytes) : outcome opty_session_info :=
  match ls with
  | [] => Done i
  | raw :: rest =>
      match split_field (read_line raw) with
      | None => session_lines malloc_ok escaped i rest
      | Some (key, value) =>
          '(escaped, i) ← session_field malloc_ok escaped i key value;
          session_lines malloc_ok escaped i rest
      end
  end.

(** The arguments below [argc] are all there. *)
Definition argv_complete (i : opty_session_info) : bool :=
  forallb (fun k => bool_decide (is_Some (si_argv i !! k))) (seq 0 (Z.to_nat (si_argc i))).

(** [argv[argc] = NULL]. *)
Definition terminate_argv (i : opty_session_info) : opty_session_info :=
  Info (si_name i) (si_host i) (si_port i) (si_log i) (si_cwd i) (si_restart_policy i)
    (si_control_token i) (si_graceful_input i) (si_command i) (si_argc i)
    (delete (Z.to_nat (si_argc i)) (si_argv i)).

Definition opty_read_session_info (malloc_ok : Z -> bool) (home session : option bytes)
    (fs : gmap bytes bytes) : outcome opty_session_info :=
  path ← opty_session_path home session 1024;
  match fs !! path with
  | None => Fail ENOENT
  | Some text =>
      i ← session_lines malloc_ok false (opty_session_info_init session) (lines text);
      if bool_decide (si_port i = []) || negb (argv_complete i) then Fail EINVAL
      else Done (terminate_argv i)
  end.

(** [opty_read_session_endpoint]: only the host and the port, which must be digits.
    The buffers are uninitialised until written: [None] for the port. *)
Fixpoint endpoint_lines (host_cap port_cap : Z) (host : bytes) (port : option bytes)
    (ls : list bytes) : outcome (bytes * option bytes) :=
  match ls with
  | [] => Done (host, port)
  | raw :: rest =>
      match split_field (read_line raw) with
      | None => endpoint_lines host_cap port_cap host port rest
      | Some (key, value) =>
          if decide (key = cstr "host") then
            if bool_decide (value = []) || (host_cap <=? blen value) then Fail EINVAL
            else endpoint_lines host_cap port_cap value port rest
          else if decide (key = cstr "port") then
            if bool_decide (value = []) || (port_cap <=? blen value) then Fail EINVAL
            else if negb (forallb is_digit value) then Fail EINVAL
            else endpoint_lines host_cap port_cap host (Some value) rest
          else endpoint_lines host_cap port_cap host port rest
      end
  end.

Definition opty_read_session_endpoint (home session : option bytes) (host_cap port_cap : Z)
    (fs : gmap bytes bytes) : outcome opty_endpoint :=
  if host_cap =? 0 then Fail EINVAL
  else
    path ← opty_session_path home session 1024;
    match fs !! path with
    | None => Fail ENOENT
    | Some text =>
        '(host, port) ← endpoint_lines host_cap port_cap
                          (snprintf_cut host_cap OPTY_DEFAULT_HOST) None (lines text);
        match port with
        | Some p => Done (Endpoint host p)
        | None => Fail EINVAL
        end
    end.

(** ** Lines and fields *)

(** A value that survives on a line: no newline or NUL, and no carriage return at
    the end. *)
Definition line_ok (v : bytes) : Prop :=
  (Byte.x0a ∉ v) /\ (Byte.x00 ∉ v) /\ last v <> Some Byte.x0d.

Lemma lines_cons (l rest : bytes) :
  Byte.x0a ∉ l -> lines (l ++ Byte.x0a :: rest) = (l ++ [Byte.x0a]) :: lines rest.
Proof.
  induction l as [|b l IH]; intros Hl; cbn.
  - by rewrite decide_True.
  - apply not_elem_of_cons in Hl as [? ?]. rewrite decide_False, IH by auto. done.
Qed.

Lemma c_string_id (l : bytes) : Byte.x00 ∉ l -> c_string l = l.
Proof.
  induction l as [|b l IH]; intros Hl; [done|]. apply not_elem_of_cons in Hl as [? ?]. cbn.
  rewrite decide_False, IH by auto. done.
Qed.

Lemma chomp_newline (l : bytes) :
  last l <> Some Byte.x0a -> last l <> Some Byte.x0d -> opty_chomp (l ++ [Byte.x0a]) = l.
Proof.
  intros Hn Hr. unfold opty_chomp. rewrite reverse_app.
  change (reverse [Byte.x0a] ++ reverse l) with (Byte.x0a :: reverse l). cbn [chomp_rev].
  rewrite decide_True by auto.
  destruct l as [|b l _] using rev_ind; [done|]. rewrite reverse_snoc. cbn [chomp_rev].
  rewrite last_snoc in Hn, Hr. rewrite decide_False by (intros [Hb|Hb]; congruence).
  by rewrite reverse_cons, reverse_involutive.
Qed.

Lemma read_line_id (l : bytes) : line_ok l -> read_line (l ++ [Byte.x0a]) = l.
Proof.
  intros (Hn&Hz&Hr). unfold read_line. rewrite c_string_id.
  - apply chomp_newline; [|done]. intros Hl. apply Hn. apply last_Some in Hl as [l' ->]. set_solver.
  - rewrite not_elem_of_app. split; [done|]. by apply (bool_decide_unpack _).
Qed.

(** A key of the format. *)
Definition key_ok (k : bytes) : Prop := (Byte.x0a ∉ k) /\ (Byte.x00 ∉ k) /\ (Byte.x3d ∉ k).

#[export] Instance line_ok_dec (v : bytes) : Decision (line_ok v).
Proof. unfold line_ok. apply _. Defined.

#[export] Instance key_ok_dec (k : bytes) : Decision (key_ok k).
Proof. unfold key_ok. apply _. Defined.

Lemma field_line_ok (k v : bytes) : key_ok k -> line_ok v -> line_ok (k ++ cstr "=" ++ v).
Proof.
  intros (Hk1&Hk2&_) (Hv1&Hv2&Hv3). split_and!.
  - rewrite !not_elem_of_app. split_and!; [done|by apply (bool_decide_unpack _)|done].
  - rewrite !not_elem_of_app. split_and!; [done|by apply (bool_decide_unpack _)|done].
  - rewrite last_app, last_app. destruct (last v) eqn:E; [congruence|done].
Qed.

(** A written field is one line, which splits at its key. *)
Lemma field_lines (k v rest : bytes) :
  key_ok k -> line_ok v ->
  exists raw, lines (field k v ++ rest) = raw :: lines rest /\
    split_field (read_line raw) = Some (k, v).
Proof.
  intros Hk Hv. pose proof (field_line_ok k v Hk Hv) as Hl.
  exists ((k ++ cstr "=" ++ v) ++ [Byte.x0a]). split.
  - rewrite <- lines_cons by apply Hl. unfold field. by rewrite <- !app_assoc.
  - rewrite read_line_id by done. unfold split_field.
    change (cstr "=" ++ v) with (Byte.x3d :: v). rewrite strchr_app by apply Hk.
    cbn [mbind option_bind]. by rewrite take_app_length, drop_past.
Qed.

Section Fields.

Variable malloc_ok : Z -> bool.

(** Reading back a written field. *)
Lemma field_step (escaped : bool) (i : opty_session_info) (k v rest : bytes) :
  key_ok k -> line_ok v ->
  session_lines malloc_ok escaped i (lines (field k v ++ rest)) =
  ('(escaped, i) ← session_field malloc_ok escaped i k v;
   session_lines malloc_ok escaped i (lines rest)).
Proof.
  intros Hk Hv. destruct (field_lines k v rest Hk Hv) as (raw&->&Hs).
  cbn [session_lines]. by rewrite Hs.
Qed.

(** The same, when the field is accepted. *)
Lemma field_done (escaped e : bool) (i i' : opty_session_info) (k v rest : bytes) :
  key_ok k -> line_ok v -> session_field malloc_ok escaped i k v = Done (e, i') ->
  session_lines malloc_ok escaped i (lines (field k v ++ rest)) =
  session_lines malloc_ok e i' (lines rest).
Proof. intros Hk Hv Hf. by rewrite field_step, Hf. Qed.

Lemma copy_ok (cap : Z) (v : bytes) : blen v < cap -> opty_copy_field cap v = Done v.
Proof. intros H. unfold opty_copy_field. by destruct (Z.leb_spec cap (blen v)); [lia|]. Qed.

End Fields.

(** Read a field of kind [K]. *)
Ltac read_field K :=
  erewrite field_done;
  [|by apply (bool_decide_unpack _)|first [done|by apply (bool_decide_unpack _)]
   |unfold session_field;
    match goal with |- context [session_key ?k] => replace (session_key k) with K by done end;
    cbv iota; rewrite ?copy_ok by done; reflexivity].

(** *** The arguments *)

Lemma argv_fields_cons (malloc_ok : Z -> bool) (k : nat) (a : bytes) (argv : list bytes)
    (text : bytes) :
  argv_fields malloc_ok k (a :: argv) = Done text ->
  exists tail, text = field (argv_key k) (escape_bytes a) ++ tail /\
    argv_fields malloc_ok (S k) argv = Done tail.
Proof.
  cbn [argv_fields]. unfold opty_escape_session_value. destruct (_ <? blen a); [done|].
  destruct (negb _); [done|]. cbn [mbind outcome_bind].
  destruct (argv_fields malloc_ok (S k) argv) as [tail| |]; cbn [mbind outcome_bind]; [|done..].
  intros H. exists tail. split; [congruence|done].
Qed.

Definition argv_key_good (z : Z) : bool :=
  match session_key (argv_key (Z.to_nat z)) with
  | KArgv i => (i =? Z.to_nat z)%nat
  | _ => false
  end && bool_decide (key_ok (argv_key (Z.to_nat z))).

Lemma argv_keys_good : all_from 128 0 argv_key_good = true.
Proof. vm_compute. reflexivity. Qed.

Lemma argv_key_spec (k : nat) :
  (k < 128)%nat -> session_key (argv_key k) = KArgv k /\ key_ok (argv_key k).
Proof.
  intros Hk. pose proof (all_from_spec _ _ _ (Z.of_nat k) argv_keys_good ltac:(lia)) as H.
  unfold argv_key_good in H. rewrite Nat2Z.id in H. apply andb_true_iff in H as [H1 H2].
  split; [|by apply bool_decide_eq_true in H2].
  destruct (session_key (argv_key k)); try done. apply Nat.eqb_eq in H1. by subst.
Qed.

Definition set_argv (m : gmap nat bytes) (i : opty_session_info) : opty_session_info :=
  Info (si_name i) (si_host i) (si_port i) (si_log i) (si_cwd i) (si_restart_policy i)
    (si_control_token i) (si_graceful_input i) (si_command i) (si_argc i) m.

(** The arguments from index [k] on, added to [m]. *)
Fixpoint add_argv (k : nat) (argv : list bytes) (m : gmap nat bytes) : gmap nat bytes :=
  match argv with
  | [] => m
  | a :: rest => add_argv (S k) rest (<[k := a]> m)
  end.

Lemma add_argv_lookup (k : nat) (argv : list bytes) (m : gmap nat bytes) (j : nat) :
  add_argv k argv m !! j =
  if decide (k <= j < k + length argv)%nat then argv !! (j - k)%nat else m !! j.
Proof.
  revert k m. induction argv as [|a argv IH]; intros k m; cbn [add_argv length].
  - rewrite decide_False by lia. done.
  - rewrite IH. destruct (decide (S k <= j < S k + length argv)%nat).
    + rewrite decide_True by lia. by replace (j - k)%nat with (S (j - S k))%nat by lia.
    + destruct (decide (j = k)) as [->|Hne].
      * rewrite lookup_insert_eq, decide_True by lia. by rewrite Nat.sub_diag.
      * rewrite lookup_insert_ne by done. by rewrite decide_False by lia.
Qed.

Lemma escaped_line_ok (a : bytes) : Byte.x00 ∉ a -> line_ok (escape_bytes a).
Proof.
  intros Ha. destruct (escape_clean a) as [[Hn Hr] Hz]. split_and!; [done|by apply Hz|].
  intros Hl. apply Hr. apply last_Some in Hl as [l ->]. set_solver.
Qed.

(** *** The whole text *)

(** What a reader makes of the text before the working directory. *)
Definition written_info (session : bytes) (ep : opty_endpoint) (log_path control_token : bytes)
    (argv : list bytes) : opty_session_info :=
  Info session (host ep) (port ep) log_path [] (cstr "manual") control_token (cstr "/exit\n") []
    (Z.of_nat (length argv)) (add_argv 0 argv ∅).

Definition argc_good (z : Z) : bool :=
  match parse_argc (print_dec z) with Done n => n =? z | _ => false end &&
  bool_decide (line_ok (print_dec z)).

Lemma argcs_good : all_from 129 0 argc_good = true.
Proof. vm_compute. reflexivity. Qed.

Lemma argc_spec (n : nat) :
  (n <= 128)%nat ->
  parse_argc (print_dec (Z.of_nat n)) = Done (Z.of_nat n) /\ line_ok (print_dec (Z.of_nat n)).
Proof.
  intros Hn. pose proof (all_from_spec _ _ _ (Z.of_nat n) argcs_good ltac:(lia)) as H.
  unfold argc_good in H. apply andb_true_iff in H as [H1 H2].
  apply bool_decide_eq_true in H2. split; [|done].
  destruct (parse_argc _) as [m| |]; [|done..]. apply Z.eqb_eq in H1. by subst.
Qed.

Lemma name_line_ok (name : bytes) : opty_is_session_name (Some name) = true -> line_ok name.
Proof.
  intros (_&_&_&_&_&Hz&[Hn Hr]&_)%session_name_spec. split_and!; [done..|].
  intros Hl. apply Hr. apply last_Some in Hl as [l ->]. set_solver.
Qed.

(** The values a written session may have. *)
Record fits (ep : opty_endpoint) (log_path control_token : bytes) (argv : list bytes) : Prop := {
  fits_lines : Forall line_ok [host ep; port ep; log_path; control_token];
  fits_argv : Forall (fun a => Byte.x00 ∉ a) argv;
  fits_argc : Z.of_nat (length argv) <= OPTY_SESSION_MAX_ARGC;
  fits_host : blen (host ep) < HOST_CAP;
  fits_port : blen (port ep) < PORT_CAP;
  fits_log : blen log_path < LOG_CAP;
  fits_token : blen control_token < TOKEN_CAP
}.

Lemma init_name (name : bytes) :
  blen name <= OPTY_SESSION_MAX_NAME ->
  opty_session_info_init (Some name) =
  Info name OPTY_DEFAULT_HOST [] [] [] (cstr "manual") [] (cstr "/exit\n") [] 0 ∅.
Proof.
  intros H. unfold opty_session_info_init, snprintf_cut. change (default [] (Some name)) with name.
  rewrite take_ge; [done|]. unfold blen, NAME_CAP, OPTY_SESSION_MAX_NAME in *. lia.
Qed.

Section Arguments.

Variable malloc_ok : Z -> bool.

Hypothesis malloc_total : forall n, malloc_ok n = true.

Lemma argv_lines (argv : list bytes) (k : nat) (i : opty_session_info) (text rest : bytes) :
  argv_fields malloc_ok k argv = Done text -> (k + length argv <= 128)%nat ->
  Forall (fun a => Byte.x00 ∉ a) argv ->
  session_lines malloc_ok true i (lines (text ++ rest)) =
  session_lines malloc_ok true (set_argv (add_argv k argv (si_argv i)) i) (lines rest).
Proof.
  revert k i text. induction argv as [|a argv IH]; intros k i text H Hk Hz.
  { injection H as <-. cbn. by destruct i. }
  apply argv_fields_cons in H as (tail&->&H). apply Forall_cons in Hz as [Ha Hz].
  simpl length in Hk. destruct (argv_key_spec k) as [Hkey Hkok]; [lia|].
  rewrite <- app_assoc.
  rewrite (field_done malloc_ok true true i (set_argv (<[k := a]> (si_argv i)) i)).
  - rewrite (IH (S k)) by (try done; lia). done.
  - done.
  - by apply escaped_line_ok.
  - unfold session_field. destruct i. rewrite Hkey. unfold opty_decode_session_value.
    rewrite malloc_total. cbn [negb mbind outcome_bind]. by rewrite decode_escape.
Qed.

Lemma read_written (name : bytes) (ep : opty_endpoint) (log_path control_token : bytes)
    (argv : list bytes) (args rest : bytes) :
  opty_is_session_name (Some name) = true -> fits ep log_path control_token argv ->
  argv_fields malloc_ok 0 argv = Done args ->
  session_lines malloc_ok false (opty_session_info_init (Some name))
    (lines (session_head name ep log_path control_token (length argv) ++ args ++ rest)) =
  session_lines malloc_ok true (written_info name ep log_path control_token argv) (lines rest).
Proof.
  intros Hname [Hl Ha Hc Hh Hp Hlog Ht] Hargs.
  repeat (apply Forall_cons in Hl as [? Hl]). clear Hl.
  pose proof (name_line_ok _ Hname). apply session_name_spec in Hname as (_&_&_&Hn&_).
  destruct (argc_spec (length argv)) as [Hpa Hpl]; [unfold OPTY_SESSION_MAX_ARGC in Hc; lia|].
  assert (blen name < NAME_CAP) by (unfold NAME_CAP; lia).
  rewrite init_name by done. unfold session_head. rewrite <- !app_assoc.
  read_field KName. read_field KHost. read_field KPort. read_field KLog.
  read_field KPolicy. read_field KToken. read_field KGraceful.
  erewrite field_done; [|by apply (bool_decide_unpack _)|done
   |unfold session_field; replace (session_key (cstr "argc")) with KArgc by done;
    cbv iota; rewrite Hpa; reflexivity].
  read_field KEncoding. rewrite (argv_lines argv 0 _ args); [done|done| |done].
  unfold OPTY_SESSION_MAX_ARGC in Hc. lia.
Qed.

End Arguments.

(** All the arguments are there, and nothing at [argv[argc]]. *)
Lemma added_lookup (argv : list bytes) (k : nat) : add_argv 0 argv ∅ !! k = argv !! k.
Proof.
  rewrite add_argv_lookup, Nat.sub_0_r. case_decide; [done|]. rewrite lookup_empty.
  symmetry. apply lookup_ge_None. lia.
Qed.

Lemma argv_added (name h p l cwd policy token graceful command : bytes) (argv : list bytes) :
  argv_complete (Info name h p l cwd policy token graceful command (Z.of_nat (length argv))
                   (add_argv 0 argv ∅)) = true.
Proof.
  unfold argv_complete. apply forallb_forall. intros k [_ Hk]%in_seq. cbn in Hk |- *.
  apply bool_decide_eq_true. rewrite added_lookup. apply lookup_lt_is_Some. lia.
Qed.

Lemma argv_kept (argv : list bytes) (k : nat) :
  delete (Z.to_nat (Z.of_nat (length argv))) (add_argv 0 argv ∅) !! k = argv !! k.
Proof.
  rewrite Nat2Z.id. destruct (decide (k = length argv)) as [->|].
  - rewrite lookup_delete_eq. symmetry. by apply lookup_ge_None.
  - by rewrite lookup_delete_ne, added_lookup.
Qed.

(** ** Atomic writing *)

(** The last call that was made between the scripts [l] and [l'] failed. *)
Definition last_failed (l l' : list fs_answer) : Prop := exists used n, l = used ++ FsFail n :: l'.

Definition tmp_of (path : bytes) (pid : Z) : bytes := path ++ cstr ".tmp." ++ print_dec pid.

(** How a write can end: the session file has the whole text and nothing else changed, or
    the files are as they were, except that a new temporary file stays whose [unlink]
    failed. *)
Definition write_outcome (malloc_ok : Z -> bool) (home : option bytes) (pid : Z)
    (session : option bytes) (ep : opty_endpoint) (log_path control_token : bytes)
    (argv : list bytes) (cwd : bytes) (s : fsys) (r : outcome unit) (s' : fsys) : Prop :=
  let before := files s in
  let after := files s' in
  match r with
  | Done _ => exists path text,
      opty_session_path home session 1024 = Done path /\
      session_text malloc_ok (default [] session) ep log_path control_token argv cwd = Done text /\
      control_token <> [] /\ blen control_token <= OPTY_MAX_TOKEN /\
      Z.of_nat (length argv) <= OPTY_SESSION_MAX_ARGC /\
      after = <[path := text]> before
  | Fail _ => after = before \/
      exists path left, opty_session_path home session 1024 = Done path /\
        before !! tmp_of path pid = None /\ after = <[tmp_of path pid := left]> before /\
        last_failed (script s) (script s')
  | UB => False
  end.

Lemma fs_call_files (s : fsys) :
  files (snd (fs_call s)) = files s /\ fst (fs_call s) <> UB.
Proof. unfold fs_call. by destruct (script s) as [|[] ?]. Qed.

Lemma home_path_no_ub (home : option bytes) (x : bytes) (cap : Z) : home_path home x cap <> UB.
Proof. unfold home_path, snprintf_fit. by destruct home as [[]|]; try case_match. Qed.

Lemma argv_fields_no_ub (malloc_ok : Z -> bool) (argv : list bytes) (k : nat) :
  argv_fields malloc_ok k argv <> UB.
Proof.
  revert k. induction argv as [|a argv IH]; intros k; [done|]. cbn [argv_fields].
  unfold opty_escape_session_value. repeat case_match; try done. cbn [mbind outcome_bind].
  by pose proof (IH (S k)); destruct (argv_fields malloc_ok (S k) argv).
Qed.

(** The script is consumed from the front. *)
Definition later (s s' : fsys) : Prop := exists used, script s = used ++ script s'.

Lemma later_refl (s : fsys) : later s s.
Proof. by exists []. Qed.

Lemma later_trans (s1 s2 s3 : fsys) : later s1 s2 -> later s2 s3 -> later s1 s3.
Proof. intros [u Hu] [v Hv]. exists (u ++ v). by rewrite Hu, Hv, app_assoc. Qed.

Lemma last_failed_later (s s' : fsys) (l : list fs_answer) :
  later s s' -> last_failed (script s') l -> last_failed (script s) l.
Proof. intros [u ->] (v&n&->). exists (u ++ v), n. by rewrite app_assoc. Qed.

(** *** The calls, one by one *)

Lemma call_ok (s : fsys) :
  exists r s', fs_call s = (r, s') /\ files s' = files s /\ later s s' /\ (r = Done tt \/ r = Fail EIO).
Proof.
  unfold fs_call. destruct s as [f [|[|n] rest]]; eexists _, _; (split; [done|]); split_and!; auto;
    [by exists []|by exists [FsOk]|by exists [FsFail n]].
Qed.

Lemma flush_ok (path text : bytes) (s : fsys) :
  exists r s', fs_flush path text s = (r, s') /\ later s s' /\
    (r = Done tt /\ files s' = <[path := text]> (files s) \/
     r = Fail EIO /\ exists x, files s' = <[path := x]> (files s)).
Proof.
  unfold fs_flush. destruct s as [f [|[|n] rest]]; eexists _, _; (split; [done|]); split; eauto;
    [by exists []|by exists [FsOk]|by exists [FsFail n]].
Qed.

Lemma fs_finish_ok (path text : bytes) (s : fsys) :
  exists s', fs_finish path text s = (Done tt, s') /\ later s s' /\
    exists x, files s' = <[path := x]> (files s).
Proof.
  unfold fs_finish. destruct s as [f [|[|n] rest]]; eexists; (split; [done|]); split; eauto;
    [by exists []|by exists [FsOk]|by exists [FsFail n]].
Qed.

(** The removal of a temporary file that was not there at the start. *)
Lemma fs_unlink_ok (path x : bytes) (before : gmap bytes bytes) (s : fsys) :
  before !! path = None -> files s = <[path := x]> before ->
  exists s', fs_unlink path s = (Done tt, s') /\
    (files s' = before \/ files s' = <[path := x]> before /\ last_failed (script s) (script s')).
Proof.
  intros Hn Hf. unfold fs_unlink. destruct s as [f [|[|n] rest]]; cbn in Hf; subst f;
    eexists; (split; [done|]); cbn; rewrite ?delete_insert_id by done; auto.
  right. split; [done|]. by exists [], n.
Qed.

(** A computation that works in the temporary file and renames it at last. *)
Definition in_tmp (tmp path : bytes) (text : outcome bytes) (before : gmap bytes bytes)
    (m : fsM unit) : Prop :=
  forall s x, files s = <[tmp := x]> before ->
    exists r s', m s = (r, s') /\ later s s' /\
      match r with
      | Done _ => exists t, text = Done t /\ files s' = <[path := t]> before
      | Fail _ => exists y, files s' = <[tmp := y]> before
      | UB => False
      end.

Lemma in_tmp_call (tmp path : bytes) (text : outcome bytes) (before : gmap bytes bytes) (m : fsM unit) :
  in_tmp tmp path text before m -> in_tmp tmp path text before (fs_call;; m).
Proof.
  intros Hm s x Hs. destruct (call_ok s) as (r&s1&He&Hf&Hl&Hr). unfold mbind, fs_bind. rewrite He.
  destruct Hr as [->| ->]; [|eexists _, _; split; [done|]; split; [done|exists x; congruence]].
  destruct (Hm s1 x) as (r&s2&->&Hl2&H2); [congruence|].
  eexists _, _. split; [done|]. split; [by eapply later_trans|done].
Qed.

Lemma in_tmp_rename (tmp path text : bytes) (before : gmap bytes bytes) :
  before !! tmp = None -> forall s, files s = <[tmp := text]> before ->
  exists r s', (fs_call;; fs_rename tmp path) s = (r, s') /\ later s s' /\
    match r with
    | Done _ => files s' = <[path := text]> before
    | Fail _ => files s' = <[tmp := text]> before
    | UB => False
    end.
Proof.
  intros Hn s Hs. unfold fs_rename, mbind, fs_bind.
  destruct (call_ok s) as (r&s1&->&Hf&Hl&[->| ->]); [|eexists _, _; split; [done|]; split; [done|congruence]].
  destruct (call_ok s1) as (r&s2&->&Hf2&Hl2&[->| ->]);
    [|eexists _, _; split; [done|]; split; [by eapply later_trans|congruence]].
  unfold fs_move. rewrite Hf2, Hf, Hs, lookup_insert_eq. eexists _, _. split; [done|].
  split; [by eapply later_trans|]. cbn. by rewrite delete_insert_id.
Qed.

(** The text is printed, or what could be printed of it. *)
Lemma in_tmp_text (tmp path text : bytes) (before : gmap bytes bytes) :
  before !! tmp = None ->
  in_tmp tmp path (Done text) before
    (or_close tmp text (fs_flush tmp text;; fs_call);; fs_call;; fs_rename tmp path).
Proof.
  intros Hn s x Hs. unfold mbind at 1, fs_bind at 1, or_close at 1.
  assert (exists r s1, (fs_flush tmp text;; fs_call) s = (r, s1) /\ later s s1 /\
    (r = Done tt /\ files s1 = <[tmp := text]> before \/
     exists e y, r = Fail e /\ files s1 = <[tmp := y]> before)) as (r&s1&->&Hl1&Hr).
  { unfold mbind, fs_bind. destruct (flush_ok tmp text s) as (r&s1&->&Hl&[[-> Hf]|[-> [y Hf]]]);
      rewrite Hs, insert_insert_eq in Hf; [|eexists _, _; split; [done|]; eauto 10].
    destruct (call_ok s1) as (r&s2&->&Hf2&Hl2&Hr). eexists _, _. split; [done|].
    split; [by eapply later_trans|]. destruct Hr as [->| ->]; [left|right; eexists _, _]; rewrite Hf2; eauto. }
  destruct Hr as [[-> Hf]|(e&y&->&Hf)].
  - destruct (in_tmp_rename tmp path text before Hn s1 Hf) as (r&s2&->&Hl2&H2).
    eexists _, _. split; [done|]. split; [by eapply later_trans|]. by destruct r; eauto.
  - destruct (fs_finish_ok tmp text s1) as (s2&->&Hl2&[z Hz]). rewrite Hf, insert_insert_eq in Hz.
    eexists _, _. split; [done|]. split; [by eapply later_trans|eauto].
Qed.

Lemma in_tmp_partial (tmp path part : bytes) (e e' : errno) (before : gmap bytes bytes) :
  in_tmp tmp path (Fail e') before (fs_finish tmp part;; fs_lift (Fail e)).
Proof.
  intros s x Hs. unfold mbind, fs_bind. destruct (fs_finish_ok tmp part s) as (s1&->&Hl&[y Hy]).
  rewrite Hs, insert_insert_eq in Hy. eexists _, _. split; [done|]. eauto.
Qed.

(** A pure computation or the directories in front. *)
Lemma after_lift {A : Type} (P : outcome unit -> fsys -> Prop) (o : outcome A)
    (m : A -> fsM unit) (s : fsys) :
  o <> UB -> (forall e, P (Fail e) s) -> (forall b, o = Done b -> P (fst (m b s)) (snd (m b s))) ->
  P (fst ((fs_lift o ≫= m) s)) (snd ((fs_lift o ≫= m) s)).
Proof. intros Hu Hf Hm. unfold mbind, fs_bind, fs_lift. destruct o; cbn; auto; done. Qed.

Lemma ensure_ok (home : option bytes) (s : fsys) :
  exists r s', opty_ensure_session_dir home s = (r, s') /\ files s' = files s /\ later s s' /\ r <> UB.
Proof.
  unfold opty_ensure_session_dir, opty_session_root, opty_session_dir, opty_log_dir.
  unfold mbind, fs_bind, fs_lift.
  repeat match goal with
  | |- context [home_path home ?x 512] =>
      pose proof (home_path_no_ub home x 512); destruct (home_path home x 512);
        [|eexists _, _; split; [done|]; split_and!; [done|apply later_refl|done]|done]
  end.
  destruct (call_ok s) as (r&s1&->&Hf1&Hl1&[->| ->]); [|by eexists _, _].
  destruct (call_ok s1) as (r&s2&->&Hf2&Hl2&[->| ->]);
    [|eexists _, _; split; [done|]; split_and!; [congruence|by eapply later_trans|done]].
  destruct (call_ok s2) as (r&s3&->&Hf3&Hl3&Hr).
  eexists _, _. split; [done|]. split_and!; [congruence| |by destruct Hr as [->| ->]].
  eapply later_trans; [exact Hl1|by eapply later_trans].
Qed.

Lemma after_ensure (P : outcome unit -> fsys -> Prop) (home : option bytes) (m : fsM unit) (s : fsys) :
  (forall s1 e, files s1 = files s -> P (Fail e) s1) ->
  (forall s1, files s1 = files s -> later s s1 -> P (fst (m s1)) (snd (m s1))) ->
  P (fst ((opty_ensure_session_dir home;; m) s)) (snd ((opty_ensure_session_dir home;; m) s)).
Proof.
  intros Hf Hm. unfold mbind, fs_bind. destruct (ensure_ok home s) as (r&s1&->&Hs1&Hl1&Hr).
  destruct r; [by apply Hm|by apply Hf|done].
Qed.

(** The part that runs once the names are known. *)
Lemma tmp_part (tmp path : bytes) (text : outcome bytes) (m : fsM unit) (s : fsys) :
  (files s !! tmp = None -> in_tmp tmp path text (files s) m) ->
  let r := (fs_create tmp;; or_unlink tmp m) s in
  match fst r with
  | Done _ => exists t, text = Done t /\ files (snd r) = <[path := t]> (files s)
  | Fail _ => files (snd r) = files s \/
      exists y, files s !! tmp = None /\ files (snd r) = <[tmp := y]> (files s) /\
        last_failed (script s) (script (snd r))
  | UB => False
  end.
Proof.
  intros Hm r. subst r. unfold fs_create, fs_new_file, or_unlink. unfold mbind, fs_bind.
  destruct (call_ok s) as (r&s1&->&Hf&Hl&[->| ->]); [|by left]. rewrite Hf.
  destruct (files s !! tmp) eqn:Hn; [by left|]. specialize (Hm eq_refl).
  destruct (Hm (Fsys (<[tmp := []]> (files s)) (script s1)) [] eq_refl) as (r&s2&->&Hl2&H2).
  destruct r as [u|e|]; [done| |done]. destruct H2 as [y Hy].
  destruct (fs_unlink_ok tmp y (files s) s2 Hn Hy) as (s3&He&H3). rewrite He. cbn.
  destruct H3 as [H3|[H3 Hlast]]; [by left|right]. exists y. split_and!; [done..|].
  eapply last_failed_later; [eapply later_trans; [exact Hl|exact Hl2]|exact Hlast].
Qed.

Lemma write_session_outcome (malloc_ok : Z -> bool) (home : option bytes) (pid : Z)
    (session : option bytes) (ep : opty_endpoint) (log_path control_token : bytes)
    (argv : list bytes) (cwd : bytes) (s : fsys) :
  let r := opty_write_session malloc_ok home pid session ep log_path control_token argv cwd s in
  write_outcome malloc_ok home pid session ep log_path control_token argv cwd s (fst r) (snd r).
Proof.
  cbv zeta. set (P := write_outcome malloc_ok home pid session ep log_path control_token argv cwd s).
  unfold opty_write_session. apply after_ensure; [by left|]. intros s1 Hs1 Hl1.
  assert (forall e, P (Fail e) s1) as Hf by (intros e; by left).
  assert (opty_session_path home session 1024 <> UB) as Hpath.
  { unfold opty_session_path, opty_session_dir, snprintf_fit.
    pose proof (home_path_no_ub home (cstr "/.0pty/sessions") 512).
    case_match; [done|]. destruct (home_path _ _ _); cbn; [by case_match|done..]. }
  apply after_lift; [done|done|]. intros path Hp.
  destruct (bool_decide (control_token = []) || _) eqn:Et; [apply Hf|].
  apply orb_false_iff in Et as [Ht1%bool_decide_eq_false Ht2%Z.ltb_ge].
  apply after_lift; [unfold snprintf_fit; by case_match|done|]. intros tmp Htmp.
  assert (tmp = tmp_of path pid) as -> by (unfold snprintf_fit in Htmp; by case_match; simplify_eq).
  destruct (Z.ltb_spec OPTY_SESSION_MAX_ARGC (Z.of_nat (length argv))) as [|Hargc]; [apply Hf|].
  set (text := session_text malloc_ok (default [] session) ep log_path control_token argv cwd).
  match goal with |- context [or_unlink _ ?m] =>
    pose proof (tmp_part (tmp_of path pid) path text m s1) as H end.
  cbv zeta in H. match type of H with ?X -> _ => assert X as Hin end.
  { intros Hn. apply in_tmp_call.
    destruct text as [t|e|] eqn:Etext; [by apply in_tmp_text|apply in_tmp_partial|].
    unfold text, session_text in Etext. pose proof (argv_fields_no_ub malloc_ok argv 0).
    by destruct (argv_fields malloc_ok 0 argv). }
  specialize (H Hin). rewrite Hs1 in H. clear Hin.
  match type of H with match fst ?r with _ => _ end => destruct r as [[u|e|] s2] end;
    cbn [fst snd] in H |- *; [| |done].
  - destruct H as (t&Ht&H). by exists path, t.
  - destruct H as [H|(y&?&?&?)]; [by left|right]. exists path, y. split_and!; [done..|].
    by eapply last_failed_later.
Qed.

(** [C34] Writing a session file is atomic: when it succeeds the session file holds the whole
    text, with a token, and no other file changed.  When it fails, whatever call or
    allocation fails and whatever part of the text was written before, every file is as it
    was, the old session file included; only if removing the temporary file failed too,
    which is then the last call made, does that one new file stay. *)
Theorem write_session_atomic (malloc_ok : Z -> bool) (home : option bytes) (pid : Z)
    (session : option bytes) (ep : opty_endpoint) (log_path control_token : bytes)
    (argv : list bytes) (cwd : bytes) (s : fsys) :
  let '(r, s') :=
    opty_write_session malloc_ok home pid session ep log_path control_token argv cwd s in
  match r with
  | Done _ => exists path text,
      opty_session_path home session 1024 = Done path /\
      session_text malloc_ok (default [] session) ep log_path control_token argv cwd = Done text /\
      0 < blen control_token <= OPTY_MAX_TOKEN /\ files s' = <[path := text]> (files s)
  | Fail _ => files s' = files s \/
      exists path left, opty_session_path home session 1024 = Done path /\
        files s !! (path ++ cstr ".tmp." ++ print_dec pid) = None /\
        files s' = <[path ++ cstr ".tmp." ++ print_dec pid := left]> (files s) /\
        exists used n, script s = used ++ FsFail n :: script s'
  | UB => False
  end.
Proof.
  pose proof (write_session_outcome malloc_ok home pid session ep log_path control_token argv
                cwd s) as H. cbv zeta in H.
  destruct (opty_write_session _ _ _ _ _ _ _ _ _ s) as [[u|e|] s']; cbn in H; [|done..].
  destruct H as (path&text&?&?&Ht&?&?&?). exists path, text. split_and!; try done.
  destruct control_token; [done|]. unfold blen. simpl. lia.
Qed.

(** ** Reading back *)

(** A successful write, seen by a reader of the session. *)
Lemma written_text (malloc_ok : Z -> bool) (home : option bytes) (pid : Z)
    (session : option bytes) (ep : opty_endpoint) (log_path control_token : bytes)
    (argv : list bytes) (cwd : bytes) (s s' : fsys) :
  opty_write_session malloc_ok home pid session ep log_path control_token argv cwd s
    = (Done tt, s') ->
  exists name path args,
    session = Some name /\ opty_is_session_name (Some name) = true /\
    opty_session_path home session 1024 = Done path /\
    argv_fields malloc_ok 0 argv = Done args /\ blen control_token <= OPTY_MAX_TOKEN /\
    Z.of_nat (length argv) <= OPTY_SESSION_MAX_ARGC /\
    files s' !! path =
      Some (session_head name ep log_path control_token (length argv) ++ args ++ cwd_field cwd).
Proof.
  intros Hw. pose proof (write_session_outcome malloc_ok home pid session ep log_path
    control_token argv cwd s) as H. cbv zeta in H. rewrite Hw in H. cbn [fst snd] in H.
  destruct H as (path&text&Hp&Ht&_&Htok&Hargc&->).
  unfold opty_session_path in Hp. destruct session as [name|]; [|done].
  destruct (opty_is_session_name (Some name)) eqn:Hn; [|done].
  unfold session_text in Ht. destruct (argv_fields malloc_ok 0 argv) as [args| |] eqn:Ha; [|done..].
  exists name, path, args. split_and!; try done.
  - unfold opty_session_path. by rewrite Hn.
  - rewrite lookup_insert_eq. injection Ht as <-. done.
Qed.

Lemma written_is_read (malloc_ok : Z -> bool) (home : option bytes) (pid : Z)
    (session : option bytes) (ep : opty_endpoint) (log_path control_token : bytes)
    (argv : list bytes) (cwd : bytes) (s s' : fsys) :
  (forall n, malloc_ok n = true) ->
  fits ep log_path control_token argv ->
  port ep <> [] -> line_ok cwd -> blen cwd < CWD_CAP ->
  opty_write_session malloc_ok home pid session ep log_path control_token argv cwd s
    = (Done tt, s') ->
  exists i, opty_read_session_info malloc_ok home session (files s') = Done i /\
    Some (si_name i) = session /\ si_host i = host ep /\ si_port i = port ep /\
    si_log i = log_path /\ si_cwd i = cwd /\ si_control_token i = control_token /\
    opty_decode_graceful_input (si_graceful_input i) 4096 = Done (cstr "/exit" ++ [Byte.x0a]) /\
    si_argc i = Z.of_nat (length argv) /\ (forall k, si_argv i !! k = argv !! k).
Proof.
  intros Hm Hfits Hport Hcwd Hclen Hw.
  apply written_text in Hw as (name&path&args&->&Hn&Hp&Hargs&_&_&Hf).
  unfold opty_read_session_info. rewrite Hp. cbn [mbind outcome_bind]. rewrite Hf.
  rewrite (read_written malloc_ok Hm name ep log_path control_token argv args) by done.
  assert (session_lines malloc_ok true (written_info name ep log_path control_token argv)
    (lines (cwd_field cwd)) =
    Done (Info name (host ep) (port ep) log_path cwd (cstr "manual") control_token
            (cstr "/exit\n") [] (Z.of_nat (length argv)) (add_argv 0 argv ∅))) as ->.
  { unfold cwd_field. case_bool_decide as Hc; [by subst cwd|].
    rewrite <- (app_nil_r (field _ _)). by read_field KCwd. }
  cbn [mbind outcome_bind si_port]. rewrite bool_decide_false, argv_added by done.
  eexists. split; [done|]. split_and!; try done. intros k. apply argv_kept.
Qed.

(** [C35] What is written is what is read: when the reader has memory, the endpoint, the log
    path, the token and the arguments fit the reader's fields and have no NUL, the first
    three and the working directory hold no line end, and the working directory is
    shorter than 1024 bytes (with a line end in it, see [cwd_newline_forges_token]), the
    session file that a successful write leaves gives a reader the name, the endpoint,
    the log, the token and the working directory it was given, every argument byte for
    byte (newlines, tabs and backslashes included) and no argument more. *)
Theorem session_roundtrip (malloc_ok : Z -> bool) (home : option bytes) (pid : Z)
    (session : option bytes) (ep : opty_endpoint) (log_path control_token : bytes)
    (argv : list bytes) (cwd : bytes) (s s' : fsys) :
  (forall n, malloc_ok n = true) ->
  fits ep log_path control_token argv ->
  port ep <> [] -> line_ok cwd -> blen cwd < CWD_CAP ->
  opty_write_session malloc_ok home pid session ep log_path control_token argv cwd s
    = (Done tt, s') ->
  exists i, opty_read_session_info malloc_ok home session (files s') = Done i /\
    Some (si_name i) = session /\ si_host i = host ep /\ si_port i = port ep /\
    si_log i = log_path /\ si_cwd i = cwd /\ si_control_token i = control_token /\
    opty_decode_graceful_input (si_graceful_input i) 4096 = Done (cstr "/exit" ++ [Byte.x0a]) /\
    si_argc i = Z.of_nat (length argv) /\ (forall k, si_argv i !! k = argv !! k).
Proof. apply written_is_read. Qed.

Lemma session_roundtrip_witness :
  let argv := [cstr "sh"; cstr "a\b" ++ [Byte.x0a]; []] in
  let ep := Endpoint (cstr "127.0.0.1") (cstr "6077") in
  let s' := snd (opty_write_session (fun _ => true) (Some (cstr "/h")) 7 (Some (cstr "s1")) ep
                   (cstr "/h/l") (cstr "tok") argv (cstr "/tmp") (Fsys ∅ [])) in
  exists i, opty_read_session_info (fun _ => true) (Some (cstr "/h")) (Some (cstr "s1"))
              (files s') = Done i /\
    Some (si_name i) = Some (cstr "s1") /\ si_host i = host ep /\ si_port i = port ep /\
    si_log i = cstr "/h/l" /\ si_cwd i = cstr "/tmp" /\ si_control_token i = cstr "tok" /\
    opty_decode_graceful_input (si_graceful_input i) 4096 = Done (cstr "/exit" ++ [Byte.x0a]) /\
    si_argc i = Z.of_nat (length argv) /\ (forall k, si_argv i !! k = argv !! k).
Proof.
  intros argv ep s'.
  apply (session_roundtrip (fun _ => true) (Some (cstr "/h")) 7 (Some (cstr "s1")) ep
           (cstr "/h/l") (cstr "tok") argv (cstr "/tmp") (Fsys ∅ [])).
  - done.
  - split; [by repeat constructor; apply (bool_decide_unpack _)
           |by repeat constructor; apply (bool_decide_unpack _)|by vm_compute..].
  - done.
  - by apply (bool_decide_unpack _).
  - reflexivity.
  - vm_compute. reflexivity.
Defined.

(** *** The endpoint alone *)

Section EndpointOnly.

Variables host_cap port_cap : Z.

Lemma endpoint_step (h : bytes) (p : option bytes) (k v rest : bytes) :
  key_ok k -> line_ok v ->
  endpoint_lines host_cap port_cap h p (lines (field k v ++ rest)) =
  if decide (k = cstr "host") then
    if bool_decide (v = []) || (host_cap <=? blen v) then Fail EINVAL
    else endpoint_lines host_cap port_cap v p (lines rest)
  else if decide (k = cstr "port") then
    if bool_decide (v = []) || (port_cap <=? blen v) then Fail EINVAL
    else if negb (forallb is_digit v) then Fail EINVAL
    else endpoint_lines host_cap port_cap h (Some v) (lines rest)
  else endpoint_lines host_cap port_cap h p (lines rest).
Proof.
  intros Hk Hv. destruct (field_lines k v rest Hk Hv) as (raw&->&Hs).
  cbn [endpoint_lines]. by rewrite Hs.
Qed.

(** Any other field is passed over. *)
Lemma endpoint_skip (h : bytes) (p : option bytes) (k v rest : bytes) :
  key_ok k -> line_ok v -> k <> cstr "host" -> k <> cstr "port" ->
  endpoint_lines host_cap port_cap h p (lines (field k v ++ rest)) =
  endpoint_lines host_cap port_cap h p (lines rest).
Proof. intros. by rewrite endpoint_step, !decide_False. Qed.

Lemma endpoint_argv (malloc_ok : Z -> bool) (h : bytes) (p : option bytes) (argv : list bytes)
    (k : nat) (args rest : bytes) :
  argv_fields malloc_ok k argv = Done args -> (k + length argv <= 128)%nat ->
  Forall (fun a => Byte.x00 ∉ a) argv ->
  endpoint_lines host_cap port_cap h p (lines (args ++ rest)) =
  endpoint_lines host_cap port_cap h p (lines rest).
Proof.
  revert k args. induction argv as [|a argv IH]; intros k args Ha Hk Hz.
  { by injection Ha as <-. }
  apply argv_fields_cons in Ha as (tail&->&Ht). apply Forall_cons in Hz as [Ha Hz].
  simpl length in Hk. destruct (argv_key_spec k) as [_ Hkok]; [lia|]. rewrite <- app_assoc.
  rewrite endpoint_skip by first [done|by apply escaped_line_ok]. apply (IH (S k)); [done|lia|done].
Qed.

End EndpointOnly.

Ltac skip_field :=
  rewrite endpoint_skip;
  [|by apply (bool_decide_unpack _)|first [done|by apply (bool_decide_unpack _)]|done|done].

(** The reduced reader that [0pty NAME] uses finds in a written session file exactly
    the endpoint it was written with, past every other line, the arguments included. *)
Theorem session_endpoint_roundtrip (malloc_ok : Z -> bool) (home : option bytes) (pid : Z)
    (session : option bytes) (ep : opty_endpoint) (log_path control_token : bytes)
    (argv : list bytes) (cwd : bytes) (s s' : fsys) :
  fits ep log_path control_token argv -> host ep <> [] -> opty_is_decimal (Some (port ep)) = true ->
  line_ok cwd ->
  opty_write_session malloc_ok home pid session ep log_path control_token argv cwd s
    = (Done tt, s') ->
  opty_read_session_endpoint home session HOST_CAP PORT_CAP (files s') = Done ep.
Proof.
  intros [Hl Ha Hc Hh Hp Hlog Ht] Hhost Hport Hcwd Hw.
  apply written_text in Hw as (name&path&args&->&Hn&Hpath&Hargs&_&_&Hf).
  repeat (apply Forall_cons in Hl as [? Hl]). clear Hl.
  assert (port ep <> [] /\ forallb is_digit (port ep) = true) as [Hpne Hdig]
    by (cbn in Hport; by destruct (port ep)).
  destruct (argc_spec (length argv)) as [_ Hpl]; [unfold OPTY_SESSION_MAX_ARGC in Hc; lia|].
  unfold opty_read_session_endpoint. rewrite Hpath. change (HOST_CAP =? 0) with false.
  cbn [mbind outcome_bind]. rewrite Hf. unfold session_head. rewrite <- !app_assoc.
  rewrite endpoint_skip by first [done|by apply (bool_decide_unpack _)|by apply name_line_ok].
  rewrite endpoint_step by first [done|by apply (bool_decide_unpack _)].
  rewrite decide_True, bool_decide_false by done.
  destruct (Z.leb_spec HOST_CAP (blen (host ep))); [lia|]. cbn [orb].
  rewrite endpoint_step by first [done|by apply (bool_decide_unpack _)].
  rewrite decide_False, decide_True, bool_decide_false, Hdig by done.
  destruct (Z.leb_spec PORT_CAP (blen (port ep))); [lia|]. cbn [orb negb].
  do 6 skip_field.
  rewrite (endpoint_argv HOST_CAP PORT_CAP malloc_ok _ _ argv 0 args)
    by (try done; unfold OPTY_SESSION_MAX_ARGC in Hc; lia).
  unfold cwd_field. case_bool_decide; [by destruct ep|].
  rewrite <- (app_nil_r (field _ cwd)). skip_field. by destruct ep.
Qed.

Lemma session_endpoint_roundtrip_witness :
  let ep := Endpoint (cstr "127.0.0.1") (cstr "6080") in
  opty_read_session_endpoint (Some (cstr "/h")) (Some (cstr "s1")) HOST_CAP PORT_CAP
    (files (snd (opty_write_session (fun _ => true) (Some (cstr "/h")) 7 (Some (cstr "s1")) ep
       (cstr "/h/l") (cstr "tok") [cstr "port=1"; cstr "x"] (cstr "/tmp") (Fsys ∅ [])))) = Done ep.
Proof.
  intros ep.
  apply (session_endpoint_roundtrip (fun _ => true) (Some (cstr "/h")) 7 (Some (cstr "s1")) ep
           (cstr "/h/l") (cstr "tok") [cstr "port=1"; cstr "x"] (cstr "/tmp") (Fsys ∅ [])).
  - split; [by repeat constructor; apply (bool_decide_unpack _)
           |by repeat constructor; apply (bool_decide_unpack _)|by vm_compute..].
  - done.
  - reflexivity.
  - by apply (bool_decide_unpack _).
  - vm_compute. reflexivity.
Defined.

(** *** Newlines in the working directory *)

Lemma forged_text (d tok : bytes) :
  field (cstr "cwd") (d ++ Byte.x0a :: cstr "control_token=" ++ tok) =
  field (cstr "cwd") d ++ field (cstr "control_token") tok.
Proof.
  unfold field. change (cstr "control_token=" ++ tok) with (cstr "control_token" ++ cstr "=" ++ tok).
  by rewrite <- !app_assoc.
Qed.

(** The working directory is the one value that is written without escaping, as the
    last line: started in a directory whose name has a newline in it, the session is
    written successfully and read with the token that the directory's name says instead
    of the generated one (any other field can be replaced the same way). *)
Theorem cwd_newline_forges_token (malloc_ok : Z -> bool) (home : option bytes) (pid : Z)
    (session : option bytes) (ep : opty_endpoint) (log_path control_token : bytes)
    (argv : list bytes) (d forged : bytes) (s s' : fsys) :
  (forall n, malloc_ok n = true) ->
  fits ep log_path control_token argv -> port ep <> [] ->
  line_ok d -> blen d < CWD_CAP -> line_ok forged -> blen forged < TOKEN_CAP ->
  opty_write_session malloc_ok home pid session ep log_path control_token argv
    (d ++ Byte.x0a :: cstr "control_token=" ++ forged) s = (Done tt, s') ->
  exists i, opty_read_session_info malloc_ok home session (files s') = Done i /\
    si_cwd i = d /\ si_control_token i = forged /\ si_port i = port ep.
Proof.
  intros Hm Hfits Hport Hd Hdlen Htok Htlen Hw.
  apply written_text in Hw as (name&path&args&->&Hn&Hp&Hargs&_&_&Hf).
  unfold opty_read_session_info. rewrite Hp. cbn [mbind outcome_bind]. rewrite Hf.
  rewrite (read_written malloc_ok Hm name ep log_path control_token argv args) by done.
  unfold cwd_field. rewrite bool_decide_false by (by destruct d). rewrite forged_text.
  read_field KCwd. rewrite <- (app_nil_r (field (cstr "control_token") forged)).
  read_field KToken. cbn [lines session_lines mbind outcome_bind si_port].
  rewrite bool_decide_false, argv_added by done. by eexists.
Qed.

Lemma cwd_newline_forges_token_witness :
  let ep := Endpoint (cstr "127.0.0.1") (cstr "6080") in
  exists i, opty_read_session_info (fun _ => true) (Some (cstr "/h")) (Some (cstr "s1"))
      (files (snd (opty_write_session (fun _ => true) (Some (cstr "/h")) 7 (Some (cstr "s1")) ep
         (cstr "/h/l") (cstr "5ec4e7") [cstr "x"]
         (cstr "/tmp/a" ++ Byte.x0a :: cstr "control_token=" ++ cstr "mine") (Fsys ∅ [])))) = Done i /\
    si_cwd i = cstr "/tmp/a" /\ si_control_token i = cstr "mine" /\ si_port i = port ep.
Proof.
  intros ep.
  apply (cwd_newline_forges_token (fun _ => true) (Some (cstr "/h")) 7 (Some (cstr "s1")) ep
           (cstr "/h/l") (cstr "5ec4e7") [cstr "x"] (cstr "/tmp/a") (cstr "mine") (Fsys ∅ [])).
  - done.
  - split; [by repeat constructor; apply (bool_decide_unpack _)
           |by repeat constructor; apply (bool_decide_unpack _)|by vm_compute..].
  - done.
  - by apply (bool_decide_unpack _).
  - by vm_compute.
  - by apply (bool_decide_unpack _).
  - by vm_compute.
  - vm_compute. reflexivity.
Defined.

(** ** Any file *)

(** The info is inside its arrays. *)
Record in_bounds (i : opty_session_info) : Prop := {
  ib_name : blen (si_name i) < NAME_CAP;
  ib_host : blen (si_host i) < HOST_CAP;
  ib_port : blen (si_port i) < PORT_CAP;
  ib_log : blen (si_log i) < LOG_CAP;
  ib_cwd : blen (si_cwd i) < CWD_CAP;
  ib_policy : blen (si_restart_policy i) < POLICY_CAP;
  ib_token : blen (si_control_token i) < TOKEN_CAP;
  ib_graceful : blen (si_graceful_input i) < GRACEFUL_CAP;
  ib_command : blen (si_command i) < COMMAND_CAP;
  ib_argc : 0 <= si_argc i <= OPTY_SESSION_MAX_ARGC;
  ib_argv : forall k, is_Some (si_argv i !! k) -> Z.of_nat k < OPTY_SESSION_MAX_ARGC
}.

Lemma copy_bounded (cap : Z) (v w : bytes) : opty_copy_field cap v = Done w -> blen w < cap.
Proof. unfold opty_copy_field. destruct (Z.leb_spec cap (blen v)); [done|]. by intros [= <-]. Qed.

Lemma cut_bounded (cap : Z) (v : bytes) : 0 < cap -> blen (snprintf_cut cap v) < cap.
Proof. intros H. unfold snprintf_cut, blen. rewrite length_take. lia. Qed.

Lemma init_bounded (name : option bytes) : in_bounds (opty_session_info_init name).
Proof.
  unfold opty_session_info_init. split; cbn; try by vm_compute.
  - by apply cut_bounded.
  - intros k. rewrite lookup_empty. by intros [].
Qed.

Lemma scan_digits_pos (s : bytes) (acc : Z) : 0 <= acc -> 0 <= fst (scan_digits s acc).
Proof.
  revert acc. induction s as [|b s IH]; intros acc Ha; [done|]. cbn [scan_digits].
  destruct (is_digit b) eqn:Hb; [|done]. apply IH.
  unfold is_digit, between in Hb. rewrite andb_true_iff, !Z.leb_le in Hb. lia.
Qed.

Lemma strtoul_range (s : bytes) : 0 <= ul_value (strtoul s).
Proof.
  unfold strtoul. repeat case_match; cbn; try done; unfold u64; try (by apply Z.mod_pos_bound).
  all: match goal with H : scan_digits ?x 0 = (?v, _) |- 0 <= ?v =>
    pose proof (scan_digits_pos x 0 ltac:(lia)) as Hp; rewrite H in Hp; exact Hp end.
Qed.

Lemma session_field_bounded (malloc_ok : Z -> bool) (escaped e : bool) (i i' : opty_session_info)
    (k v : bytes) :
  in_bounds i -> session_field malloc_ok escaped i k v = Done (e, i') -> in_bounds i'.
Proof.
  destruct i as [name host port log cwd policy token graceful command argc argv].
  intros [H1 H2 H3 H4 H5 H6 H7 H8 H9 H10 H11] Hs. unfold session_field in Hs. cbn in *.
  destruct (session_key k) as [| | | | | | | | | | |n| |] eqn:Ek; try done;
    try (match type of Hs with context [opty_copy_field ?c ?x] =>
      destruct (opty_copy_field c x) as [w| |] eqn:Ec; cbn in Hs; [|done..];
      apply copy_bounded in Ec end);
    try (injection Hs as <- <-; split; cbn; done).
  - injection Hs as <- <-. split; cbn; try done. by apply cut_bounded.
  - destruct (parse_argc v) as [n| |] eqn:En; cbn in Hs; [|done..]. injection Hs as <- <-.
    split; cbn; try done. unfold parse_argc in En. pose proof (strtoul_range v).
    destruct (Z.ltb_spec OPTY_SESSION_MAX_ARGC (ul_value (strtoul v)));
      [by rewrite orb_true_r in En|].
    destruct (_ || _); [done|]. injection En as <-. done.
  - assert (Z.of_nat n < OPTY_SESSION_MAX_ARGC) as Hn.
    { unfold session_key in Ek. repeat (destruct (decide _); [done|]).
      unfold opty_parse_argv_key in Ek. destruct (_ || _ || _); [done|].
      pose proof (strtoul_range (drop 4 k)).
      destruct (Z.leb_spec OPTY_SESSION_MAX_ARGC (ul_value (strtoul (drop 4 k))));
        [by rewrite orb_true_r in Ek|].
      destruct (_ || _); [done|]. injection Ek as <-. lia. }
    match type of Hs with mbind _ ?o = _ => destruct o as [w| |]; cbn in Hs; [|done..] end.
    injection Hs as <- <-. split; cbn; try done. intros j Hj.
    destruct (decide (j = n)) as [->|]; [done|]. rewrite lookup_insert_ne in Hj by done. by apply H11.
Qed.

Lemma session_lines_bounded (malloc_ok : Z -> bool) (ls : list bytes) (escaped : bool)
    (i i' : opty_session_info) :
  in_bounds i -> session_lines malloc_ok escaped i ls = Done i' -> in_bounds i'.
Proof.
  revert escaped i. induction ls as [|raw ls IH]; intros escaped i Hi H.
  { by injection H as <-. }
  cbn [session_lines] in H. destruct (split_field (read_line raw)) as [[k v]|]; [|by eapply IH].
  destruct (session_field malloc_ok escaped i k v) as [[e j]| |] eqn:E; cbn in H; [|done..].
  eapply IH; [|done]. by eapply session_field_bounded.
Qed.

Lemma read_info_bounded (malloc_ok : Z -> bool) (home session : option bytes)
    (fs : gmap bytes bytes) (i : opty_session_info) :
  opty_read_session_info malloc_ok home session fs = Done i ->
  in_bounds i /\ si_port i <> [] /\
  (forall k, Z.of_nat k < si_argc i -> is_Some (si_argv i !! k)) /\
  si_argv i !! Z.to_nat (si_argc i) = None.
Proof.
  unfold opty_read_session_info.
  destruct (opty_session_path home session 1024) as [path| |]; cbn [mbind outcome_bind]; [|done..].
  destruct (fs !! path) as [text|]; [|done].
  destruct (session_lines malloc_ok false (opty_session_info_init session) (lines text))
    as [j| |] eqn:E; cbn [mbind outcome_bind]; [|done..].
  apply session_lines_bounded in E; [|apply init_bounded].
  destruct (bool_decide (si_port j = [])) eqn:Ep; [done|].
  destruct (argv_complete j) eqn:Ec; [|done]. intros [= <-].
  apply bool_decide_eq_false in Ep. destruct E. unfold terminate_argv. cbn.
  assert (forall k, Z.of_nat k < si_argc j -> is_Some (si_argv j !! k)) as Hall.
  { intros k Hk. unfold argv_complete in Ec. rewrite forallb_forall in Ec.
    eapply bool_decide_eq_true, Ec, in_seq. lia. }
  split_and!; [|done| |by rewrite lookup_delete_eq].
  - split; cbn; try done. intros k [x [_ Hx]%lookup_delete_Some]. by apply ib_argv0.
  - intros k Hk. rewrite lookup_delete_ne by lia. by apply Hall.
Qed.

(** [C36] Whatever bytes a session file holds, a reader that accepts it stays inside
    [struct opty_session_info]: every string fits its array with the final NUL, there
    are at most 128 arguments, all of them present and followed by a null pointer
    inside the array of 129, and the port is not empty. *)
Theorem session_info_bounded (malloc_ok : Z -> bool) (home session : option bytes)
    (fs : gmap bytes bytes) (i : opty_session_info) :
  opty_read_session_info malloc_ok home session fs = Done i ->
  in_bounds i /\ si_port i <> [] /\
  (forall k, Z.of_nat k < si_argc i -> is_Some (si_argv i !! k)) /\
  si_argv i !! Z.to_nat (si_argc i) = None.
Proof. apply read_info_bounded. Qed.

Lemma session_info_bounded_witness :
  let text := cstr "argv1=b" ++ [Byte.x0a] ++ cstr "argc=1" ++ [Byte.x0a] ++
              cstr "junk" ++ [Byte.x0a; Byte.x00; Byte.x0a] ++
              cstr "port=70000" ++ [Byte.x0d; Byte.x0a] ++ cstr "argv0=a" in
  let i := Info (cstr "s1") OPTY_DEFAULT_HOST (cstr "70000") [] [] (cstr "manual") []
             (cstr "/exit\n") [] 1 {[ 0%nat := cstr "a" ]} in
  in_bounds i /\ si_port i <> [] /\
  (forall k, Z.of_nat k < si_argc i -> is_Some (si_argv i !! k)) /\
  si_argv i !! Z.to_nat (si_argc i) = None.
Proof.
  intros text i.
  apply (session_info_bounded (fun _ => true) (Some (cstr "/h")) (Some (cstr "s1"))
           {[ cstr "/h/.0pty/sessions/s1.session" := text ]}).
  vm_compute. reflexivity.
Defined.
