(* ===== verification/Consume.v ===== *)
(** * What was received is what was consumed

    Facts on the receiving and sending loops of src/src/protocol.c that hold on every
    script of the kernel: a frame that is received is the bytes taken from the stream,
    and no call fails with EINTR. *)

From S2P Require Import Prelude.
From S2P Require Import Io.
From S2P Require Import Wire.

(** ** Reading *)

Lemma sys_read_content (n : Z) (s s' : stream) (r : bytes + errno) :
  sys_read n s = (r, s') ->
  content (inq s) = match r with inl bs => bs | inr _ => [] end ++ content (inq s').
Proof.
  unfold sys_read. destruct (inq s) as [|[bs|e] q] eqn:Hq; intros [= <- <-]; [by rewrite Hq| |done].
  cbn. rewrite <- (take_drop (Z.to_nat n) bs) at 1. rewrite <- app_assoc.
  by destruct (drop (Z.to_nat n) bs).
Qed.

Lemma read_full_loop_content (fuel : nat) (len : Z) (buf bs : bytes) (s s' : stream) :
  read_full_loop fuel len buf s = (Done bs, s') ->
  buf ++ content (inq s) = bs ++ content (inq s').
Proof.
  revert buf s. induction fuel as [|fuel IH]; intros buf s H; [done|]. cbn in H.
  destruct (blen buf <? len); [|by simplify_eq].
  destruct (sys_read (len - blen buf) s) as [[[|b l]|e] s1] eqn:E; apply sys_read_content in E.
  - destruct (Z.eqb_spec (blen buf) 0) as [Hz|]; [|done]. simplify_eq.
    destruct buf; [|unfold blen in Hz; simpl in Hz; lia]. by rewrite E.
  - apply IH in H. by rewrite <- H, E, <- app_assoc.
  - destruct (decide (e = EINTR)); [|done]. apply IH in H. by rewrite <- H, E.
Qed.

Lemma opty_read_full_content (len : Z) (bs : bytes) (s s' : stream) :
  opty_read_full len s = (Done bs, s') -> content (inq s) = bs ++ content (inq s').
Proof. apply (read_full_loop_content _ len []). Qed.

(** ** Frames *)

Lemma put_get_wire_len (p : bytes) (w : Z) :
  blen p = 4 -> get_wire_len p = Done w -> put_wire_len w = p /\ 0 <= w < 2 ^ 32.
Proof.
  unfold blen. destruct p as [|p0 [|p1 [|p2 [|p3 [|]]]]]; simpl length; try lia. intros _.
  rewrite get_wire_len_val. intros [= <-]. byte_ranges. split; [|lia]. unfold put_wire_len.
  repeat f_equal; apply b2z_inj; byte_vals; div_lia.
Qed.

(** What a frame may be to be sent. *)
Definition frame_fits (t : Z) (p : bytes) : Prop := 0 <= t < 256 /\ blen p <= OPTY_MAX_FRAME - 1.

Section Receive.

Variable malloc_ok : Z -> bool.

Lemma recv_body_content (n : Z) (f : opty_frame) (s s' : stream) :
  0 <= n -> recv_body malloc_ok n s = (Done (RecvFrame f), s') ->
  f_len f = n /\ blen (f_payload f) = n /\ 0 <= f_type f < 256 /\
  content (inq s) = z2b (f_type f) :: f_payload f ++ content (inq s').
Proof.
  intros Hn H. unfold recv_body in H.
  destruct (opty_read_full 1 s) as [[[|t [|]]| |] s2] eqn:E1; try done.
  apply opty_read_full_content in E1. cbn in E1. rewrite E1. pose proof (b2z_range t).
  destruct (Z.ltb_spec 0 n).
  - destruct (malloc_ok n); [|done].
    destruct (opty_read_full n s2) as [[bs| |] s3] eqn:E2; [|done..].
    apply opty_read_full_content in E2. rewrite E2.
    destruct (Z.eqb_spec (blen bs) n); [|done]. simplify_eq. cbn. by rewrite z2b_b2z.
  - simplify_eq. cbn. rewrite z2b_b2z. split_and!; try done; try lia. unfold blen. simpl. lia.
Qed.

(** A received frame is the bytes consumed, read as a frame. *)
Lemma recv_limited_content (cap : Z) (f : opty_frame) (s s' : stream) :
  opty_recv_frame_limited malloc_ok cap s = (Done (RecvFrame f), s') ->
  f = Frame (f_type f) (blen (f_payload f)) (f_payload f) /\
  frame_fits (f_type f) (f_payload f) /\
  content (inq s) = encode_frame (f_type f) (f_payload f) ++ content (inq s').
Proof.
  unfold opty_recv_frame_limited. intros H.
  destruct (opty_read_full 4 s) as [[pre| |] s1] eqn:E1; [|done..].
  pose proof (opty_read_full_spec 4 _ _ _ ltac:(lia) E1) as [_ Hl].
  apply opty_read_full_content in E1. rewrite E1.
  destruct pre as [|b pre]; [done|]. destruct Hl as [Hl|]; [|done].
  destruct (get_wire_len (b :: pre)) as [w| |] eqn:Ew; [|done..].
  apply put_get_wire_len in Ew as [Hw Hr]; [|done].
  destruct ((w <? 1) || (OPTY_MAX_FRAME <? w) || _) eqn:Hc; [done|].
  apply orb_false_elim in Hc as [[Hw1%Z.ltb_ge Hw2%Z.ltb_ge]%orb_false_elim _].
  apply recv_body_content in H as (Hf&Hb&Ht&->); [|lia].
  split; [destruct f as [ft fl fp]; cbn in *; congruence|].
  split; [split; [done|lia]|].
  unfold encode_frame. rewrite Hb. rewrite Z.sub_add. unfold u32. rewrite Z.mod_small by lia.
  rewrite Hw. by rewrite <- app_assoc.
Qed.

Lemma recv_frame_content (f : opty_frame) (s s' : stream) :
  opty_recv_frame malloc_ok s = (Done (RecvFrame f), s') ->
  f = Frame (f_type f) (blen (f_payload f)) (f_payload f) /\
  frame_fits (f_type f) (f_payload f) /\
  content (inq s) = encode_frame (f_type f) (f_payload f) ++ content (inq s').
Proof. apply recv_limited_content. Qed.

Lemma recv_body_not_eintr (n : Z) (s s' : stream) (e : errno) :
  recv_body malloc_ok n s = (Fail e, s') -> e <> EINTR.
Proof.
  unfold recv_body. intros H. repeat (case_match; simplify_eq; try done).
Qed.

Lemma recv_not_eintr (s s' : stream) (e : errno) :
  opty_recv_frame malloc_ok s = (Fail e, s') -> e <> EINTR.
Proof.
  unfold opty_recv_frame, opty_recv_frame_limited. intros H.
  destruct (opty_read_full 4 s) as [[pre|e1|] s1] eqn:E1; [| |done].
  - destruct pre as [|b pre]; [done|].
    destruct (get_wire_len (b :: pre)) as [w|e2|] eqn:Ew; [| |done].
    + destruct (_ || _); [by simplify_eq|]. by eapply recv_body_not_eintr.
    + apply opty_read_full_spec in E1 as [_ [Hl|]]; [|done|lia].
      destruct (get_wire_len_4 _ Hl) as (?&?&_). congruence.
  - apply opty_read_full_spec in E1 as [_ Hne]; [|lia]. by simplify_eq.
Qed.

(** Receiving never leaves the objects it reads. *)
Lemma recv_defined (s s' : stream) : opty_recv_frame malloc_ok s <> (UB, s').
Proof. intros H. by apply opty_recv_frame_limited_spec in H as [_ H]. Qed.

End Receive.

(** Frames are self-delimiting. *)
Lemma encode_frame_inj (t t' : Z) (p p' x y : bytes) :
  frame_fits t p -> frame_fits t' p' ->
  encode_frame t p ++ x `prefix_of` encode_frame t' p' ++ y ->
  t = t' /\ p = p' /\ x `prefix_of` y.
Proof.
  intros [Ht Hp] [Ht' Hp'] [k Hk]. unfold encode_frame in Hk. rewrite <- !app_assoc in Hk.
  unfold OPTY_MAX_FRAME in *. pose proof (blen_nonneg p). pose proof (blen_nonneg p').
  apply app_inj_1 in Hk as [Hlen Hk]; [|done].
  assert (blen p = blen p') as Hb.
  { pose proof (f_equal get_wire_len Hlen) as Hg. unfold u32 in Hg.
    rewrite !get_put_wire_len in Hg by div_lia. injection Hg as Hg. div_lia. }
  cbn in Hk. injection Hk as Hz Hk.
  apply app_inj_1 in Hk as [<- Hk]; [|unfold blen in Hb; lia].
  split_and!; [|done|by exists k].
  pose proof (f_equal b2z Hz) as Hbz. rewrite !b2z_z2b_small in Hbz by done. done.
Qed.

(** ** Sending *)

Lemma writev_loop_not_eintr (fuel : nat) (cur : list bytes) (t : Z) (s s' : stream) (e : errno) :
  writev_loop fuel cur t s = (Fail e, s') -> e <> EINTR.
Proof.
  revert cur t s. induction fuel as [|fuel IH]; intros cur t s H; [done|]. cbn in H.
  destruct cur as [|v cur]; [done|].
  destruct (sys_writev (v :: cur) s) as [[n|e1] s1].
  - destruct (0 <? n); [by eapply IH|by simplify_eq].
  - destruct (decide (e1 = EINTR)); [by eapply IH|by simplify_eq].
Qed.

Lemma send_frame_not_eintr (t : Z) (p : option bytes) (len : Z) (s s' : stream) (e : errno) :
  opty_send_frame t p len s = (Fail e, s') -> e <> EINTR.
Proof.
  unfold opty_send_frame. destruct (_ <? len); [by intros [= <- <-]|].
  destruct (_ && _); [by intros [= <- <-]|]. unfold io_lift, mbind, io_bind. intros H.
  repeat case_match; simplify_eq; try done.
  all: try (unfold opty_writev_full in *; repeat case_match; simplify_eq; try done;
            by eapply writev_loop_not_eintr).
  unfold sub, outcome_bind in *. repeat case_match; by simplify_eq.
Qed.
