(* ===== verification/Client.v ===== *)
(** * The client's session loop (src/src/client.c: process_server_frame,
    run_session, run_client_endpoint and the functions they call)

    The client is a byte pipe between descriptors, each a scripted [stream]; other
    scripts say what [poll], the window-size calls and the signal flags report each
    time they are asked.  [None] is undefined behaviour or exhausted fuel. *)

From S2P Require Import Prelude.
From S2P Require Import Io.
From S2P Require Import Wire.
From S2P Require Import Messages.

(** ** State *)

(** What [poll] reports: an error, or whether the socket and stdin are ready (any of
    POLLIN, POLLHUP, POLLERR, POLLNVAL).  Past the end of the script the socket is. *)
Inductive poll_ev :=
| PollErr (e : errno)
| PollReady (sock_ready stdin_ready : bool).

Record cli := Cli {
  cs_sock : stream;
  cs_stdin : stream;
  cs_stdout : stream;
  cs_stderr : stream;
  cs_log : option stream;              (* log_fd; None is -1 *)
  cs_last_seq : Z;
  cs_sizes : list (option (Z * Z));    (* the coming TIOCGWINSZ calls; past the end they fail *)
  cs_polls : list poll_ev;
  cs_term : list bool;                 (* g_terminate_pending at the coming tests; true stays *)
  cs_winch : list bool;                (* g_sigwinch_pending at the coming tests *)
  cs_slept : list Z                    (* the delays slept so far, in seconds *)
}.

Definition set_cs_sock (s : stream) (c : cli) : cli :=
  Cli s (cs_stdin c) (cs_stdout c) (cs_stderr c) (cs_log c) (cs_last_seq c) (cs_sizes c)
    (cs_polls c) (cs_term c) (cs_winch c) (cs_slept c).
Definition set_cs_stdin (s : stream) (c : cli) : cli :=
  Cli (cs_sock c) s (cs_stdout c) (cs_stderr c) (cs_log c) (cs_last_seq c) (cs_sizes c)
    (cs_polls c) (cs_term c) (cs_winch c) (cs_slept c).
Definition set_cs_stdout (s : stream) (c : cli) : cli :=
  Cli (cs_sock c) (cs_stdin c) s (cs_stderr c) (cs_log c) (cs_last_seq c) (cs_sizes c)
    (cs_polls c) (cs_term c) (cs_winch c) (cs_slept c).
Definition set_cs_stderr (s : stream) (c : cli) : cli :=
  Cli (cs_sock c) (cs_stdin c) (cs_stdout c) s (cs_log c) (cs_last_seq c) (cs_sizes c)
    (cs_polls c) (cs_term c) (cs_winch c) (cs_slept c).
Definition set_cs_log (s : option stream) (c : cli) : cli :=
  Cli (cs_sock c) (cs_stdin c) (cs_stdout c) (cs_stderr c) s (cs_last_seq c) (cs_sizes c)
    (cs_polls c) (cs_term c) (cs_winch c) (cs_slept c).
Definition set_cs_last_seq (n : Z) (c : cli) : cli :=
  Cli (cs_sock c) (cs_stdin c) (cs_stdout c) (cs_stderr c) (cs_log c) n (cs_sizes c)
    (cs_polls c) (cs_term c) (cs_winch c) (cs_slept c).
Definition set_cs_sizes (l : list (option (Z * Z))) (c : cli) : cli :=
  Cli (cs_sock c) (cs_stdin c) (cs_stdout c) (cs_stderr c) (cs_log c) (cs_last_seq c) l
    (cs_polls c) (cs_term c) (cs_winch c) (cs_slept c).
Definition set_cs_polls (l : list poll_ev) (c : cli) : cli :=
  Cli (cs_sock c) (cs_stdin c) (cs_stdout c) (cs_stderr c) (cs_log c) (cs_last_seq c)
    (cs_sizes c) l (cs_term c) (cs_winch c) (cs_slept c).
Definition set_cs_term (l : list bool) (c : cli) : cli :=
  Cli (cs_sock c) (cs_stdin c) (cs_stdout c) (cs_stderr c) (cs_log c) (cs_last_seq c)
    (cs_sizes c) (cs_polls c) l (cs_winch c) (cs_slept c).
Definition set_cs_winch (l : list bool) (c : cli) : cli :=
  Cli (cs_sock c) (cs_stdin c) (cs_stdout c) (cs_stderr c) (cs_log c) (cs_last_seq c)
    (cs_sizes c) (cs_polls c) (cs_term c) l (cs_slept c).
Definition set_cs_slept (l : list Z) (c : cli) : cli :=
  Cli (cs_sock c) (cs_stdin c) (cs_stdout c) (cs_stderr c) (cs_log c) (cs_last_seq c)
    (cs_sizes c) (cs_polls c) (cs_term c) (cs_winch c) l.

(** ** Computations on the client *)

Definition cliM (A : Type) : Type := cli -> option (A * cli).

#[export] Instance cli_ret : MRet cliM := fun A a c => Some (a, c).
#[export] Instance cli_bind : MBind cliM := fun A B f m c =>
  match m c with
  | Some (a, c') => f a c'
  | None => None
  end.

(** An I/O computation on one of the descriptors: its value or [errno]. *)
Definition on_fd {A} (get : cli -> stream) (put : stream -> cli -> cli) (m : io A)
    : cliM (A + errno) := fun c =>
  match m (get c) with
  | (Done a, s) => Some (inl a, put s c)
  | (Fail e, s) => Some (inr e, put s c)
  | (UB, _) => None
  end.

Definition on_socket {A} (m : io A) : cliM (A + errno) := on_fd cs_sock set_cs_sock m.

(** [g_terminate_pending]: the handler sets it, nothing clears it. *)
Definition terminate_pending : cliM bool := fun c =>
  match cs_term c with
  | [] => Some (false, c)
  | true :: _ => Some (true, c)
  | false :: rest => Some (false, set_cs_term rest c)
  end.

(** The test of [g_sigwinch_pending], which also clears it. *)
Definition winch_pending : cliM bool := fun c =>
  match cs_winch c with
  | [] => Some (false, c)
  | b :: rest => Some (b, set_cs_winch rest c)
  end.

Definition sys_poll : cliM poll_ev := fun c =>
  match cs_polls c with
  | [] => Some (PollReady true false, c)
  | ev :: rest => Some (ev, set_cs_polls rest c)
  end.

(** One [ioctl(TIOCGWINSZ)]: [unsigned short] columns and rows. *)
Definition sys_winsize : cliM (option (Z * Z)) := fun c =>
  match cs_sizes c with
  | [] => Some (None, c)
  | r :: rest => Some ((fun '(w, h) => (u16 w, u16 h)) <$> r, set_cs_sizes rest c)
  end.

(** ** Sending *)

Definition get_terminal_size : cliM (Z * Z) :=
  on_stdin ← sys_winsize;
  ws ← match on_stdin with Some w => mret (Some w) | None => sys_winsize end;
  mret match ws with
       | None => (80, 24)
       | Some (ws_col, ws_row) =>
           (if 0 <? ws_col then ws_col else 80, if 0 <? ws_row then ws_row else 24)
       end.

Definition send_intro (reconnect : bool) (last_seq : Z) (token : option bytes)
    : cliM (unit + errno) :=
  '(cols, rows) ← get_terminal_size;
  if reconnect then on_socket (opty_send_reconnect last_seq cols rows token)
  else on_socket (opty_send_hello cols rows token).

Definition send_resize_now : cliM (unit + errno) :=
  '(cols, rows) ← get_terminal_size;
  on_socket (opty_send_resize cols rows).

(** The loops around a send: [None] when it was sent, [Some rc] when the session ends
    with [rc].  One unit of fuel per attempt. *)
Fixpoint send_loop (fuel : nat) (send : cliM (unit + errno)) : cliM (option Z) :=
  match fuel with
  | O => fun _ => None
  | S fuel' =>
      r ← send;
      match r with
      | inl _ => mret None
      | inr e =>
          term ← terminate_pending;
          if term : bool then mret (Some 0)
          else if decide (e = EINTR) then send_loop fuel' send
          else mret (Some 1)
      end
  end.

(** [*last_seq]. *)
Definition get_last_seq : cliM Z := fun c => Some (cs_last_seq c, c).
Definition put_last_seq (n : Z) : cliM unit := fun c => Some (tt, set_cs_last_seq n c).

(** The loop around the ACK tests the flag only after EINTR, and returns 1. *)
Fixpoint ack_loop (fuel : nat) : cliM Z :=
  match fuel with
  | O => fun _ => None
  | S fuel' =>
      seq ← get_last_seq;
      r ← on_socket (opty_send_ack seq);
      match r with
      | inl _ => mret 0
      | inr e =>
          if decide (e = EINTR) then
            term ← terminate_pending;
            if term : bool then mret 1 else ack_loop fuel'
          else mret 1
      end
  end.

(** A send never fails with EINTR ([send_not_eintr] below): one attempt is enough. *)
Definition SEND_FUEL : nat := 1.

(** ** What the server sends *)

Definition status_of {A} (r : A + errno) : Z := match r with inl _ => 0 | inr _ => -1 end.

Definition write_stdout_bytes (data : bytes) : cliM Z :=
  if blen data =? 0 then mret 0
  else r ← on_fd cs_stdout set_cs_stdout (opty_write_full data); mret (status_of r).

Definition write_scrollback (data : bytes) : cliM Z := fun c =>
  match cs_log c with
  | None => Some (0, c)
  | Some log =>
      if blen data =? 0 then Some (0, c)
      else (r ← on_fd (fun _ => log) (fun s => set_cs_log (Some s)) (opty_write_full data);
            mret (status_of r)) c
  end.

Definition write_stderr_bytes (data : bytes) : cliM unit :=
  (if 0 <? blen data then on_fd cs_stderr set_cs_stderr (opty_write_full data);; mret tt
   else mret tt);;
  on_fd cs_stderr set_cs_stderr (opty_write_full [Byte.x0a]);;
  mret tt.

(** The position after a frame: [*last_seq] only grows. *)
Definition advance_seq (seq len last_seq : Z) : Z :=
  let frame_end := u64 (seq + len) in
  if last_seq <? frame_end then frame_end else last_seq.

(** A STDOUT or REPLAY frame. *)
Definition process_stream (frame : opty_frame) : cliM Z :=
  match opty_parse_stream frame with
  | UB => fun _ => None
  | Fail _ => mret (-1)
  | Done (seq, data) =>
      rc ← write_stdout_bytes data;
      if rc <? 0 then mret (-1)
      else
        rc ← write_scrollback data;
        if rc <? 0 then mret (-1)
        else
          last_seq ← get_last_seq;
          put_last_seq (advance_seq seq (blen data) last_seq);;
          ack_loop SEND_FUEL
  end.

(** The return code and [*saw_welcome]. *)
Definition process_server_frame (frame : opty_frame) (saw_welcome : bool) : cliM (Z * bool) :=
  if f_type frame =? msg_code OPTY_MSG_WELCOME then
    match opty_parse_welcome frame with
    | UB => fun _ => None
    | Fail _ => mret (-1, saw_welcome)
    | Done _ => mret (0, true)
    end
  else if (f_type frame =? msg_code OPTY_MSG_STDOUT) || (f_type frame =? msg_code OPTY_MSG_REPLAY)
  then rc ← process_stream frame; mret (rc, saw_welcome)
  else if f_type frame =? msg_code OPTY_MSG_ERROR then
    write_stderr_bytes (f_payload frame);;
    mret (-1, saw_welcome)
  else mret (-1, saw_welcome).

(** ** A session *)

(** The locals of the loop; [stdin_open] is 1 as long as the loop runs. *)
Record flags := Flags { saw_welcome : bool; resize_sent : bool; resize_pending : bool }.

(** How a part of the loop's body ends: on to the next part, [continue], [return rc]. *)
Inductive flow := Next (f : flags) | Again (f : flags) | Return (rc : Z).

Section Session.

Variable malloc_ok : Z -> bool.

(** What follows a readable socket. *)
Definition session_recv (f : flags) : cliM flow :=
  r ← on_socket (opty_recv_frame malloc_ok);
  match r with
  | inl RecvEof => mret (Return 0)
  | inr e =>
      term ← terminate_pending;
      mret (if term : bool then Return 0 else if decide (e = EINTR) then Again f else Return 1)
  | inl (RecvFrame frame) =>
      '(rc, saw) ← process_server_frame frame (saw_welcome f);
      if rc <? 0 then
        term ← terminate_pending;
        mret (Return (if term : bool then 0 else -1))
      else if 0 <? rc then mret (Return 1)
      else mret (Next (Flags saw (resize_sent f) (resize_pending f)))
  end.

Definition session_resize (f : flags) : cliM flow :=
  if saw_welcome f && (negb (resize_sent f) || resize_pending f) then
    r ← send_loop SEND_FUEL send_resize_now;
    mret match r with
         | Some rc => Return rc
         | None => Next (Flags (saw_welcome f) true false)
         end
  else mret (Next f).

(** What follows a readable stdin. *)
Definition session_stdin (f : flags) : cliM flow := fun c =>
  match sys_read 4096 (cs_stdin c) with
  | (inr e, s) =>
      Some (if decide (e = EINTR) then Again f else Return 0, set_cs_stdin s c)
  | (inl [], s) => Some (Return 0, set_cs_stdin s c)
  | (inl buf, s) =>
      (r ← send_loop SEND_FUEL (on_socket (opty_send_stdin (Some buf) (blen buf)));
       mret match r with Some rc => Return rc | None => Next f end) (set_cs_stdin s c)
  end.

Definition then_flow (m : cliM flow) (k : flags -> cliM flow) : cliM flow :=
  r ← m; match r with Next f => k f | Again f => mret (Again f) | Return rc => mret (Return rc) end.

(** One round of the loop. *)
Definition session_round (f : flags) : cliM flow :=
  term ← terminate_pending;
  if term : bool then mret (Return 0)
  else
    winch ← winch_pending;
    let f := if winch : bool then Flags (saw_welcome f) (resize_sent f) true else f in
    ev ← sys_poll;
    match ev with
    | PollErr e => mret (if decide (e = EINTR) then Again f else Return 1)
    | PollReady sock_ready stdin_ready =>
        then_flow (if sock_ready : bool then session_recv f else mret (Next f)) (fun f =>
        then_flow (session_resize f) (fun f =>
        if stdin_ready : bool then session_stdin f else mret (Next f)))
    end.

Fixpoint session_loop (fuel : nat) (f : flags) : cliM Z :=
  match fuel with
  | O => fun _ => None
  | S fuel' =>
      r ← session_round f;
      match r with
      | Next f | Again f => session_loop fuel' f
      | Return rc => mret rc
      end
  end.

(** Every round takes an entry of the [poll] script, or a frame from the socket. *)
Definition session_fuel (c : cli) : nat :=
  S (length (cs_polls c) + length (content (inq (cs_sock c)))).

Definition session_main (f : flags) : cliM Z := fun c => session_loop (session_fuel c) f c.

(** [run_session], with [arrive] for what the peer does once it has the intro: nothing
    is read before that. *)
Definition run_session_on (arrive : cliM unit) (reconnect : bool) (token : option bytes)
    : cliM Z :=
  last_seq ← get_last_seq;
  r ← send_loop SEND_FUEL (send_intro reconnect last_seq token);
  match r with
  | Some rc => mret rc
  | None => arrive;; session_main (Flags false false false)
  end.

(** On a socket whose script is all there from the start. *)
Definition run_session (reconnect : bool) (token : option bytes) : cliM Z :=
  run_session_on (mret tt) reconnect token.

(** ** Connecting again *)

Definition OPTY_RETRY_MAX_DELAY_SEC : Z := 8.

(** The doubling loop of [sleep_retry_interval]. *)
Fixpoint double_delay (fuel : nat) (failures delay : Z) : option Z :=
  match fuel with
  | O => None
  | S fuel' =>
      if (1 <? failures) && (delay <? OPTY_RETRY_MAX_DELAY_SEC)
      then double_delay fuel' (failures - 1) (delay * 2)
      else Some delay
  end.

(** The delay doubles at most three times. *)
Definition retry_delay (failures : Z) : option Z :=
  delay ← double_delay 4 failures 1;
  Some (if OPTY_RETRY_MAX_DELAY_SEC <? delay then OPTY_RETRY_MAX_DELAY_SEC else delay).

Definition sleep_retry_interval (failures : Z) : cliM unit := fun c =>
  match retry_delay failures with
  | Some delay => Some (tt, set_cs_slept (delay :: cs_slept c) c)
  | None => None
  end.

Definition put_log (l : option stream) : cliM unit := fun c => Some (tt, set_cs_log l c).
Definition put_sock (s : stream) : cliM unit := fun c => Some (tt, set_cs_sock s c).

(** A connection that was made: how the writes to it go, and what arrives on it once the
    peer has read the bytes that the client sent first. *)
Record peer := Peer { peer_writes : list wr_ev; peer_reply : bytes -> list rd_ev }.

Definition peer_socket (p : peer) : stream := Stream [] (peer_writes p) [] false.

Definition with_inq (rd : list rd_ev) (c : cli) : cli :=
  set_cs_sock (Stream rd (outq (cs_sock c)) (out (cs_sock c)) (wr_shut (cs_sock c))) c.

(** The peer answers what it was sent. *)
Definition peer_arrives (p : peer) : cliM unit := fun c =>
  Some (tt, with_inq (peer_reply p (out (cs_sock c))) c).

(** The loop of [run_client_endpoint].  Each entry of [connects] is one
    [connect_endpoint]: [None] when it fails, otherwise the connection.  When the script
    ends a termination signal arrives. *)
Fixpoint connect_loop (connects : list (option peer)) (retry : bool)
    (token : option bytes) (have_connected_once : bool) (retry_failures : Z) : cliM Z :=
  term ← terminate_pending;
  if term : bool then mret 0
  else
    match connects with
    | [] => mret 0
    | None :: rest =>
        if retry then
          let failures := u32 (retry_failures + 1) in
          sleep_retry_interval failures;;
          connect_loop rest retry token have_connected_once failures
        else mret 1
    | Some p :: rest =>
        put_sock (peer_socket p);;
        session_rc ← run_session_on (peer_arrives p) have_connected_once token;
        if session_rc =? 0 then mret 0
        else if 0 <? session_rc then
          if retry then
            sleep_retry_interval 1;;
            connect_loop rest retry token true 1
          else mret 1
        else mret 1
    end.

(** [run_client_endpoint].  [signals_ok] and [raw_ok] are the results of
    [setup_signal_handlers] and [enable_raw_mode]; [log] is [None] without a log path,
    otherwise what [open_scrollback_log] gives. *)
Definition run_client_endpoint (token : option bytes) (signals_ok raw_ok : bool)
    (log : option (option stream)) (retry : bool) (connects : list (option peer))
    : cliM Z :=
  if OPTY_MAX_TOKEN <? blen (default [] token) then mret 1
  else if negb signals_ok then mret 1
  else if negb raw_ok then mret 1
  else
    match log with
    | Some None => mret 1
    | Some (Some s) =>
        put_log (Some s);; put_last_seq 0;; connect_loop connects retry token false 0
    | None => put_log None;; put_last_seq 0;; connect_loop connects retry token false 0
    end.

End Session.
