(* ===== verification/ClientSpec.v ===== *)
(** * What the client's operations do

    A weakest-precondition calculus for [cliM] (total: a computation that is undefined
    or runs out of fuel has no postcondition), the messages a server sends as data, and
    one specification per operation of Client.v. *)

From S2P Require Import Prelude.
From S2P Require Import Io.
From S2P Require Import Wire.
From S2P Require Import Messages.
From S2P Require Import Consume.
From S2P Require Import Client.

(** ** Postconditions *)

Definition wp {A} (m : cliM A) (Q : A -> cli -> Prop) (c : cli) : Prop :=
  match m c with Some (a, c') => Q a c' | None => False end.

Lemma wp_ret {A} (a : A) (Q : A -> cli -> Prop) (c : cli) : Q a c -> wp (mret a) Q c.
Proof. done. Qed.

Lemma wp_bind {A B} (m : cliM A) (k : A -> cliM B) (Q : B -> cli -> Prop) (c : cli) :
  wp m (fun a => wp (k a) Q) c -> wp (m ≫= k) Q c.
Proof. unfold wp, mbind, cli_bind. by destruct (m c) as [[a c']|]. Qed.

Lemma wp_mono {A} (m : cliM A) (P Q : A -> cli -> Prop) (c : cli) :
  wp m P c -> (forall a c', P a c' -> Q a c') -> wp m Q c.
Proof. unfold wp. destruct (m c) as [[a c']|]; [auto|done]. Qed.

Lemma wp_get (Q : Z -> cli -> Prop) (c : cli) : Q (cs_last_seq c) c -> wp get_last_seq Q c.
Proof. done. Qed.

Lemma wp_put (n : Z) (Q : unit -> cli -> Prop) (c : cli) :
  Q tt (set_cs_last_seq n c) -> wp (put_last_seq n) Q c.
Proof. done. Qed.

(** ** What a server sends *)

Inductive item :=
| IWelcome (base_seq next_seq : Z)
| IData (replay : bool) (seq : Z) (data : bytes).

Definition item_type (i : item) : Z :=
  match i with
  | IWelcome _ _ => msg_code OPTY_MSG_WELCOME
  | IData true _ _ => msg_code OPTY_MSG_REPLAY
  | IData false _ _ => msg_code OPTY_MSG_STDOUT
  end.

Definition item_payload (i : item) : bytes :=
  match i with
  | IWelcome base_seq next_seq => opty_put_u64 base_seq ++ opty_put_u64 next_seq
  | IData _ seq data => opty_put_u64 seq ++ data
  end.

Definition item_bytes (i : item) : bytes := encode_frame (item_type i) (item_payload i).
Definition items_bytes (l : list item) : bytes := concat (item_bytes <$> l).

Definition item_data (i : item) : bytes :=
  match i with IWelcome _ _ => [] | IData _ _ data => data end.
Definition items_data (l : list item) : bytes := concat (item_data <$> l).

(** The position of a client that was at [n], after the item. *)
Definition item_seq (n : Z) (i : item) : Z :=
  match i with IWelcome _ _ => n | IData _ seq data => Z.max n (seq + blen data) end.
Definition items_seq (n : Z) (l : list item) : Z := fold_left item_seq l n.

Definition is_welcome (i : item) : bool :=
  match i with IWelcome _ _ => true | IData _ _ _ => false end.

(** Sequence numbers are 64-bit, and the frames can be sent. *)
Definition item_ok (i : item) : Prop :=
  match i with
  | IWelcome base_seq next_seq => 0 <= base_seq < 2 ^ 64 /\ 0 <= next_seq < 2 ^ 64
  | IData _ seq data => 0 <= seq /\ seq + blen data < 2 ^ 64 /\ 8 + blen data <= OPTY_MAX_FRAME - 1
  end.

Lemma item_fits (i : item) : item_ok i -> frame_fits (item_type i) (item_payload i).
Proof.
  unfold frame_fits. destruct i as [b n|[] seq data]; cbn [item_type item_payload item_ok]; intros Hi;
    (split; [done|]).
  - rewrite blen_app, !put_u64_length. by vm_compute.
  - rewrite blen_app, put_u64_length. lia.
  - rewrite blen_app, put_u64_length. lia.
Qed.

Lemma items_data_snoc (l : list item) (i : item) :
  items_data (l ++ [i]) = items_data l ++ item_data i.
Proof. unfold items_data. rewrite fmap_app, concat_app. cbn. by rewrite app_nil_r. Qed.

Lemma items_seq_snoc (n : Z) (l : list item) (i : item) :
  items_seq n (l ++ [i]) = item_seq (items_seq n l) i.
Proof. unfold items_seq. by rewrite fold_left_app. Qed.

Lemma items_seq_range (n : Z) (l : list item) :
  0 <= n < 2 ^ 64 -> Forall item_ok l -> 0 <= items_seq n l < 2 ^ 64.
Proof.
  unfold items_seq. revert n. induction l as [|i l IH]; intros n Hn Hl; [done|].
  apply Forall_cons in Hl as [Hi Hl]. cbn. apply IH; [|done].
  destruct i as [b m|r seq data]; cbn in *; [done|]. pose proof (blen_nonneg data). lia.
Qed.

Lemma advance_seq_max (seq len n : Z) :
  0 <= seq + len < 2 ^ 64 -> advance_seq seq len n = Z.max n (seq + len).
Proof.
  intros H. unfold advance_seq. rewrite u64_small by done.
  destruct (Z.ltb_spec n (seq + len)); lia.
Qed.

(** The parsers on an item's frame. *)
Definition item_frame (i : item) : opty_frame :=
  Frame (item_type i) (blen (item_payload i)) (item_payload i).

Lemma parse_item_welcome (b n : Z) :
  item_ok (IWelcome b n) -> opty_parse_welcome (item_frame (IWelcome b n)) = Done (b, n).
Proof.
  intros [Hb Hn]. unfold opty_parse_welcome, item_frame. cbn [f_type f_len f_payload item_type item_payload].
  rewrite blen_app, !put_u64_length. rewrite Z.eqb_refl. change (8 + 8 =? 16) with true. cbn [negb orb].
  rewrite get_put_u64 by done. cbn [mbind outcome_bind].
  change (ptr (opty_put_u64 b ++ opty_put_u64 n) 8) with (opty_put_u64 n).
  rewrite <- (app_nil_r (opty_put_u64 n)), get_put_u64 by done. done.
Qed.

Lemma parse_item_data (r : bool) (seq : Z) (data : bytes) :
  item_ok (IData r seq data) -> opty_parse_stream (item_frame (IData r seq data)) = Done (seq, data).
Proof.
  intros (Hs&He&Hm). pose proof (blen_nonneg data).
  unfold item_frame. cbn [item_payload]. rewrite blen_app, put_u64_length.
  destruct r; apply parse_stream_ok; auto; lia.
Qed.

(** ** What a client sends *)

Inductive sent :=
| SIntro (reconnect : bool) (seq cols rows : Z) (token : bytes)
| SResize (cols rows : Z)
| SAck (seq : Z)
| SStdin (data : bytes).

Definition sent_type (x : sent) : Z :=
  match x with
  | SIntro false _ _ _ _ => msg_code OPTY_MSG_HELLO
  | SIntro true _ _ _ _ => msg_code OPTY_MSG_RECONNECT
  | SResize _ _ => msg_code OPTY_MSG_RESIZE
  | SAck _ => msg_code OPTY_MSG_ACK
  | SStdin _ => msg_code OPTY_MSG_STDIN
  end.

Definition sent_payload (x : sent) : bytes :=
  match x with
  | SIntro reconnect seq cols rows token => intro_payload seq cols rows token reconnect
  | SResize cols rows => opty_put_u16 cols ++ opty_put_u16 rows
  | SAck seq => opty_put_u64 seq
  | SStdin data => data
  end.

Definition sent_bytes (x : sent) : bytes := encode_frame (sent_type x) (sent_payload x).
Definition all_sent (l : list sent) : bytes := concat (sent_bytes <$> l).

(** The acknowledgements and the input among what was sent. *)
Definition acks (l : list sent) : list Z :=
  omap (fun x => match x with SAck n => Some n | _ => None end) l.
Definition typed (l : list sent) : bytes :=
  concat (omap (fun x => match x with SStdin data => Some data | _ => None end) l).

(** ** Sending *)

(** What no send touches. *)
Definition core (c : cli) : stream * stream * option stream * Z * list poll_ev * list rd_ev :=
  (cs_stdin c, cs_stdout c, cs_log c, cs_last_seq c, cs_polls c, inq (cs_sock c)).

(** No termination signal is in store. *)
Definition calm (c : cli) : Prop := Forall (eq false) (cs_term c).

Definition kept (c c' : cli) : Prop := core c' = core c /\ (calm c -> calm c').

Lemma kept_refl (c : cli) : kept c c.
Proof. done. Qed.

Lemma kept_trans (c1 c2 c3 : cli) : kept c1 c2 -> kept c2 c3 -> kept c1 c3.
Proof. intros [H1 H2] [H3 H4]. split; [congruence|auto]. Qed.

(** After an attempt to send one of the frames [W]. *)
Definition emitted (W : sent -> Prop) (c : cli) (r : unit + errno) (c' : cli) : Prop :=
  kept c c' /\
  (exists x p, W x /\ out (cs_sock c') = out (cs_sock c) ++ p /\
    match r with inl _ => p = sent_bytes x | inr e => e <> EINTR /\ p `prefix_of` sent_bytes x end) /\
  (healthy (cs_sock c) -> r = inl tt /\ healthy (cs_sock c')).

Lemma on_socket_send (m : io unit) (x : sent) (W : sent -> Prop) (c : cli) :
  W x -> blen (sent_payload x) <= OPTY_MAX_FRAME - 1 ->
  (forall s, m s = opty_send_frame (sent_type x) (Some (sent_payload x)) (blen (sent_payload x)) s) ->
  wp (on_socket m) (emitted W c) c.
Proof.
  intros Hx Hl Hm. unfold wp, on_socket, on_fd. rewrite Hm.
  destruct (opty_send_frame _ _ _ (cs_sock c)) as [r s'] eqn:E.
  pose proof (opty_send_frame_spec _ _ _ _ _ Hl E) as [Hpost Hh].
  destruct r as [[]|e|]; [| |done].
  - destruct Hpost as (Ho&Hi&_). split_and!; [split; [|done]; unfold core; cbn; by rewrite Hi| |].
    + by exists x, (sent_bytes x).
    + intros Hs. by destruct (Hh Hs) as [_ ?].
  - apply send_frame_not_eintr in E. destruct Hpost as (k&_&Ho&Hi&_).
    split_and!; [split; [|done]; unfold core; cbn; by rewrite Hi| |].
    + exists x, (take k (sent_bytes x)). split_and!; [done|done|done|].
      eexists. symmetry. apply take_drop.
    + intros Hs. by destruct (Hh Hs) as [? _].
Qed.

Lemma winsize_kept (c : cli) :
  wp sys_winsize (fun r c' => kept c c' /\ cs_sock c' = cs_sock c /\
    forall w h, r = Some (w, h) -> 0 <= w < 2 ^ 16 /\ 0 <= h < 2 ^ 16) c.
Proof.
  unfold wp, sys_winsize. destruct (cs_sizes c) as [|[[w h]|] rest]; cbn.
  - done.
  - split_and!; try done. intros ? ? [= <- <-]. split; by apply Z.mod_pos_bound.
  - done.
Qed.

(** The window the client reports is never empty. *)
Lemma terminal_size_ok (c : cli) :
  wp get_terminal_size (fun '(cols, rows) c' => kept c c' /\ cs_sock c' = cs_sock c /\
    0 < cols < 2 ^ 16 /\ 0 < rows < 2 ^ 16) c.
Proof.
  unfold get_terminal_size. apply wp_bind. eapply wp_mono; [apply winsize_kept|].
  intros r c1 (Hk1&Hs1&Hr1). apply wp_bind.
  apply (wp_mono _ (fun ws c' => kept c c' /\ cs_sock c' = cs_sock c /\
    forall w h, ws = Some (w, h) -> 0 <= w < 2 ^ 16 /\ 0 <= h < 2 ^ 16)).
  - destruct r as [[w h]|]; [by apply wp_ret|].
    eapply wp_mono; [apply winsize_kept|]. intros r c2 (Hk2&Hs2&Hr2).
    split_and!; [by eapply kept_trans|congruence|done].
  - intros ws c2 (Hk2&Hs2&Hr2). apply wp_ret. destruct ws as [[w h]|].
    + destruct (Hr2 w h eq_refl). split_and!; try done; try by apply Hk2.
      all: repeat case_match; lia.
    + split_and!; try done; by apply Hk2.
Qed.

(** [emitted], for frames of which the terminal size is asked first. *)
Lemma emitted_after (W : sent -> Prop) (c c1 : cli) (r : unit + errno) (c2 : cli) :
  kept c c1 -> cs_sock c1 = cs_sock c -> emitted W c1 r c2 -> emitted W c r c2.
Proof.
  intros Hk Hs (Hk'&Hx&Hh). rewrite Hs in Hx, Hh.
  split; [by eapply kept_trans|]. done.
Qed.

Definition intros_of (reconnect : bool) (seq : Z) (token : bytes) (x : sent) : Prop :=
  exists cols rows, x = SIntro reconnect seq cols rows token /\
    0 < cols < 2 ^ 16 /\ 0 < rows < 2 ^ 16.

Definition resizes (x : sent) : Prop :=
  exists cols rows, x = SResize cols rows /\ 0 < cols < 2 ^ 16 /\ 0 < rows < 2 ^ 16.

Definition token_fits (token : option bytes) : Prop := blen (default [] token) <= OPTY_MAX_TOKEN.

Lemma send_token_eq (type seq cols rows : Z) (token : option bytes) (ws : bool) (s : stream) :
  token_fits token ->
  opty_send_tokenized_intro type seq cols rows token ws s =
  opty_send_frame type (Some (intro_payload seq cols rows (default [] token) ws))
    (blen (intro_payload seq cols rows (default [] token) ws)) s.
Proof.
  intros H. destruct token as [t|]; [by apply send_intro_eq|done].
Qed.

Lemma send_intro_ok (reconnect : bool) (seq : Z) (token : option bytes) (c : cli) :
  token_fits token ->
  wp (send_intro reconnect seq token) (emitted (intros_of reconnect seq (default [] token)) c) c.
Proof.
  intros Ht. unfold send_intro. apply wp_bind. eapply wp_mono; [apply terminal_size_ok|].
  intros [cols rows] c1 (Hk&Hs&Hc&Hr).
  eapply wp_mono; [|intros r c2; by apply emitted_after].
  assert (forall type, type = sent_type (SIntro reconnect seq cols rows (default [] token)) ->
    wp (on_socket (opty_send_tokenized_intro type seq cols rows token reconnect))
      (emitted (intros_of reconnect seq (default [] token)) c1) c1) as Hsend.
  { intros type ->. eapply on_socket_send; [by exists cols, rows| |intros s; by apply send_token_eq].
    cbn [sent_payload]. rewrite intro_payload_length.
    unfold token_fits, OPTY_MAX_TOKEN, OPTY_MAX_FRAME in *. case_match; lia. }
  destruct reconnect; exact (Hsend _ eq_refl).
Qed.

Lemma send_resize_ok (c : cli) : wp send_resize_now (emitted resizes c) c.
Proof.
  unfold send_resize_now. apply wp_bind. eapply wp_mono; [apply terminal_size_ok|].
  intros [cols rows] c1 (Hk&Hs&Hc&Hr).
  eapply wp_mono; [|intros r c2; by apply emitted_after].
  apply (on_socket_send _ (SResize cols rows)); [by exists cols, rows| |done].
  cbn [sent_payload]. rewrite blen_app, !put_u16_length. by vm_compute.
Qed.

Lemma send_stdin_ok (buf : bytes) (c : cli) :
  blen buf <= 4096 ->
  wp (on_socket (opty_send_stdin (Some buf) (blen buf))) (emitted (eq (SStdin buf)) c) c.
Proof.
  intros H. apply (on_socket_send _ (SStdin buf)); [done| |done].
  unfold OPTY_MAX_FRAME. cbn [sent_payload]. lia.
Qed.

Lemma terminate_pending_ok (c : cli) :
  wp terminate_pending (fun b c' => kept c c' /\ cs_sock c' = cs_sock c /\
    (calm c -> b = false)) c.
Proof.
  unfold wp, terminate_pending. destruct (cs_term c) as [|[] rest] eqn:E;
    unfold kept, calm; cbn; rewrite E; split_and!; try done.
  - intros Hc. by apply Forall_cons in Hc as [? _].
  - intros Hc. by apply Forall_cons in Hc as [_ ?].
Qed.

(** After a loop around a send: the frame went out, or the session ends. *)
Definition sent_or_over (W : sent -> Prop) (c : cli) (r : option Z) (c' : cli) : Prop :=
  kept c c' /\
  (exists x p, W x /\ out (cs_sock c') = out (cs_sock c) ++ p /\
    match r with
    | None => p = sent_bytes x
    | Some rc => p `prefix_of` sent_bytes x /\ (rc = 0 \/ rc = 1)
    end) /\
  (healthy (cs_sock c) -> r = None /\ healthy (cs_sock c')).

Lemma send_loop_ok (W : sent -> Prop) (send : cliM (unit + errno)) (c : cli) :
  wp send (emitted W c) c -> wp (send_loop SEND_FUEL send) (sent_or_over W c) c.
Proof.
  intros Hsend. unfold SEND_FUEL. cbn [send_loop]. apply wp_bind.
  eapply wp_mono; [exact Hsend|]. intros r c1 (Hk&(x&p&Hx&Ho&Hp)&Hh). destruct r as [u|e].
  - apply wp_ret. split; [done|]. split; [by exists x, p|]. intros Hs. by destruct (Hh Hs).
  - destruct Hp as [He Hp]. apply wp_bind. eapply wp_mono; [apply terminate_pending_ok|].
    intros b c2 (Hk2&Hs2&_).
    assert (forall rc, rc = 0 \/ rc = 1 -> sent_or_over W c (Some rc) c2) as Hover.
    { intros rc Hrc. split; [by eapply kept_trans|]. rewrite Hs2. split; [by exists x, p|].
      intros Hs. by destruct (Hh Hs). }
    destruct b; [apply wp_ret; auto|]. rewrite decide_False by done. apply wp_ret; auto.
Qed.

Lemma ack_loop_ok (c : cli) :
  wp (ack_loop SEND_FUEL) (fun rc c' =>
    sent_or_over (eq (SAck (cs_last_seq c))) c (if rc =? 0 then None else Some rc) c' /\
    (rc = 0 \/ rc = 1)) c.
Proof.
  unfold SEND_FUEL. cbn [ack_loop]. apply wp_bind. cbn.
  apply wp_bind. eapply wp_mono.
  { apply (on_socket_send _ (SAck (cs_last_seq c)) (eq (SAck (cs_last_seq c)))); [done|by vm_compute|done]. }
  intros [u|e] c1 (Hk&(x&p&<-&Ho&Hp)&Hh).
  - apply wp_ret. split; [|auto]. split; [done|]. split; [by eexists _, p|].
    intros Hs. by destruct (Hh Hs).
  - destruct Hp as [He Hp]. rewrite decide_False by done. apply wp_ret. split; [|auto].
    split; [done|]. split; [|intros Hs; by destruct (Hh Hs)].
    exists (SAck (cs_last_seq c)), p. change (1 =? 0) with false. cbv iota. auto 10.
Qed.

(** ** Writing *)

(** [c'] is [c] after writing to stdout and the log. *)
Definition wrote_out (c c' : cli) : Prop :=
  cs_sock c' = cs_sock c /\ cs_stdin c' = cs_stdin c /\ cs_last_seq c' = cs_last_seq c /\
  cs_polls c' = cs_polls c /\ cs_term c' = cs_term c.

Lemma wrote_out_trans (c1 c2 c3 : cli) : wrote_out c1 c2 -> wrote_out c2 c3 -> wrote_out c1 c3.
Proof. intros (?&?&?&?&?) (?&?&?&?&?). split_and!; congruence. Qed.

Lemma write_full_status (p : bytes) (s s' : stream) (r : outcome Z) :
  opty_write_full p s = (r, s') ->
  match r with
  | Done _ => out s' = out s ++ p
  | Fail _ => exists q, q `prefix_of` p /\ out s' = out s ++ q
  | UB => False
  end /\ (healthy s -> (exists n, r = Done n) /\ healthy s').
Proof.
  intros H. apply opty_write_full_spec in H as [Hp Hh]. split; [|done].
  destruct r as [n|e|]; [| |done].
  - destruct Hp as [_ [-> _]]. done.
  - destruct Hp as (k&_&[-> _]). exists (take k p). split; [|done]. eexists. symmetry. apply take_drop.
Qed.

Lemma write_stdout_ok (data : bytes) (c : cli) :
  wp (write_stdout_bytes data) (fun rc c' =>
    wrote_out c c' /\ cs_log c' = cs_log c /\
    (exists q, q `prefix_of` data /\ out (cs_stdout c') = out (cs_stdout c) ++ q /\
      (rc = 0 -> q = data)) /\ (rc = 0 \/ rc = -1) /\
    (healthy (cs_stdout c) -> rc = 0 /\ healthy (cs_stdout c'))) c.
Proof.
  unfold write_stdout_bytes. destruct (Z.eqb_spec (blen data) 0) as [Hz|_].
  { apply wp_ret. split_and!; try done; [|by left]. apply blen_0 in Hz as ->. exists [].
    by rewrite app_nil_r. }
  apply wp_bind. unfold wp at 1, on_fd. destruct (opty_write_full data (cs_stdout c)) as [r s'] eqn:E.
  apply write_full_status in E as [Hp Hh].
  destruct r as [n|e|]; [| |done]; apply wp_ret; cbn; (split_and!; [done..| | |]).
  - exists data. by split_and!.
  - by left.
  - intros Hs. by destruct (Hh Hs).
  - destruct Hp as (q&?&?). by exists q.
  - by right.
  - intros Hs. by destruct (Hh Hs) as [[? ?] _].
Qed.

Definition log_grew (l l' : option stream) (data : bytes) : Prop :=
  match l, l' with
  | Some s, Some s' => out s' = out s ++ data
  | None, None => True
  | _, _ => False
  end.

Definition log_healthy (l : option stream) : Prop := match l with Some s => healthy s | None => True end.

Lemma write_scrollback_ok (data : bytes) (c : cli) :
  wp (write_scrollback data) (fun rc c' =>
    wrote_out c c' /\ cs_stdout c' = cs_stdout c /\
    (rc = 0 -> log_grew (cs_log c) (cs_log c') data) /\ (rc = 0 \/ rc = -1) /\
    (log_healthy (cs_log c) -> rc = 0 /\ log_healthy (cs_log c'))) c.
Proof.
  unfold write_scrollback, wp. destruct (cs_log c) as [log|] eqn:El.
  2:{ rewrite El. split_and!; try done. by left. }
  destruct (Z.eqb_spec (blen data) 0) as [Hz|_].
  { apply blen_0 in Hz as ->. rewrite El. cbn. rewrite app_nil_r. split_and!; try done. by left. }
  unfold mbind, cli_bind, on_fd. destruct (opty_write_full data log) as [r s'] eqn:E.
  apply write_full_status in E as [Hp Hh].
  destruct r as [n|e|]; [| |done]; cbn; (split_and!; try done; [by auto|]).
  - intros Hs. by destruct (Hh Hs).
  - intros Hs. by destruct (Hh Hs) as [[? ?] _].
Qed.
