(* ===== verification/ClientStream.v ===== *)
(** * A session, followed

    The client is followed through a session with a peer that sends a list of items (or
    a prefix of their bytes): what it has printed, logged, acknowledged and typed is a
    function of the items it has taken, at every round of the loop. *)

From S2P Require Import Prelude.
From S2P Require Import Io.
From S2P Require Import Wire.
From S2P Require Import Messages.
From S2P Require Import Consume.
From S2P Require Import Client.
From S2P Require Import ClientSpec.

(** The acknowledgements due after the items, for a client that was at [n]. *)
Fixpoint ack_positions (n : Z) (l : list item) : list Z :=
  match l with
  | [] => []
  | IWelcome _ _ :: rest => ack_positions n rest
  | i :: rest => item_seq n i :: ack_positions (item_seq n i) rest
  end.

Lemma ack_positions_snoc (n : Z) (l : list item) (i : item) :
  ack_positions n (l ++ [i]) =
  ack_positions n l ++ (if is_welcome i then [] else [item_seq (items_seq n l) i]).
Proof.
  revert n. induction l as [|j l IH]; intros n.
  - by destruct i.
  - destruct j as [b m|r seq data]; cbn [ack_positions app].
    + by rewrite IH.
    + rewrite IH. done.
Qed.

Lemma acks_app (fs gs : list sent) : acks (fs ++ gs) = acks fs ++ acks gs.
Proof. unfold acks. by rewrite omap_app. Qed.

Lemma typed_app (fs gs : list sent) : typed (fs ++ gs) = typed fs ++ typed gs.
Proof. unfold typed. by rewrite omap_app, concat_app. Qed.

Lemma all_sent_snoc (fs : list sent) (x : sent) : all_sent (fs ++ [x]) = all_sent fs ++ sent_bytes x.
Proof. unfold all_sent. rewrite fmap_app, concat_app. cbn. by rewrite app_nil_r. Qed.

Definition is_intro (x : sent) : bool := match x with SIntro _ _ _ _ _ => true | _ => false end.

(** The user does not type and [poll] does not fail. *)
Definition idle_poll (ev : poll_ev) : Prop :=
  match ev with PollErr e => e = EINTR | PollReady _ stdin_ready => stdin_ready = false end.

Section Session.

Variable malloc_ok : Z -> bool.

(** The state before the session, its intro frame, all the items of the peer. *)
Variables (c0 : cli) (intro : sent) (items : list item).
Hypothesis items_fine : Forall item_ok items.
Hypothesis seq_range : 0 <= cs_last_seq c0 < 2 ^ 64.

(** The kernel keeps serving the client, and the peer's bytes all arrive. *)
Record undisturbed (c : cli) (p : bytes) : Prop := {
  un_calm : calm c;
  un_sock : healthy (cs_sock c);
  un_stdout : healthy (cs_stdout c);
  un_log : log_healthy (cs_log c);
  un_polls : Forall idle_poll (cs_polls c);
  un_benign : Forall benign_rd (inq (cs_sock c));
  un_content : content (inq (cs_sock c)) = p;
  un_malloc : forall n, malloc_ok n = true
}.

(** [lively]: whether the session is undisturbed from the start. *)
Variable lively : Prop.

(** [done] is printed.  Between two steps nothing is pending: the items on the way are
    [todo], no acknowledgement is owed, no input is in hand. *)
Record track (c : cli) (done todo coming : list item) (owed : list Z) (inhand : bytes)
    (fs : list sent) : Prop := {
  tr_items : items = done ++ todo;
  tr_coming : content (inq (cs_sock c)) `prefix_of` items_bytes coming;
  tr_stdout : out (cs_stdout c) = out (cs_stdout c0) ++ items_data done;
  tr_seq : cs_last_seq c = items_seq (cs_last_seq c0) done;
  tr_log : log_grew (cs_log c0) (cs_log c) (items_data done);
  tr_sock : out (cs_sock c) = out (cs_sock c0) ++ all_sent fs;
  tr_first : exists rest, fs = intro :: rest /\ Forall (fun x => is_intro x = false) rest;
  tr_stdin : content (inq (cs_stdin c0)) = typed fs ++ inhand ++ content (inq (cs_stdin c));
  tr_acks : acks fs ++ owed = ack_positions (cs_last_seq c0) done;
  tr_lively : lively -> undisturbed c (items_bytes coming)
}.

Definition at_round (c : cli) (done todo : list item) (fs : list sent) : Prop :=
  track c done todo todo [] [] fs.

(** How a session can end, with [exact] when nothing went wrong with stdout or the
    log: [extra] is the part of the next item that was printed before a write failed,
    [part] the part of a frame that was sent before a send failed, [lost] the input
    that was read and could not be sent. *)
Record halted_with (exact : Prop) (c : cli) (done todo : list item) (fs : list sent)
    (extra part lost : bytes) : Prop := {
  ha_items : items = done ++ todo;
  ha_stdout : out (cs_stdout c) = out (cs_stdout c0) ++ items_data done ++ extra;
  ha_extra : extra `prefix_of` items_data todo;
  ha_exact : exact -> extra = [];
  ha_log : exact -> log_grew (cs_log c0) (cs_log c) (items_data done);
  ha_seq : cs_last_seq c = items_seq (cs_last_seq c0) done;
  ha_sock : out (cs_sock c) = out (cs_sock c0) ++ all_sent fs ++ part;
  ha_part : exists x, part `prefix_of` sent_bytes x;
  ha_first : fs = [] /\ part `prefix_of` sent_bytes intro \/
             exists rest, fs = intro :: rest /\ Forall (fun x => is_intro x = false) rest;
  ha_stdin : content (inq (cs_stdin c0)) = typed fs ++ lost ++ content (inq (cs_stdin c));
  ha_acks : acks fs `prefix_of` ack_positions (cs_last_seq c0) done;
  ha_lively : lively -> todo = []
}.

Definition halted (exact : Prop) (c : cli) : Prop :=
  exists done todo fs extra part lost, halted_with exact c done todo fs extra part lost.

(** The end of a session that returns [rc]. *)
Definition ended (rc : Z) (c : cli) : Prop :=
  halted (rc = 1 \/ lively) c /\ (rc = 1 \/ rc = 0 \/ rc = -1) /\ (lively -> rc = 0).

(** What the end of a session looks at. *)
Definition outs (c : cli) : stream * stream * option stream * Z * bytes :=
  (cs_stdin c, cs_stdout c, cs_log c, cs_last_seq c, out (cs_sock c)).

Lemma halted_same (P : Prop) (c c' : cli) : outs c' = outs c -> halted P c -> halted P c'.
Proof.
  unfold outs. intros Hs (done&todo&fs&extra&part&lost&[]). injection Hs as Hi Ho Hl Hq Hk.
  exists done, todo, fs, extra, part, lost. split; rewrite ?Hi, ?Ho, ?Hl, ?Hq, ?Hk; done.
Qed.

Lemma kept_outs (c c' : cli) : kept c c' -> cs_sock c' = cs_sock c -> outs c' = outs c.
Proof. intros [Hk _] Hs. unfold core in Hk. unfold outs. injection Hk as -> -> -> -> _ _. by rewrite Hs. Qed.

(** A session that stops, whatever is pending. *)
Lemma track_halted (P : Prop) (c : cli) (done todo coming : list item) (owed : list Z)
    (inhand : bytes) (fs : list sent) :
  track c done todo coming owed inhand fs -> (lively -> todo = []) -> halted P c.
Proof.
  intros [H1 _ H3 H4 H5 H6 (rest&H7&H8) H9 H10 _] Hl.
  exists done, todo, fs, [], [], inhand. split; rewrite ?app_nil_r; try done; try apply prefix_nil.
  - exists intro. apply prefix_nil.
  - right. eauto.
  - by exists owed.
Qed.

(** Steps that the tracked parts do not notice. *)
Lemma track_kept (c c' : cli) (done todo coming : list item) (owed : list Z) (inhand : bytes)
    (fs : list sent) :
  kept c c' -> cs_sock c' = cs_sock c -> track c done todo coming owed inhand fs ->
  track c' done todo coming owed inhand fs.
Proof.
  intros [Hk Hc] Hs [H1 H2 H3 H4 H5 H6 H7 H8 H9 H10]. unfold core in Hk. injection Hk as Hi Ho Hl Hq Hp _.
  split; rewrite ?Hi, ?Ho, ?Hl, ?Hq, ?Hs; try done.
  intros HL. destruct (H10 HL). split; rewrite ?Hi, ?Ho, ?Hl, ?Hq, ?Hs, ?Hp; auto.
Qed.

(** A frame that was sent pays what is owed and sends what is in hand. *)
Lemma track_sent (c c' : cli) (done todo coming : list item) (owed owed' : list Z)
    (inhand inhand' : bytes) (fs : list sent) (x : sent) :
  track c done todo coming owed inhand fs ->
  kept c c' -> out (cs_sock c') = out (cs_sock c) ++ sent_bytes x ->
  (healthy (cs_sock c) -> healthy (cs_sock c')) -> is_intro x = false ->
  owed = acks [x] ++ owed' -> inhand = typed [x] ++ inhand' ->
  track c' done todo coming owed' inhand' (fs ++ [x]).
Proof.
  intros [H1 H2 H3 H4 H5 H6 (rest&->&H7) H8 H9 H10] [Hk Hc] Ho Hh Hx -> ->.
  unfold core in Hk. injection Hk as Hi Hso Hl Hq Hp Hin.
  split; rewrite ?Hi, ?Hso, ?Hl, ?Hq, ?Hin; try done.
  - by rewrite Ho, H6, all_sent_snoc, app_assoc.
  - exists (rest ++ [x]). split; [done|]. apply Forall_app_2; [done|by apply Forall_singleton].
  - rewrite H8, typed_app, <- !app_assoc. done.
  - rewrite <- H9, acks_app, <- !app_assoc. done.
  - intros HL. destruct (H10 HL). split; rewrite ?Hi, ?Hso, ?Hl, ?Hq, ?Hin, ?Hp; auto.
Qed.

(** A session that stops because a send failed, after [p]. *)
Lemma track_send_failed (P : Prop) (c c' : cli) (done todo coming : list item) (owed : list Z)
    (inhand : bytes) (fs : list sent) (x : sent) (p : bytes) :
  track c done todo coming owed inhand fs ->
  kept c c' -> out (cs_sock c') = out (cs_sock c) ++ p -> p `prefix_of` sent_bytes x ->
  (lively -> False) -> halted P c'.
Proof.
  intros [H1 _ H3 H4 H5 H6 (rest&H7&H8) H9 H10 _] [Hk _] Ho Hp HL.
  unfold core in Hk. injection Hk as Hi Hso Hl Hq _ _.
  exists done, todo, fs, [], p, inhand. split; rewrite ?Hi, ?Hso, ?Hl, ?Hq, ?app_nil_r; try done;
    try apply prefix_nil.
  - by rewrite Ho, H6, app_assoc.
  - eauto.
  - right. eauto.
  - by exists owed.
Qed.

(** After a loop around a send. *)
Lemma track_loop (W : sent -> Prop) (c c' : cli) (done todo coming : list item)
    (owed owed' : list Z) (inhand inhand' : bytes) (fs : list sent) (r : option Z) :
  track c done todo coming owed inhand fs -> sent_or_over W c r c' ->
  (forall x, W x -> is_intro x = false /\ owed = acks [x] ++ owed' /\ inhand = typed [x] ++ inhand') ->
  cs_polls c' = cs_polls c /\ inq (cs_sock c') = inq (cs_sock c) /\
  match r with
  | None => exists fs', track c' done todo coming owed' inhand' fs'
  | Some rc => halted True c' /\ (rc = 0 \/ rc = 1) /\ (lively -> False)
  end.
Proof.
  intros H (Hk&(x&p&Hx&Ho&Hp)&Hh) HW. destruct (HW x Hx) as (?&?&?).
  pose proof Hk as [Hc _]. unfold core in Hc. injection Hc as _ _ _ _ -> ->.
  split_and!; [done..|]. destruct r as [rc|].
  - destruct Hp as [Hp Hrc].
    assert (lively -> False) as HL by (intros HL; by destruct (Hh (un_sock _ _ (tr_lively _ _ _ _ _ _ _ H HL)))).
    split; [|done]. by eapply track_send_failed.
  - subst p. exists (fs ++ [x]). eapply track_sent; try done. intros Hs. by destruct (Hh Hs).
Qed.

(** *** Receiving *)

Lemma items_bytes_cons (i : item) (l : list item) : items_bytes (i :: l) = item_bytes i ++ items_bytes l.
Proof. done. Qed.

Lemma item_bytes_not_nil (i : item) (x : bytes) : item_bytes i ++ x <> [].
Proof. unfold item_bytes, encode_frame, put_wire_len. done. Qed.

(** What a receiver finds on the socket: the next item, or nothing whole. *)
Lemma recv_item (c : cli) (done todo : list item) (fs : list sent) :
  at_round c done todo fs ->
  wp (on_socket (opty_recv_frame malloc_ok)) (fun r c' =>
    cs_polls c' = cs_polls c /\
    match r with
    | inl (RecvFrame f) => exists i rest, todo = i :: rest /\ f = item_frame i /\
        track c' done todo rest [] [] fs /\
        (length (content (inq (cs_sock c'))) < length (content (inq (cs_sock c))))%nat
    | inl RecvEof => outs c' = outs c /\ (lively -> todo = [])
    | inr e => e <> EINTR /\ outs c' = outs c /\ (lively -> False)
    end) c.
Proof.
  intros H. pose proof H as [H1 H2 H3 H4 H5 H6 H7 H8 H9 H10].
  unfold wp, on_socket, on_fd.
  destruct (opty_recv_frame malloc_ok (cs_sock c)) as [r s'] eqn:E.
  pose proof (opty_recv_frame_limited_spec malloc_ok _ _ _ _ E) as [(Ho&Hoq&Hw) Hr].
  assert (outs (set_cs_sock s' c) = outs c) as Houts by (unfold outs; cbn; by rewrite Ho).
  assert (lively -> match todo with
    | [] => r = Done RecvEof
    | i :: rest => r = Done (RecvFrame (item_frame i)) /\ Forall benign_rd (inq s') /\
        content (inq s') = items_bytes rest
    end) as HL.
  { intros HL. destruct (H10 HL) as [_ _ _ _ _ Hb Hc Hm]. destruct todo as [|i rest].
    - unfold opty_recv_frame, opty_recv_frame_limited in E. cbn in Hc.
      destruct (opty_read_full_short 4 (cs_sock c)) as (s1&He&_); [by rewrite Hc|done|].
      rewrite He, bool_decide_true in E by done. by simplify_eq.
    - rewrite items_bytes_cons in Hc. rewrite H1 in items_fine.
      apply Forall_app in items_fine as [_ Hi]. apply Forall_cons in Hi as [Hi _].
      apply item_fits in Hi as [Ht Hl].
      destruct (opty_recv_frame_limited_encode malloc_ok (OPTY_MAX_FRAME - 1) (item_type i)
        (item_payload i) (items_bytes rest) (cs_sock c) Ht (Hm _) Hl Hl Hc Hb)
        as (s1&He&_&Hb1&Hc1).
      unfold opty_recv_frame in E. rewrite He in E. by simplify_eq. }
  destruct r as [[f|]|e|]; [| | |done]; (split; [done|]).
  - apply recv_frame_content in E as (Hf&Hfit&Hcon). rewrite Hcon in H2.
    destruct todo as [|i rest].
    { apply prefix_nil_inv in H2. unfold encode_frame, put_wire_len in H2. done. }
    assert (Hi := items_fine). rewrite H1 in Hi. apply Forall_app in Hi as [_ Hi].
    apply Forall_cons in Hi as [Hi _]. rewrite items_bytes_cons in H2.
    apply item_fits in Hi. unfold item_bytes in H2.
    apply (encode_frame_inj _ _ _ _ _ _ Hfit Hi) in H2 as (Ht&Hp&H2).
    exists i, rest. split; [done|]. split; [by rewrite Hf, Ht, Hp|]. split.
    + split; cbn; try done; [by rewrite Ho|]. intros HL'. destruct (HL HL') as (_&?&?).
      destruct (H10 HL'). split; cbn; try done. unfold healthy in *. by rewrite Hw, Hoq.
    + cbn. rewrite Hcon, length_app. unfold encode_frame. rewrite length_app. simpl length. lia.
  - split; [done|]. intros HL'. specialize (HL HL'). destruct todo; [done|]. by destruct HL.
  - split; [by eapply recv_not_eintr|]. split; [done|]. intros HL'. specialize (HL HL').
    destruct todo; [done|]. by destruct HL.
Qed.

(** *** Processing an item *)

(** An item of data that was printed and logged: an acknowledgement is owed. *)
Lemma track_data (c c' : cli) (done rest : list item) (fs : list sent) (r : bool) (seq : Z)
    (data : bytes) :
  let i := IData r seq data in
  track c done (i :: rest) rest [] [] fs -> item_ok i ->
  wrote_out c c' -> out (cs_stdout c') = out (cs_stdout c) ++ data ->
  log_grew (cs_log c) (cs_log c') data ->
  (lively -> healthy (cs_stdout c') /\ log_healthy (cs_log c')) ->
  let n := advance_seq seq (blen data) (cs_last_seq c') in
  track (set_cs_last_seq n c') (done ++ [i]) rest rest [n] [] fs.
Proof.
  intros i H Hi (Hs&Hin&Hq&Hpo&Hte) Ho Hlog HL n.
  destruct H as [H1 H2 H3 H4 H5 H6 H7 H8 H9 H10].
  assert (n = item_seq (items_seq (cs_last_seq c0) done) i) as Hn.
  { unfold n, i. rewrite Hq, H4. cbn. pose proof (blen_nonneg data).
    destruct Hi as (?&?&_). apply advance_seq_max. lia. }
  split; cbn; rewrite ?Hs, ?Hin; try done.
  - rewrite H1. by rewrite <- app_assoc.
  - by rewrite Ho, H3, items_data_snoc, app_assoc.
  - by rewrite items_seq_snoc.
  - rewrite items_data_snoc. unfold log_grew in *. destruct (cs_log c0), (cs_log c), (cs_log c'); try done.
    by rewrite Hlog, H5, app_assoc.
  - rewrite ack_positions_snoc, <- H9, app_nil_r. by rewrite Hn.
  - intros HL'. destruct (H10 HL'), (HL HL'). split; cbn; unfold calm in *; rewrite ?Hs, ?Hpo; try done.
    cbn. by rewrite Hte.
Qed.

(** An item of which [q] was printed before a write failed. *)
Lemma track_print_failed (c c' : cli) (done rest coming : list item) (i : item) (fs : list sent)
    (q : bytes) :
  track c done (i :: rest) coming [] [] fs -> wrote_out c c' ->
  out (cs_stdout c') = out (cs_stdout c) ++ q -> q `prefix_of` item_data i ->
  (lively -> False) -> halted False c'.
Proof.
  intros [H1 _ H3 H4 H5 H6 (tl&H7&H8) H9 H10 _] (Hs&Hin&Hq&_&_) Ho Hp HL.
  exists done, (i :: rest), fs, q, [], []. split; rewrite ?Hs, ?Hin, ?Hq, ?app_nil_r; try done;
    try apply prefix_nil.
  - by rewrite Ho, H3, app_assoc.
  - unfold items_data. cbn. by apply prefix_app_r.
  - exists intro. apply prefix_nil.
  - right. eauto.
  - by rewrite <- H10, app_nil_r.
Qed.

Lemma process_welcome (c : cli) (done rest : list item) (b n : Z) (fs : list sent) (saw : bool) :
  track c done (IWelcome b n :: rest) rest [] [] fs ->
  wp (process_server_frame (item_frame (IWelcome b n)) saw) (fun '(rc, saw') c' =>
    cs_polls c' = cs_polls c /\ inq (cs_sock c') = inq (cs_sock c) /\
    ((rc = 0 /\ saw' = saw || is_welcome (IWelcome b n) /\ exists fs', at_round c' (done ++ [IWelcome b n]) rest fs') \/
     (rc = 1 /\ halted True c' /\ (lively -> False)) \/
     (rc = -1 /\ halted False c' /\ (lively -> False)))) c.
Proof.
  intros H. pose proof H as [H1 H2 H3 H4 H5 H6 H7 H8 H9 H10].
  assert (Hi := items_fine). rewrite H1 in Hi. apply Forall_app in Hi as [_ Hi].
  apply Forall_cons in Hi as [Hi _].
  unfold process_server_frame. rewrite parse_item_welcome by done.
  replace (f_type _ =? msg_code OPTY_MSG_WELCOME) with true by done. cbv iota. apply wp_ret. split_and!; try done.
  left. split_and!; [done|by rewrite orb_true_r|]. exists fs.
  split; try done; [by rewrite H1, <- app_assoc|..];
    rewrite ?items_data_snoc, ?items_seq_snoc, ?ack_positions_snoc, ?app_nil_r; try done.
  by rewrite app_nil_r in H9.
Qed.

Lemma process_data (c : cli) (done rest : list item) (r : bool) (seq : Z) (data : bytes)
    (fs : list sent) (saw : bool) :
  track c done (IData r seq data :: rest) rest [] [] fs ->
  wp (process_server_frame (item_frame (IData r seq data)) saw) (fun '(rc, saw') c' =>
    cs_polls c' = cs_polls c /\ inq (cs_sock c') = inq (cs_sock c) /\
    ((rc = 0 /\ saw' = saw || is_welcome (IData r seq data) /\ exists fs', at_round c' (done ++ [IData r seq data]) rest fs') \/
     (rc = 1 /\ halted True c' /\ (lively -> False)) \/
     (rc = -1 /\ halted False c' /\ (lively -> False)))) c.
Proof.
  intros H. pose proof H as [H1 H2 H3 H4 H5 H6 H7 H8 H9 H10].
  assert (Hi := items_fine). rewrite H1 in Hi. apply Forall_app in Hi as [_ Hi].
  apply Forall_cons in Hi as [Hi _].
  unfold process_server_frame, process_stream. rewrite parse_item_data by done.
  replace (f_type _ =? msg_code OPTY_MSG_WELCOME) with false by (by destruct r).
  replace (_ || _) with true by (by destruct r). cbv iota. apply wp_bind, wp_bind.
  eapply wp_mono; [apply write_stdout_ok|]. intros rc c1 (Hw1&Hl1&(q&Hq&Ho1&Hrc1)&Hcase&Hh1).
  assert (inq (cs_sock c1) = inq (cs_sock c) /\ cs_polls c1 = cs_polls c) as [Hin1 Hp1]
    by (destruct Hw1 as (->&_&_&->&_); done).
  destruct Hcase as [->| ->]; cbn [Z.ltb Z.compare].
  2:{ apply wp_ret, wp_ret. split_and!; [done..|]. right. right.
      assert (lively -> False) by (intros HL; by destruct (Hh1 (un_stdout _ _ (H10 HL)))).
      split_and!; [done| |done]. by eapply track_print_failed. }
  rewrite (Hrc1 eq_refl) in Ho1.
  apply wp_bind. eapply wp_mono; [apply write_scrollback_ok|].
  intros rc c2 (Hw2&Hs2&Hlog2&Hcase&Hh2). rewrite Hl1 in *.
  assert (inq (cs_sock c2) = inq (cs_sock c) /\ cs_polls c2 = cs_polls c) as [Hin2 Hp2]
    by (destruct Hw2 as (->&_&_&->&_); done).
  pose proof (wrote_out_trans _ _ _ Hw1 Hw2) as Hw.
  destruct Hcase as [->| ->]; cbn [Z.ltb Z.compare].
  2:{ apply wp_ret, wp_ret. split_and!; [done..|]. right. right.
      assert (lively -> False) by (intros HL; by destruct (Hh2 (un_log _ _ (H10 HL)))).
      split_and!; [done| |done]. apply (track_print_failed c c2 done rest rest (IData r seq data) fs data); try done.
      by rewrite Hs2. }
  apply wp_bind, wp_get, wp_bind, wp_put.
  assert (track (set_cs_last_seq (advance_seq seq (blen data) (cs_last_seq c2)) c2)
    (done ++ [IData r seq data]) rest rest
    [advance_seq seq (blen data) (cs_last_seq c2)] [] fs) as Ht.
  { eapply track_data; try done; [by rewrite Hs2|by apply Hlog2|].
    intros HL. rewrite Hs2. split; [by apply Hh1, (un_stdout _ _ (H10 HL))
      |by apply Hh2, (un_log _ _ (H10 HL))]. }
  eapply wp_mono; [apply ack_loop_ok|]. intros rc c3 [Hsent Hrc]. apply wp_ret.
  eapply track_loop in Hsent as (Hp3&Hin3&Hr); [|done|by intros x <-].
  cbn in Hp3, Hin3. rewrite Hp3, Hin3. split_and!; [done..|].
  destruct Hrc as [->| ->]; cbn in Hr.
  + left. split_and!; [done|by rewrite orb_false_r|done].
  + right. left. split_and!; tauto.
Qed.

Lemma process_item (c : cli) (done rest : list item) (i : item) (fs : list sent) (saw : bool) :
  track c done (i :: rest) rest [] [] fs ->
  wp (process_server_frame (item_frame i) saw) (fun '(rc, saw') c' =>
    cs_polls c' = cs_polls c /\ inq (cs_sock c') = inq (cs_sock c) /\
    ((rc = 0 /\ saw' = saw || is_welcome i /\ exists fs', at_round c' (done ++ [i]) rest fs') \/
     (rc = 1 /\ halted True c' /\ (lively -> False)) \/
     (rc = -1 /\ halted False c' /\ (lively -> False)))) c.
Proof. destruct i; [apply process_welcome|apply process_data]. Qed.

(** ** The parts of a round *)

Lemma ended_halted (rc : Z) (P : Prop) (c c' : cli) :
  halted P c -> outs c' = outs c -> (rc = 1 \/ lively -> P) -> rc = 1 \/ rc = 0 \/ rc = -1 ->
  (lively -> rc = 0) -> ended rc c'.
Proof.
  intros H Ho HP Hrc HL. split; [|done].
  apply (halted_same _ _ _ Ho) in H as (done&todo&fs&extra&part&lost&[]).
  exists done, todo, fs, extra, part, lost. split; try done; auto.
Qed.

Lemma session_recv_ok (c : cli) (done todo : list item) (fs : list sent) (f : flags) :
  at_round c done todo fs ->
  wp (session_recv malloc_ok f) (fun r c' =>
    match r with
    | Next _ => exists i rest fs', todo = i :: rest /\ at_round c' (done ++ [i]) rest fs' /\
        cs_polls c' = cs_polls c /\
        (length (content (inq (cs_sock c'))) < length (content (inq (cs_sock c))))%nat
    | Again _ => False
    | Return rc => ended rc c'
    end) c.
Proof.
  intros H. unfold session_recv. apply wp_bind. eapply wp_mono; [by eapply recv_item|].
  intros r c1 [Hp1 Hr]. destruct r as [[frame|]|e].
  - destruct Hr as (i&rest&->&->&Ht&Hlen). apply wp_bind.
    eapply wp_mono; [by eapply process_item|]. intros [rc saw] c2 (Hp2&Hin2&Hcase).
    destruct Hcase as [(->&_&fs'&Hr)|[(->&Hh&HL)|(->&Hh&HL)]]; cbn [Z.ltb Z.compare].
    + apply wp_ret. exists i, rest, fs'. rewrite Hin2. split_and!; [done..|congruence|done].
    + apply wp_ret. by apply (ended_halted 1 True c2); [done|done|auto|auto|].
    + apply wp_bind. eapply wp_mono; [apply terminate_pending_ok|].
      intros b c3 (Hk&Hs&_). apply wp_ret. pose proof (kept_outs _ _ Hk Hs).
      apply (ended_halted _ False c2); [done|done| |by destruct b; auto|done].
      intros [Hb|]; [by destruct b|done].
  - destruct Hr as [Ho HL]. apply wp_ret.
    apply (ended_halted 0 True c); [by eapply track_halted|done|done|auto|done].
  - destruct Hr as (He&Ho&HL). apply wp_bind. eapply wp_mono; [apply terminate_pending_ok|].
    intros b c2 (Hk&Hs&_). apply wp_ret. rewrite decide_False by done.
    pose proof (kept_outs _ _ Hk Hs).
    assert (halted True c) as Hh by (by eapply track_halted).
    destruct b; (apply (ended_halted _ True c); [exact Hh|congruence|done|auto|done]).
Qed.

Lemma session_resize_ok (c : cli) (done todo : list item) (fs : list sent) (f : flags) :
  at_round c done todo fs ->
  wp (session_resize f) (fun r c' =>
    match r with
    | Next _ => (exists fs', at_round c' done todo fs') /\ cs_polls c' = cs_polls c /\
        inq (cs_sock c') = inq (cs_sock c)
    | Again _ => False
    | Return rc => ended rc c'
    end) c.
Proof.
  intros H. unfold session_resize. destruct (_ && _); [|apply wp_ret; eauto].
  apply wp_bind. eapply wp_mono; [apply send_loop_ok, send_resize_ok|].
  intros r c1 Hs. eapply track_loop in Hs as (Hp&Hin&Hr);
    [|exact H|by intros x (cols&rows&->&_)].
  destruct r as [rc|]; apply wp_ret; [|by split_and!].
  destruct Hr as (Hh&Hrc&HL). apply (ended_halted _ True c1); [done|done|auto|tauto|done].
Qed.

Lemma session_stdin_ok (c : cli) (done todo : list item) (fs : list sent) (f : flags) :
  at_round c done todo fs -> (lively -> False) ->
  wp (session_stdin f) (fun r c' =>
    match r with
    | Next _ | Again _ => (exists fs', at_round c' done todo fs') /\ cs_polls c' = cs_polls c /\
        inq (cs_sock c') = inq (cs_sock c)
    | Return rc => ended rc c'
    end) c.
Proof.
  intros H HL. pose proof H as [H1 H2 H3 H4 H5 H6 H7 H8 H9 H10].
  unfold wp at 1, session_stdin. destruct (sys_read 4096 (cs_stdin c)) as [r s] eqn:E.
  pose proof (sys_read_content _ _ _ _ E) as Hc. rewrite Hc in H8.
  assert (forall inhand, match r with inl bs => bs | inr _ => [] end = inhand ->
    track (set_cs_stdin s c) done todo todo [] inhand fs) as Ht.
  { intros inhand <-. by split. }
  assert (forall rc, rc = 0 -> ended rc (set_cs_stdin s c)) as Hend.
  { intros rc ->. apply (ended_halted 0 True (set_cs_stdin s c)); [|done|done|auto|done].
    by eapply track_halted; [apply Ht|]. }
  destruct r as [[|b buf]|e].
  - by apply Hend.
  - apply sys_read_spec in E as [_ [Hle _]]; [|lia].
    change (wp (r ← send_loop SEND_FUEL (on_socket (opty_send_stdin (Some (b :: buf)) (blen (b :: buf))));
      mret match r with Some rc => Return rc | None => Next f end)
      (fun r c' => match r with
        | Next _ | Again _ => (exists fs', at_round c' done todo fs') /\ cs_polls c' = cs_polls c /\
            inq (cs_sock c') = inq (cs_sock c)
        | Return rc => ended rc c'
        end) (set_cs_stdin s c)).
    apply wp_bind. eapply wp_mono; [by apply send_loop_ok, send_stdin_ok|].
    intros r c1 Hs. eapply track_loop in Hs as (Hp&Hin&Hr);
      [|by apply Ht|intros x <-; split_and!; [done|done|cbn; by rewrite !app_nil_r]].
    destruct r as [rc|]; apply wp_ret; [|by split_and!].
    destruct Hr as (Hh&Hrc&_). apply (ended_halted _ True c1); [done|done|auto|tauto|done].
  - case_decide; [|by apply Hend]. split_and!; [|done..]. exists fs. by apply Ht.
Qed.

(** ** The loop *)

Definition measure (c : cli) : nat := length (cs_polls c) + length (content (inq (cs_sock c))).

(** After a step of a round: going on, with the measure below [n], or the end. *)
Definition going (n : nat) (r : flow) (c : cli) : Prop :=
  match r with
  | Next _ | Again _ => (exists done todo fs, at_round c done todo fs) /\ (measure c < n)%nat
  | Return rc => ended rc c
  end.

Lemma then_flow_ok (m : cliM flow) (k : flags -> cliM flow) (Q : flow -> cli -> Prop) (c : cli) :
  wp m (fun r c' => match r with Next f => wp (k f) Q c' | _ => Q r c' end) c ->
  wp (then_flow m k) Q c.
Proof.
  intros H. unfold then_flow. apply wp_bind. eapply wp_mono; [exact H|]. by intros [].
Qed.

(** The end of a round, after the socket. *)
Lemma round_tail_ok (c : cli) (done todo : list item) (fs : list sent) (f : flags) (n : nat)
    (stdin_ready : bool) :
  at_round c done todo fs -> (measure c < n)%nat -> (lively -> stdin_ready = false) ->
  wp (then_flow (session_resize f) (fun f =>
        if stdin_ready then session_stdin f else mret (Next f))) (going n) c.
Proof.
  intros H Hn Hl. apply then_flow_ok. eapply wp_mono; [by eapply session_resize_ok|].
  intros [f1|f1|rc] c1 H1; [|done|done]. destruct H1 as ([fs1 H1]&Hp&Hin).
  assert (measure c1 = measure c) as Hm by (unfold measure; by rewrite Hp, Hin).
  destruct stdin_ready; [|apply wp_ret; split; [eauto|lia]].
  eapply wp_mono; [eapply session_stdin_ok; [exact H1|intros HL; by specialize (Hl HL)]|].
  intros r c2 H2. assert (forall g, (exists fs', at_round c2 done todo fs') /\ cs_polls c2 = cs_polls c1 /\
    inq (cs_sock c2) = inq (cs_sock c1) -> going n (Next g) c2) as Hg.
  { intros g ([fs2 H3]&Hp2&Hin2). split; [eauto|]. unfold measure in *. rewrite Hp2, Hin2. lia. }
  destruct r as [g|g|rc]; [by apply (Hg g)|by apply (Hg g)|done].
Qed.

Lemma session_round_ok (c : cli) (done todo : list item) (fs : list sent) (f : flags) :
  at_round c done todo fs -> wp (session_round malloc_ok f) (going (measure c)) c.
Proof.
  intros H. unfold session_round. apply wp_bind. eapply wp_mono; [apply terminate_pending_ok|].
  intros b c1 (Hk&Hs&Hcalm). assert (at_round c1 done todo fs) as H1 by (by eapply track_kept).
  assert (measure c1 = measure c) as Hm.
  { destruct Hk as [Hk _]. unfold core in Hk. injection Hk as _ _ _ _ Hp _. unfold measure. by rewrite Hp, Hs. }
  rewrite <- Hm. clear Hm. destruct b.
  { apply wp_ret. apply (ended_halted 0 True c1); [by eapply track_halted; [exact H1|];
      intros HL; specialize (Hcalm (un_calm _ _ (tr_lively _ _ _ _ _ _ _ H HL)))|done|done|auto|done]. }
  apply wp_bind.
  assert (wp winch_pending (fun _ c2 => at_round c2 done todo fs /\ measure c2 = measure c1) c1) as Hw.
  { unfold wp, winch_pending. destruct (cs_winch c1); (split; [|done]); [done|by eapply track_kept]. }
  eapply wp_mono; [exact Hw|]. clear Hw. intros w c2 [H2 Hm2]. rewrite <- Hm2.
  apply wp_bind. unfold wp at 1, sys_poll. destruct (cs_polls c2) as [|ev rest] eqn:Ep.
  - apply then_flow_ok. eapply wp_mono; [by eapply session_recv_ok|].
    intros [f3|f3|rc] c3 H3; [|done|done]. destruct H3 as (i&rest&fs'&->&H3&Hp3&Hlen).
    apply (round_tail_ok c3 (done ++ [i]) rest fs' f3 (measure c2) false H3); [|done].
    unfold measure. rewrite Hp3. lia.
  - set (c3 := set_cs_polls rest c2).
    assert (at_round c3 done todo fs) as H3.
    { destruct H2 as [? ? ? ? ? ? ? ? ? HL]. split; try done. intros HL'. destruct (HL HL').
      split; try done. rewrite Ep in un_polls0. by apply Forall_cons in un_polls0 as [_ ?]. }
    assert (lively -> idle_poll ev) as Hidle.
    { intros HL. pose proof (un_polls _ _ (tr_lively _ _ _ _ _ _ _ H2 HL)) as Hp.
      rewrite Ep in Hp. by apply Forall_cons in Hp as [? _]. }
    assert (measure c3 < measure c2)%nat as Hm3 by (unfold measure; rewrite Ep; cbn; lia).
    destruct ev as [e|sock_ready stdin_ready].
    + apply wp_ret. destruct (decide (e = EINTR)) as [->|He]; [split; [eauto|done]|].
      apply (ended_halted 1 True c3); [|done|done|auto|intros HL; by destruct He, (Hidle HL)].
      eapply track_halted; [exact H3|]. intros HL. by destruct He, (Hidle HL).
    + apply then_flow_ok.
      assert (forall c4 done' todo' fs' f', at_round c4 done' todo' fs' -> (measure c4 < measure c2)%nat ->
        wp (then_flow (session_resize f') (fun f => if stdin_ready then session_stdin f else mret (Next f)))
          (going (measure c2)) c4) as Htail by (intros; by eapply round_tail_ok).
      destruct sock_ready; [|by eapply wp_ret, Htail].
      eapply wp_mono; [by eapply session_recv_ok|].
      intros [f4|f4|rc] c4 H4; [|done|done]. destruct H4 as (i&rest'&fs'&->&H4&Hp4&Hlen).
      eapply Htail; [exact H4|]. unfold measure in *. rewrite Hp4. lia.
Qed.

Lemma session_loop_ok (fuel : nat) (f : flags) (c : cli) (done todo : list item) (fs : list sent) :
  at_round c done todo fs -> (measure c < fuel)%nat ->
  wp (session_loop malloc_ok fuel f) ended c.
Proof.
  revert f c done todo fs. induction fuel as [|fuel IH]; intros f c done todo fs H Hm; [lia|].
  cbn [session_loop]. apply wp_bind. eapply wp_mono; [by eapply session_round_ok|].
  intros r c1 Hr. destruct r as [g|g|rc]; [| |by apply wp_ret];
    (destruct Hr as [(done1&todo1&fs1&H1) Hlt]; eapply IH; [exact H1|lia]).
Qed.

End Session.

(** ** The whole session *)

Section WholeSession.

Variable malloc_ok : Z -> bool.

(** The intro could not be sent. *)
Lemma refused_intro_ended (c c1 : cli) (x : sent) (p : bytes) (rc : Z) (items : list item)
    (lively : Prop) :
  kept c c1 -> out (cs_sock c1) = out (cs_sock c) ++ p -> p `prefix_of` sent_bytes x ->
  rc = 0 \/ rc = 1 -> (lively -> False) -> ended c x items lively rc c1.
Proof.
  intros [Hc _] Ho Hp Hrc HF. unfold core in Hc. injection Hc as Hi Hso Hl Hq _ _.
  apply (ended_halted _ _ _ _ _ True c1); [|done|done|tauto|done].
  exists [], items, [], [], p, []. split; cbn; rewrite ?Hi, ?Hso, ?Hl, ?Hq, ?app_nil_r; try done;
    try apply prefix_nil.
  - intros _. unfold log_grew. destruct (cs_log c); [|done]. by rewrite app_nil_r.
  - by exists x.
  - by left.
Qed.

(** The session behind a sent intro, with [rd] on the socket. *)
Lemma session_main_ended (c c1 : cli) (reconnect : bool) (tok : bytes) (x : sent)
    (rd : list rd_ev) (items : list item) (lively : Prop) :
  Forall item_ok items -> 0 <= cs_last_seq c < 2 ^ 64 -> intros_of reconnect (cs_last_seq c) tok x ->
  kept c c1 -> out (cs_sock c1) = out (cs_sock c) ++ sent_bytes x ->
  (healthy (cs_sock c) -> healthy (cs_sock c1)) -> content rd `prefix_of` items_bytes items ->
  (lively -> undisturbed malloc_ok (with_inq rd c) (items_bytes items)) ->
  wp (session_main malloc_ok (Flags false false false)) (ended c x items lively) (with_inq rd c1).
Proof.
  intros Hitems Hseq (cols&rows&->&_) [Hc Hcalm] Ho Hh Hin HL. set (x := SIntro _ _ _ _ _) in *.
  unfold core in Hc. injection Hc as Hi Hso Hl Hq Hpo Hinq.
  assert (at_round malloc_ok c x items lively (with_inq rd c1) [] items [x]) as H1.
  { split; cbn; rewrite ?Hi, ?Hso, ?Hl, ?Hq, ?app_nil_r; try done.
    - unfold log_grew. destruct (cs_log c); [|done]. by rewrite app_nil_r.
    - by exists [].
    - intros H. destruct (HL H). split; cbn in *; rewrite ?Hi, ?Hso, ?Hl, ?Hq, ?Hpo; auto. }
  unfold wp. change (wp (session_loop malloc_ok (session_fuel (with_inq rd c1)) (Flags false false false))
    (ended c x items lively) (with_inq rd c1)).
  eapply wp_mono; [eapply session_loop_ok; [done|done|exact H1|unfold session_fuel, measure; lia]|done].
Qed.

(** A peer that has read the intro [x] and then sends [items x], or a prefix. *)
Lemma run_session_on_ok (arrive : cliM unit) (reconnect : bool) (token : option bytes) (c : cli)
    (P : sent -> list item -> Prop) (lively : Prop) :
  0 <= cs_last_seq c < 2 ^ 64 -> token_fits token -> (lively -> healthy (cs_sock c)) ->
  (forall x, intros_of reconnect (cs_last_seq c) (default [] token) x ->
     exists items, Forall item_ok items /\ P x items /\
       forall c1, inq (cs_sock c1) = inq (cs_sock c) -> out (cs_sock c1) = out (cs_sock c) ++ sent_bytes x ->
         exists rd, arrive c1 = Some (tt, with_inq rd c1) /\ content rd `prefix_of` items_bytes items /\
           (lively -> undisturbed malloc_ok (with_inq rd c) (items_bytes items))) ->
  wp (run_session_on malloc_ok arrive reconnect token) (fun rc c' =>
    exists intro items, intros_of reconnect (cs_last_seq c) (default [] token) intro /\
      P intro items /\ ended c intro items lively rc c') c.
Proof.
  intros Hseq Htok Hhl Hx. unfold run_session_on. apply wp_bind, wp_get, wp_bind.
  eapply wp_mono; [by apply send_loop_ok, send_intro_ok|].
  intros r c1 (Hk&(x&p&Hxi&Ho&Hp)&Hh). destruct (Hx x Hxi) as (items&Hitems&HP&Harr).
  destruct r as [rc|].
  - destruct Hp as [Hp Hrc]. apply wp_ret. exists x, items. split_and!; [done..|].
    eapply refused_intro_ended; [done..|]. intros H. by destruct (Hh (Hhl H)).
  - subst p. destruct (Harr c1) as (rd&He&Hin&HL); [by destruct Hk as [[=] _]|done|].
    apply wp_bind. unfold wp at 1. rewrite He.
    eapply wp_mono; [by eapply session_main_ended; [..|intros Hs; apply (Hh Hs)|exact Hin|exact HL]|].
    intros rc c2 Hend. by exists x, items.
Qed.

Lemma with_inq_same (c : cli) : with_inq (inq (cs_sock c)) c = c.
Proof. destruct c as [[] ? ? ? ? ? ? ? ? ? ?]. done. Qed.

Lemma run_session_ok (reconnect : bool) (token : option bytes) (c : cli) (items : list item)
    (lively : Prop) :
  Forall item_ok items -> 0 <= cs_last_seq c < 2 ^ 64 -> token_fits token ->
  content (inq (cs_sock c)) `prefix_of` items_bytes items ->
  (lively -> undisturbed malloc_ok c (items_bytes items)) ->
  wp (run_session malloc_ok reconnect token) (fun rc c' =>
    exists intro, intros_of reconnect (cs_last_seq c) (default [] token) intro /\
      ended c intro items lively rc c') c.
Proof.
  intros Hitems Hseq Htok Hin HL. eapply wp_mono.
  - apply (run_session_on_ok (mret tt) reconnect token c (fun _ l => l = items) lively); [done|done| |].
    + intros H. apply (HL H).
    + intros x _. exists items. split_and!; [done..|]. intros c1 Hi _. exists (inq (cs_sock c)).
      split_and!; [by rewrite <- Hi, with_inq_same|done|by rewrite with_inq_same].
  - intros rc c' (x&?&?&->&?). by exists x.
Qed.

End WholeSession.
