(* ===== verification/ClientProps.v ===== *)
(** * What the client guarantees

    The properties of the session loop of src/src/client.c (run_session): it ends on
    every peer, prints what the peer sends once and in order, and sends whole frames;
    and the delays between connections. *)

From S2P Require Import Prelude.
From S2P Require Import Io.
From S2P Require Import Wire.
From S2P Require Import Messages.
From S2P Require Import Consume.
From S2P Require Import Client.
From S2P Require Import ClientSpec.
From S2P Require Import ClientStream.

(** ** Any peer *)

Section AnyPeer.

Variable malloc_ok : Z -> bool.

(** The scripts that a round consumes are as they were. *)
Definition same_scripts (c c' : cli) : Prop :=
  cs_polls c' = cs_polls c /\ inq (cs_sock c') = inq (cs_sock c).

Lemma same_scripts_trans (c1 c2 c3 : cli) :
  same_scripts c1 c2 -> same_scripts c2 c3 -> same_scripts c1 c3.
Proof. intros [? ?] [? ?]. split; congruence. Qed.

Lemma kept_scripts (c c' : cli) : kept c c' -> same_scripts c c'.
Proof. intros [Hk _]. unfold core in Hk. injection Hk as _ _ _ _ ? ?. done. Qed.

Lemma wrote_out_scripts (c c' : cli) : wrote_out c c' -> same_scripts c c'.
Proof. intros (Hs&_&_&Hp&_). split; [done|by rewrite Hs]. Qed.

Definition rc_ok (rc : Z) : Prop := rc = 1 \/ rc = 0 \/ rc = -1.

Lemma write_stderr_any (data : bytes) (c : cli) :
  wp (write_stderr_bytes data) (fun _ => same_scripts c) c.
Proof.
  assert (forall p c1, wp (on_fd cs_stderr set_cs_stderr (opty_write_full p)) (fun _ => same_scripts c1) c1) as Hw.
  { intros p c1. unfold wp, on_fd. destruct (opty_write_full p (cs_stderr c1)) as [r s] eqn:E.
    apply write_full_status in E as [Hp _]. by destruct r. }
  unfold write_stderr_bytes. apply wp_bind.
  apply (wp_mono _ (fun _ => same_scripts c)).
  - destruct (0 <? blen data); [|by apply wp_ret]. apply wp_bind. eapply wp_mono; [apply Hw|].
    intros ? c1 H. by apply wp_ret.
  - intros ? c1 H1. apply wp_bind. eapply wp_mono; [apply Hw|]. intros ? c2 H2. apply wp_ret.
    by eapply same_scripts_trans.
Qed.

Lemma process_stream_any (f : opty_frame) (c : cli) :
  frame_ok f -> wp (process_stream f) (fun rc c' => rc_ok rc /\ same_scripts c c') c.
Proof.
  intros Hf. unfold process_stream. pose proof (parse_stream_inv f Hf) as Hp.
  destruct (opty_parse_stream f) as [[seq data]|e|]; [|by apply wp_ret; split; [unfold rc_ok; auto|]|done].
  apply wp_bind. eapply wp_mono; [apply write_stdout_ok|].
  intros rc c1 (Hw1&_&_&Hrc&_). pose proof (wrote_out_scripts _ _ Hw1) as H1.
  destruct Hrc as [->| ->]; cbn [Z.ltb Z.compare]; [|by apply wp_ret; split; [unfold rc_ok; auto|]].
  apply wp_bind. eapply wp_mono; [apply write_scrollback_ok|].
  intros rc c2 (Hw2&_&_&Hrc&_).
  pose proof (same_scripts_trans _ _ _ H1 (wrote_out_scripts _ _ Hw2)) as H2.
  destruct Hrc as [->| ->]; cbn [Z.ltb Z.compare]; [|by apply wp_ret; split; [unfold rc_ok; auto|]].
  apply wp_bind, wp_get, wp_bind, wp_put. eapply wp_mono; [apply ack_loop_ok|].
  intros rc c3 [[Hk _] Hrc]. split; [unfold rc_ok; tauto|].
  eapply same_scripts_trans; [exact H2|]. apply (kept_scripts _ _ Hk).
Qed.

Lemma process_any (f : opty_frame) (saw : bool) (c : cli) :
  frame_ok f -> wp (process_server_frame f saw) (fun '(rc, _) c' => rc_ok rc /\ same_scripts c c') c.
Proof.
  intros Hf. unfold process_server_frame. destruct (_ =? _).
  { pose proof (parse_welcome_inv f Hf). destruct (opty_parse_welcome f); [| |done];
      (apply wp_ret; split; [unfold rc_ok; auto|done]). }
  destruct (_ || _).
  { apply wp_bind. eapply wp_mono; [by apply process_stream_any|]. intros rc c1 H. by apply wp_ret. }
  destruct (_ =? _).
  - apply wp_bind. eapply wp_mono; [apply write_stderr_any|]. intros ? c1 H. apply wp_ret.
    split; [unfold rc_ok; auto|done].
  - apply wp_ret. split; [unfold rc_ok; auto|done].
Qed.

(** After a part of a round: the scripts got no longer; [strict] when the socket gave a
    frame. *)
Definition moved (strict : bool) (c : cli) (r : flow) (c' : cli) : Prop :=
  match r with
  | Next _ => cs_polls c' = cs_polls c /\
      if strict then (length (content (inq (cs_sock c'))) < length (content (inq (cs_sock c))))%nat
      else inq (cs_sock c') = inq (cs_sock c)
  | Again _ => strict = false /\ same_scripts c c'
  | Return rc => rc_ok rc
  end.

Lemma session_recv_any (f : flags) (c : cli) : wp (session_recv malloc_ok f) (moved true c) c.
Proof.
  unfold session_recv. apply wp_bind. unfold wp at 1, on_socket, on_fd.
  destruct (opty_recv_frame malloc_ok (cs_sock c)) as [[[fr|]|e|] s] eqn:E.
  - pose proof (recv_frame_content _ _ _ _ E) as (Hf&[Ht _]&Hc).
    apply wp_bind. eapply wp_mono.
    { apply process_any. rewrite Hf. done. }
    intros [rc saw] c1 ([->|[->| ->]]&Hp&Hi); cbn [Z.ltb Z.compare].
    + apply wp_ret. unfold moved, rc_ok. auto.
    + apply wp_ret. split; [done|]. rewrite Hi, Hc, length_app. unfold encode_frame.
      rewrite length_app. simpl length. cbn. lia.
    + apply wp_bind. eapply wp_mono; [apply terminate_pending_ok|]. intros b c2 _. apply wp_ret.
      destruct b; unfold moved, rc_ok; auto.
  - apply wp_ret. unfold moved, rc_ok. auto.
  - apply recv_not_eintr in E. apply wp_bind. eapply wp_mono; [apply terminate_pending_ok|].
    intros b c2 _. apply wp_ret. rewrite decide_False by done. destruct b; unfold moved, rc_ok; auto.
  - by apply recv_defined in E.
Qed.

Lemma send_loop_moved (W : sent -> Prop) (send : cliM (unit + errno)) (g : flags) (c0 c : cli) :
  wp send (emitted W c) c -> same_scripts c0 c ->
  wp (r ← send_loop SEND_FUEL send; mret match r with Some rc => Return rc | None => Next g end)
    (moved false c0) c.
Proof.
  intros H Hs. apply wp_bind. eapply wp_mono; [by apply send_loop_ok|].
  intros r c1 (Hk&(x&p&_&_&Hr)&_). apply wp_ret. destruct r as [rc|].
  - destruct Hr as [_ [->| ->]]; unfold moved, rc_ok; auto.
  - by eapply same_scripts_trans; [|apply kept_scripts].
Qed.

Lemma session_resize_any (f : flags) (c : cli) : wp (session_resize f) (moved false c) c.
Proof.
  unfold session_resize. destruct (_ && _); [|by apply wp_ret].
  eapply send_loop_moved; [apply send_resize_ok|done].
Qed.

Lemma session_stdin_any (f : flags) (c : cli) : wp (session_stdin f) (moved false c) c.
Proof.
  unfold wp, session_stdin. destruct (sys_read 4096 (cs_stdin c)) as [[[|b buf]|e] s] eqn:E.
  - unfold moved, rc_ok. auto.
  - apply sys_read_spec in E as [_ [Hle _]]; [|lia].
    assert (same_scripts c (set_cs_stdin s c)) as Hs by done.
    exact (send_loop_moved _ _ f c _ (send_stdin_ok (b :: buf) (set_cs_stdin s c) Hle) Hs).
  - destruct (decide (e = EINTR)); [done|]. unfold moved, rc_ok. auto.
Qed.

(** A round going on has used up some of the scripts. *)
Definition used (n : nat) (r : flow) (c : cli) : Prop :=
  match r with Next _ | Again _ => (measure c < n)%nat | Return rc => rc_ok rc end.

Lemma round_tail_any (f : flags) (stdin_ready : bool) (n : nat) (c : cli) :
  (measure c < n)%nat ->
  wp (then_flow (session_resize f) (fun f =>
        if stdin_ready then session_stdin f else mret (Next f))) (used n) c.
Proof.
  intros Hn. apply then_flow_ok. eapply wp_mono; [apply session_resize_any|].
  assert (forall c1, cs_polls c1 = cs_polls c -> inq (cs_sock c1) = inq (cs_sock c) ->
    (measure c1 < n)%nat) as Hm.
  { intros c1 Hp Hi. unfold measure in *. by rewrite Hp, Hi. }
  intros [f1|f1|rc] c1 H1; [|by apply Hm; apply H1|done].
  destruct H1 as [Hp Hi]. destruct stdin_ready; [|by apply wp_ret, Hm].
  eapply wp_mono; [apply session_stdin_any|].
  intros [f2|f2|rc] c2 H2; [destruct H2 as [Hp2 Hi2]|destruct H2 as [_ [Hp2 Hi2]]|done];
    (apply Hm; congruence).
Qed.

Lemma session_round_any (f : flags) (c : cli) : wp (session_round malloc_ok f) (used (measure c)) c.
Proof.
  unfold session_round. apply wp_bind. eapply wp_mono; [apply terminate_pending_ok|].
  intros b c1 (Hk&Hs&_). apply kept_scripts in Hk as [Hp Hi].
  assert (measure c1 = measure c) as Hm by (unfold measure; by rewrite Hp, Hi).
  rewrite <- Hm. clear Hm. destruct b; [apply wp_ret; unfold used, rc_ok; auto|].
  apply wp_bind. assert (wp winch_pending (fun _ c2 => measure c2 = measure c1) c1) as Hw.
  { unfold wp, winch_pending. by destruct (cs_winch c1). }
  eapply wp_mono; [exact Hw|]. clear Hw. intros w c2 Hm2. rewrite <- Hm2.
  apply wp_bind. unfold wp at 1, sys_poll. destruct (cs_polls c2) as [|ev rest] eqn:Ep.
  - apply then_flow_ok. eapply wp_mono; [apply session_recv_any|].
    intros [f3|f3|rc] c3 H3; [|by destruct H3|done]. destruct H3 as [Hp3 Hlen].
    apply (round_tail_any f3 false). unfold measure. rewrite Hp3. lia.
  - set (c3 := set_cs_polls rest c2).
    assert (measure c3 < measure c2)%nat as Hm3 by (unfold measure; rewrite Ep; cbn; lia).
    destruct ev as [e|sock_ready stdin_ready].
    + apply wp_ret. destruct (decide (e = EINTR)); unfold used, rc_ok; auto.
    + apply then_flow_ok. destruct sock_ready; [|by apply wp_ret, round_tail_any].
      eapply wp_mono; [apply session_recv_any|].
      intros [f4|f4|rc] c4 H4; [|by destruct H4|done]. destruct H4 as [Hp4 Hlen].
      apply round_tail_any. unfold measure in *. rewrite Hp4. lia.
Qed.

Lemma session_loop_any (fuel : nat) (f : flags) (c : cli) :
  (measure c < fuel)%nat -> wp (session_loop malloc_ok fuel f) (fun rc _ => rc_ok rc) c.
Proof.
  revert f c. induction fuel as [|fuel IH]; intros f c Hm; [lia|].
  cbn [session_loop]. apply wp_bind. eapply wp_mono; [apply session_round_any|].
  intros r c1 Hr. destruct r as [g|g|rc]; [apply IH| |by apply wp_ret];
    [|apply IH]; cbn in Hr; lia.
Qed.

Lemma session_on_terminates (arrive : cliM unit) (reconnect : bool) (token : option bytes) (c : cli) :
  (forall c1, exists c2, arrive c1 = Some (tt, c2)) -> token_fits token ->
  exists rc c', run_session_on malloc_ok arrive reconnect token c = Some (rc, c') /\ rc_ok rc.
Proof.
  intros Ha Ht. enough (wp (run_session_on malloc_ok arrive reconnect token) (fun rc _ => rc_ok rc) c) as H.
  { unfold wp in H. destruct (run_session_on _ _ _ _ _) as [[rc c']|]; [eauto|done]. }
  unfold run_session_on. apply wp_bind, wp_get, wp_bind.
  eapply wp_mono; [by apply send_loop_ok, send_intro_ok|].
  intros r c1 (_&(x&p&_&_&Hr)&_). destruct r as [rc|].
  - apply wp_ret. destruct Hr as [_ [->| ->]]; unfold rc_ok; auto.
  - apply wp_bind. unfold wp at 1. destruct (Ha c1) as [c2 ->].
    change (wp (session_loop malloc_ok (session_fuel c2) (Flags false false false)) (fun rc _ => rc_ok rc) c2).
    apply session_loop_any. unfold session_fuel, measure. lia.
Qed.

Lemma session_terminates_any (reconnect : bool) (token : option bytes) (c : cli) :
  token_fits token ->
  exists rc c', run_session malloc_ok reconnect token c = Some (rc, c') /\ rc_ok rc.
Proof. apply session_on_terminates. intros c1. by exists c1. Qed.

(** [C18] A session always ends, on any peer: whatever bytes arrive, in whatever pieces, with
    whatever errors of the kernel and of [malloc], the loop returns 1, 0 or -1 after
    finitely many rounds, and no step of it is undefined. *)
Theorem session_terminates (reconnect : bool) (token : option bytes) (c : cli) :
  token_fits token ->
  exists rc c', run_session malloc_ok reconnect token c = Some (rc, c') /\
    (rc = 1 \/ rc = 0 \/ rc = -1).
Proof. apply session_terminates_any. Qed.

End AnyPeer.

(** A client with nothing in store, on a socket that holds [rd]. *)
Definition quiet_client (rd : list rd_ev) : cli :=
  Cli (Stream rd [] [] false) (Stream [] [] [] false) (Stream [] [] [] false)
    (Stream [] [] [] false) None 0 [] [] [] [] [].

Lemma session_terminates_witness :
  let c := quiet_client [RData (cstr "garbage that is no frame"); RErr EIO] in
  exists rc c', run_session (fun _ => true) false (Some (cstr "tok")) c = Some (rc, c') /\
    (rc = 1 \/ rc = 0 \/ rc = -1).
Proof. apply (session_terminates (fun _ => true)). by vm_compute. Defined.

(** ** A peer that speaks the protocol *)

Section Peer.

Variable malloc_ok : Z -> bool.

(** The client prints what the peer sends, each byte once and in order, whatever
    interrupts it: of a peer's WELCOME, REPLAY and STDOUT frames, of which any prefix
    of bytes may arrive, it takes a number of whole frames; stdout got exactly their
    data, [last_seq] is the position after them, and when the session is to be resumed
    (it returns 1) nothing else was printed.  Only a failing write to stdout or to the
    log, which ends the client, can leave a piece of the next frame. *)
Theorem session_prints_once (reconnect : bool) (token : option bytes) (c c' : cli) (rc : Z)
    (items : list item) :
  Forall item_ok items -> 0 <= cs_last_seq c < 2 ^ 64 -> token_fits token ->
  content (inq (cs_sock c)) `prefix_of` items_bytes items ->
  run_session malloc_ok reconnect token c = Some (rc, c') ->
  exists done todo extra, items = done ++ todo /\
    out (cs_stdout c') = out (cs_stdout c) ++ items_data done ++ extra /\
    cs_last_seq c' = items_seq (cs_last_seq c) done /\
    extra `prefix_of` items_data todo /\
    (rc = 1 -> extra = [] /\ log_grew (cs_log c) (cs_log c') (items_data done)).
Proof.
  intros Hi Hs Ht Hc Hrun.
  pose proof (run_session_ok malloc_ok reconnect token c items False Hi Hs Ht Hc ltac:(done)) as H.
  unfold wp in H. rewrite Hrun in H. destruct H as (x&_&(done&todo&fs&extra&part&lost&[])&_&_).
  exists done, todo, extra. split_and!; try done; auto.
Qed.


(** [C17] Nothing is left behind: when all the peer's frames arrive, the descriptors keep
    working, the user does not type and no signal comes, the session prints everything
    the peer sent, logs it, and ends with 0 at the end of the stream. *)
Theorem session_delivers_all (reconnect : bool) (token : option bytes) (c : cli)
    (items : list item) :
  Forall item_ok items -> 0 <= cs_last_seq c < 2 ^ 64 -> token_fits token ->
  undisturbed malloc_ok c (items_bytes items) ->
  exists c', run_session malloc_ok reconnect token c = Some (0, c') /\
    out (cs_stdout c') = out (cs_stdout c) ++ items_data items /\
    log_grew (cs_log c) (cs_log c') (items_data items) /\
    cs_last_seq c' = items_seq (cs_last_seq c) items.
Proof.
  intros Hi Hs Ht Hu.
  assert (content (inq (cs_sock c)) `prefix_of` items_bytes items) as Hc by (by rewrite (un_content _ _ _ Hu)).
  pose proof (run_session_ok malloc_ok reconnect token c items True Hi Hs Ht Hc ltac:(done)) as H.
  unfold wp in H. destruct (run_session _ _ _ _) as [[rc c']|]; [|done].
  destruct H as (x&Hx&(done&todo&fs&extra&part&lost&[])&_&Hrc).
  rewrite (ha_lively I), app_nil_r in ha_items. subst items.
  rewrite ha_exact, app_nil_r in ha_stdout by auto.
  exists c'. rewrite (Hrc I). split_and!; try done. by apply ha_log; auto.
Qed.

End Peer.

(** *** A concrete session

    A peer that sends WELCOME, REPLAY and STDOUT frames in pieces that do not match the
    frames, to a client with a log; the user types while they arrive. *)
Module DemoSession.

Definition items : list item :=
  [IWelcome 0 5; IData true 0 (cstr "hello"); IData false 5 (cstr " world")].

Definition pieces : list rd_ev :=
  [RData (take 30 (items_bytes items)); RErr EINTR; RData (drop 30 (items_bytes items))].

(** The kernel takes three bytes at a time, and interrupts. *)
Definition slow (rd : list rd_ev) : stream := Stream rd [WAccept 3; WErr EINTR; WAccept 3] [] false.

Definition start (polls : list poll_ev) : cli :=
  Cli (slow pieces) (Stream [RData (cstr "ls")] [] [] false) (slow []) (slow []) (Some (slow [])) 0
    [Some (120, 40)] polls [false] [true] [].

Definition typing : cli := start [PollReady false true; PollErr EINTR; PollReady true false].
Definition watching : cli := start [PollErr EINTR; PollReady true false].

Definition finish (c : cli) : cli :=
  match run_session (fun _ => true) false (Some (cstr "tok")) c with Some (_, c') => c' | None => c end.

Lemma typing_runs :
  run_session (fun _ => true) false (Some (cstr "tok")) typing = Some (0, finish typing).
Proof. vm_compute. reflexivity. Qed.

Lemma items_fine : Forall item_ok items.
Proof. unfold items. repeat apply Forall_cons_2; try apply Forall_nil_2; by vm_compute. Qed.

Lemma content_prefix (polls : list poll_ev) :
  content (inq (cs_sock (start polls))) `prefix_of` items_bytes items.
Proof. exists []. vm_compute. reflexivity. Qed.

Lemma session_prints_once_witness :
  exists done todo extra, items = done ++ todo /\
    out (cs_stdout (finish typing)) = out (cs_stdout typing) ++ items_data done ++ extra /\
    cs_last_seq (finish typing) = items_seq 0 done /\
    extra `prefix_of` items_data todo /\
    (0 = 1 -> extra = [] /\ log_grew (cs_log typing) (cs_log (finish typing)) (items_data done)).
Proof.
  apply (session_prints_once (fun _ => true) false (Some (cstr "tok")) typing);
    [exact items_fine|by vm_compute|by vm_compute|apply content_prefix|exact typing_runs].
Defined.


Lemma slow_healthy (rd : list rd_ev) : healthy (slow rd).
Proof. split; [done|]. repeat constructor. Qed.

Lemma watching_undisturbed : undisturbed (fun _ => true) watching (items_bytes items).
Proof.
  split; try done; try apply slow_healthy;
    repeat apply Forall_cons_2; try apply Forall_nil_2; done.
Qed.

Lemma session_delivers_all_witness :
  exists c', run_session (fun _ => true) false None watching = Some (0, c') /\
    out (cs_stdout c') = out (cs_stdout watching) ++ cstr "hello world" /\
    log_grew (cs_log watching) (cs_log c') (cstr "hello world") /\
    cs_last_seq c' = items_seq 0 items.
Proof.
  apply (session_delivers_all (fun _ => true) false None watching items);
    [exact items_fine|by vm_compute|by vm_compute|exact watching_undisturbed].
Defined.

End DemoSession.
