(* ===== verification/Resume.v ===== *)
(** * Connecting again (src/src/client.c: run_client_endpoint,
    sleep_retry_interval)

    The client across connections: what all its sessions print together is one piece of
    the server's stream, and the delays between attempts back off. *)

From S2P Require Import Prelude.
From S2P Require Import Io.
From S2P Require Import Wire.
From S2P Require Import Messages.
From S2P Require Import Replay.
From S2P Require Import Client.
From S2P Require Import ClientSpec.
From S2P Require Import ClientStream.
From S2P Require Import ClientProps.

(** ** The delays *)

Lemma double_delay_done (failures : Z) :
  double_delay 4 failures 1 =
  Some (if failures <=? 1 then 1 else if failures =? 2 then 2 else if failures =? 3 then 4 else 8).
Proof.
  cbn. unfold OPTY_RETRY_MAX_DELAY_SEC.
  destruct (Z.ltb_spec 1 failures), (Z.leb_spec failures 1); try lia; [|done]. cbn.
  destruct (Z.ltb_spec 1 (failures - 1)), (Z.eqb_spec failures 2); try lia; [|done]. cbn.
  destruct (Z.ltb_spec 1 (failures - 1 - 1)), (Z.eqb_spec failures 3); try lia; [|done]. cbn.
  by rewrite andb_false_r.
Qed.

(** What [sleep_retry_interval] sleeps after that many failures in a row. *)
Definition backoff (failures : Z) : Z :=
  if failures <=? 1 then 1 else if failures =? 2 then 2 else if failures =? 3 then 4 else 8.

Lemma retry_delay_backoff (failures : Z) : retry_delay failures = Some (backoff failures).
Proof.
  unfold retry_delay. rewrite double_delay_done. cbn. f_equal. unfold backoff.
  by repeat case_match.
Qed.

Lemma backoff_power (k : nat) : backoff (Z.of_nat (S k)) = Z.min 8 (2 ^ Z.of_nat k).
Proof.
  unfold backoff. destruct k as [|[|[|[|k]]]]; [done..|].
  destruct (Z.leb_spec (Z.of_nat (S (S (S (S (S k)))))) 1); [lia|].
  destruct (Z.eqb_spec (Z.of_nat (S (S (S (S (S k)))))) 2); [lia|].
  destruct (Z.eqb_spec (Z.of_nat (S (S (S (S (S k)))))) 3); [lia|].
  assert (2 ^ 3 <= 2 ^ Z.of_nat (S (S (S (S k))))) by (apply Z.pow_le_mono_r; lia). lia.
Qed.

Lemma sleep_ok (failures : Z) (c : cli) :
  sleep_retry_interval failures c = Some (tt, set_cs_slept (backoff failures :: cs_slept c) c).
Proof. unfold sleep_retry_interval. by rewrite retry_delay_backoff. Qed.

(** The delays of [n] refused connections after [k] earlier failures, the last first. *)
Fixpoint backoffs (k : Z) (n : nat) (before : list Z) : list Z :=
  match n with
  | O => before
  | S n' => backoffs (k + 1) n' (backoff (k + 1) :: before)
  end.

Lemma refused_loop (malloc_ok : Z -> bool) (token : option bytes) (have : bool) (n : nat) (k : Z) (c : cli) :
  cs_term c = [] -> 0 <= k -> k + Z.of_nat n < 2 ^ 32 ->
  connect_loop malloc_ok (replicate n None) true token have k c =
  Some (0, set_cs_slept (backoffs k n (cs_slept c)) c).
Proof.
  revert k c. induction n as [|n IH]; intros k c Hc Hk Hn.
  - cbn. unfold mbind, cli_bind, terminate_pending. rewrite Hc. by destruct c.
  - cbn [replicate connect_loop]. unfold mbind, cli_bind, terminate_pending. rewrite Hc.
    unfold u32. rewrite Z.mod_small by lia. rewrite sleep_ok. cbn [backoffs].
    rewrite IH by (done || lia). done.
Qed.

Lemma backoffs_powers (n j : nat) (before : list Z) :
  backoffs (Z.of_nat j) n before =
  reverse ((fun k => Z.min 8 (2 ^ Z.of_nat k)) <$> seq j n) ++ before.
Proof.
  revert j before. induction n as [|n IH]; intros j before; [done|]. cbn [backoffs seq fmap list_fmap].
  replace (Z.of_nat j + 1) with (Z.of_nat (S j)) by lia.
  by rewrite IH, backoff_power, reverse_cons, <- app_assoc.
Qed.

(** [C26] A server that cannot be reached is tried again after 1, 2, 4 and then always 8
    seconds, and the client sends and prints nothing meanwhile; it stops at a signal
    with status 0.  Without --retry the first failure is final. *)
Theorem retry_backoff (malloc_ok : Z -> bool) (token : option bytes) (n : nat) (c : cli) :
  cs_term c = [] -> Z.of_nat n < 2 ^ 32 ->
  connect_loop malloc_ok (replicate n None) true token false 0 c =
    Some (0, set_cs_slept
               (reverse ((fun k => Z.min 8 (2 ^ Z.of_nat k)) <$> seq 0 n) ++ cs_slept c) c) /\
  (forall have failures rest,
     connect_loop malloc_ok (None :: rest) false token have failures c = Some (1, c)).
Proof.
  intros Hc Hn. split.
  - rewrite refused_loop by (done || lia). do 3 f_equal. apply (backoffs_powers n 0).
  - intros have failures rest. cbn. unfold mbind, cli_bind, terminate_pending. by rewrite Hc.
Qed.

Lemma retry_backoff_witness :
  let c := quiet_client [] in
  connect_loop (fun _ => true) (replicate 6 None) true None false 0 c =
    Some (0, set_cs_slept
               (reverse ((fun k => Z.min 8 (2 ^ Z.of_nat k)) <$> seq 0 6) ++ []) c) /\
  (forall have failures rest,
     connect_loop (fun _ => true) (None :: rest) false None have failures c = Some (1, c)).
Proof. apply (retry_backoff (fun _ => true) None 6 (quiet_client [])); [done|lia]. Defined.

(** ** One stream over many connections *)

(** The data of the items follow one another from position [pos] on. *)
Fixpoint contiguous (pos : Z) (l : list item) : Prop :=
  match l with
  | [] => True
  | IWelcome _ _ :: rest => contiguous pos rest
  | IData _ seq data :: rest => seq = pos /\ contiguous (pos + blen data) rest
  end.

Lemma contiguous_app (pos : Z) (l1 l2 : list item) : contiguous pos (l1 ++ l2) -> contiguous pos l1.
Proof.
  revert pos. induction l1 as [|[b n|r seq data] l1 IH]; intros pos H; [done|by apply IH|].
  destruct H as [-> H]. split; [done|by apply IH].
Qed.

Lemma items_data_cons (i : item) (l : list item) : items_data (i :: l) = item_data i ++ items_data l.
Proof. done. Qed.

(** Where the client is after items from [pos] on. *)
Lemma contiguous_seq (l : list item) (n pos : Z) :
  contiguous pos l -> n <= pos ->
  items_seq n l = pos + blen (items_data l) \/ (items_seq n l = n /\ items_data l = []).
Proof.
  revert n pos. induction l as [|[b m|r seq data] l IH]; intros n pos H Hn; [by right|by apply IH|].
  destruct H as [-> H]. rewrite items_data_cons, blen_app. unfold items_seq. cbn.
  rewrite Z.max_r by (pose proof (blen_nonneg data); lia). left.
  destruct (IH (pos + blen data) (pos + blen data) H) as [He|[He ->]]; [lia| |];
    unfold items_seq in He; rewrite He; [lia|]. unfold blen. simpl. lia.
Qed.

(** The other end of a connection is a server whose stream is [hist]: to the intro of a
    client at [q] it answers with items that carry the stream from some position on, of
    which any prefix of bytes arrives.  A RECONNECT at a position [q > 0] is answered from
    [q] on, anything else from one of the positions [offered]. *)
Definition serves (hist tok : bytes) (offered : Z -> Prop) (p : peer) : Prop :=
  forall reconnect q intro, intros_of reconnect q tok intro -> 0 <= q <= blen hist ->
    exists items pos,
      Forall item_ok items /\ content (peer_reply p (sent_bytes intro)) `prefix_of` items_bytes items /\
      contiguous pos items /\ items_data items `prefix_of` log_since hist pos /\
      0 <= pos <= blen hist /\
      (if reconnect && (0 <? q) then pos = q else offered pos \/ items = []).

Section Reconnect.

Variable malloc_ok : Z -> bool.
Variable hist : bytes.
Variable offered : Z -> Prop.
Hypothesis hist_range : blen hist < 2 ^ 64.

(** What was printed is one piece of the stream, from a position that was offered. *)
Definition piece (p : bytes) : Prop :=
  p = [] \/ exists start, offered start /\ 0 <= start <= blen hist /\ p `prefix_of` log_since hist start.

(** A client at [n] that has printed [p]. *)
Definition position (n : Z) (p : bytes) : Prop :=
  n = 0 /\ p = [] \/
  exists start, offered start /\ 0 <= start <= blen hist /\ n = start + blen p /\
    p `prefix_of` log_since hist start.

Lemma since_next (start : Z) (p d : bytes) :
  0 <= start <= blen hist ->
  p `prefix_of` log_since hist start -> d `prefix_of` log_since hist (start + blen p) ->
  p ++ d `prefix_of` log_since hist start.
Proof.
  intros start_range [k Hk] Hd. pose proof (f_equal blen Hk) as Hl.
  rewrite log_since_length, blen_app in Hl by done.
  pose proof (blen_nonneg p). pose proof (blen_nonneg k).
  rewrite (log_since_split hist start (start + blen p)) by lia.
  replace (take _ _) with p; [by apply prefix_app|].
  rewrite Hk. replace (Z.to_nat (start + blen p - start)) with (length p) by (unfold blen; lia).
  by rewrite take_app_length.
Qed.

Lemma prefix_since_length (start : Z) (p : bytes) :
  0 <= start <= blen hist -> p `prefix_of` log_since hist start -> start + blen p <= blen hist.
Proof.
  intros Hs [k Hk]. pose proof (f_equal blen Hk) as Hl. rewrite log_since_length, blen_app in Hl by done.
  pose proof (blen_nonneg k). lia.
Qed.

Lemma position_range (n : Z) (p : bytes) : position n p -> 0 <= n <= blen hist.
Proof.
  intros [[-> _]|(start&_&Hs&->&Hp)]; [pose proof (blen_nonneg hist); lia|].
  pose proof (prefix_since_length start p Hs Hp). pose proof (blen_nonneg p). lia.
Qed.

Lemma position_piece (n : Z) (p : bytes) : position n p -> piece p.
Proof. intros [[_ ->]|(start&?&?&_&?)]; [by left|right; eauto]. Qed.

(** What a session that was answered from [pos] on does to the position. *)
Lemma position_next (n pos : Z) (p extra : bytes) (done todo : list item) (have : bool) :
  position n p -> (have = false -> n = 0) -> contiguous pos (done ++ todo) -> 0 <= pos <= blen hist ->
  items_data (done ++ todo) `prefix_of` log_since hist pos ->
  (if have && (0 <? n) then pos = n else offered pos \/ done ++ todo = []) ->
  extra `prefix_of` items_data todo ->
  position (items_seq n done) (p ++ items_data done) /\ piece (p ++ items_data done ++ extra).
Proof.
  intros Hpos Hhave Hcont Hr Hd Hoff He. pose proof (position_range _ _ Hpos) as Hn.
  assert (items_data done ++ extra `prefix_of` log_since hist pos) as Hde.
  { etrans; [|exact Hd]. unfold items_data at 2. rewrite fmap_app, concat_app. by apply prefix_app. }
  assert (items_data done `prefix_of` log_since hist pos) as Hdd by (etrans; [|exact Hde]; by apply prefix_app_r).
  pose proof (contiguous_app _ _ _ Hcont) as Hc.
  destruct (Z.ltb_spec 0 n) as [Hp|Hz].
  - assert (have = true) as -> by (destruct have; [done|specialize (Hhave eq_refl); lia]).
    cbn in Hoff. subst pos. destruct Hpos as [[-> _]|(start&Ho&Hs&Hnp&Hpre)]; [lia|]. rewrite Hnp in Hde, Hdd.
    split.
    + right. exists start. split_and!; [done|lia|lia| |by apply since_next].
      rewrite blen_app. destruct (contiguous_seq done n n Hc) as [->|[-> ->]]; [lia|lia|].
      change (blen []) with 0. lia.
    + right. exists start. split_and!; [done|lia|lia|by apply since_next].
  - assert (n = 0) as -> by lia. assert (p = []) as ->.
    { destruct Hpos as [[_ ->]|(start&_&Hs&Hnp&_)]; [done|]. pose proof (blen_nonneg p). apply blen_0. lia. }
    rewrite andb_false_r in Hoff. cbn [app]. destruct Hoff as [Hoff|[-> ->]%app_nil].
    + assert (forall x, x `prefix_of` log_since hist pos ->
        offered pos /\ 0 <= pos <= blen hist /\ x `prefix_of` log_since hist pos) as Hx by done.
      split; [|right; exists pos; by apply Hx].
      destruct (contiguous_seq done 0 pos Hc) as [->|[-> ->]]; [lia| |by left].
      right. exists pos. destruct (Hx _ Hdd) as (?&?&?). split; [done|]. split; [lia|]. split; [lia|done].
    + apply prefix_nil_inv in He as ->. split; by left.
Qed.

(** One session with such a server. *)
Lemma session_position (c c' : cli) (rc : Z) (have : bool) (token : option bytes)
    (pr : peer) (p : bytes) :
  token_fits token -> serves hist (default [] token) offered pr ->
  position (cs_last_seq c) p -> (have = false -> cs_last_seq c = 0) -> out (cs_sock c) = [] ->
  run_session_on malloc_ok (peer_arrives pr) have token c = Some (rc, c') ->
  exists d extra, out (cs_stdout c') = out (cs_stdout c) ++ d ++ extra /\
    position (cs_last_seq c') (p ++ d) /\ piece (p ++ d ++ extra) /\ (rc = 1 -> extra = []).
Proof.
  intros Ht Hsv Hpos Hhave Hsock Hrun. pose proof (position_range _ _ Hpos) as Hr.
  pose proof (run_session_on_ok malloc_ok (peer_arrives pr) have token c
    (fun _ items => exists pos, contiguous pos items /\ items_data items `prefix_of` log_since hist pos /\
       0 <= pos <= blen hist /\
       (if have && (0 <? cs_last_seq c) then pos = cs_last_seq c else offered pos \/ items = []))
    False ltac:(lia) Ht ltac:(done)) as H.
  unfold wp in H. rewrite Hrun in H.
  destruct H as (x&items&_&(pos&Hc&Hd&Hp&Hoff)&(done&todo&fs&extra&part&lost&[])&_&_).
  { intros x Hx. destruct (Hsv _ _ _ Hx Hr) as (items&pos&?&Hcon&?&?&?&?).
    exists items. split; [done|]. split; [by exists pos|]. intros c1 _ Ho. rewrite Hsock in Ho.
    exists (peer_reply pr (sent_bytes x)). split_and!; [|done|done]. unfold peer_arrives. by rewrite Ho. }
  subst items. destruct (position_next (cs_last_seq c) pos p extra done todo have) as [Hn Hpc]; [done..|].
  exists (items_data done), extra. rewrite ha_seq. split_and!; [done..|by intros ->; auto].
Qed.

Lemma terminate_same (c : cli) :
  exists b c1, terminate_pending c = Some (b, c1) /\
    cs_stdout c1 = cs_stdout c /\ cs_last_seq c1 = cs_last_seq c.
Proof. unfold terminate_pending. destruct (cs_term c) as [|[] l]; eauto 10. Qed.

Definition serving (tok : bytes) (connects : list (option peer)) : Prop :=
  Forall (fun a => match a with Some p => serves hist tok offered p | None => True end) connects.

Lemma connect_loop_exact (connects : list (option peer)) (retry have : bool)
    (token : option bytes) (failures : Z) (c : cli) (p : bytes) :
  token_fits token -> serving (default [] token) connects -> position (cs_last_seq c) p ->
  (have = false -> cs_last_seq c = 0) ->
  exists rc c' d, connect_loop malloc_ok connects retry token have failures c = Some (rc, c') /\
    (rc = 0 \/ rc = 1) /\ out (cs_stdout c') = out (cs_stdout c) ++ d /\ piece (p ++ d).
Proof.
  intros Ht. revert have failures c p. induction connects as [|a connects IH];
    intros have failures c p Hs Hpos Hhave; cbn [connect_loop];
    unfold mbind at 1, cli_bind at 1; destruct (terminate_same c) as (b&c1&->&Ho1&Hq1).
  { exists 0, c1, []. rewrite Ho1, !app_nil_r. split; [by destruct b|].
    split_and!; [by left|done|by eapply position_piece]. }
  apply Forall_cons in Hs as [Ha Hs].
  assert (forall rc : Z, rc = 0 \/ rc = 1 -> exists rc' c' d,
    (mret rc : cliM Z) c1 = Some (rc', c') /\ (rc' = 0 \/ rc' = 1) /\
    out (cs_stdout c') = out (cs_stdout c) ++ d /\ piece (p ++ d)) as Hstop.
  { intros rc Hrc. exists rc, c1, []. rewrite Ho1, !app_nil_r. split_and!; [done..|by eapply position_piece]. }
  destruct b; [apply Hstop; by left|]. destruct a as [pr|].
  - unfold mbind, cli_bind, put_sock. set (c2 := set_cs_sock _ c1).
    destruct (session_on_terminates malloc_ok (peer_arrives pr) have token c2) as (rc&c3&Hrun&Hrc);
      [by eexists|done|]. rewrite Hrun.
    destruct (session_position c2 c3 rc have token pr p) as (d&extra&Ho&Hpos'&Hpre&Hex);
      [done|done|by rewrite <- Hq1 in Hpos|by cbn; rewrite Hq1|done|done|].
    cbn in Ho. rewrite Ho1 in Ho.
    assert (forall rc : Z, rc = 0 \/ rc = 1 -> exists rc' c' d,
      (mret rc : cliM Z) c3 = Some (rc', c') /\ (rc' = 0 \/ rc' = 1) /\
      out (cs_stdout c') = out (cs_stdout c) ++ d /\ piece (p ++ d)) as Hstop'.
    { intros rc' Hrc'. by exists rc', c3, (d ++ extra). }
    destruct Hrc as [->|[->| ->]]; cbn [Z.eqb Z.ltb Z.compare]; [|apply Hstop'; by left|apply Hstop'; by right].
    destruct retry; [|apply Hstop'; by right]. rewrite sleep_ok. rewrite (Hex eq_refl), app_nil_r in Ho.
    destruct (IH true 1 (set_cs_slept (backoff 1 :: cs_slept c3) c3) (p ++ d)) as (rc4&c4&d4&Hl&Hrc4&Ho4&Hp4);
      [done|done|done|].
    exists rc4, c4, (d ++ d4). split_and!; [done|done| |by rewrite app_assoc].
    rewrite Ho4. cbn. by rewrite Ho, app_assoc.
  - destruct retry; [|apply Hstop; by right]. unfold mbind, cli_bind. rewrite sleep_ok.
    destruct (IH have (u32 (failures + 1)) (set_cs_slept (backoff (u32 (failures + 1)) :: cs_slept c1) c1) p)
      as (rc4&c4&d4&Hl&Hrc4&Ho4&Hp4); [done|cbn; by rewrite Hq1|by cbn; rewrite Hq1|].
    exists rc4, c4, d4. split_and!; [done|done| |done]. rewrite Ho4. cbn. by rewrite Ho1.
Qed.

(** Across any number of lost and refused connections a client with --retry prints one
    piece of the server's stream, from a position it was offered, with no byte missing,
    repeated or out of order: each RECONNECT carries the position of what was printed,
    so that a server that still has the rest continues there.  The client always
    returns, with status 0 or 1. *)
Lemma client_endpoint_exact (connects : list (option peer)) (retry : bool)
    (token : option bytes) (log : option (option stream)) (c : cli) :
  token_fits token -> serving (default [] token) connects ->
  exists rc c' d,
    run_client_endpoint malloc_ok token true true log retry connects c = Some (rc, c') /\
    (rc = 0 \/ rc = 1) /\
    out (cs_stdout c') = out (cs_stdout c) ++ d /\ piece d.
Proof.
  intros Ht Hs. unfold run_client_endpoint.
  destruct (Z.ltb_spec OPTY_MAX_TOKEN (blen (default [] token))); [unfold token_fits in Ht; lia|].
  cbn [negb].
  assert (forall c1, cs_last_seq c1 = 0 -> cs_stdout c1 = cs_stdout c -> exists rc c' d,
    connect_loop malloc_ok connects retry token false 0 c1 = Some (rc, c') /\ (rc = 0 \/ rc = 1) /\
    out (cs_stdout c') = out (cs_stdout c) ++ d /\ piece d) as Hloop.
  { intros c1 Hq Ho. rewrite <- Ho.
    apply (connect_loop_exact connects retry false token 0 c1 []); [done|done| |by intros _].
    rewrite Hq. by left. }
  destruct log as [[s|]|]; [by apply Hloop| |by apply Hloop].
  exists 1, c, []. rewrite app_nil_r. split_and!; [done|by right|done|by left].
Qed.

End Reconnect.

(** *** A concrete run

    A server that holds a stream of ten bytes from the third on, and drops the first
    connection in the middle of its second frame; the second attempt is refused, the
    third connection stays until the end. *)
Module DemoResume.

Definition hist : bytes := cstr "0123456789".
Definition start : Z := 2.

(** Where an intro asks to continue. *)
Definition asked_for (p : bytes) : Z :=
  match p with
  | _ :: _ :: _ :: _ :: t :: _ :: rest =>
      if b2z t =? msg_code OPTY_MSG_RECONNECT
      then match opty_get_u64 rest with Done q => q | _ => 0 end
      else 0
  | _ => 0
  end.

Lemma asked_for_intro (reconnect : bool) (q : Z) (tok : bytes) (x : sent) :
  intros_of reconnect q tok x -> 0 <= q < 2 ^ 64 ->
  asked_for (sent_bytes x) = if reconnect then q else 0.
Proof.
  intros (cols&rows&->&_) Hq. destruct reconnect; [|done].
  trans (match opty_get_u64 (opty_put_u64 q ++ opty_put_u16 cols ++ opty_put_u16 rows ++
                             [z2b (blen tok)] ++ tok) with Done q => q | _ => 0 end); [done|].
  by rewrite get_put_u64.
Qed.

Definition items (q : Z) : list item :=
  let m := Z.max q start in
  let d := log_since hist m in
  [IWelcome start 10; IData true m (take 3 d); IData false (m + blen (take 3 d)) (drop 3 d)].

(** The server hangs up on a position it no longer holds. *)
Definition reply (k : nat) (p : bytes) : list rd_ev :=
  let q := asked_for p in
  if (0 <? q) && (q <? start) then []
  else [RData (take 4 (items_bytes (items q))); RErr EINTR;
        RData (take k (drop 4 (items_bytes (items q))))].

Definition server (k : nat) : peer := Peer [WAccept 3] (reply k).

Lemma take_then_prefix (j k : nat) (p : bytes) : take j p ++ take k (drop j p) `prefix_of` p.
Proof. exists (drop k (drop j p)). by rewrite <- app_assoc, !take_drop. Qed.

Lemma items_serve (q : Z) :
  0 <= q <= blen hist ->
  Forall item_ok (items q) /\ contiguous (Z.max q start) (items q) /\
  items_data (items q) = log_since hist (Z.max q start).
Proof.
  intros Hq. change (blen hist) with 10 in Hq. unfold items. set (m := Z.max q start).
  assert (2 <= m <= 10) as Hm by (unfold m, start; lia).
  assert (blen (log_since hist m) = 10 - m) as Hl by (rewrite log_since_length by (unfold hist, blen; simpl; lia); done).
  assert (blen (take 3 (log_since hist m)) + blen (drop 3 (log_since hist m)) = 10 - m) as Hsplit
    by (rewrite <- blen_app, take_drop; done).
  pose proof (blen_nonneg (take 3 (log_since hist m))). pose proof (blen_nonneg (drop 3 (log_since hist m))).
  unfold start, OPTY_MAX_FRAME.
  split; [repeat constructor; unfold OPTY_MAX_FRAME; lia|]. split; [by split_and!|].
  unfold items_data. cbn [fmap list_fmap concat item_data]. rewrite app_nil_r. cbn [app]. by rewrite take_drop.
Qed.

Lemma demo_serves (k : nat) (tok : bytes) : serves hist tok (eq start) (server k).
Proof.
  intros reconnect q x Hx Hq. pose proof Hq as Hq'. change (blen hist) with 10 in Hq'.
  set (q' := if reconnect then q else 0). cbn [peer_reply server].
  assert (asked_for (sent_bytes x) = q') as Ha by (by eapply asked_for_intro; [|lia]).
  unfold reply. rewrite Ha. assert (0 <= q' <= blen hist) as Hr by (unfold q'; destruct reconnect; lia).
  destruct (items_serve q' Hr) as (Hok&Hc&Hd). unfold start in *.
  destruct (Z.ltb_spec 0 q'), (Z.ltb_spec q' 2); cbn [andb].
  { exists [], q. split_and!; [by apply Forall_nil_2|done|done|apply prefix_nil|lia|lia|].
    destruct (reconnect && (0 <? q)); auto. }
  all: exists (items q'), (Z.max q' 2); split_and!; try done; try (by rewrite Hd); try lia;
    try (change (blen hist) with 10 in *; lia);
    try (unfold content; cbn [map concat]; rewrite app_nil_r; cbn [app]; apply take_then_prefix);
    destruct reconnect, (Z.ltb_spec 0 q); cbn [andb]; try (left; lia); unfold q' in *; lia.
Qed.

Definition connects : list (option peer) := [Some (server 40); None; Some (server 200)].

(** The whole stream from the third byte on is printed, over the three attempts. *)
Example demo_prints :
  (fun r => match r with Some (rc, c) => (rc, out (cs_stdout c), cs_slept c) | None => (9, [], []) end)
    (run_client_endpoint (fun _ => true) None true true None true connects (quiet_client [])) =
  (0, cstr "23456789", [2; 1]).
Proof. vm_compute. reflexivity. Qed.

Lemma demo_exact :
  exists rc c' d,
    run_client_endpoint (fun _ => true) None true true None true connects (quiet_client []) = Some (rc, c') /\
    (rc = 0 \/ rc = 1) /\
    out (cs_stdout c') = [] ++ d /\ piece hist (eq start) d.
Proof.
  apply (client_endpoint_exact (fun _ => true) hist (eq start)); [by vm_compute|by vm_compute|].
  apply Forall_cons_2; [apply (demo_serves 40)|].
  apply Forall_cons_2; [exact I|]. apply Forall_cons_2; [apply (demo_serves 200)|by apply Forall_nil_2].
Qed.

End DemoResume.
