(* ===== verification/Asked.v ===== *)
(** * What an attached client had asked for

    The window a client of the server was sent belongs to the intro that came first on
    its connection: it is the one of the position a RECONNECT carried, or of position 0
    for a HELLO.  ([Sys.asks] is what the connection held when its thread began to read.) *)

From stdpp Require Import gmap.
From S2P Require Import Prelude.
From S2P Require Import Io.
From S2P Require Import Wire.
From S2P Require Import Messages.
From S2P Require Import Replay.
From S2P Require Import Child.
From S2P Require Import Server.
From S2P Require Import ServerSpec.
From S2P Require Import System.
From S2P Require Import Safety.
From S2P Require Import Consume.

(** The first frame of [p] is an intro that asks for the stream from [q] on. *)
Definition asked (p : bytes) (q : Z) : Prop :=
  exists f i rest, f = Frame (f_type f) (blen (f_payload f)) (f_payload f) /\
    frame_fits (f_type f) (f_payload f) /\
    p = encode_frame (f_type f) (f_payload f) ++ rest /\
    opty_parse_client_intro f (zeros (OPTY_MAX_TOKEN + 1)) = Done i /\
    q = if f_type f =? msg_code OPTY_MSG_RECONNECT then i_seq i else 0.

Section Asked.

Context {R : Type} `{!ReplayOps R, !ReplayLaws R}.
Variable malloc_ok : Z -> bool.
Variable calloc_ok : Z -> bool.
Variable cap : Z.

(** ** What the phases of a thread lead to *)

Lemma check_intro_asks (f : opty_frame) (s s' : server R) (rc q : Z) :
  server_check_intro f s = Some ((rc, q), s') -> 0 <= rc ->
  exists i, opty_parse_client_intro f (zeros (OPTY_MAX_TOKEN + 1)) = Done i /\
    q = if f_type f =? msg_code OPTY_MSG_RECONNECT then i_seq i else 0.
Proof.
  unfold server_check_intro. intros H Hrc.
  destruct (opty_parse_client_intro f _) as [i|e|] eqn:E; [|simplify_eq; lia|done].
  exists i. split; [done|]. destruct (_ || _); [simplify_eq; lia|].
  unfold mbind, srv_bind, mret, srv_ret, srv_lift in H.
  repeat (case_match; simplify_eq; try lia); done.
Qed.

Lemma first_frame_attach (f : opty_frame) (s s' : server R) (q : Z) :
  first_frame f s = Some (TAttach q, s') ->
  exists i, opty_parse_client_intro f (zeros (OPTY_MAX_TOKEN + 1)) = Done i /\
    q = if f_type f =? msg_code OPTY_MSG_RECONNECT then i_seq i else 0.
Proof.
  unfold first_frame. intros H. unfold mbind, srv_bind, mret, srv_ret in H.
  destruct (f_type f =? msg_code OPTY_MSG_CONTROL_SHUTDOWN).
  { destruct (server_check_control f s) as [[[rc input] s1]|]; [|done].
    destruct (rc =? -2); [|destruct (rc <? 0)]; by simplify_eq. }
  destruct (negb _ && negb _); [by simplify_eq|].
  destruct (server_check_intro f s) as [[[rc r] s1]|] eqn:E; [|done].
  destruct (rc =? -2); [by simplify_eq|]. destruct (Z.ltb_spec rc 0); [by simplify_eq|].
  simplify_eq. by eapply check_intro_asks.
Qed.

Lemma first_step_asks (s s' : server R) (c : cid) (cl : client) (q : Z) :
  heap s !! c = Some cl -> client_step malloc_ok c TFirst s = Some (Some (TAttach q), s') ->
  asked (content (inq (sock cl))) q.
Proof.
  intros Hc H. cbn [client_step] in H. unfold client_recv in H.
  unfold mbind at 1, srv_bind at 1 in H. rewrite (get_bind s c cl) in H by done.
  destruct (opty_recv_frame_limited malloc_ok OPTY_MAX_UNAUTH_PAYLOAD (sock cl)) as [[[f|]|e|] sk] eqn:E;
    [| | |done]; rewrite (put_bind s c cl) in H by done; cbn [mret srv_ret Z.ltb Z.compare] in H.
  - apply recv_limited_content in E as (Hf&Hfit&Hcon). unfold mbind, srv_bind, mret, srv_ret in H.
    destruct (first_frame f _) as [[ph s1]|] eqn:Ef; [|done]. simplify_eq.
    apply first_frame_attach in Ef as (i&Hi&->). by exists f, i, (content (inq sk)).
  - by vm_compute in H.
  - done.
Qed.

(** [TAttach] and [TSend] are entered from the phase before only. *)
Lemma client_step_enters (s s' : server R) (c : cid) (ph ph' : thread_phase) :
  client_step malloc_ok c ph s = Some (Some ph', s') ->
  match ph' with
  | TAttach _ => ph = TFirst
  | TSend w => exists q, ph = TAttach q /\ exists s1, attach_begin malloc_ok c q s = Some (Some w, s1)
  | _ => True
  end.
Proof.
  intros H. destruct ph' as [|q|w| | | |]; try done;
    destruct ph as [|q'|w'| |msg|sp|]; cbn [client_step] in H; try done;
    unfold mbind, srv_bind, mret, srv_ret in H; repeat (case_match; simplify_eq; try done); eauto.
  all: unfold first_frame, mbind, srv_bind, mret, srv_ret in *; repeat (case_match; simplify_eq; try done).
Qed.

(** ** The invariant *)

(** The window [w] of [c]'s connection is the one it asked for. *)
Definition answered (σ : sys R) (c : cid) (w : window) : Prop :=
  exists p q h0, asks σ !! c = Some p /\ asked p q /\ h0 `prefix_of` hist σ /\
    w = log_window malloc_ok cap h0 q.

Record asking (σ : sys R) (c : cid) : Prop := {
  ak_attach q : threads σ !! c = Some (TAttach q) -> exists p, asks σ !! c = Some p /\ asked p q;
  ak_send w : threads σ !! c = Some (TSend w) -> answered σ c w;
  ak_att w : att σ !! c = Some w -> answered σ c w
}.

(** Another's step, or one that leads elsewhere. *)
Lemma asking_same (σ σ' : sys R) (c : cid) :
  asking σ c -> asks σ' !! c = asks σ !! c -> hist σ `prefix_of` hist σ' ->
  (forall w, att σ' !! c = Some w -> att σ !! c = Some w \/ answered σ c w) ->
  (forall ph, threads σ' !! c = Some ph -> threads σ !! c = Some ph \/
     match ph with TAttach _ => False | TSend w => answered σ c w | _ => True end) ->
  asking σ' c.
Proof.
  intros [Ha Hs Hw] Hk Hh Hatt Hth.
  assert (forall w, answered σ c w -> answered σ' c w) as Hup.
  { intros w (p&q&h0&?&?&?&?). exists p, q, h0. rewrite Hk. split_and!; [done..|by etrans|done]. }
  split.
  - intros q Hq. rewrite Hk. destruct (Hth _ Hq) as [?|[]]. by apply Ha.
  - intros w Hq. apply Hup. destruct (Hth _ Hq) as [?|?]; [by apply Hs|done].
  - intros w Hq. apply Hup. destruct (Hatt _ Hq) as [?|?]; [by apply Hw|done].
Qed.

Lemma attach_begin_window (σ : sys R) (c : cid) (q : Z) (w : window) (s' : server R) :
  inv malloc_ok calloc_ok cap σ -> attach_begin malloc_ok c q (srv σ) = Some (Some w, s') ->
  w = log_window malloc_ok cap (hist σ) q.
Proof.
  intros H He. unfold attach_begin in He. rewrite (rb_window_ok malloc_ok _ _ _ q (i_ring H)) in He.
  destruct (_ && _); [done|]. unfold mbind, srv_bind, mret, srv_ret in He.
  repeat (case_match; simplify_eq; try done).
Qed.

Lemma client_step_asking (σ : sys R) (c : cid) (ph : thread_phase) next s' :
  inv malloc_ok calloc_ok cap σ -> asking σ c -> threads σ !! c = Some ph ->
  client_step malloc_ok c ph (srv σ) = Some (next, s') -> asking (after_client σ c ph next s') c.
Proof.
  intros Hi Hk Hth He.
  destruct next as [ph'|].
  2: { apply (asking_same σ); [done|cbn; by destruct ph|done|intros w; cbn; destruct ph; auto|].
       intros ph'. cbn. by rewrite lookup_delete_eq. }
  pose proof (client_step_enters _ _ _ _ _ He) as Hin.
  destruct ph' as [|q|w| |msg|sp|].
  2: { subst ph. destruct (inv_client _ _ _ σ c _ Hi Hth) as (v&Hv&Hco).
       destruct (co_phase Hco _ eq_refl) as [Hau _]. destruct (co_unauth Hco Hau) as [Hnone _].
       apply abs_heap_inv in Hv as (cl&Hc&_).
       pose proof (first_step_asks _ _ _ _ _ Hc He) as Hq. split; cbn; rewrite ?lookup_insert_eq, ?Hc, ?lookup_insert_eq.
       - intros q' [= <-]. eauto.
       - done.
       - by rewrite Hnone. }
  2: { destruct Hin as (q&->&s1&Hw). apply (attach_begin_window _ _ _ _ _ Hi) in Hw as ->.
       apply (asking_same σ); cbn; rewrite ?lookup_insert_eq; auto.
       intros ph [= <-]. right. destruct (ak_attach _ _ Hk q Hth) as (p&?&?).
       by exists p, q, (hist σ). }
  all: apply (asking_same σ); cbn; rewrite ?lookup_insert_eq; try done;
    try (intros ph0 [= <-]; by right); try (by destruct ph); try (destruct ph; by auto).
  intros w. destruct ph as [|q|w'| |msg|sp|]; auto. rewrite lookup_insert_eq. intros [= <-]. right.
  by apply (ak_send _ _ Hk).
Qed.

Lemma asking_step (σ σ' : sys R) :
  inv malloc_ok calloc_ok cap σ -> (forall c, asking σ c) -> step malloc_ok calloc_ok σ σ' ->
  forall c, asking σ' c.
Proof.
  intros Hi Hk Hs x. destruct Hs as [c ph next s' Hth _ He|ph' s' _ He|ev ph' new s' _ He].
  - destruct (decide (x = c)) as [->|Hx]; [by apply client_step_asking|].
    apply (asking_same σ); cbn; [done|..].
    + destruct ph, next as [[]|]; try done. destruct (heap _ !! c); [|done]. by rewrite lookup_insert_ne.
    + done.
    + intros w. destruct ph, next as [[]|]; auto. rewrite lookup_insert_ne by done. auto.
    + intros ph0. destruct next; rewrite ?lookup_insert_ne, ?lookup_delete_ne by done; auto.
  - apply (asking_same σ); cbn; auto. destruct (pp σ), ph'; try done. by apply prefix_app_r.
  - apply (asking_same σ); cbn; auto.
    + intros w. destruct (mp σ), ev; auto. rewrite lookup_delete_Some. naive_solver.
    + intros ph. destruct new as [c|]; [|auto]. destruct (decide (x = c)) as [->|].
      * rewrite lookup_insert_eq. intros [= <-]. by right.
      * rewrite lookup_insert_ne by done. auto.
Qed.

(** In every reachable state the window of an attached client is the one that the intro on
    its connection asked for, at the stream as it was then. *)
Lemma attached_asked (σ : sys R) (c : cid) (w : window) :
  reachable malloc_ok calloc_ok cap σ -> att σ !! c = Some w -> answered σ c w.
Proof.
  intros (σ0&Hi&Hs&Hb). enough (forall x, asking σ x) as H by apply (ak_att _ _ (H c)).
  induction Hs as [σ|σ1 σ2 σ3 Hs IH Hstep].
  - intros x. destruct Hi as (_&_&_&_&_&_&_&Hth&_&Ha&_).
    split; intros ?; rewrite ?Hth, ?Ha, lookup_empty; done.
  - pose proof (hist_grows malloc_ok calloc_ok _ _ Hstep).
    eapply asking_step; [|apply IH; [done|lia]|done].
    apply reachable_inv. exists σ1. split_and!; [done|done|lia].
Qed.

End Asked.
