(* ===== verification/EndToEnd.v ===== *)
(** * Server and client together

    The two halves composed: what the concurrent server (System.v) has written to a
    connection is what the client's session loop (Client.v) reads from it, and what the
    client sends first is what the server's thread reads first.  The connection delivers
    bytes in order, in any pieces, and may end anywhere. *)

From stdpp Require Import gmap.
From S2P Require Import Prelude.
From S2P Require Import Io.
From S2P Require Import Wire.
From S2P Require Import Messages.
From S2P Require Import Replay.
From S2P Require Import Ring.
From S2P Require Import Child.
From S2P Require Import Server.
From S2P Require Import ServerSpec.
From S2P Require Import System.
From S2P Require Import Safety.
From S2P Require Import ServerProps.
From S2P Require Import ServerAuth.
From S2P Require Import Client.
From S2P Require Import ClientSpec.
From S2P Require Import ClientStream.
From S2P Require Import ClientProps.
From S2P Require Import Resume.
From S2P Require Import Consume.
From S2P Require Import Asked.

(** ** The server's frames as the client's items *)

Fixpoint stdout_items (seq : Z) (ds : list bytes) : list item :=
  match ds with
  | [] => []
  | d :: rest => IData false seq d :: stdout_items (seq + blen d) rest
  end.

Definition attached_items (w : window) (ds : list bytes) : list item :=
  IWelcome (w_base w) (w_next w) :: IData true (w_from w) (default [] (w_data w)) ::
  stdout_items (w_next w) ds.

Lemma stdout_items_bytes (seq : Z) (ds : list bytes) :
  items_bytes (stdout_items seq ds) = stdout_frames seq ds.
Proof.
  revert seq. induction ds as [|d ds IH]; intros seq; [done|].
  cbn [stdout_items stdout_frames]. by rewrite items_bytes_cons, IH.
Qed.

Lemma attached_items_bytes (w : window) (ds : list bytes) :
  items_bytes (attached_items w ds) = attached_out w ds.
Proof. unfold attached_items. by rewrite !items_bytes_cons, stdout_items_bytes. Qed.

Lemma stdout_items_data (seq : Z) (ds : list bytes) : items_data (stdout_items seq ds) = concat ds.
Proof.
  revert seq. induction ds as [|d ds IH]; intros seq; [done|].
  cbn [stdout_items]. by rewrite items_data_cons, IH.
Qed.

Lemma attached_items_data (w : window) (ds : list bytes) :
  items_data (attached_items w ds) = carried w ds.
Proof. unfold attached_items. by rewrite !items_data_cons, stdout_items_data. Qed.

Lemma stdout_items_contiguous (seq : Z) (ds : list bytes) : contiguous seq (stdout_items seq ds).
Proof. revert seq. induction ds as [|d ds IH]; intros seq; [done|]. by split. Qed.

Lemma stdout_items_ok (seq : Z) (ds : list bytes) :
  0 <= seq -> seq + blen (concat ds) < 2 ^ 64 -> chunks_small ds ->
  Forall item_ok (stdout_items seq ds).
Proof.
  revert seq. induction ds as [|d ds IH]; intros seq Hs Hb Hc; [by apply Forall_nil_2|].
  apply Forall_cons in Hc as [Hd Hc]. cbn [concat] in Hb. rewrite blen_app in Hb.
  pose proof (blen_nonneg d). pose proof (blen_nonneg (concat ds)).
  apply Forall_cons_2; [|apply IH; [lia|lia|done]].
  unfold item_ok. split_and!; [done|lia|]. change (OPTY_MAX_FRAME - 1) with 16777215. lia.
Qed.

Section EndToEnd.

Context {R : Type} `{!ReplayOps R, !ReplayLaws R}.
Variable malloc_ok : Z -> bool.
Variable cap : Z.

(** What [window_ok] says of the numbers. *)
Lemma window_ok_data (h : bytes) (w : window) :
  window_ok malloc_ok cap h w -> 0 < cap ->
  0 <= w_base w <= w_next w /\ 0 <= w_from w /\ w_next w <= blen h /\
  w_from w + blen (default [] (w_data w)) = w_next w /\ blen (default [] (w_data w)) <= cap.
Proof.
  intros Hw Hcap. destruct (carried_prefix malloc_ok cap h w [] Hw) as [_ Hn]; [apply prefix_nil|done|].
  destruct (window_ok_next _ _ _ _ Hw) as [Hn0 Hn1]. destruct Hw as (_&h0&q&_&->).
  destruct (log_from_bounds cap h0 q Hcap) as [Hf0 Hf1]. unfold carried in Hn. cbn [concat] in Hn.
  rewrite app_nil_r in Hn. change (blen []) with 0 in Hn. rewrite Z.add_0_r in Hn.
  unfold log_window in Hn, Hn0, Hn1 |- *. cbn [w_base w_from w_next w_data] in *.
  assert (log_base cap h0 <= log_from cap h0 q) by (unfold log_from; lia).
  assert (blen h0 - cap <= log_base cap h0) by (unfold log_base; lia).
  assert (0 <= log_base cap h0) by (unfold log_base; lia). lia.
Qed.

(** The frames fit, and their data follow one another, when the whole ring fits in one
    frame (see ServerFaults.oversized_replay_locks_out for a ring that does not). *)
Lemma attached_items_ok (h : bytes) (w : window) (ds : list bytes) :
  window_ok malloc_ok cap h w -> 0 < cap -> cap + 9 <= OPTY_MAX_FRAME -> blen h < 2 ^ 64 ->
  chunks_small ds -> concat ds `prefix_of` log_since h (w_next w) ->
  Forall item_ok (attached_items w ds) /\ contiguous (w_from w) (attached_items w ds) /\
  w_next w + blen (concat ds) <= blen h.
Proof.
  intros Hw Hcap Hfit Hh Hds [k Hk]. destruct (window_ok_data h w Hw Hcap) as (Hb&Hf&Hn&Hd&Hc).
  assert (w_next w + blen (concat ds) <= blen h) as Hle.
  { pose proof (f_equal blen Hk) as Hl. rewrite blen_app, log_since_length in Hl by lia.
    pose proof (blen_nonneg k). lia. }
  split; [|split; [|done]].
  - apply Forall_cons_2; [|apply Forall_cons_2; [|apply stdout_items_ok; [lia|lia|done]]];
      unfold item_ok; lia.
  - cbn [attached_items contiguous]. rewrite Hd. split; [done|apply stdout_items_contiguous].
Qed.

Variable calloc_ok : Z -> bool.

(** The items behind what an attached client of a reachable server was sent. *)
Lemma served_items (σ : sys R) (c : cid) (cl : client) (w : window) :
  reachable malloc_ok calloc_ok cap σ -> (forall n, calloc_ok n = true) ->
  cap + 9 <= OPTY_MAX_FRAME -> heap (srv σ) !! c = Some cl -> att σ !! c = Some w ->
  exists ds, Forall item_ok (attached_items w ds) /\ contiguous (w_from w) (attached_items w ds) /\
    out (sock cl) `prefix_of` items_bytes (attached_items w ds) /\
    items_data (attached_items w ds) `prefix_of` log_since (hist σ) (w_from w) /\
    (dead cl = false -> idle (pp σ) ->
     out (sock cl) = items_bytes (attached_items w ds) /\
     items_data (attached_items w ds) = log_since (hist σ) (w_from w)).
Proof.
  intros Hr Hm Hfit Hc Hw.
  destruct (attached_facts malloc_ok calloc_ok cap σ c cl w Hr Hm Hc Hw)
    as (Hwin&Hcap&Hb&Hl&ds&Hsm&Hp&Ho&Hpre&He).
  destruct (attached_items_ok (hist σ) w ds Hwin Hcap Hfit Hb Hsm Hp) as (Hok&Hcont&_).
  exists ds. rewrite attached_items_bytes, attached_items_data. split_and!; [done..|].
  intros Hd Hi. destruct He as [Hout Hlive]; [by apply idle_exact|]. split; [done|].
  eapply carried_whole; [done..|]. rewrite <- Hlive. by apply Hl.
Qed.

(** The client's position after contiguous items, wherever it was. *)
Lemma contiguous_seq_max (l : list item) (n pos : Z) :
  contiguous pos l ->
  items_seq n l = Z.max n (pos + blen (items_data l)) \/ items_seq n l = n /\ items_data l = [].
Proof.
  revert n pos. induction l as [|[b m|r seq data] l IH]; intros n pos H; [by right|by apply IH|].
  destruct H as [-> H]. rewrite items_data_cons, blen_app. unfold items_seq. cbn. left.
  pose proof (blen_nonneg data). pose proof (blen_nonneg (items_data l)).
  destruct (IH (Z.max n (pos + blen data)) (pos + blen data) H) as [He|[He ->]];
    unfold items_seq in He; rewrite He; [lia|]. unfold blen. simpl. lia.
Qed.

(** ** The terminal shows what the PTY printed *)

(** From the PTY to the terminal: a client on the other end of a connection of the
    server, in any reachable state of the server, of which any part of what was
    written has arrived, prints a piece of the PTY's stream that starts where its
    REPLAY started, with no byte missing, repeated or reordered, whatever else
    happens to it; and the position it will resume from is the end of that piece. *)
Theorem terminal_shows_stream (σ : sys R) (c : cid) (cl : client) (w : window)
    (cmalloc : Z -> bool) (reconnect : bool) (tok : option bytes) (t t' : cli) (rc : Z) :
  reachable malloc_ok calloc_ok cap σ -> (forall n, calloc_ok n = true) ->
  cap + 9 <= OPTY_MAX_FRAME -> heap (srv σ) !! c = Some cl -> att σ !! c = Some w ->
  0 <= cs_last_seq t < 2 ^ 64 -> token_fits tok ->
  content (inq (cs_sock t)) `prefix_of` out (sock cl) ->
  run_session cmalloc reconnect tok t = Some (rc, t') ->
  exists d extra, out (cs_stdout t') = out (cs_stdout t) ++ d ++ extra /\
    d ++ extra `prefix_of` log_since (hist σ) (w_from w) /\ (rc = 1 -> extra = []) /\
    (cs_last_seq t' = Z.max (cs_last_seq t) (w_from w + blen d) \/
     cs_last_seq t' = cs_last_seq t /\ d = []).
Proof.
  intros Hr Hm Hfit Hc Hw Hq Ht Hin Hrun.
  destruct (served_items σ c cl w Hr Hm Hfit Hc Hw) as (ds&Hok&Hcont&Ho&Hd&_).
  assert (content (inq (cs_sock t)) `prefix_of` items_bytes (attached_items w ds)) as Hin' by (by etrans).
  pose proof (run_session_ok cmalloc reconnect tok t _ False Hok Hq Ht Hin' ltac:(done)) as H.
  unfold wp in H. rewrite Hrun in H. destruct H as (x&_&(done&todo&fs&extra&part&lost&[])&_&_).
  exists (items_data done), extra. rewrite ha_items in Hcont, Hd. split_and!; [done| |by auto|].
  - etrans; [|exact Hd]. unfold items_data at 2. rewrite fmap_app, concat_app. by apply prefix_app.
  - rewrite ha_seq. eapply contiguous_seq_max, contiguous_app, Hcont.
Qed.

(** [C5] The terminal catches up: let [calloc] never fail in the server and the ring fit in
    one frame.  When the PTY thread is between chunks, everything written for a client
    that is not dead arrives, and nothing disturbs the client (its descriptors work, it has
    memory, nobody types, no signal), its session prints the PTY's stream from the position
    where its REPLAY started ([w_from]: the one it asked for, or the oldest byte held) to
    the last byte, returns 0, and ends at the position of the server. *)
Theorem terminal_catches_up (σ : sys R) (c : cid) (cl : client) (w : window)
    (cmalloc : Z -> bool) (reconnect : bool) (tok : option bytes) (t : cli) :
  reachable malloc_ok calloc_ok cap σ -> (forall n, calloc_ok n = true) ->
  cap + 9 <= OPTY_MAX_FRAME -> heap (srv σ) !! c = Some cl -> att σ !! c = Some w ->
  dead cl = false -> idle (pp σ) ->
  0 <= cs_last_seq t <= blen (hist σ) -> token_fits tok ->
  undisturbed cmalloc t (out (sock cl)) ->
  exists t', run_session cmalloc reconnect tok t = Some (0, t') /\
    out (cs_stdout t') = out (cs_stdout t) ++ log_since (hist σ) (w_from w) /\
    cs_last_seq t' = blen (hist σ).
Proof.
  intros Hr Hm Hfit Hc Hw Hd Hi Hq Ht Hu.
  destruct (attached_facts malloc_ok calloc_ok cap σ c cl w Hr Hm Hc Hw) as (Hwin&Hcap&Hb&_).
  destruct (served_items σ c cl w Hr Hm Hfit Hc Hw) as (ds&Hok&Hcont&_&_&[Hout Hdata]%(fun f => f Hd Hi)).
  rewrite Hout in Hu. pose proof (un_content _ _ _ Hu) as Hin.
  assert (content (inq (cs_sock t)) `prefix_of` items_bytes (attached_items w ds)) as Hin' by (by rewrite Hin).
  pose proof (run_session_ok cmalloc reconnect tok t _ True Hok ltac:(lia) Ht Hin' ltac:(done)) as H.
  unfold wp in H. destruct (run_session _ _ _ _) as [[rc t']|]; [|done].
  destruct H as (x&_&(done&todo&fs&extra&part&lost&[])&_&Hrc).
  rewrite (ha_lively I), app_nil_r in ha_items. subst done.
  rewrite ha_exact, app_nil_r, Hdata in ha_stdout by auto.
  exists t'. rewrite (Hrc I). split_and!; [done..|]. rewrite ha_seq.
  pose proof (window_from_range malloc_ok cap (hist σ) w Hwin Hcap) as Hf.
  unfold attached_items, items_seq. cbn [fold_left item_seq].
  destruct Hcont as [_ Hcont].
  destruct (contiguous_seq_max (stdout_items (w_next w) ds) (Z.max (cs_last_seq t)
    (w_from w + blen (default [] (w_data w)))) _ Hcont) as [He|[He Hnil]];
    unfold items_seq in He; rewrite He; clear He;
    pose proof (f_equal blen Hdata) as Hlen; unfold attached_items in Hlen;
    rewrite !items_data_cons in Hlen; rewrite !blen_app, log_since_length in Hlen by done.
  - cbn [item_data] in Hlen. change (blen []) with 0 in Hlen.
    pose proof (blen_nonneg (items_data (stdout_items (w_next w) ds))). lia.
  - rewrite Hnil in Hlen. cbn [item_data] in Hlen. change (blen []) with 0 in Hlen. lia.
Qed.

(** ** One stream over many connections to the server *)

(** The intro of a client says where it wants to continue. *)
Lemma asked_intro (reconnect : bool) (q q' : Z) (tok more : bytes) (x : sent) :
  intros_of reconnect q tok x -> 0 <= q < 2 ^ 64 -> blen tok <= OPTY_MAX_TOKEN ->
  asked (sent_bytes x ++ more) q' -> q' = if reconnect then q else 0.
Proof.
  intros (cols&rows&->&Hc&Hr) Hq Hl (f&i&rest&Hf&Hfit&He&Hi&->).
  set (p := intro_payload q cols rows tok reconnect) in *. pose proof (blen_nonneg tok).
  assert (frame_fits (sent_type (SIntro reconnect q cols rows tok)) p) as Hfit'.
  { split; [by destruct reconnect|]. unfold p. rewrite intro_payload_length.
    unfold OPTY_MAX_FRAME, OPTY_MAX_TOKEN in *. destruct reconnect; lia. }
  assert (encode_frame (sent_type (SIntro reconnect q cols rows tok)) p ++ more
    `prefix_of` encode_frame (f_type f) (f_payload f) ++ rest) as Hpre by (rewrite <- He; done).
  apply (encode_frame_inj _ _ _ _ _ _ Hfit' Hfit) in Hpre as (Ht&Hp&_).
  rewrite Hf, <- Ht, <- Hp in Hi. rewrite <- Ht.
  destruct reconnect; cbn [sent_type] in *; [|done].
  unfold opty_parse_client_intro in Hi. cbn [f_type] in Hi.
  change (msg_code OPTY_MSG_RECONNECT =? msg_code OPTY_MSG_HELLO) with false in Hi.
  change (msg_code OPTY_MSG_RECONNECT =? msg_code OPTY_MSG_RECONNECT) with true in *. cbv iota in *.
  unfold p in Hi. rewrite parse_intro_payload_ok in Hi;
    [by simplify_eq|by unfold valid_intro; split_and!; lia|].
  rewrite blen_zeros by (unfold OPTY_MAX_TOKEN; lia). lia.
Qed.

(** Each connection is one to a server in some reachable state, whose stream so far
    [hist] continues: on the server's end the intro of the client came in first, and what
    arrives is part of what the server has sent there (perhaps nothing).  A server that
    is asked to continue somewhere still holds that position. *)
Definition served_by (h tok : bytes) (p : peer) : Prop :=
  forall reconnect q intro, intros_of reconnect q tok intro -> 0 <= q <= blen h ->
    content (peer_reply p (sent_bytes intro)) = [] \/
    exists (σ : sys R) c cl w more,
      reachable malloc_ok calloc_ok cap σ /\ hist σ `prefix_of` h /\
      heap (srv σ) !! c = Some cl /\ att σ !! c = Some w /\
      asks σ !! c = Some (sent_bytes intro ++ more) /\
      content (peer_reply p (sent_bytes intro)) `prefix_of` out (sock cl) /\
      (reconnect = true -> 0 < q -> w_base w <= q <= w_next w).

(** The oldest byte that the ring holds at some point of the stream. *)
Definition oldest_held (h : bytes) (start : Z) : Prop :=
  exists h0, h0 `prefix_of` h /\ start = log_from cap h0 0.

Lemma log_since_prefix (h k : bytes) (from : Z) :
  0 <= from <= blen h -> h `prefix_of` k -> log_since h from `prefix_of` log_since k from.
Proof. intros Hf [d ->]. rewrite log_since_app by done. by apply prefix_app_r. Qed.

(** A window that was asked for starts where the intro said. *)
Lemma answered_from (σ : sys R) (c : cid) (w : window) (h tok more : bytes) (reconnect : bool) (q : Z)
    (intro : sent) :
  answered malloc_ok cap σ c w -> hist σ `prefix_of` h -> intros_of reconnect q tok intro ->
  0 <= q < 2 ^ 64 -> blen tok <= OPTY_MAX_TOKEN -> asks σ !! c = Some (sent_bytes intro ++ more) ->
  (reconnect = true -> 0 < q -> w_base w <= q <= w_next w) ->
  if reconnect && (0 <? q) then w_from w = q else oldest_held h (w_from w).
Proof.
  intros (p&q'&h0&Hp&Hq'&Hh0&->) Hh Hx Hq Htok Hp' Hheld. rewrite Hp' in Hp. injection Hp as <-.
  apply (asked_intro reconnect q q' tok more intro Hx Hq Htok) in Hq' as ->.
  cbn [w_base w_next w_from log_window] in *.
  destruct reconnect, (Z.ltb_spec 0 q); cbn [andb].
  - apply log_from_resume; unfold log_base in *; specialize (Hheld eq_refl ltac:(done)); lia.
  - assert (q = 0) as -> by lia. exists h0. split; [by etrans|done].
  - exists h0. split; [by etrans|done].
  - exists h0. split; [by etrans|done].
Qed.

Lemma served_by_serves (h tok : bytes) (p : peer) :
  (forall n, calloc_ok n = true) -> cap + 9 <= OPTY_MAX_FRAME -> blen h < 2 ^ 64 ->
  blen tok <= OPTY_MAX_TOKEN ->
  served_by h tok p -> serves h tok (oldest_held h) p.
Proof.
  intros Hm Hfit Hb Htok Hs reconnect q x Hx Hq.
  destruct (Hs reconnect q x Hx Hq) as [Hnil|(σ&c&cl&w&more&Hr&Hh&Hc&Hw&Hask&Hin&Hheld)].
  - exists [], q. rewrite Hnil. split; [by apply Forall_nil_2|]. split; [done|]. split; [done|].
    split; [apply prefix_nil|]. split; [done|]. destruct (reconnect && (0 <? q)); auto.
  - destruct (served_items σ c cl w Hr Hm Hfit Hc Hw) as (ds&Hok&Hcont&Ho&Hd&_).
    destruct (attached_facts malloc_ok calloc_ok cap σ c cl w Hr Hm Hc Hw) as (Hwin&Hcap&_).
    pose proof (window_from_range malloc_ok cap (hist σ) w Hwin Hcap) as Hwf.
    pose proof (prefix_length _ _ Hh) as Hlen.
    assert (log_since (hist σ) (w_from w) `prefix_of` log_since h (w_from w)) as Hlog by by apply log_since_prefix.
    pose proof (answered_from σ c w h tok more reconnect q x
      (attached_asked malloc_ok calloc_ok cap σ c w Hr Hw) Hh Hx ltac:(lia) Htok Hask Hheld) as Hfrom.
    exists (attached_items w ds), (w_from w).
    split; [done|]. split; [by etrans|]. split; [done|]. split; [by etrans|].
    split; [unfold blen in *; lia|]. destruct (reconnect && (0 <? q)); auto.
Qed.

(** [C2] A terminal survives its connections: over any number of lost, refused and
    repeated connections, each to the server in whatever state it is meanwhile, what the
    client prints is one piece of what the PTY printed, with no byte missing, repeated or
    out of order, and it returns 0 or 1.  The piece starts at the oldest byte the server
    held when it was first read.  What arrives on a connection is what the server sends
    to the intro that the client really sent on it: the proof needs that this is a HELLO
    before anything was received and a RECONNECT with the position after the last byte
    printed from then on.  Conditions: [calloc] does not fail (otherwise see
    ServerFaults.failed_snapshot_leaves_gap), the ring fits in one frame
    (ServerFaults.oversized_replay_locks_out), and a server that is asked to continue
    somewhere still holds that position: the client was not away for more than the
    capacity of the ring, and the server was not restarted. *)
Theorem reconnecting_terminal_exact (h : bytes) (cmalloc : Z -> bool)
    (connects : list (option peer)) (retry : bool) (tok : option bytes)
    (log : option (option stream)) (t : cli) :
  (forall n, calloc_ok n = true) -> cap + 9 <= OPTY_MAX_FRAME -> blen h < 2 ^ 64 -> token_fits tok ->
  Forall (fun a => match a with Some p => served_by h (default [] tok) p | None => True end) connects ->
  exists rc t' d,
    run_client_endpoint cmalloc tok true true log retry connects t = Some (rc, t') /\
    (rc = 0 \/ rc = 1) /\
    out (cs_stdout t') = out (cs_stdout t) ++ d /\
    (d = [] \/ exists h0 h1 h2, h = h0 ++ d ++ h1 /\ h2 `prefix_of` h /\ blen h0 = Z.max 0 (blen h2 - cap)).
Proof.
  intros Hm Hfit Hh Ht Hs.
  destruct (client_endpoint_exact cmalloc h (oldest_held h) Hh connects retry tok log t) as (rc&t'&d&?&?&?&Hd);
    [done| |].
  { eapply Forall_impl; [exact Hs|]. intros [p|]; [|done]. by apply served_by_serves. }
  exists rc, t', d. split_and!; [done..|].
  destruct Hd as [->|(start&(h2&Hh2&->)&Hst&h1&Hd)]; [by left|right].
  set (from := log_from cap h2 0) in *. exists (take (Z.to_nat from) h), h1, h2. split; [|split; [done|]].
  - unfold log_since in Hd. by rewrite <- Hd, take_drop.
  - unfold blen in *. rewrite length_take, Nat.min_l by lia. rewrite Z2Nat.id by lia.
    unfold from, log_from, log_base, blen. lia.
Qed.

End EndToEnd.

(** *** A terminal on the other end

    The client of [Demo.sys1], of which first all but the last frame's end arrives, then
    everything. *)
Module DemoTerminal.

Import Demo.

Definition w : window := Window 0 0 3 3 (Some (cstr "abc")).
Definition sent_to : bytes := out (sock client1).

Definition torn : cli := quiet_client [RData (take 50 sent_to); RErr ECONNRESET].
Definition whole : cli := quiet_client [RData (take 50 sent_to); RErr EINTR; RData (drop 50 sent_to)].

Definition torn_end : cli :=
  match run_session always false None torn with Some (_, t) => t | None => torn end.

Lemma torn_runs : run_session always false None torn = Some (1, torn_end).
Proof. vm_compute. reflexivity. Qed.

Example torn_prints : out (cs_stdout torn_end) = cstr "abc" /\ cs_last_seq torn_end = 3.
Proof. vm_compute. auto. Qed.

Lemma whole_undisturbed : undisturbed always whole sent_to.
Proof.
  split; [constructor|split; constructor|split; constructor|exact I|constructor| | |reflexivity].
  - apply Forall_cons_2; [by vm_compute|]. apply Forall_cons_2; [reflexivity|].
    apply Forall_cons_2; [by vm_compute|constructor].
  - vm_compute. reflexivity.
Qed.

Lemma terminal_shows_stream_witness :
  exists d extra, out (cs_stdout torn_end) = out (cs_stdout torn) ++ d ++ extra /\
    d ++ extra `prefix_of` log_since (hist sys1) (w_from w) /\ (1 = 1 -> extra = []) /\
    (cs_last_seq torn_end = Z.max (cs_last_seq torn) (w_from w + blen d) \/
     cs_last_seq torn_end = cs_last_seq torn /\ d = []).
Proof.
  apply (terminal_shows_stream always 5 always sys1 1%nat client1 w always false None torn torn_end 1);
    [exact sys1_reachable|done|by vm_compute|exact client1_there|exact window1|by vm_compute
    |by vm_compute| |exact torn_runs].
  exists (drop 50 sent_to). vm_compute. reflexivity.
Defined.

Lemma terminal_catches_up_witness :
  exists t', run_session always false None whole = Some (0, t') /\
    out (cs_stdout t') = out (cs_stdout whole) ++ log_since (hist sys1) (w_from w) /\ cs_last_seq t' = blen (hist sys1).
Proof.
  apply (terminal_catches_up always 5 always sys1 1%nat client1 w always false None whole);
    [exact sys1_reachable|done|by vm_compute|exact client1_there|exact window1|by vm_compute
    |by vm_compute|by vm_compute|by vm_compute|exact whole_undisturbed].
Defined.

(** A connection to the server: the bytes that the client sends first are the connection
    of the server, and what the server wrote there is what arrives. *)
Definition visit (p : bytes) : list action :=
  [APty; APty; APty; APty;
   AMain EvGo; AMain (EvConn 1%nat (conn p)); AMain (EvThread true);
   AClient 1%nat; AClient 1%nat; AClient 1%nat].

Definition visited (p : bytes) : sys opty_ring := default sys0 (exec_all always always (visit p) sys0).

(** The intros that this client can send, each with the visit that it makes. *)
Definition intros : list bytes :=
  sent_bytes (SIntro false 0 80 24 []) :: ((fun q => sent_bytes (SIntro true q 80 24 [])) <$> [0; 1; 2; 3; 4; 5]).

Definition visit_ok (p : bytes) : Prop :=
  exec_all always always (visit p) sys0 = Some (visited p) /\ hist (visited p) = cstr "abcde" /\
  exists cl w, heap (srv (visited p)) !! 1%nat = Some cl /\ att (visited p) !! 1%nat = Some w /\
    asks (visited p) !! 1%nat = Some (p ++ []) /\ w_base w = 0 /\ w_next w = 5.

Lemma visited_runs : Forall visit_ok intros.
Proof.
  repeat apply Forall_cons_2; [..|by apply Forall_nil_2];
    (split; [vm_compute; reflexivity|]); (split; [vm_compute; reflexivity|]);
    (eexists _, _; split_and!; vm_compute; reflexivity).
Qed.

(** The connection breaks after [k] bytes. *)
Definition reply (k : nat) (p : bytes) : list rd_ev :=
  if decide (p ∈ intros)
  then [RData (take k (match heap (srv (visited p)) !! 1%nat with Some cl => out (sock cl) | None => [] end))]
  else [].

Definition server_peer (k : nat) : peer := Peer [] (reply k).

Lemma demo_served_by (k : nat) :
  served_by (R := opty_ring) always 5 always (cstr "abcde") [] (server_peer k).
Proof.
  intros reconnect q x _ Hq. change (blen (cstr "abcde")) with 5 in Hq. cbn [peer_reply server_peer].
  unfold reply. case_decide as Hin; [|by left]. right. set (p := sent_bytes x) in *.
  pose proof (proj1 (Forall_forall _ _) visited_runs p Hin) as (Hrun&Hh&cl&w'&Hc&Hw&Hk&Hb&Hn).
  exists (visited p), 1%nat, cl, w', []. split; [|split; [by rewrite Hh|split_and!; try done]].
  - exists sys0. split; [exact sys0_initial|split].
    + eapply exec_all_steps. exact Hrun.
    + rewrite Hh. vm_compute. reflexivity.
  - rewrite Hc. unfold content. cbn [map concat]. rewrite app_nil_r. eexists. symmetry. apply take_drop.
  - intros _ _. lia.
Qed.

(** Three attempts: the first connection breaks after 38 bytes, behind the REPLAY frame;
    the second is refused; the third has nothing to add. *)
Definition attempts : list (option peer) := [Some (server_peer 38); None; Some (server_peer 200)].

Example attempts_print :
  (fun r => match r with Some (rc, t) => (rc, out (cs_stdout t), cs_slept t) | None => (9, [], []) end)
    (run_client_endpoint always None true true None true attempts (quiet_client [])) =
  (0, cstr "abcde", [2; 1]).
Proof. vm_compute. reflexivity. Qed.

Lemma reconnecting_terminal_exact_witness :
  exists rc t' d,
    run_client_endpoint always None true true None true attempts (quiet_client []) = Some (rc, t') /\
    (rc = 0 \/ rc = 1) /\
    out (cs_stdout t') = out (cs_stdout (quiet_client [])) ++ d /\
    (d = [] \/ exists h0 h1 h2, cstr "abcde" = h0 ++ d ++ h1 /\ h2 `prefix_of` cstr "abcde" /\
       blen h0 = Z.max 0 (blen h2 - 5)).
Proof.
  apply (reconnecting_terminal_exact (R := opty_ring) always 5 always (cstr "abcde") always);
    [done|by vm_compute|by vm_compute|by vm_compute|].
  apply Forall_cons_2; [apply demo_served_by|]. apply Forall_cons_2; [exact I|].
  apply Forall_cons_2; [apply demo_served_by|by apply Forall_nil_2].
Defined.

End DemoTerminal.
