(* ===== verification/Handshake.v ===== *)
(** * The handshake, from both ends

    The intro frame that the client sends (src/src/client.c: send_intro) is what lets
    the server's thread attach it (src/src/server.c: client_thread_main,
    server_process_intro, server_send_welcome_and_replay), at the position the client
    asked for. *)

From stdpp Require Import gmap.
From S2P Require Import Prelude.
From S2P Require Import Io.
From S2P Require Import Wire.
From S2P Require Import Messages.
From S2P Require Import Replay.
From S2P Require Import Ring.
From S2P Require Import Child.
From S2P Require Import Server.
From S2P Require Import ServerSpec.
From S2P Require Import System.
From S2P Require Import Safety.
From S2P Require Import ServerProps.
From S2P Require Import ServerAuth.
From S2P Require Import Client.
From S2P Require Import ClientSpec.
From S2P Require Import Resume.
From S2P Require Import EndToEnd.

Section Handshake.

Context {R : Type} `{!ReplayOps R, !ReplayLaws R}.
Variable malloc_ok : Z -> bool.
Variable calloc_ok : Z -> bool.
Hypothesis malloc_total : forall n, malloc_ok n = true.

(** The server lets [tok] in: it has no token, an empty one, or this one. *)
Definition admits (expected : option bytes) (tok : bytes) : Prop :=
  empty_token expected = true \/
  expected = Some (tok ++ zeros (OPTY_MAX_TOKEN + 1 - blen tok)).

(** The master is open, and the next TIOCSWINSZ works. *)
Definition resizable (s : server R) : Prop :=
  wr_shut (p_io (master s)) = false /\ head (p_ioctl (master s)) <> Some false.

(** ** The thread's three phases *)

Lemma resize_works (cols rows : Z) (s : server R) :
  resizable s -> exists p', server_resize_pty cols rows s = Some (0, set_master p' s) /\
    p_io p' = p_io (master s) /\ p_cols p' = cols /\ p_rows p' = rows.
Proof.
  unfold resizable, server_resize_pty. intros [-> H]. destruct (p_ioctl (master s)) as [|[] rest]; [| |done];
    eexists; by split_and!.
Qed.

Lemma check_intro_admits (f : opty_frame) (i : intro) (tok : bytes) (s : server R) :
  opty_parse_client_intro f (zeros (OPTY_MAX_TOKEN + 1)) = Done i ->
  Messages.i_token i = token_buf tok (zeros (OPTY_MAX_TOKEN + 1)) -> blen tok <= OPTY_MAX_TOKEN ->
  i_cols i <> 0 -> i_rows i <> 0 -> token_wf (token s) -> admits (token s) tok -> resizable s ->
  exists p', server_check_intro f s =
      Some ((0, if f_type f =? msg_code OPTY_MSG_RECONNECT then i_seq i else 0), set_master p' s) /\
    p_io p' = p_io (master s) /\ p_cols p' = i_cols i /\ p_rows p' = i_rows i.
Proof.
  intros Hp Htok Hl Hc Hr Hwf Had Hrs. unfold server_check_intro. rewrite Hp.
  rewrite (proj2 (Z.eqb_neq _ _) Hc), (proj2 (Z.eqb_neq _ _) Hr). cbn [orb].
  rewrite Htok, token_buf_zeros by done.
  unfold srv_lift. unfold mbind at 1, srv_bind at 1.
  assert (blen (tok ++ zeros (OPTY_MAX_TOKEN + 1 - blen tok)) = OPTY_MAX_TOKEN + 1) as Hlen.
  { pose proof (blen_nonneg tok). rewrite blen_app, blen_zeros by (unfold OPTY_MAX_TOKEN in *; lia). lia. }
  rewrite (intro_refused_ok _ _ Hwf Hlen).
  replace (_ && _) with false.
  2: { destruct Had as [->| ->]; [done|]. by rewrite bool_decide_true, andb_false_r. }
  destruct (resize_works (i_cols i) (i_rows i) s Hrs) as (p'&He&?&?&?).
  rewrite (bind_ok _ _ _ _ _ He). exists p'. by split_and!.
Qed.

Lemma first_step (s : server R) (c : cid) (cl : client) (reconnect : bool) (q cols rows : Z)
    (tok rest : bytes) :
  heap s !! c = Some cl -> Forall benign_rd (inq (sock cl)) ->
  content (inq (sock cl)) = sent_bytes (SIntro reconnect q cols rows tok) ++ rest ->
  0 <= q < 2 ^ 64 -> 0 < cols < 2 ^ 16 -> 0 < rows < 2 ^ 16 -> blen tok <= OPTY_MAX_TOKEN ->
  token_wf (token s) -> admits (token s) tok -> resizable s ->
  exists sk p', client_step malloc_ok c TFirst s =
      Some (Some (TAttach (if reconnect then q else 0)),
            set_master p' (set_heap (<[c := set_sock sk cl]> (heap s)) s)) /\
    only_read (sock cl) sk /\ Forall benign_rd (inq sk) /\ content (inq sk) = rest /\
    p_io p' = p_io (master s) /\ p_cols p' = cols /\ p_rows p' = rows.
Proof.
  intros Hc Hb Hcont Hq Hcols Hrows Hl Hwf Had Hrs. cbn [client_step]. unfold client_recv.
  pose proof (blen_nonneg tok). set (p := intro_payload q cols rows tok reconnect).
  assert (blen p = (if reconnect then 14 else 6) + blen tok) as Hp by apply intro_payload_length.
  assert (0 <= blen p <= OPTY_MAX_UNAUTH_PAYLOAD /\ blen p <= OPTY_MAX_FRAME - 1) as [Hp1 Hp2].
  { rewrite Hp. change (OPTY_MAX_FRAME - 1) with 16777215.
    unfold OPTY_MAX_UNAUTH_PAYLOAD, OPTY_MAX_GRACEFUL_INPUT, OPTY_MAX_TOKEN in *. destruct reconnect; lia. }
  set (t := sent_type (SIntro reconnect q cols rows tok)).
  assert (0 <= t < 256) as Ht by (unfold t; by destruct reconnect).
  destruct (opty_recv_frame_limited_encode malloc_ok OPTY_MAX_UNAUTH_PAYLOAD t p rest (sock cl))
    as (sk&He&Ho&Hb'&Hr'); [done|apply malloc_total|lia|lia|done|done|].
  set (s1 := set_heap (<[c := set_sock sk cl]> (heap s)) s).
  erewrite bind_ok; [|rewrite (get_bind s c cl) by done; rewrite He, (put_bind s c cl) by done; reflexivity].
  fold s1. cbn [Z.ltb Z.compare]. unfold first_frame. cbn [f_type].
  assert (opty_parse_client_intro (Frame t (blen p) p) (zeros (OPTY_MAX_TOKEN + 1)) =
    Done (Intro (if reconnect then q else 0) cols rows (token_buf tok (zeros (OPTY_MAX_TOKEN + 1))))) as Hparse.
  { unfold opty_parse_client_intro. cbn [f_type]. unfold t, p.
    destruct reconnect; cbn [sent_type]; apply parse_intro_payload_ok;
      (unfold valid_intro; split_and!; lia) || (rewrite blen_zeros; unfold OPTY_MAX_TOKEN in *; lia). }
  destruct (check_intro_admits _ _ tok s1 Hparse) as (p'&Hci&Hio&Hpc&Hpr);
    [done|done|cbn; lia|cbn; lia|done|done|done|].
  exists sk, p'. split; [|by split_and!].
  replace (t =? msg_code OPTY_MSG_CONTROL_SHUTDOWN) with false by (unfold t; by destruct reconnect).
  replace (negb (t =? msg_code OPTY_MSG_HELLO) && negb (t =? msg_code OPTY_MSG_RECONNECT)) with false
    by (unfold t; by destruct reconnect).
  cbv iota. unfold mbind at 1, srv_bind at 1. rewrite (bind_ok _ _ _ _ _ Hci). cbn [f_type i_seq].
  unfold t. destruct reconnect; done.
Qed.

Lemma log_window_data (cap q : Z) (h : bytes) :
  let w := log_window malloc_ok cap h q in
  default [] (w_data w) = log_since h (w_from w) /\ w_len w = blen (log_since h (w_from w)) /\
  (w_data w = None /\ w_len w = 0 \/ exists d, w_data w = Some d /\ w_len w = blen d).
Proof.
  unfold log_window. cbn [w_data w_from w_len]. rewrite malloc_total. cbn [negb].
  destruct (Z.eqb_spec (blen (log_since h (log_from cap h q))) 0) as [Hz|Hz]; cbn [orb].
  - rewrite Hz, (blen_0 _ Hz). by split_and!; [..|left].
  - split_and!; [done..|]. right. by eexists.
Qed.

(** With memory, the snapshot always succeeds. *)
Lemma attach_begin_whole (s : server R) (c : cid) (cl : client) (cap q : Z) (h : bytes) :
  rb_repr (ring s) cap h -> heap s !! c = Some cl ->
  attach_begin malloc_ok c q s =
  Some (Some (log_window malloc_ok cap h q),
        set_heap (<[c := set_attached (blen h) cl]> (heap s)) s).
Proof.
  intros Hr Hc. unfold attach_begin. rewrite (rb_window_ok malloc_ok _ _ _ q Hr).
  destruct (log_window_data cap q h) as (_&_&Hs). set (w := log_window malloc_ok cap h q) in *.
  replace ((0 <? w_len w) && bool_decide (w_data w = None)) with false.
  2: { destruct Hs as [[-> ->]|(d&->&_)]; [done|]. by rewrite bool_decide_false, andb_false_r. }
  by rewrite (get_bind s c cl), (put_bind s c cl) by done.
Qed.

(** A send that works, on the client's own connection. *)
Lemma on_sock_whole (s : server R) (c : cid) (cl : client) (m : io unit) (sk : stream) :
  heap s !! c = Some cl -> m (sock cl) = (Done tt, sk) ->
  on_sock c m s = Some (0, set_heap (<[c := set_sock sk cl]> (heap s)) s).
Proof.
  intros Hc Hm. unfold on_sock. rewrite (get_bind s c cl), Hm by done.
  by rewrite (put_bind s c cl).
Qed.

(** On a healthy connection WELCOME and REPLAY are sent whole, if they fit. *)
Lemma attach_send_whole (s : server R) (c : cid) (cl : client) (cap q : Z) (h : bytes) :
  let w := log_window malloc_ok cap h q in
  heap s !! c = Some cl -> healthy (sock cl) -> blen (log_since h (w_from w)) + 9 <= OPTY_MAX_FRAME ->
  exists sk, attach_send malloc_ok c w s =
      Some (0, set_heap (<[c := set_sock sk cl]> (heap s)) s) /\
    healthy sk /\ wrote (sock cl) sk (attached_out w []).
Proof.
  intros w Hc Hh Hfit. destruct (log_window_data cap q h) as (Hd&Hl&Hs). fold w in Hd, Hl, Hs.
  pose proof (blen_nonneg (log_since h (w_from w))).
  destruct (send_frame_healthy (msg_code OPTY_MSG_WELCOME)
              (opty_put_u64 (w_base w) ++ opty_put_u64 (w_next w)) (sock cl)) as (sk&He&Hh1&Hw1);
    [done|done|].
  destruct (send_frame_healthy (msg_code OPTY_MSG_REPLAY)
              (opty_put_u64 (w_from w) ++ default [] (w_data w)) sk) as (sk2&He2&Hh2&Hw2);
    [done|rewrite Hd, blen_app, put_u64_length; lia|].
  exists sk2. unfold attach_send.
  rewrite (bind_ok _ _ _ _ _ (on_sock_whole s c cl _ sk Hc He)).
  set (s1 := set_heap _ s). change (0 =? 0) with true. cbv iota.
  rewrite (on_sock_whole s1 c (set_sock sk cl) _ sk2); [|apply lookup_insert_eq|].
  - split; [unfold s1; cbn; by rewrite insert_insert_eq|]. split; [done|].
    rewrite attached_out_nil. by eapply wrote_trans.
  - cbn [sock set_sock]. rewrite <- He2. unfold opty_send_replay. destruct Hs as [[Hn H0]|(d&Hn&H0)].
    + rewrite Hn, H0. cbn [default]. unfold opty_send_stream_frame. rewrite malloc_total. done.
    + rewrite Hn, H0. cbn [default].
      rewrite send_stream_frame_eq; [|done|].
      * by rewrite blen_app, put_u64_length.
      * rewrite Hn in Hd. change (d = log_since h (w_from w)) in Hd. rewrite Hd.
        change (SIZE_MAX - 8) with 18446744073709551607. change OPTY_MAX_FRAME with 16777216 in Hfit. lia.
Qed.

(** ** The whole handshake *)

(** [C13] A client gets in, where it asked: let [malloc] never fail and the ring fit in one
    frame (otherwise see ServerFaults.oversized_replay_locks_out).  A thread whose
    connection works and starts with the intro that a client at position [q] sends
    (RECONNECT, or HELLO for a first connection), with a window that is not empty and a
    token the server admits, while the PTY's size can be set, attaches it in three steps:
    the client is sent WELCOME and REPLAY, the PTY takes the client's window, and what
    the client sent behind the intro is still there for the loop.  The REPLAY starts at
    the position that a RECONNECT asks for if the ring still holds it, otherwise at the
    nearest one held; for a HELLO at the oldest byte held. *)
Theorem handshake_attaches (cap : Z) (σ : sys R) (c : cid) (cl : client) (reconnect : bool)
    (q cols rows : Z) (tok rest : bytes) :
  reachable malloc_ok calloc_ok cap σ -> cap + 9 <= OPTY_MAX_FRAME ->
  threads σ !! c = Some TFirst -> heap (srv σ) !! c = Some cl ->
  Forall benign_rd (inq (sock cl)) -> healthy (sock cl) ->
  content (inq (sock cl)) = sent_bytes (SIntro reconnect q cols rows tok) ++ rest ->
  0 <= q < 2 ^ 64 -> 0 < cols < 2 ^ 16 -> 0 < rows < 2 ^ 16 -> blen tok <= OPTY_MAX_TOKEN ->
  admits (token (srv σ)) tok -> resizable (srv σ) ->
  let w := log_window malloc_ok cap (hist σ) (if reconnect then q else 0) in
  exists σ' cl',
    exec_all malloc_ok calloc_ok (replicate 3 (AClient c)) σ = Some σ' /\
    threads σ' !! c = Some TLoop /\ att σ' !! c = Some w /\ hist σ' = hist σ /\
    heap (srv σ') !! c = Some cl' /\ out (sock cl') = out (sock cl) ++ attached_out w [] /\
    content (inq (sock cl')) = rest /\
    p_cols (master (srv σ')) = cols /\ p_rows (master (srv σ')) = rows /\
    w_from w = Z.max (Z.max 0 (blen (hist σ) - cap)) (Z.min (if reconnect then q else 0) (blen (hist σ))) /\
    (reconnect = true -> blen (hist σ) - cap <= q <= blen (hist σ) -> w_from w = q).
Proof.
  intros Hreach Hfit Hth Hc Hb Hh Hcont Hq Hcols Hrows Hl Had Hrs w.
  pose proof (reachable_inv _ _ _ _ Hreach) as H. pose proof (i_ring H) as Hring.
  destruct (rb_repr_bound _ _ _ Hring) as [Hcap Hlen].
  destruct (first_step (srv σ) c cl reconnect q cols rows tok rest) as (sk&p'&He1&Ho&Hb'&Hr'&_&Hpc&Hpr);
    [done..|apply (Safety.i_token _ _ _ _ H)|done|done|].
  set (cl1 := set_sock sk cl) in *. set (s1 := set_master p' _) in He1.
  set (q' := if reconnect then q else 0) in *.
  assert (heap s1 !! c = Some cl1) as Hc1 by apply lookup_insert_eq.
  assert (attach_begin malloc_ok c q' s1 = Some (Some w,
    set_heap (<[c := set_attached (blen (hist σ)) cl1]> (heap s1)) s1)) as He2 by by apply attach_begin_whole.
  set (cl2 := set_attached (blen (hist σ)) cl1) in *. set (s2 := set_heap _ s1) in He2.
  assert (heap s2 !! c = Some cl2) as Hc2 by apply lookup_insert_eq.
  destruct (log_from_bounds cap (hist σ) q' Hcap) as [Hf0 Hf1].
  destruct (attach_send_whole s2 c cl2 cap q' (hist σ)) as (sk3&He3&_&Hw3); [done| | |].
  { destruct Ho as (_&Hoq&Hsh). destruct Hh as [Hh1 Hh2]. split; cbn; [by rewrite Hsh|by rewrite Hoq]. }
  { cbn [w_from log_window]. rewrite log_since_length by lia.
    assert (blen (hist σ) - cap <= log_from cap (hist σ) q') by (unfold log_from, log_base; lia). lia. }
  set (cl3 := set_sock sk3 cl2) in *. set (s3 := set_heap _ s2) in He3.
  eexists (after_client (after_client (after_client σ c TFirst (Some (TAttach q')) s1)
             c (TAttach q') (Some (TSend w)) s2) c (TSend w) (Some TLoop) s3), cl3.
  split; [|split_and!].
  - cbn [replicate exec_all exec]. rewrite Hth. cbn [mbind option_bind client_may_run].
    rewrite He1. cbn [mbind option_bind].
    cbn [threads after_client]. rewrite lookup_insert_eq. cbn [mbind option_bind client_may_run srv].
    cbn [client_step]. rewrite (bind_ok _ _ _ _ _ He2). cbn [mret srv_ret mbind option_bind].
    cbn [threads after_client]. rewrite lookup_insert_eq. cbn [mbind option_bind client_may_run srv].
    cbn [client_step]. rewrite (bind_ok _ _ _ _ _ He3). done.
  - cbn. apply lookup_insert_eq.
  - cbn. apply lookup_insert_eq.
  - done.
  - apply lookup_insert_eq.
  - destruct Hw3 as (Ho3&_). trans (out (sock cl2) ++ attached_out w []); [exact Ho3|].
    f_equal. by destruct Ho.
  - destruct Hw3 as (_&Hi3&_). trans (content (inq (sock cl2))); [by rewrite <- Hi3|exact Hr'].
  - done.
  - done.
  - done.
  - intros -> Hrange. apply log_from_resume; lia.
Qed.

End Handshake.

(** *** A concrete handshake

    The PTY has printed "abc" and the server has a token; a client that has seen "ab"
    comes back. *)
Module DemoHandshake.

Import Demo.

Definition key : bytes := cstr "key".

Definition server1 : server opty_ring :=
  Server [] ∅ ring5 (master server0) (child server0) true
    (Some (key ++ zeros (OPTY_MAX_TOKEN + 1 - blen key))) None.

Definition start : sys opty_ring := Sys server1 PRead MAccept ∅ [] ∅ ∅.

Definition returning : stream :=
  let p := sent_bytes (SIntro true 2 120 40 key) ++ sent_bytes (SAck 2) in
  Stream [RData (take 7 p); RErr EINTR; RData (drop 7 p)] [WAccept 9; WErr EINTR] [] false.

Definition arrived : sys opty_ring :=
  default start (exec_all always always
    [APty; AMain EvGo; AMain (EvConn 1%nat returning); AMain (EvThread true)] start).

Lemma arrived_reachable : reachable always always 5 arrived.
Proof.
  exists start. split; [|split].
  - unfold initial. split_and!; try done. exact ring5_repr.
  - apply (exec_all_steps _ _ [APty; AMain EvGo; AMain (EvConn 1%nat returning); AMain (EvThread true)]).
    vm_compute. reflexivity.
  - vm_compute. reflexivity.
Qed.

Lemma returning_healthy : healthy returning /\ Forall benign_rd (inq returning).
Proof. split; [split; [done|]|]; repeat constructor; discriminate. Qed.

Lemma handshake_attaches_witness :
  let w := log_window always 5 (hist arrived) 2 in
  exists σ' cl',
    exec_all always always (replicate 3 (AClient 1%nat)) arrived = Some σ' /\
    threads σ' !! 1%nat = Some TLoop /\ att σ' !! 1%nat = Some w /\ hist σ' = hist arrived /\
    heap (srv σ') !! 1%nat = Some cl' /\ out (sock cl') = [] ++ attached_out w [] /\
    content (inq (sock cl')) = sent_bytes (SAck 2) /\
    p_cols (master (srv σ')) = 120 /\ p_rows (master (srv σ')) = 40 /\
    w_from w = Z.max (Z.max 0 (blen (hist arrived) - 5)) (Z.min 2 (blen (hist arrived))) /\
    (true = true -> blen (hist arrived) - 5 <= 2 <= blen (hist arrived) -> w_from w = 2).
Proof.
  apply (handshake_attaches always always (fun _ => eq_refl) 5 arrived 1%nat
           (Client 2 true false false 0 returning) true 2 120 40 key (sent_bytes (SAck 2)));
    [exact arrived_reachable|by vm_compute|by vm_compute|by vm_compute
    |apply returning_healthy|apply returning_healthy
    |by vm_compute|done|done|done|by vm_compute|right; by vm_compute|by vm_compute].
Defined.

End DemoHandshake.
