(* ===== verification/Probe.v ===== *)
(** * Reaching an endpoint (src/src/client.c: connect_endpoint,
    opty_endpoint_bindable, opty_endpoint_accepts_timeout)

    The three loops over the addresses of an endpoint.  [None] for the addresses is a
    failing [getaddrinfo]; each address comes with what the kernel does with it.  Time
    is in milliseconds: [getaddrinfo] takes what it takes, a [poll] returns after at most
    the time it was given, the other calls take no time. *)

From S2P Require Import Prelude.
From S2P Require Import Io.

(** ** Connecting and binding *)

Inductive attempt :=
| NoSocket                     (* socket() fails *)
| Refused                      (* connect() fails *)
| Connected (s : stream).

Fixpoint try_connect (addrs : list attempt) : option stream :=
  match addrs with
  | [] => None
  | Connected s :: _ => Some s
  | _ :: rest => try_connect rest
  end.

Definition connect_endpoint (res : option (list attempt)) : option stream :=
  match res with None => None | Some addrs => try_connect addrs end.

Definition opty_endpoint_accepts (res : option (list attempt)) : bool :=
  match connect_endpoint res with Some _ => true | None => false end.

Inductive bind_attempt := NoBindSocket | BindRefused | BindOk.

Fixpoint try_bind (addrs : list bind_attempt) : bool :=
  match addrs with
  | [] => false
  | BindOk :: _ => true
  | _ :: rest => try_bind rest
  end.

Definition opty_endpoint_bindable (res : option (list bind_attempt)) : bool :=
  match res with None => false | Some addrs => try_bind addrs end.

(** ** The probe with a time limit *)

(** What [poll] on the connecting socket answers, after at most [dt] milliseconds;
    [PollOut] comes with whether SO_ERROR is there and 0. *)
Inductive poll_answer :=
| PollIntr (dt : Z)
| PollTimeout
| PollOut (dt : Z) (established : bool)
| PollOther (dt : Z)           (* an error of poll, or no POLLOUT *).

Definition elapsed (dt remaining : Z) : Z := Z.max 0 (Z.min dt remaining).

(** The poll loop: whether the connection was made, and the time after it. *)
Fixpoint probe_poll (polls : list poll_answer) (deadline remaining now : Z) : bool * Z :=
  match polls with
  | [] | PollTimeout :: _ => (false, now + Z.max 0 remaining)
  | PollIntr dt :: rest =>
      let now := now + elapsed dt remaining in
      if 0 <=? deadline then
        if deadline <=? now then (false, now)
        else probe_poll rest deadline (deadline - now) now
      else probe_poll rest deadline remaining now
  | PollOut dt established :: _ => (established, now + elapsed dt remaining)
  | PollOther dt :: _ => (false, now + elapsed dt remaining)
  end.

Inductive probe_attempt :=
| ProbeNoSocket
| ProbeNoFcntl
| ProbeConnected
| ProbeRefused
| ProbeInProgress (polls : list poll_answer).

Fixpoint probe_addrs (addrs : list probe_attempt) (timeout deadline now : Z) : bool * Z :=
  match addrs with
  | [] => (false, now)
  | ProbeConnected :: _ => (true, now)
  | ProbeInProgress polls :: rest =>
      if (0 <=? deadline) && (deadline <=? now) then (false, now)
      else
        let remaining := if 0 <=? deadline then deadline - now else timeout in
        let '(alive, now) := probe_poll polls deadline remaining now in
        if alive then (true, now) else probe_addrs rest timeout deadline now
  | _ :: rest => probe_addrs rest timeout deadline now
  end.

(** [clock_ok]: whether [clock_gettime] works; [resolve]: how long [getaddrinfo] takes,
    which is called before the deadline is set. *)
Definition opty_endpoint_accepts_timeout (resolve : nat) (res : option (list probe_attempt))
    (timeout : Z) (clock_ok : bool) (now : Z) : bool * Z :=
  let now := now + Z.of_nat resolve in
  match res with
  | None => (false, now)
  | Some addrs =>
      let deadline := if (0 <=? timeout) && clock_ok then now + timeout else -1 in
      probe_addrs addrs timeout deadline now
  end.

(** ** How long it takes *)

Lemma probe_poll_time (polls : list poll_answer) (deadline now : Z) :
  0 <= now <= deadline ->
  let '(_, now') := probe_poll polls deadline (deadline - now) now in now <= now' <= deadline.
Proof.
  revert now. induction polls as [|[dt| |dt ok|dt] polls IH]; intros now H; cbn [probe_poll];
    unfold elapsed in *; try lia.
  set (now1 := now + _). assert (now <= now1 <= deadline) as H1 by (unfold now1; lia).
  destruct (Z.leb_spec 0 deadline); [|lia]. destruct (Z.leb_spec deadline now1); [lia|].
  specialize (IH now1 ltac:(lia)). destruct (probe_poll _ _ _ _). lia.
Qed.

Lemma probe_addrs_time (addrs : list probe_attempt) (timeout deadline now : Z) :
  0 <= now <= deadline ->
  let '(_, now') := probe_addrs addrs timeout deadline now in now <= now' <= deadline.
Proof.
  revert now. induction addrs as [|[| | | |polls] addrs IH]; intros now H; cbn [probe_addrs];
    [lia|by apply IH|by apply IH|lia|by apply IH|].
  destruct (Z.leb_spec 0 deadline); [|lia]. cbn [andb].
  destruct (Z.leb_spec deadline now); [lia|].
  pose proof (probe_poll_time polls deadline now H) as Hp.
  destruct (probe_poll _ _ _ _) as [[] now1]; [done|].
  specialize (IH now1 ltac:(lia)). destruct (probe_addrs _ _ _ _). lia.
Qed.

(** The kernel made a connection to the address. *)
Definition reached (a : probe_attempt) : Prop :=
  match a with
  | ProbeConnected => True
  | ProbeInProgress polls => exists dt, PollOut dt true ∈ polls
  | _ => False
  end.

Lemma probe_poll_reached (polls : list poll_answer) (deadline remaining now : Z) :
  fst (probe_poll polls deadline remaining now) = true -> exists dt, PollOut dt true ∈ polls.
Proof.
  revert remaining now. induction polls as [|[dt| |dt ok|dt] polls IH]; intros remaining now;
    cbn [probe_poll]; try done.
  - set (now1 := now + _). intros H.
    assert (exists dt, PollOut dt true ∈ polls) as [d Hd].
    { destruct (0 <=? deadline); [destruct (deadline <=? now1); [done|]|]; by eapply IH. }
    exists d. by apply list_elem_of_further.
  - cbn. intros ->. exists dt. apply list_elem_of_here.
Qed.

Lemma probe_addrs_reached (addrs : list probe_attempt) (timeout deadline now : Z) :
  fst (probe_addrs addrs timeout deadline now) = true -> Exists reached addrs.
Proof.
  revert now. induction addrs as [|[| | | |polls] addrs IH]; intros now; cbn [probe_addrs]; try done;
    try (intros H; apply Exists_cons_tl; by eapply IH).
  - intros _. by apply Exists_cons_hd.
  - destruct (_ && _); [done|].
    destruct (probe_poll polls _ _ now) as [alive now1] eqn:E. destruct alive.
    + intros _. apply Exists_cons_hd. eapply probe_poll_reached. by erewrite E.
    + intros H. apply Exists_cons_tl. by eapply IH.
Qed.

(** [C24] A liveness probe is over in time: whatever the addresses of the endpoint do,
    however often a signal interrupts the wait, it takes no longer than looking the name
    up ([getaddrinfo], which the timeout does not cover) and its timeout together (when
    the clock works); and it says "alive" only when a connection was made. *)
Theorem probe_bounded (resolve : nat) (res : option (list probe_attempt)) (timeout now : Z) :
  0 <= timeout -> 0 <= now ->
  exists alive now', opty_endpoint_accepts_timeout resolve res timeout true now = (alive, now') /\
    now + Z.of_nat resolve <= now' <= now + Z.of_nat resolve + timeout /\
    (alive = true -> exists addrs, res = Some addrs /\ Exists reached addrs).
Proof.
  intros Ht Hn. unfold opty_endpoint_accepts_timeout. set (start := now + Z.of_nat resolve).
  destruct res as [addrs|].
  - rewrite (proj2 (Z.leb_le _ _) Ht). cbn [andb].
    pose proof (probe_addrs_time addrs timeout (start + timeout) start ltac:(unfold start; lia)) as H1.
    pose proof (probe_addrs_reached addrs timeout (start + timeout) start) as H2.
    destruct (probe_addrs _ _ _ _) as [alive now']. exists alive, now'. split_and!; [done|lia|lia|].
    intros ->. exists addrs. split; [done|]. by apply H2.
  - exists false, start. split_and!; [done|lia|lia|done].
Qed.

(** Two addresses, found in 70 ms: the first is interrupted again and again, the last answers. *)
Lemma probe_bounded_witness :
  exists alive now', opty_endpoint_accepts_timeout 70
      (Some [ProbeInProgress [PollIntr 90; PollIntr 90; PollOther 20]; ProbeRefused;
             ProbeInProgress [PollOut 30 true]]) 250 true 1000 = (alive, now') /\
    1000 + 70 <= now' <= 1000 + 70 + 250 /\
    (alive = true -> exists addrs, Some [ProbeInProgress [PollIntr 90; PollIntr 90; PollOther 20];
       ProbeRefused; ProbeInProgress [PollOut 30 true]] = Some addrs /\ Exists reached addrs).
Proof. apply (probe_bounded 70); lia. Defined.

Example probe_alive :
  opty_endpoint_accepts_timeout 70
    (Some [ProbeInProgress [PollIntr 90; PollIntr 90; PollOther 20]; ProbeRefused;
           ProbeInProgress [PollOut 30 true]]) 250 true 1000 = (true, 1300).
Proof. reflexivity. Qed.
