(* ===== verification/Terminal.v ===== *)
(** * The client's terminal and signals (src/src/client.c: setup_signal_handlers,
    enable_raw_mode, restore_terminal, open_scrollback_log, run_client_endpoint)

    What the client changes in the terminal it runs in, and that it is changed back
    before the process is gone, on every way out that is not a kill. *)

From S2P Require Import Prelude.
From S2P Require Import Io.
From S2P Require Import Wire.
From S2P Require Import Client.

(** ** Signals *)

Inductive csignal := C_SIGWINCH | C_SIGHUP | C_SIGTERM | C_SIGQUIT | C_SIGINT | C_SIGPIPE.
Inductive handler := on_sigwinch | on_terminate | SIG_IGN.

#[export] Instance csignal_eq_dec : EqDecision csignal.
Proof. solve_decision. Defined.
#[export] Instance handler_eq_dec : EqDecision handler.
Proof. solve_decision. Defined.

(** The handlers installed so far, the last first; the results of the coming
    [sigaction] calls (past the end they work). *)
Record sigs := Sigs { sg_handlers : list (csignal * handler); sg_script : list bool }.

Definition install_signal_handler (signo : csignal) (h : handler) (s : sigs) : bool * sigs :=
  match sg_script s with
  | false :: rest => (false, Sigs (sg_handlers s) rest)
  | _ :: rest => (true, Sigs ((signo, h) :: sg_handlers s) rest)
  | [] => (true, Sigs ((signo, h) :: sg_handlers s) [])
  end.

Fixpoint install_all (l : list (csignal * handler)) (s : sigs) : bool * sigs :=
  match l with
  | [] => (true, s)
  | (signo, h) :: rest =>
      let '(ok, s) := install_signal_handler signo h s in
      if ok : bool then install_all rest s else (false, s)
  end.

Definition setup_signal_handlers (s : sigs) : bool * sigs :=
  let '(ok, s) := install_all [(C_SIGWINCH, on_sigwinch); (C_SIGHUP, on_terminate);
      (C_SIGTERM, on_terminate); (C_SIGQUIT, on_terminate); (C_SIGINT, on_terminate)] s in
  if ok : bool then (true, Sigs ((C_SIGPIPE, SIG_IGN) :: sg_handlers s) (sg_script s)) else (false, s).

(** The disposition of a signal, [None] for the default. *)
Fixpoint disposition (signo : csignal) (l : list (csignal * handler)) : option handler :=
  match l with
  | [] => None
  | (n, h) :: rest => if decide (n = signo) then Some h else disposition signo rest
  end.

(** ** The terminal *)

Section Terminal.

(** [struct termios], and [cfmakeraw] on it. *)
Context {T : Type}.
Variable cfmakeraw : T -> T.

Record tty := Tty {
  t_isatty : bool;               (* stdin is a terminal *)
  t_getattr_ok : bool;
  t_setattr : list bool;         (* the coming tcsetattr calls; past the end they work *)
  t_attrs : T;                   (* the settings in force *)
  g_saved_termios : option T;
  g_raw_mode_enabled : bool;
  t_atexit : bool                (* restore_terminal is registered *)
}.

(** [tcsetattr]; when it fails the settings stay. *)
Definition tcsetattr (a : T) (t : tty) : bool * tty :=
  match t_setattr t with
  | false :: rest => (false, Tty (t_isatty t) (t_getattr_ok t) rest (t_attrs t)
                       (g_saved_termios t) (g_raw_mode_enabled t) (t_atexit t))
  | l => (true, Tty (t_isatty t) (t_getattr_ok t) (tail l) a
                  (g_saved_termios t) (g_raw_mode_enabled t) (t_atexit t))
  end.

Definition restore_terminal (t : tty) : tty :=
  if g_raw_mode_enabled t then
    let '(_, t) := match g_saved_termios t with
                   | Some a => tcsetattr a t
                   | None => (false, t)
                   end in
    Tty (t_isatty t) (t_getattr_ok t) (t_setattr t) (t_attrs t) (g_saved_termios t) false (t_atexit t)
  else t.

Definition enable_raw_mode (t : tty) : bool * tty :=
  if negb (t_isatty t) then (true, t)
  else if negb (t_getattr_ok t) then (false, t)
  else
    let saved := t_attrs t in
    let t := Tty (t_isatty t) (t_getattr_ok t) (t_setattr t) (t_attrs t) (Some saved)
               (g_raw_mode_enabled t) (t_atexit t) in
    let '(ok, t) := tcsetattr (cfmakeraw saved) t in
    if ok : bool then
      (true, Tty (t_isatty t) (t_getattr_ok t) (t_setattr t) (t_attrs t) (g_saved_termios t) true true)
    else (false, t).

(** The handlers of [exit], which [main] reaches by returning. *)
Definition exit_handlers (t : tty) : tty := if t_atexit t then restore_terminal t else t.

Definition open_scrollback_log (opened : option stream) (fchmod_ok : bool) : option stream :=
  match opened with
  | Some s => if fchmod_ok then Some s else None
  | None => None
  end.

(** The client process from [run_client_endpoint] to its end: the exit status, the
    terminal it leaves behind and, while the sessions run, the terminal they see. *)
Definition client_process (malloc_ok : Z -> bool) (token : option bytes)
    (log : option (option stream * bool)) (retry : bool)
    (connects : list (option peer)) (s : sigs) (t : tty) (c : cli)
    : option (Z * option tty * tty) :=
  if OPTY_MAX_TOKEN <? blen (default [] token) then Some (1, None, exit_handlers t)
  else
    let '(signals_ok, _) := setup_signal_handlers s in
    if negb signals_ok then Some (1, None, exit_handlers t)
    else
      let '(raw_ok, t) := enable_raw_mode t in
      let log := (fun '(opened, fchmod_ok) => open_scrollback_log opened fchmod_ok) <$> log in
      match run_client_endpoint malloc_ok token signals_ok raw_ok log retry connects c with
      | None => None
      | Some (rc, _) =>
          match raw_ok, log with
          | false, _ | _, Some None => Some (rc, None, exit_handlers t)
          | _, _ => Some (rc, Some t, exit_handlers (restore_terminal t))
          end
      end.

(** ** Properties *)

Lemma restore_idle (t : tty) : g_raw_mode_enabled t = false -> restore_terminal t = t.
Proof. intros H. unfold restore_terminal. by rewrite H. Qed.

Lemma restore_off (t : tty) : g_raw_mode_enabled (restore_terminal t) = false.
Proof.
  unfold restore_terminal. destruct (g_raw_mode_enabled t) eqn:E; [|done].
  destruct (g_saved_termios t); [|done]. by destruct (tcsetattr _ t).
Qed.

(** However often it is asked, the terminal is restored once. *)
Lemma exit_after_restore (t : tty) : exit_handlers (restore_terminal t) = restore_terminal t.
Proof.
  unfold exit_handlers. destruct (t_atexit _); [|done]. apply restore_idle, restore_off.
Qed.

(** [t] has the settings [a], or one call of [tcsetattr] brings them back. *)
Definition recoverable (a : T) (t : tty) : Prop :=
  g_raw_mode_enabled t = false /\ t_attrs t = a \/
  g_raw_mode_enabled t = true /\ g_saved_termios t = Some a /\ t_atexit t = true /\
  Forall (eq true) (t_setattr t).

Lemma restore_recovers (a : T) (t : tty) : recoverable a t -> t_attrs (restore_terminal t) = a.
Proof.
  intros [[He Ha]|(He&Hg&_&Hs)]; [by rewrite restore_idle|].
  unfold restore_terminal. rewrite He, Hg. unfold tcsetattr.
  destruct (t_setattr t) as [|[] l]; [done|done|]. by apply Forall_cons in Hs as [? _].
Qed.

Lemma exit_recovers (a : T) (t : tty) : recoverable a t -> t_attrs (exit_handlers t) = a.
Proof.
  intros H. unfold exit_handlers. destruct (t_atexit t) eqn:E; [by apply restore_recovers|].
  destruct H as [[_ ?]|(_&_&?&_)]; congruence.
Qed.

(** The terminal the program finds, whose settings can be put back. *)
Definition fresh (t : tty) : Prop :=
  g_raw_mode_enabled t = false /\ Forall (eq true) (tail (t_setattr t)).

Lemma enable_recoverable (t : tty) :
  fresh t -> let '(ok, t') := enable_raw_mode t in
  recoverable (t_attrs t) t' /\
  (ok = true -> t_attrs t' = if t_isatty t then cfmakeraw (t_attrs t) else t_attrs t).
Proof.
  intros [He Hs]. unfold enable_raw_mode. destruct (t_isatty t) eqn:Et; cbn [negb].
  2: { split; [by left|done]. }
  destruct (t_getattr_ok t); cbn [negb].
  - unfold tcsetattr. cbn [t_setattr]. destruct (t_setattr t) as [|[] l]; cbn in Hs |- *;
      (split; [|done]); [by right|by right|by left].
  - split; [by left|done].
Qed.

(** [C20] The client leaves the terminal as it found it: on every way out (a token that is
    too long, a failing [sigaction], a terminal that cannot be made raw, a log that
    cannot be opened, and all the ends of the sessions) the settings at the end of the
    process are those at its start, as long as the terminal takes its old settings back;
    and the sessions themselves run with stdin raw exactly when it is a terminal. *)
Theorem terminal_restored (malloc_ok : Z -> bool) (token : option bytes)
    (log : option (option stream * bool)) (retry : bool)
    (connects : list (option peer)) (s : sigs) (t t' : tty) (seen : option tty)
    (c : cli) (rc : Z) :
  fresh t -> client_process malloc_ok token log retry connects s t c = Some (rc, seen, t') ->
  t_attrs t' = t_attrs t /\
  (forall during, seen = Some during ->
     t_attrs during = if t_isatty t then cfmakeraw (t_attrs t) else t_attrs t).
Proof.
  intros Hf. pose proof (enable_recoverable t Hf) as Hraw. destruct Hf as [He Hs].
  assert (t_attrs (exit_handlers t) = t_attrs t) as Hearly by (apply exit_recovers; by left).
  unfold client_process. destruct (_ <? _); [by intros [= <- <- <-]|].
  destruct (setup_signal_handlers s) as [[] s']; cbn [negb]; [|by intros [= <- <- <-]].
  destruct (enable_raw_mode t) as [raw_ok t1]. destruct Hraw as [Hrec Hattr].
  destruct (run_client_endpoint _ _ _ _ _ _ _ _) as [[rc1 c1]|]; [|done].
  destruct raw_ok; [|intros [= <- <- <-]; split; [by apply exit_recovers|done]].
  destruct log as [[opened ok]|]; cbn [fmap option_fmap option_map];
    [destruct (open_scrollback_log opened ok)|]; intros [= <- <- <-].
  2: split; [by apply exit_recovers|done].
  all: rewrite exit_after_restore; split; [by apply restore_recovers|]; intros ? [= <-]; by apply Hattr.
Qed.

End Terminal.

Arguments Tty {T}.

(** A terminal whose settings are a number, with one lost session and a log. *)
Lemma terminal_restored_witness :
  let t := Tty true true [] 5 None false false in
  let run := client_process (fun z => z + 100) (fun _ => true) None
    (Some (Some (Stream [] [] [] false), true)) false
    [Some (Peer [] (fun _ => [RErr EIO]))] (Sigs [] []) t
    (Cli (Stream [] [] [] false) (Stream [] [] [] false) (Stream [] [] [] false)
       (Stream [] [] [] false) None 0 [] [] [] [] []) in
  exists rc seen t', run = Some (rc, seen, t') /\ t_attrs t' = 5 /\
    (forall during, seen = Some during -> t_attrs during = 105).
Proof.
  intros t run. destruct run as [[[rc seen] t']|] eqn:E; [|by vm_compute in E].
  exists rc, seen, t'. split; [done|].
  apply (terminal_restored (fun z => z + 100) (fun _ => true) None
    (Some (Some (Stream [] [] [] false), true)) false
    [Some (Peer [] (fun _ => [RErr EIO]))] (Sigs [] []) t t' seen
    (Cli (Stream [] [] [] false) (Stream [] [] [] false) (Stream [] [] [] false)
       (Stream [] [] [] false) None 0 [] [] [] [] []) rc); [|exact E].
  split; [done|constructor].
Defined.

(** Once the handlers are set up, every signal that would end the client (SIGHUP,
    SIGTERM, SIGQUIT, SIGINT) only sets the flag that [run_session] and
    [run_client_endpoint] test, so that the terminal is restored; SIGWINCH asks for a
    resize, and a peer that is gone does not raise SIGPIPE. *)
Theorem signals_end_cleanly (s s' : sigs) :
  setup_signal_handlers s = (true, s') ->
  (forall signo, signo = C_SIGHUP \/ signo = C_SIGTERM \/ signo = C_SIGQUIT \/ signo = C_SIGINT ->
     disposition signo (sg_handlers s') = Some on_terminate) /\
  disposition C_SIGWINCH (sg_handlers s') = Some on_sigwinch /\
  disposition C_SIGPIPE (sg_handlers s') = Some SIG_IGN.
Proof.
  assert (forall n h x, fst (install_signal_handler n h x) = true ->
    sg_handlers (snd (install_signal_handler n h x)) = (n, h) :: sg_handlers x) as Hi.
  { intros n h x. unfold install_signal_handler. by destruct (sg_script x) as [|[] l]. }
  unfold setup_signal_handlers. cbn [install_all].
  do 5 (match goal with |- context [install_signal_handler ?n ?h ?x] =>
    pose proof (Hi n h x); destruct (install_signal_handler n h x) as [[] ?]; [|done] end;
    cbn [fst snd] in * ).
  intros [= <-]. cbn [sg_handlers].
  repeat match goal with H : true = true -> _ |- _ => rewrite (H eq_refl) end.
  split; [|done]. intros signo [->|[->|[->| ->]]]; done.
Qed.

Lemma signals_end_cleanly_witness :
  let s' := snd (setup_signal_handlers (Sigs [] [])) in
  (forall signo, signo = C_SIGHUP \/ signo = C_SIGTERM \/ signo = C_SIGQUIT \/ signo = C_SIGINT ->
     disposition signo (sg_handlers s') = Some on_terminate) /\
  disposition C_SIGWINCH (sg_handlers s') = Some on_sigwinch /\
  disposition C_SIGPIPE (sg_handlers s') = Some SIG_IGN.
Proof. apply (signals_end_cleanly (Sigs [] [])). reflexivity. Defined.
