(* ===== verification/Commands.v ===== *)
(** * The client's commands (src/src/client.c: run_named_start, run_named_connect,
    run_named_stop, run_named_restart, run_named_list, run_connect_auto, main and the
    functions they call)

    A command is a computation on a [world]: the files, the working directory, the clock,
    the state of the client, the answers of the kernel to come, and the list of what was
    done to the outside, in order.  An answer of the wrong kind counts as a failure of
    the call (for the calls that wait, as a timeout).  [None] is undefined behaviour or
    exhausted fuel.  Files are named by the paths as the program writes them; what a
    started server writes to its log while the command runs is there at once. *)

From stdpp Require Import gmap.
From S2P Require Import Prelude.
From S2P Require Import Io.
From S2P Require Import Wire.
From S2P Require Import Messages.
From S2P Require Import Endpoint.
From S2P Require Import Text.
From S2P Require Import Session.
From S2P Require Import Client.
From S2P Require Import Probe.
From S2P Require Import Terminal.

Definition OPTY_LIST_CONNECT_TIMEOUT_MS : Z := 250.
Definition OPTY_STOP_WAIT_MS : Z := 7000.

(** ** The world *)

Inductive wait_answer := WRunning | WExited | WError (e : errno).

(** [poll] on the connection of a stop request. *)
Inductive stop_poll :=
| SErr (e : errno)
| STimeout
| SIn
| SHup                         (* POLLHUP, POLLERR or POLLNVAL without POLLIN *)
| SNone.                       (* none of these *)

Inductive dir_answer := DirNames (l : list bytes) | DirMissing | DirError.

(** The log of a forked child, opened with O_CREAT and O_APPEND: whether the child came as
    far, and what it and the server that it executes write there. *)
Inductive child_log := LogRefused | LogOpened (text : bytes).

Inductive answer :=
| AConnect (res : option (list attempt))
| ABind (res : option (list bind_attempt))
| AProbe (resolve : nat) (res : option (list probe_attempt))
| AFork (pid : option Z) (log : child_log)
| AWait (r : wait_answer)
| AGetcwd (ok : bool)
| AChdir (ok : bool)
| APoll (r : stop_poll)
| ADir (r : dir_answer)
| AThread (ok : bool)
| ALog (opened : option stream) (fchmod_ok : bool)
| ASession (signals_ok raw_ok : bool) (connects : list (option peer)).

(** What a command does to the outside; [cwd] of a spawned server is the directory it
    starts in, [token] the OPTY_CONTROL_TOKEN that is put into its environment. *)
Inductive deed :=
| DSay (msg : bytes)                    (* a line on stderr *)
| DPerror (what : bytes)
| DPrint (text : bytes)                 (* stdout *)
| DConnect (ep : opty_endpoint) (ok : bool)
| DBind (ep : opty_endpoint) (ok : bool)
| DProbe (ep : opty_endpoint) (alive : bool)
| DGetcwd (ok : bool)
| DChdir (dir : bytes) (ok : bool)
| DSpawn (exec_argv : list bytes) (token : option bytes) (log cwd : bytes)
| DSend (ep : opty_endpoint) (sent : bytes)
| DAttach (ep : opty_endpoint) (token : option bytes) (retry : bool).

Record world := World {
  wd_fs : fsys;
  wd_random : stream;                   (* /dev/urandom *)
  wd_cwd : bytes;
  wd_now : Z;                           (* milliseconds *)
  wd_cli : cli;
  wd_answers : list answer;
  wd_did : list deed
}.

Definition cmdM (A : Type) : Type := world -> option (A * world).

#[export] Instance cmd_ret : MRet cmdM := fun A a w => Some (a, w).
#[export] Instance cmd_bind : MBind cmdM := fun A B f m w =>
  match m w with
  | Some (a, w') => f a w'
  | None => None
  end.

Definition ask : cmdM (option answer) := fun w =>
  match wd_answers w with
  | [] => Some (None, w)
  | a :: rest =>
      Some (Some a, World (wd_fs w) (wd_random w) (wd_cwd w) (wd_now w) (wd_cli w) rest (wd_did w))
  end.

Definition did (d : deed) : cmdM unit := fun w =>
  Some (tt, World (wd_fs w) (wd_random w) (wd_cwd w) (wd_now w) (wd_cli w) (wd_answers w)
              (wd_did w ++ [d])).

Definition get_files : cmdM (gmap bytes bytes) := fun w => Some (files (wd_fs w), w).
Definition get_cwd : cmdM bytes := fun w => Some (wd_cwd w, w).
Definition get_now : cmdM Z := fun w => Some (wd_now w, w).
Definition put_cwd (d : bytes) : cmdM unit := fun w =>
  Some (tt, World (wd_fs w) (wd_random w) d (wd_now w) (wd_cli w) (wd_answers w) (wd_did w)).
Definition put_now (t : Z) : cmdM unit := fun w =>
  Some (tt, World (wd_fs w) (wd_random w) (wd_cwd w) t (wd_cli w) (wd_answers w) (wd_did w)).

(** What is appended to a file, which is created if it is not there. *)
Definition append_to (path text : bytes) (fs : gmap bytes bytes) : gmap bytes bytes :=
  <[path := default [] (fs !! path) ++ text]> fs.

Definition wd_append (path text : bytes) : cmdM unit := fun w =>
  Some (tt, World (Fsys (append_to path text (files (wd_fs w))) (script (wd_fs w))) (wd_random w)
              (wd_cwd w) (wd_now w) (wd_cli w) (wd_answers w) (wd_did w)).

(** Computations of other components. *)
Definition lift {A} (o : outcome A) : cmdM (A + errno) := fun w =>
  match o with
  | Done a => Some (inl a, w)
  | Fail e => Some (inr e, w)
  | UB => None
  end.

Definition on_files {A} (m : fsM A) : cmdM (A + errno) := fun w =>
  match m (wd_fs w) with
  | (Done a, s) => Some (inl a, World s (wd_random w) (wd_cwd w) (wd_now w) (wd_cli w)
                                  (wd_answers w) (wd_did w))
  | (Fail e, s) => Some (inr e, World s (wd_random w) (wd_cwd w) (wd_now w) (wd_cli w)
                                  (wd_answers w) (wd_did w))
  | (UB, _) => None
  end.

Definition on_random {A} (m : io A) : cmdM (A + errno) := fun w =>
  match m (wd_random w) with
  | (Done a, s) => Some (inl a, World (wd_fs w) s (wd_cwd w) (wd_now w) (wd_cli w)
                                  (wd_answers w) (wd_did w))
  | (Fail e, s) => Some (inr e, World (wd_fs w) s (wd_cwd w) (wd_now w) (wd_cli w)
                                  (wd_answers w) (wd_did w))
  | (UB, _) => None
  end.

Definition on_cli {A} (m : cliM A) : cmdM A := fun w =>
  match m (wd_cli w) with
  | Some (a, c) => Some (a, World (wd_fs w) (wd_random w) (wd_cwd w) (wd_now w) c
                               (wd_answers w) (wd_did w))
  | None => None
  end.

Definition say (msg : bytes) : cmdM unit := did (DSay msg).
Definition perror (what : bytes) : cmdM unit := did (DPerror what).

Section Commands.

Variable malloc_ok : Z -> bool.
(** Whether [clock_gettime] works, [getenv("HOME")], [getpid()], and the size of a
    [struct opty_list_entry]. *)
Variable clock_ok : bool.
Variable home : option bytes.
Variable pid : Z.
Variable entry_size : Z.

(** ** Reaching a server *)

Definition do_connect (ep : opty_endpoint) : cmdM (option stream) :=
  a ← ask;
  let r := match a with Some (AConnect res) => connect_endpoint res | _ => None end in
  did (DConnect ep (bool_decide (is_Some r)));;
  mret r.

Definition accepts (ep : opty_endpoint) : cmdM bool :=
  r ← do_connect ep; mret (bool_decide (is_Some r)).

Definition bindable (ep : opty_endpoint) : cmdM bool :=
  a ← ask;
  let r := match a with Some (ABind res) => opty_endpoint_bindable res | _ => false end in
  did (DBind ep r);;
  mret r.

Definition accepts_timeout (ep : opty_endpoint) (timeout : Z) : cmdM bool :=
  a ← ask;
  now ← get_now;
  let '(alive, now) := match a with
                       | Some (AProbe resolve res) =>
                           opty_endpoint_accepts_timeout resolve res timeout clock_ok now
                       | _ => (false, now)
                       end in
  put_now now;;
  did (DProbe ep alive);;
  mret alive.

Definition opty_sleep_millis (millis : Z) : cmdM unit :=
  now ← get_now; put_now (now + millis).

(** The loop of [opty_pick_session_endpoint], from [port] on. *)
Fixpoint pick_ports (fuel : nat) (port_cap port : Z) : cmdM (option opty_endpoint) :=
  match fuel with
  | O => mret None
  | S fuel' =>
      if port_cap <=? blen (print_dec port) then mret None
      else
        let ep := Endpoint OPTY_DEFAULT_HOST (print_dec port) in
        ok ← bindable ep;
        if ok : bool then mret (Some ep) else pick_ports fuel' port_cap (port + 1)
  end.

Definition opty_pick_session_endpoint (port_cap : Z) : cmdM (option opty_endpoint) :=
  pick_ports (Z.to_nat (65535 - OPTY_SESSION_PORT_BASE + 1)) port_cap OPTY_SESSION_PORT_BASE.

(** The last line of a log that is not empty, as much of it as fits. *)
Definition log_excerpt (text : bytes) : bytes :=
  fold_left (fun last raw =>
               let line := read_line raw in
               if bool_decide (line = []) then last else snprintf_cut 512 line)
    (lines text) [].

Definition opty_print_server_log_excerpt (log_path : bytes) : cmdM unit :=
  if bool_decide (log_path = []) then mret tt
  else
    fs ← get_files;
    match fs !! log_path with
    | None => mret tt
    | Some text =>
        let last := log_excerpt text in
        if bool_decide (last = []) then mret tt
        else say (cstr "0pty server log: " ++ last)
    end.

(** [waitpid(pid, WNOHANG)] on the server just started. *)
Definition wait_child : cmdM wait_answer :=
  a ← ask; mret match a with Some (AWait r) => r | _ => WRunning end.

Fixpoint wait_for_server (polls : nat) (ep : opty_endpoint) (log_path : bytes) : cmdM Z :=
  match polls with
  | O =>
      say (cstr "timed out waiting for 0pty server; see " ++ log_path);;
      opty_print_server_log_excerpt log_path;;
      mret (-1)
  | S polls' =>
      up ← accepts ep;
      if up : bool then mret 0
      else
        done ← wait_child;
        match done with
        | WExited =>
            say (cstr "0pty server exited before it was ready; see " ++ log_path);;
            opty_print_server_log_excerpt log_path;;
            mret (-1)
        | WError e =>
            if decide (e = EINTR) then opty_sleep_millis 50;; wait_for_server polls' ep log_path
            else perror (cstr "waitpid");; mret (-1)
        | WRunning => opty_sleep_millis 50;; wait_for_server polls' ep log_path
        end
  end.

Definition opty_wait_for_server : opty_endpoint -> bytes -> cmdM Z := wait_for_server 60.

Fixpoint wait_dead (fuel : nat) (ep : opty_endpoint) (timeout waited : Z) : cmdM Z :=
  match fuel with
  | O => mret (-1)
  | S fuel' =>
      if waited <=? timeout then
        alive ← accepts_timeout ep 100;
        if negb alive then mret 0
        else opty_sleep_millis 100;; wait_dead fuel' ep timeout (waited + 100)
      else mret (-1)
  end.

Definition opty_wait_endpoint_dead (ep : opty_endpoint) (timeout : Z) : cmdM Z :=
  wait_dead (Z.to_nat (timeout / 100 + 2)) ep timeout 0.

(** ** Starting a server *)

Definition endpoint_text (ep : opty_endpoint) : bytes := host ep ++ cstr ":" ++ port ep.

(** The arguments the server is executed with. *)
Definition server_argv (server_path endpoint_arg : bytes) (command : list bytes) : list bytes :=
  server_path :: cstr "-b" :: endpoint_arg :: cstr "--" :: command.

(** The child exports the token unless it is absent or empty. *)
Definition child_token (token : option bytes) : option bytes :=
  match token with None | Some [] => None | Some t => Some t end.

(** The child opens its log before it executes the server. *)
Definition open_child_log (log_path : bytes) (child : child_log) : cmdM unit :=
  match child with
  | LogRefused => mret tt
  | LogOpened text => wd_append log_path text
  end.

Definition opty_spawn_server (argv0 : option bytes) (session : bytes) (ep : opty_endpoint)
    (log_path : bytes) (token : option bytes) (command : list bytes) : cmdM Z :=
  match snprintf_fit 128 (endpoint_text ep) with
  | Done endpoint_arg =>
      match opty_server_path malloc_ok argv0 with
      | None => mret (-1)
      | Some server_path =>
          if negb (malloc_ok ((Z.of_nat (length command) + 6) * 8)) then mret (-1)
          else
            a ← ask;
            match a with
            | Some (AFork (Some _) child) =>
                cwd ← get_cwd;
                did (DSpawn (server_argv server_path endpoint_arg command) (child_token token)
                       log_path cwd);;
                open_child_log log_path child;;
                rc ← opty_wait_for_server ep log_path;
                if rc <? 0 then mret (-1)
                else
                  say (cstr "started 0pty session " ++ session ++ cstr " on " ++ endpoint_text ep ++
                       cstr "; log: " ++ log_path);;
                  mret 0
            | _ => mret (-1)
            end
      end
  | _ => mret (-1)
  end.

(** ** Attaching *)

(** [open_scrollback_log]: the file is there from then on, also when [fchmod] fails. *)
Definition open_log (path : bytes) : cmdM (option stream) :=
  a ← ask;
  match a with
  | Some (ALog (Some s) fchmod_ok) =>
      wd_append path [];; mret (open_scrollback_log (Some s) fchmod_ok)
  | _ => mret None
  end.

(** What the client wrote to the log [s]. *)
Definition written_log (s : stream) : cmdM bytes := fun w =>
  Some (match cs_log (wd_cli w) with Some s' => drop (length (out s)) (out s') | None => [] end, w).

(** [run_client_endpoint] with its log, which is opened once the token, the signal handlers
    and the terminal are in order. *)
Definition attach_client (ep : opty_endpoint) (token log_path : option bytes) (retry : bool)
    : cmdM Z :=
  a ← ask;
  did (DAttach ep token retry);;
  let '(signals_ok, raw_ok, connects) := match a with
                                         | Some (ASession s r connects) => (s, r, connects)
                                         | _ => (false, false, [])
                                         end in
  let run := fun log => on_cli (run_client_endpoint malloc_ok token signals_ok raw_ok log retry connects) in
  match log_path with
  | None => run None
  | Some path =>
      if (OPTY_MAX_TOKEN <? blen (default [] token)) || negb signals_ok || negb raw_ok then run None
      else
        log ← open_log path;
        match log with
        | None => run (Some None)
        | Some s =>
            status ← run (Some (Some s));
            text ← written_log s;
            wd_append path text;;
            mret status
        end
  end.

Definition run_named_connect (session : bytes) : cmdM Z :=
  if negb (opty_is_session_name (Some session)) then
    say (cstr "invalid session name: " ++ session);; mret 1
  else
    fs ← get_files;
    info ← lift (opty_read_session_info malloc_ok home (Some session) fs);
    match info with
    | inl i => attach_client (Endpoint (si_host i) (si_port i)) None None false
    | inr _ =>
        r ← lift (opty_read_session_endpoint home (Some session) 128 16 fs);
        match r with
        | inl ep => attach_client ep None None false
        | inr _ =>
            if opty_is_decimal (Some session) then
              r ← lift (opty_numeric_session_endpoint (Some session) 16);
              match r with
              | inl ep => attach_client ep None None false
              | inr _ =>
                  say (cstr "no such 0pty session: " ++ session);;
                  say (cstr "start it with: 0pty " ++ session ++ cstr " start <command>");;
                  mret 1
              end
            else
              say (cstr "no such 0pty session: " ++ session);;
              say (cstr "start it with: 0pty " ++ session ++ cstr " start <command>");;
              mret 1
        end
    end.

(** [getcwd], [None] when it fails. *)
Definition getcwd : cmdM (option bytes) :=
  a ← ask;
  cwd ← get_cwd;
  let r := match a with Some (AGetcwd true) => Some cwd | _ => None end in
  did (DGetcwd (bool_decide (is_Some r)));;
  mret r.

(** ** start *)

(** A new session: an endpoint, a log path and a token; the session file; the server.
    [opty_write_session] calls [getcwd] once the temporary file is open; here its answer
    is drawn before, so a run in which that file cannot be opened lists a [DGetcwd] the program does
    not reach. *)
Definition start_new (argv0 : option bytes) (session : bytes) (command : list bytes)
    : cmdM (option opty_endpoint) :=
  let fail := perror (cstr "allocate 0pty session");; mret None in
  picked ← opty_pick_session_endpoint 16;
  match picked with
  | None => fail
  | Some ep =>
      log ← lift (opty_session_log_path home (Some session) 512);
      match log with
      | inr _ => fail
      | inl log_path =>
          token ← on_random (opty_generate_control_token (OPTY_CONTROL_TOKEN_BYTES * 2 + 1));
          match token with
          | inr _ => fail
          | inl control_token =>
              cwd ← getcwd;
              written ← on_files (opty_write_session malloc_ok home pid (Some session) ep log_path
                                    control_token command (default [] cwd));
              match written with
              | inr _ => perror (cstr "write 0pty session");; mret None
              | inl _ =>
                  rc ← opty_spawn_server argv0 session ep log_path (Some control_token) command;
                  if rc <? 0 then perror (cstr "start 0pty session");; mret None
                  else mret (Some ep)
              end
          end
      end
  end.

Definition run_named_start (argv0 : option bytes) (session : bytes) (command : list bytes) : cmdM Z :=
  if negb (opty_is_session_name (Some session)) then
    say (cstr "invalid session name: " ++ session);; mret 1
  else
    fs ← get_files;
    r ← lift (opty_read_session_endpoint home (Some session) 128 16 fs);
    up ← match r with inl ep => accepts ep | inr _ => mret false end;
    match r, up with
    | inl ep, true =>
        say (cstr "0pty session " ++ session ++ cstr " is already listening on " ++
             endpoint_text ep ++ cstr "; connecting");;
        attach_client ep None None false
    | _, _ =>
        r ← start_new argv0 session command;
        match r with
        | Some ep => attach_client ep None None false
        | None => mret 1
        end
    end.

(** ** stop *)

(** The wait for an answer of the server: the status so far, when it is over. *)
Fixpoint stop_wait (fuel : nat) (sock : stream) (waited : Z) : cmdM Z :=
  match fuel with
  | O => fun _ => None
  | S fuel' =>
      if OPTY_STOP_WAIT_MS <=? waited then mret 0
      else
        a ← ask;
        match match a with Some (APoll r) => r | _ => STimeout end with
        | SErr e => if decide (e = EINTR) then stop_wait fuel' sock waited else mret 1
        | STimeout => opty_sleep_millis 100;; stop_wait fuel' sock (waited + 100)
        | SIn =>
            match opty_recv_frame malloc_ok sock with
            | (Done (RecvFrame f), _) =>
                if f_type f =? msg_code OPTY_MSG_ERROR then say (f_payload f);; mret 1
                else mret 0
            | (Done RecvEof, _) => mret 0
            | (Fail _, _) => mret 1
            | (UB, _) => fun _ => None
            end
        | SHup => mret 0
        | SNone => stop_wait fuel' sock waited
        end
  end.

(** Every round uses up an answer or waits 100 ms of the 7000. *)
Definition stop_fuel (w : world) : nat := length (wd_answers w) + 71.

Definition stop_wait_main (sock : stream) : cmdM Z := fun w => stop_wait (stop_fuel w) sock 0 w.

Definition run_named_stop (session : bytes) : cmdM Z :=
  if negb (opty_is_session_name (Some session)) then
    say (cstr "invalid session name: " ++ session);; mret 1
  else
    fs ← get_files;
    info ← lift (opty_read_session_info malloc_ok home (Some session) fs);
    match info with
    | inr _ => say (cstr "no such 0pty session: " ++ session);; mret 1
    | inl i =>
        if bool_decide (si_control_token i = []) then
          say (cstr "session " ++ session ++ cstr " has no control token; restart it with the current 0pty before stopping");;
          mret 1
        else
          let ep := Endpoint (si_host i) (si_port i) in
          alive ← accepts_timeout ep OPTY_LIST_CONNECT_TIMEOUT_MS;
          if negb alive then
            say (cstr "0pty session " ++ session ++ cstr " is already dead");; mret 0
          else
            match opty_decode_graceful_input (si_graceful_input i) OPTY_MAX_GRACEFUL_INPUT with
            | Fail _ => perror (cstr "decode graceful_input");; mret 1
            | UB => fun _ => None
            | Done input =>
                sock ← do_connect ep;
                match sock with
                | None => perror (cstr "connect");; mret 1
                | Some s =>
                    match opty_send_control_shutdown (Some (si_control_token i)) (Some input)
                            (blen input) s with
                    | (UB, _) => fun _ => None
                    | (Fail _, s') =>
                        did (DSend ep (drop (length (out s)) (out s')));;
                        perror (cstr "send stop");; mret 1
                    | (Done _, s') =>
                        did (DSend ep (drop (length (out s)) (out s')));;
                        status ← stop_wait_main s';
                        status ← (if status =? 0 then
                                    dead ← opty_wait_endpoint_dead ep OPTY_STOP_WAIT_MS;
                                    if dead <? 0 then
                                      say (cstr "sent stop request for " ++ session ++
                                           cstr ", but it is still listening on " ++ endpoint_text ep);;
                                      mret 1
                                    else mret 0
                                  else mret status);
                        (if status =? 0 then say (cstr "stopped 0pty session " ++ session)
                         else mret tt);;
                        mret status
                    end
                end
            end
    end.

(** ** list and connect without a name *)

(** The session that a directory entry stands for. *)
Definition entry_session (name : bytes) : option bytes :=
  let n := (length name - 8)%nat in
  if (blen name <=? 8) || negb (bool_decide (drop n name = cstr ".session")) then None
  else if OPTY_SESSION_MAX_NAME <? Z.of_nat n then None
  else if opty_is_session_name (Some (take n name)) then Some (take n name)
  else None.

(** The loop of [readdir]: the sessions read, and whether [realloc] failed. *)
Fixpoint read_entries (names : list bytes) (cap : Z) (entries : list opty_session_info)
    : cmdM (list opty_session_info * bool) :=
  match names with
  | [] => mret (entries, true)
  | name :: rest =>
      match entry_session name with
      | None => read_entries rest cap entries
      | Some session =>
          let grow := Z.of_nat (length entries) =? cap in
          let new_cap := if cap =? 0 then 8 else cap * 2 in
          if grow && negb (malloc_ok (new_cap * entry_size)) then
            perror (cstr "list sessions");; mret (entries, false)
          else
            fs ← get_files;
            info ← lift (opty_read_session_info malloc_ok home (Some session) fs);
            read_entries rest (if grow then new_cap else cap)
              (match info with inl i => entries ++ [i] | inr _ => entries end)
      end
  end.

(** The probes, each in its thread: they all start now, and the slowest ends the wait.
    [None] when a thread could not be started. *)
Fixpoint probe_entries (entries : list opty_session_info) (start : Z)
    : cmdM (option (list (opty_session_info * bool))) :=
  match entries with
  | [] => mret (Some [])
  | i :: rest =>
      a ← ask;
      match a with
      | Some (AThread true) =>
          finished ← get_now;
          put_now start;;
          alive ← accepts_timeout (Endpoint (si_host i) (si_port i)) OPTY_LIST_CONNECT_TIMEOUT_MS;
          mine ← get_now;
          put_now (Z.max finished mine);;
          tail ← probe_entries rest start;
          mret ((fun l => (i, alive) :: l) <$> tail)
      | _ => mret None
      end
  end.

Definition opty_load_session_entries : cmdM (option (list (opty_session_info * bool))) :=
  match opty_session_dir home 512 with
  | Done dir =>
      a ← ask;
      match a with
      | Some (ADir (DirNames names)) =>
          '(entries, ok) ← read_entries names 0 [];
          if ok : bool then start ← get_now; probe_entries entries start else mret None
      | Some (ADir DirMissing) => mret (Some [])
      | _ => perror dir;; mret None
      end
  | _ => perror (cstr "session directory");; mret None
  end.

(** ["%-24s"] *)
Definition pad (n : nat) (s : bytes) : bytes := s ++ replicate (n - length s) (z2b 32).

Definition list_row (name endpoint state policy cwd : bytes) : bytes :=
  pad 24 name ++ cstr " " ++ pad 21 endpoint ++ cstr " " ++ pad 7 state ++ cstr " " ++
  pad 8 policy ++ cstr " " ++ cwd ++ [z2b 10].

Definition entry_row (e : opty_session_info * bool) : bytes :=
  let '(i, alive) := e in
  match snprintf_fit 160 (si_host i ++ cstr ":" ++ si_port i) with
  | Done endpoint =>
      list_row (si_name i) endpoint (if alive then cstr "alive" else cstr "dead")
        (if bool_decide (si_restart_policy i = []) then cstr "manual" else si_restart_policy i)
        (if bool_decide (si_cwd i = []) then cstr "-" else si_cwd i)
  | _ => []
  end.

Definition session_list (entries : list (opty_session_info * bool)) : bytes :=
  list_row (cstr "NAME") (cstr "ENDPOINT") (cstr "STATE") (cstr "POLICY") (cstr "CWD") ++
  concat (entry_row <$> entries).

Definition opty_print_session_list (entries : list (opty_session_info * bool)) : cmdM unit :=
  did (DPrint (session_list entries)).

Definition run_named_list : cmdM Z :=
  loaded ← opty_load_session_entries;
  match loaded with
  | None => mret 1
  | Some entries => opty_print_session_list entries;; mret 0
  end.

Definition run_connect_auto : cmdM Z :=
  loaded ← opty_load_session_entries;
  match loaded with
  | None => mret 1
  | Some [] =>
      say (cstr "No 0pty sessions found. Start one with: 0pty NAME start <command>");; mret 1
  | Some [(i, alive)] =>
      if alive : bool then run_named_connect (si_name i)
      else
        say (cstr "Session " ++ si_name i ++ cstr " is dead. Run '0pty restart " ++ si_name i ++
             cstr "' to bring it back.");;
        mret 1
  | Some entries =>
      opty_print_session_list entries;;
      say (cstr "Multiple 0pty sessions found. Choose one with: 0pty connect NAME");;
      mret 1
  end.

(** ** restart *)

Definition chdir (d : bytes) : cmdM bool :=
  a ← ask;
  match a with
  | Some (AChdir true) => put_cwd d;; did (DChdir d true);; mret true
  | _ => did (DChdir d false);; mret false
  end.

(** [argv] up to its null pointer. *)
Definition stored_argv (i : opty_session_info) : list bytes :=
  omap (fun k => si_argv i !! k) (seq 0 (Z.to_nat (si_argc i))).

Definition run_named_restart (argv0 : option bytes) (session : bytes) : cmdM Z :=
  if negb (opty_is_session_name (Some session)) then
    say (cstr "invalid session name: " ++ session);; mret 1
  else
    fs ← get_files;
    info ← lift (opty_read_session_info malloc_ok home (Some session) fs);
    match info with
    | inr _ => say (cstr "no such 0pty session: " ++ session);; mret 1
    | inl i =>
        if si_argc i =? 0 then
          say (cstr "session " ++ session ++ cstr " has no stored argv; start it again with: 0pty " ++
               session ++ cstr " start <command>");;
          mret 1
        else
          let ep := Endpoint (si_host i) (si_port i) in
          up ← accepts ep;
          if up : bool then
            say (cstr "0pty session " ++ session ++ cstr " is already alive on " ++ endpoint_text ep ++
                 cstr "; use: 0pty connect " ++ session);;
            mret 1
          else
            current ← getcwd;
            let back := match current with Some d => chdir d;; mret tt | None => mret tt end in
            moved ← (if bool_decide (si_cwd i = []) then mret true else chdir (si_cwd i));
            if negb moved then perror (si_cwd i);; mret 1
            else
              log ← (if bool_decide (si_log i = [])
                     then lift (opty_session_log_path home (Some session) 512)
                     else mret (inl (si_log i)));
              match log with
              | inr _ => perror (cstr "session log path");; back;; mret 1
              | inl log_path =>
                  rc ← opty_spawn_server argv0 session ep log_path
                         (child_token (Some (si_control_token i))) (stored_argv i);
                  if rc <? 0 then perror (cstr "restart 0pty session");; back;; mret 1
                  else back;; attach_client ep None None false
              end
    end.

(** ** main *)

Inductive command :=
| CList
| CAuto
| CConnect (session : bytes)
| CStop (session : bytes)
| CRestart (session : bytes)
| CStart (session : bytes) (command : list bytes)
| COptions.

(** The command after "start", without a leading "--". *)
Definition start_command (args : list bytes) : list bytes :=
  match args with
  | a :: rest => if decide (a = cstr "--") then rest else args
  | [] => []
  end.

(** The chain of tests at the head of [main]; [args] is argv without argv[0]. *)
Definition dispatch (args : list bytes) : command :=
  match args with
  | [a] =>
      if decide (a = cstr "list") then CList
      else if decide (a = cstr "connect") then CAuto
      else if opty_is_session_name (Some a) then CConnect a
      else COptions
  | a :: b :: rest =>
      if decide (a = cstr "connect") then CConnect b
      else if decide (a = cstr "stop") then CStop b
      else if decide (a = cstr "restart") then CRestart b
      else if opty_is_session_name (Some a) && bool_decide (b = cstr "connect") then CConnect a
      else if opty_is_session_name (Some a) && bool_decide (b = cstr "stop") then CStop a
      else if opty_is_session_name (Some a) && bool_decide (b = cstr "restart") then CRestart a
      else if opty_is_session_name (Some a) && bool_decide (b = cstr "start")
      then CStart a (start_command rest)
      else if decide (a = cstr "start") then
        if opty_is_session_name (Some b) then CStart b (start_command rest) else COptions
      else COptions
  | [] => COptions
  end.

(** What [getopt_long] reports: the options in order, then the operands. *)
Inductive option_event := OptToken (t : bytes) | OptLog (path : bytes) | OptRetry | OptHelp | OptBad.

Variable getopt_long : list bytes -> list option_event * list bytes.

(** The options, or the exit status when the usage was printed. *)
Fixpoint read_options (evs : list option_event) (token log : option bytes) (retry : bool)
    : Z + (option bytes * option bytes * bool) :=
  match evs with
  | [] => inr (token, log, retry)
  | OptToken t :: rest => read_options rest (Some t) log retry
  | OptLog p :: rest => read_options rest token (Some p) retry
  | OptRetry :: rest => read_options rest token log true
  | OptHelp :: _ => inl 0
  | OptBad :: _ => inl 1
  end.

Definition usage : cmdM unit := say (cstr "Usage").

(** Raw endpoint mode. *)
Definition run_options (args : list bytes) : cmdM Z :=
  let '(evs, operands) := getopt_long args in
  match read_options evs None None false with
  | inl status => usage;; mret status
  | inr (token, log_path, retry) =>
      match operands with
      | _ :: _ :: _ => usage;; mret 1
      | _ =>
          if OPTY_MAX_TOKEN <? blen (default [] token) then
            say (cstr "token exceeds maximum length of 255 bytes");; mret 1
          else
            ep ← match operands with
                 | arg :: _ => lift (opty_parse_endpoint malloc_ok (Some arg) OPTY_DEFAULT_HOST OPTY_DEFAULT_PORT)
                 | [] => mret (inl (Endpoint OPTY_DEFAULT_HOST OPTY_DEFAULT_PORT))
                 end;
            match ep with
            | inr _ => say (cstr "invalid endpoint: " ++ default [] (head operands));; mret 1
            | inl ep =>
                attach_client ep token log_path retry
            end
      end
  end.

Definition main (argv0 : option bytes) (args : list bytes) : cmdM Z :=
  match dispatch args with
  | CList => run_named_list
  | CAuto => run_connect_auto
  | CConnect session => run_named_connect session
  | CStop session => run_named_stop session
  | CRestart session => run_named_restart argv0 session
  | CStart session command => run_named_start argv0 session command
  | COptions => run_options args
  end.

End Commands.
