(* ===== verification/CommandSpec.v ===== *)
(** * Reasoning about commands

    Weakest preconditions for the computations of Commands.v, the definedness of what
    they call, and one lemma per operation: what it leaves unchanged, what it does to
    the outside, and what its result means. *)

From stdpp Require Import gmap.
From S2P Require Import Prelude.
From S2P Require Import Io.
From S2P Require Import Wire.
From S2P Require Import Messages.
From S2P Require Import Endpoint.
From S2P Require Import Text.
From S2P Require Import Session.
From S2P Require Import Consume.
From S2P Require Import Client.
From S2P Require Import ClientSpec.
From S2P Require Import ClientProps.
From S2P Require Import Resume.
From S2P Require Import Probe.
From S2P Require Import Terminal.
From S2P Require Import Commands.

(** ** Weakest preconditions *)

Definition cwp {A} (m : cmdM A) (Q : A -> world -> Prop) (w : world) : Prop :=
  match m w with Some (a, w') => Q a w' | None => False end.

Lemma cwp_ret {A} (a : A) (Q : A -> world -> Prop) (w : world) : Q a w -> cwp (mret a) Q w.
Proof. done. Qed.

Lemma cwp_bind {A B} (m : cmdM A) (k : A -> cmdM B) (Q : B -> world -> Prop) (w : world) :
  cwp m (fun a => cwp (k a) Q) w -> cwp (m ≫= k) Q w.
Proof. unfold cwp, mbind, cmd_bind. by destruct (m w) as [[a w']|]. Qed.

Lemma cwp_mono {A} (m : cmdM A) (P Q : A -> world -> Prop) (w : world) :
  cwp m P w -> (forall a w', P a w' -> Q a w') -> cwp m Q w.
Proof. unfold cwp. destruct (m w) as [[a w']|]; auto. Qed.

Lemma cwp_run {A} (m : cmdM A) (Q : A -> world -> Prop) (w : world) :
  cwp m Q w -> exists a w', m w = Some (a, w') /\ Q a w'.
Proof. unfold cwp. destruct (m w) as [[a w']|]; [eauto|done]. Qed.

(** ** Definedness *)

Lemma session_path_defined (home session : option bytes) (cap : Z) :
  safe (opty_session_path home session cap).
Proof.
  unfold safe, opty_session_path, opty_session_dir, snprintf_fit.
  pose proof (home_path_no_ub home (cstr "/.0pty/sessions") 512).
  case_match; [done|]. destruct (home_path _ _ _); cbn; [by case_match|done..].
Qed.

Lemma log_path_defined (home session : option bytes) (cap : Z) :
  safe (opty_session_log_path home session cap).
Proof.
  unfold safe, opty_session_log_path, opty_log_dir, snprintf_fit.
  pose proof (home_path_no_ub home (cstr "/.0pty/logs") 512).
  case_match; [done|]. destruct (home_path _ _ _); cbn; [by case_match|done..].
Qed.

Lemma session_field_defined (malloc_ok : Z -> bool) (escaped : bool) (i : opty_session_info)
    (k v : bytes) : safe (session_field malloc_ok escaped i k v).
Proof.
  unfold safe. destruct i. unfold session_field, opty_copy_field, parse_argc, opty_decode_session_value.
  destruct (session_key k); repeat case_match; done.
Qed.

Lemma session_lines_defined (malloc_ok : Z -> bool) (ls : list bytes) (escaped : bool)
    (i : opty_session_info) : safe (session_lines malloc_ok escaped i ls).
Proof.
  revert escaped i. induction ls as [|raw ls IH]; intros escaped i; [done|]. cbn [session_lines].
  destruct (split_field _) as [[k v]|]; [|apply IH].
  pose proof (session_field_defined malloc_ok escaped i k v).
  destruct (session_field _ _ _ _ _) as [[e j]| |]; [apply IH|done..].
Qed.

Lemma read_info_defined (malloc_ok : Z -> bool) (home session : option bytes)
    (fs : gmap bytes bytes) : safe (opty_read_session_info malloc_ok home session fs).
Proof.
  unfold safe, opty_read_session_info. pose proof (session_path_defined home session 1024).
  destruct (opty_session_path _ _ _) as [p| |]; cbn; [|done..]. destruct (fs !! p) as [text|]; [|done].
  pose proof (session_lines_defined malloc_ok (lines text) false (opty_session_info_init session)).
  destruct (session_lines _ _ _ _); cbn; [by case_match|done..].
Qed.

Lemma endpoint_lines_defined (hc pc : Z) (ls : list bytes) (h : bytes) (p : option bytes) :
  safe (endpoint_lines hc pc h p ls).
Proof.
  revert h p. induction ls as [|raw ls IH]; intros h p; [done|]. cbn [endpoint_lines].
  unfold safe in *. destruct (split_field _) as [[k v]|]; [|apply IH]. repeat case_match; auto.
Qed.

Lemma read_endpoint_defined (home session : option bytes) (hc pc : Z) (fs : gmap bytes bytes) :
  safe (opty_read_session_endpoint home session hc pc fs).
Proof.
  unfold safe, opty_read_session_endpoint. case_match; [done|].
  pose proof (session_path_defined home session 1024).
  destruct (opty_session_path _ _ _) as [p| |]; cbn; [|done..]. destruct (fs !! p) as [text|]; [|done].
  pose proof (endpoint_lines_defined hc pc (lines text) (snprintf_cut hc OPTY_DEFAULT_HOST) None).
  destruct (endpoint_lines _ _ _ _ _) as [[h [q|]]| |]; done.
Qed.

Lemma numeric_defined (session : option bytes) (cap : Z) : safe (opty_numeric_session_endpoint session cap).
Proof. unfold safe, opty_numeric_session_endpoint. repeat case_match; done. Qed.

Lemma decode_graceful_defined (value : bytes) (cap : Z) : safe (opty_decode_graceful_input value cap).
Proof.
  unfold safe, opty_decode_graceful_input.
  enough (forall n (v : bytes) len, (length v <= n)%nat -> decode_graceful v cap len <> UB) as H by (by eapply H).
  induction n as [|n IH]; intros v len Hn; [by destruct v; [|simpl in Hn; lia]|].
  destruct v as [|b v]; [done|]. cbn [decode_graceful]. simpl in Hn.
  assert (forall x l, (length x <= n)%nat ->
    (out ← decode_graceful x cap l; Done (b :: out)) <> UB /\
    forall c, (out ← decode_graceful x cap l; Done (c :: out)) <> UB) as Hrec.
  { intros x l Hx. specialize (IH x l Hx). by destruct (decode_graceful x cap l). }
  case_decide.
  - destruct v as [|l v]; [done|]. simpl in Hn. destruct (unescape_letter l); [|done].
    case_match; [done|]. apply Hrec. lia.
  - case_match; [done|]. apply Hrec. lia.
Qed.

Lemma token_defined (cap : Z) (s s' : stream) : opty_generate_control_token cap s <> (UB, s').
Proof.
  unfold opty_generate_control_token. case_match; [done|].
  destruct (opty_read_full OPTY_CONTROL_TOKEN_BYTES s) as [r s1] eqn:E.
  apply opty_read_full_spec in E as [_ H1]; [|done]. by destruct r; [case_match|..].
Qed.

(** The control frame: sent whole, or a part of it. *)
Definition stop_frame (token input : bytes) : bytes :=
  encode_frame (msg_code OPTY_MSG_CONTROL_SHUTDOWN) (control_payload token input).

Lemma send_control_ok (token input : bytes) (s : stream) :
  exists r s', opty_send_control_shutdown (Some token) (Some input) (blen input) s = (r, s') /\
    match r with
    | Done _ => out s' = out s ++ stop_frame token input
    | Fail _ => exists p, out s' = out s ++ p /\ p `prefix_of` stop_frame token input
    | UB => False
    end /\
    (blen token <= OPTY_MAX_TOKEN -> blen input <= OPTY_MAX_GRACEFUL_INPUT -> healthy s -> r = Done tt).
Proof.
  unfold opty_send_control_shutdown.
  destruct (Z.ltb_spec OPTY_MAX_GRACEFUL_INPUT (blen input)) as [|Hi].
  { eexists _, _. split; [reflexivity|]. split; [|lia]. exists []. rewrite app_nil_r. split; [done|apply prefix_nil]. }
  rewrite bool_decide_false, andb_false_r by done. rewrite opty_token_payload_spec.
  case_bool_decide as Ht.
  2: { eexists _, _. split; [reflexivity|]. split; [|done]. exists []. rewrite app_nil_r. split; [done|apply prefix_nil]. }
  rewrite (io_lift_bind _ _ token) by done. rewrite (io_lift_bind _ _ input).
  2: { pose proof (blen_nonneg input). destruct (Z.ltb_spec 0 (blen input)).
       - rewrite sub_ok by lia. unfold blen. by rewrite Nat2Z.id, firstn_all.
       - by rewrite (blen_0 input) by lia. }
  set (p := control_payload token input).
  destruct (opty_send_frame (msg_code OPTY_MSG_CONTROL_SHUTDOWN) (Some p) (blen p) s) as [r s'] eqn:E.
  eexists _, _. split; [reflexivity|]. pose proof (blen_nonneg token). pose proof (blen_nonneg input).
  assert (blen p <= OPTY_MAX_FRAME - 1) as Hp.
  { unfold p, control_payload. rewrite !blen_app, put_u16_length.
    change (blen [z2b (blen token)]) with 1. unfold OPTY_MAX_TOKEN, OPTY_MAX_GRACEFUL_INPUT in *.
    change (OPTY_MAX_FRAME - 1) with 16777215. change (blen [z2b OPTY_VERSION]) with 1. lia. }
  apply opty_send_frame_spec in E as [Hs Hh]; [|exact Hp].
  split; [|by intros _ _ Hhs; destruct (Hh Hhs)].
  destruct r as [u|e|]; [by destruct Hs|destruct Hs as (k&_&Ho&_)|done].
  eexists. split; [exact Ho|]. eexists. by rewrite take_drop.
Qed.

(** The client returns, whatever its network does. *)
Lemma client_loop_any (malloc_ok : Z -> bool) (connects : list (option peer)) (retry have : bool)
    (token : option bytes) (k : Z) (c : cli) :
  token_fits token ->
  exists rc c', connect_loop malloc_ok connects retry token have k c = Some (rc, c') /\ (rc = 0 \/ rc = 1).
Proof.
  intros Ht. revert have k c. induction connects as [|a connects IH]; intros have k c;
    cbn [connect_loop]; unfold mbind at 1, cli_bind at 1; destruct (terminate_same c) as (b&c1&->&_&_).
  { exists 0, c1. split; [by destruct b|by left]. }
  destruct b; [exists 0, c1; split; [done|by left]|]. destruct a as [p|].
  - unfold mbind, cli_bind, put_sock. set (c2 := set_cs_sock _ c1).
    destruct (session_on_terminates malloc_ok (peer_arrives p) have token c2 ltac:(by eexists) Ht)
      as (rc&c3&->&Hrc).
    destruct Hrc as [->|[->| ->]]; cbn [Z.eqb Z.ltb Z.compare]; [|eexists _, _; split; [reflexivity|auto]..].
    destruct retry; [|eexists _, _; split; [reflexivity|auto]]. rewrite sleep_ok. apply IH.
  - destruct retry; [|eexists _, _; split; [reflexivity|auto]].
    unfold mbind, cli_bind. rewrite sleep_ok. apply IH.
Qed.

Lemma client_any (malloc_ok : Z -> bool) (token : option bytes) (signals_ok raw_ok : bool)
    (log : option (option stream)) (retry : bool) (connects : list (option peer)) (c : cli) :
  exists rc c', run_client_endpoint malloc_ok token signals_ok raw_ok log retry connects c = Some (rc, c') /\
    (rc = 0 \/ rc = 1).
Proof.
  unfold run_client_endpoint.
  destruct (Z.ltb_spec OPTY_MAX_TOKEN (blen (default [] token))) as [|Ht]; [eexists _, _; split; [reflexivity|auto]|].
  destruct signals_ok; [|eexists _, _; split; [reflexivity|auto]].
  destruct raw_ok; [|eexists _, _; split; [reflexivity|auto]]. cbn [negb].
  destruct log as [[s|]|]; [| eexists _, _; split; [reflexivity|auto]|]; by apply client_loop_any.
Qed.

(** ** What an operation changes *)

(** The files and the directory are as they were, the clock did not go back, and [ds]
    was done to the outside. *)
Record moved (ds : list deed) (w w' : world) : Prop := {
  mv_fs : wd_fs w' = wd_fs w;
  mv_cwd : wd_cwd w' = wd_cwd w;
  mv_did : wd_did w' = wd_did w ++ ds
}.

Lemma moved_refl (w : world) : moved [] w w.
Proof. split; [done..|]. by rewrite app_nil_r. Qed.

Lemma moved_trans (d1 d2 : list deed) (w1 w2 w3 : world) :
  moved d1 w1 w2 -> moved d2 w2 w3 -> moved (d1 ++ d2) w1 w3.
Proof. intros [] []. split; [congruence..|]. rewrite app_assoc. congruence. Qed.

Lemma moved_then (d1 d2 d : list deed) (w1 w2 w3 : world) :
  moved d1 w1 w2 -> moved d2 w2 w3 -> d = d1 ++ d2 -> moved d w1 w3.
Proof. intros ?? ->. by eapply moved_trans. Qed.

(** A file was appended to, or none was touched. *)
Definition appended (path : bytes) (before after : gmap bytes bytes) : Prop :=
  after = before \/ exists text, after = append_to path text before.

Lemma appended_trans (path : bytes) (f1 f2 f3 : gmap bytes bytes) :
  appended path f1 f2 -> appended path f2 f3 -> appended path f1 f3.
Proof.
  intros [->|[t ->]]; [done|]. intros [->|[u ->]]; right; [by exists t|]. exists (t ++ u).
  unfold append_to. rewrite lookup_insert_eq, insert_insert_eq. cbn. by rewrite app_assoc.
Qed.

Lemma appended_lookup (path p : bytes) (f1 f2 : gmap bytes bytes) :
  appended path f1 f2 -> p <> path -> f2 !! p = f1 !! p.
Proof. intros [->|[t ->]] Hp; [done|]. unfold append_to. by rewrite lookup_insert_ne. Qed.

(** As [moved], but for the log [path], which may have grown. *)
Record logged (path : bytes) (ds : list deed) (w w' : world) : Prop := {
  lg_fs : appended path (files (wd_fs w)) (files (wd_fs w'));
  lg_cwd : wd_cwd w' = wd_cwd w;
  lg_did : wd_did w' = wd_did w ++ ds
}.

Lemma moved_logged (path : bytes) (ds : list deed) (w w' : world) : moved ds w w' -> logged path ds w w'.
Proof. intros [F C D]. split; [left; by rewrite F|done|done]. Qed.

Lemma logged_then (path : bytes) (d1 d2 d : list deed) (w1 w2 w3 : world) :
  logged path d1 w1 w2 -> logged path d2 w2 w3 -> d = d1 ++ d2 -> logged path d w1 w3.
Proof.
  intros [F1 C1 D1] [F2 C2 D2] ->. split; [by eapply appended_trans|congruence|].
  rewrite app_assoc. congruence.
Qed.

Lemma cwp_append (path text : bytes) (Q : unit -> world -> Prop) (w : world) :
  (forall w', logged path [] w w' -> Q tt w') -> cwp (wd_append path text) Q w.
Proof. intros H. apply H. split; cbn; [right; by exists text|done|by rewrite app_nil_r]. Qed.

Lemma cwp_ask (Q : option answer -> world -> Prop) (w : world) :
  (forall a w', moved [] w w' -> wd_now w' = wd_now w ->
     wd_answers w = match a with Some x => [x] | None => [] end ++ wd_answers w' -> Q a w') ->
  cwp ask Q w.
Proof.
  intros H. unfold cwp, ask. destruct (wd_answers w) as [|a rest] eqn:E.
  - apply H; [apply moved_refl|done|by rewrite E].
  - apply H; [|done|done]. split; [done..|]. cbn. by rewrite app_nil_r.
Qed.

Lemma cwp_ask_head (Q : option answer -> world -> Prop) (w : world) :
  (forall w', moved [] w w' -> Q (head (wd_answers w)) w') -> cwp ask Q w.
Proof.
  intros H. unfold cwp, ask. destruct (wd_answers w) as [|a rest]; apply H; [apply moved_refl|].
  split; [done..|]. cbn. by rewrite app_nil_r.
Qed.

Lemma cwp_did (d : deed) (Q : unit -> world -> Prop) (w : world) :
  (forall w', moved [d] w w' -> wd_now w' = wd_now w -> wd_answers w' = wd_answers w -> Q tt w') ->
  cwp (did d) Q w.
Proof. intros H. apply H; [by split|done|done]. Qed.

Lemma cwp_lift {A} (o : outcome A) (Q : A + errno -> world -> Prop) (w : world) :
  safe o -> match o with Done a => Q (inl a) w | Fail e => Q (inr e) w | UB => True end ->
  cwp (lift o) Q w.
Proof. unfold cwp, lift, safe. by destruct o. Qed.

Lemma cwp_put_now (t : Z) (Q : unit -> world -> Prop) (w : world) :
  (forall w', moved [] w w' -> wd_now w' = t -> wd_answers w' = wd_answers w -> Q tt w') ->
  cwp (put_now t) Q w.
Proof. intros H. apply H; [|done|done]. split; [done..|]. cbn. by rewrite app_nil_r. Qed.

Section Operations.

Variable malloc_ok : Z -> bool.
Variable clock_ok : bool.
Variable home : option bytes.
Variable pid : Z.

Lemma cwp_say (msg : bytes) (Q : unit -> world -> Prop) (w : world) :
  (forall w', moved [DSay msg] w w' -> wd_now w' = wd_now w -> wd_answers w' = wd_answers w -> Q tt w') ->
  cwp (say msg) Q w.
Proof. apply cwp_did. Qed.

Lemma cwp_perror (what : bytes) (Q : unit -> world -> Prop) (w : world) :
  (forall w', moved [DPerror what] w w' -> wd_now w' = wd_now w -> wd_answers w' = wd_answers w -> Q tt w') ->
  cwp (perror what) Q w.
Proof. apply cwp_did. Qed.

Lemma do_connect_ok (ep : opty_endpoint) (w : world) :
  cwp (do_connect ep) (fun r w' => moved [DConnect ep (bool_decide (is_Some r))] w w' /\
    wd_now w' = wd_now w) w.
Proof.
  unfold do_connect. apply cwp_bind, cwp_ask. intros a w1 H1 Hn1 _. apply cwp_bind, cwp_did.
  intros w2 H2 Hn2 _. apply cwp_ret. split; [by eapply moved_then|congruence].
Qed.

Lemma accepts_ok (ep : opty_endpoint) (w : world) :
  cwp (accepts ep) (fun b w' => moved [DConnect ep b] w w' /\ wd_now w' = wd_now w) w.
Proof.
  unfold accepts. apply cwp_bind. eapply cwp_mono; [apply do_connect_ok|].
  intros r w' [H Hn]. apply cwp_ret. by split.
Qed.

Lemma bindable_ok (ep : opty_endpoint) (w : world) :
  cwp (bindable ep) (fun b w' => moved [DBind ep b] w w') w.
Proof.
  unfold bindable. apply cwp_bind, cwp_ask. intros a w1 H1 _ _. apply cwp_bind, cwp_did.
  intros w2 H2 _ _. apply cwp_ret. by eapply moved_then.
Qed.

Lemma accepts_timeout_ok (ep : opty_endpoint) (timeout : Z) (w : world) :
  cwp (accepts_timeout clock_ok ep timeout) (fun b w' => moved [DProbe ep b] w w') w.
Proof.
  unfold accepts_timeout. apply cwp_bind, cwp_ask. intros a w1 H1 _ _.
  apply cwp_bind. unfold cwp at 1, get_now.
  destruct (match a with Some (AProbe _ _) => _ | _ => _ end) as [alive now].
  apply cwp_bind, cwp_put_now. intros w2 H2 _ _. apply cwp_bind, cwp_did. intros w3 H3 _ _.
  apply cwp_ret. eapply moved_then; [exact H1|eapply moved_then; [exact H2|exact H3|done]|done].
Qed.

Lemma sleep_millis_ok (n : Z) (Q : unit -> world -> Prop) (w : world) :
  (forall w', moved [] w w' -> wd_now w' = wd_now w + n -> wd_answers w' = wd_answers w -> Q tt w') ->
  cwp (opty_sleep_millis n) Q w.
Proof. intros H. unfold opty_sleep_millis. apply cwp_bind. unfold cwp at 1, get_now. by apply cwp_put_now. Qed.

Lemma getcwd_ok (w : world) :
  cwp getcwd (fun r w' => (r = Some (wd_cwd w) \/ r = None) /\
    moved [DGetcwd (bool_decide (is_Some r))] w w') w.
Proof.
  unfold getcwd. apply cwp_bind, cwp_ask. intros a w1 H1 _ _. apply cwp_bind. unfold cwp at 1, get_cwd.
  rewrite (mv_cwd _ _ _ H1). set (r := match a with Some (AGetcwd true) => _ | _ => _ end).
  assert (r = Some (wd_cwd w) \/ r = None) as Hr by (unfold r; destruct a as [[| | | | |[]| | | | | |]|]; auto).
  clearbody r. apply cwp_bind, cwp_did. intros w2 H2 _ _. apply cwp_ret. split; [done|].
  by eapply moved_then.
Qed.

(** *** Picking a port *)

(** The ports from [p] up to [q] were tried and are taken. *)
Definition taken (p q : Z) : list deed :=
  (fun k => DBind (Endpoint OPTY_DEFAULT_HOST (print_dec (p + Z.of_nat k))) false) <$> seq 0 (Z.to_nat (q - p)).

Lemma taken_cons (p q : Z) :
  p < q -> taken p q = DBind (Endpoint OPTY_DEFAULT_HOST (print_dec p)) false :: taken (p + 1) q.
Proof.
  intros H. unfold taken. replace (Z.to_nat (q - p)) with (S (Z.to_nat (q - (p + 1)))) by lia.
  cbn [seq fmap list_fmap]. f_equal; [do 3 f_equal; lia|].
  rewrite <- seq_shift, <- list_fmap_compose. apply list_fmap_ext. intros i k _. cbn. do 3 f_equal. lia.
Qed.

Lemma pick_ports_ok (fuel : nat) (port_cap p : Z) (w : world) :
  cwp (pick_ports fuel port_cap p)
    (fun r w' => match r with
                 | Some ep => exists q, p <= q < p + Z.of_nat fuel /\
                     ep = Endpoint OPTY_DEFAULT_HOST (print_dec q) /\
                     moved (taken p q ++ [DBind ep true]) w w'
                 | None => exists q, moved (taken p q) w w'
                 end) w.
Proof.
  revert p w. induction fuel as [|fuel IH]; intros p w; cbn [pick_ports].
  { apply cwp_ret. exists p. unfold taken. rewrite Z.sub_diag. apply moved_refl. }
  destruct (_ <=? _).
  { apply cwp_ret. exists p. unfold taken. rewrite Z.sub_diag. apply moved_refl. }
  apply cwp_bind. eapply cwp_mono; [apply bindable_ok|]. intros [] w1 H1.
  - apply cwp_ret. exists p. unfold taken. rewrite Z.sub_diag. split_and!; [lia..|done|done].
  - eapply cwp_mono; [apply IH|]. intros [ep|] w2.
    + intros (q&Hq&->&H2). exists q. split_and!; [lia..|done|]. rewrite taken_cons by lia.
      by eapply moved_then.
    + intros (q&H2). destruct (Z.ltb_spec p q).
      * exists q. rewrite taken_cons by done. by eapply moved_then.
      * exists (p + 1). rewrite taken_cons by lia. eapply moved_then; [exact H1|exact H2|].
        unfold taken. by replace (Z.to_nat (q - (p + 1))) with O by lia; rewrite Z.sub_diag.
Qed.

(** *** Waiting for the server *)

(** What the wait does: attempts to connect, and messages. *)
Definition waiting (ep : opty_endpoint) (d : deed) : Prop :=
  match d with DSay _ | DPerror _ => True | DConnect ep' _ => ep' = ep | _ => False end.

Lemma log_excerpt_ok (log_path : bytes) (w : world) :
  cwp (opty_print_server_log_excerpt log_path)
    (fun _ w' => exists ds, moved ds w w' /\ Forall (fun d => exists m, d = DSay m) ds /\ wd_now w' = wd_now w) w.
Proof.
  assert (exists ds, moved ds w w /\ Forall (fun d => exists m, d = DSay m) ds /\ wd_now w = wd_now w) as H0
    by (exists []; split_and!; [apply moved_refl|constructor|done]).
  unfold opty_print_server_log_excerpt. case_bool_decide; [by apply cwp_ret|].
  apply cwp_bind. unfold cwp at 1, get_files. destruct (files (wd_fs w) !! log_path) as [b|]; [|by apply cwp_ret].
  case_bool_decide; [by apply cwp_ret|]. apply cwp_say. intros w' H' Hn _. exists [DSay (cstr "0pty server log: " ++ log_excerpt b)].
  split_and!; [done| |done]. apply Forall_cons_2; [eauto|constructor].
Qed.

(** The end of a wait that failed: a message, and the log's last line. *)
Lemma give_up_ok (ep : opty_endpoint) (msg log_path : bytes) (w : world) :
  cwp (say msg;; opty_print_server_log_excerpt log_path;; mret (-1))
    (fun rc w' => rc = -1 /\ wd_now w' = wd_now w /\ exists ds, moved ds w w' /\ Forall (waiting ep) ds /\
       Forall (fun d => forall e b, d <> DConnect e b) ds) w.
Proof.
  apply cwp_bind, cwp_say. intros w1 H1 Hn1 _. apply cwp_bind. eapply cwp_mono; [apply log_excerpt_ok|].
  intros [] w2 (ds&H2&Hs&Hn2). apply cwp_ret. split_and!; [done|congruence|]. exists (DSay msg :: ds).
  split_and!; [by eapply moved_then|..]; (apply Forall_cons_2; [done|]);
    (eapply Forall_impl; [exact Hs|]); by intros ? [m ->].
Qed.

(** How often a connection was tried. *)
Definition connects_of (ds : list deed) : nat :=
  length (omap (fun d => match d with DConnect _ _ => Some tt | _ => None end) ds).

Lemma connects_of_app (d1 d2 : list deed) : connects_of (d1 ++ d2) = (connects_of d1 + connects_of d2)%nat.
Proof. unfold connects_of. by rewrite omap_app, length_app. Qed.

Lemma connects_of_none (ds : list deed) :
  Forall (fun d => forall e b, d <> DConnect e b) ds -> connects_of ds = 0%nat.
Proof.
  intros H. unfold connects_of. induction H as [|d ds Hd _ IH]; [done|].
  destruct d; cbn; try exact IH. by destruct (Hd ep ok).
Qed.

(** What a wait of up to [n] polls did by its end. *)
Record waited (n : nat) (ep : opty_endpoint) (rc : Z) (w w' : world) (ds : list deed) : Prop := {
  wa_moved : moved ds w w';
  wa_deeds : Forall (waiting ep) ds;
  wa_polls : (connects_of ds <= n)%nat;
  wa_time : wd_now w <= wd_now w' <= wd_now w + 50 * Z.of_nat n;
  wa_rc : rc = 0 /\ (exists before, ds = before ++ [DConnect ep true]) \/ rc = -1
}.

Lemma waited_step (n : nat) (ep : opty_endpoint) (rc : Z) (w w1 w2 : world) (ds : list deed) :
  moved [DConnect ep false] w w1 -> wd_now w <= wd_now w1 <= wd_now w + 50 ->
  waited n ep rc w1 w2 ds -> waited (S n) ep rc w w2 (DConnect ep false :: ds).
Proof.
  intros H1 Hn [H2 Hd Hp Ht Hr]. split.
  - by eapply moved_then.
  - by apply Forall_cons_2.
  - change (S (connects_of ds) <= S n)%nat. lia.
  - lia.
  - destruct Hr as [[-> [b ->]]| ->]; [left; split; [done|]; by exists (DConnect ep false :: b)|by right].
Qed.

Lemma wait_for_server_ok (n : nat) (ep : opty_endpoint) (log_path : bytes) (w : world) :
  cwp (wait_for_server n ep log_path) (fun rc w' => exists ds, waited n ep rc w w' ds) w.
Proof.
  assert (forall n msg w, cwp (say msg;; opty_print_server_log_excerpt log_path;; mret (-1))
    (fun rc w' => exists ds, waited n ep rc w w' ds) w) as Hgive.
  { intros n' msg w0. eapply cwp_mono; [apply (give_up_ok ep)|].
    intros rc w' (->&Hn&ds&Hm&Hd&Hc). exists ds. split; [done|done| |lia|by right].
    rewrite connects_of_none by done. lia. }
  revert w. induction n as [|n IH]; intros w; cbn [wait_for_server]; [apply Hgive|].
  apply cwp_bind. eapply cwp_mono; [apply accepts_ok|]. intros [] w1 [H1 Hn1].
  { apply cwp_ret. exists [DConnect ep true]. split; [done|by apply Forall_cons_2|change (1 <= S n)%nat; lia|lia|].
    left. split; [done|]. by exists []. }
  assert (forall w2, moved [DConnect ep false] w w2 -> wd_now w2 = wd_now w ->
    cwp (opty_sleep_millis 50;; wait_for_server n ep log_path)
      (fun rc w' => exists ds, waited (S n) ep rc w w' ds) w2) as Hagain.
  { intros w2 H2 Hn2. apply cwp_bind, sleep_millis_ok. intros w3 H3 Hn3 _. eapply cwp_mono; [apply IH|].
    intros rc w4 [ds Hw]. exists (DConnect ep false :: ds). apply (waited_step n ep rc w w3 w4 ds); [|lia|exact Hw].
    by eapply moved_then. }
  assert (forall (m : cmdM Z) w2, moved [DConnect ep false] w w2 -> wd_now w2 = wd_now w ->
    cwp m (fun rc w' => rc = -1 /\ wd_now w' = wd_now w2 /\ exists ds, moved ds w2 w' /\
      Forall (waiting ep) ds /\ Forall (fun d => forall e b, d <> DConnect e b) ds) w2 ->
    cwp m (fun rc w' => exists ds, waited (S n) ep rc w w' ds) w2) as Hstop.
  { intros m w2 H2 Hn2 Hm. eapply cwp_mono; [exact Hm|]. intros rc w3 (->&Hn3&ds&H3&Hd&Hc).
    exists (DConnect ep false :: ds).
    split; [by eapply moved_then|by apply Forall_cons_2| |lia|by right].
    change (S (connects_of ds) <= S n)%nat. rewrite connects_of_none by done. lia. }
  apply cwp_bind. unfold wait_child. apply cwp_bind, cwp_ask. intros a w2 H2 Hn2 _. apply cwp_ret.
  assert (moved [DConnect ep false] w w2) as H2' by (by eapply moved_then).
  destruct (match a with Some (AWait r) => r | _ => WRunning end).
  - apply Hagain; [done|congruence].
  - apply Hstop; [done|congruence|apply give_up_ok].
  - case_decide; [apply Hagain; [done|congruence]|]. apply Hstop; [done|congruence|].
    apply cwp_bind, cwp_perror. intros w3 H3 Hn3 _. apply cwp_ret. split_and!; [done..|].
    exists [DPerror (cstr "waitpid")]. split_and!; [done|by apply Forall_cons_2|by apply Forall_cons_2].
Qed.

(** *** Starting a server *)

(** The server was started with its arguments, and is up unless [rc] is -1. *)
Definition spawned (session : bytes) (ep : opty_endpoint) (log_path : bytes) (token : option bytes)
    (command : list bytes) (rc : Z) (w w' : world) (ds : list deed) : Prop :=
  exists server_path waits, logged log_path ds w w' /\
    blen (endpoint_text ep) < 128 /\
    Forall (waiting ep) waits /\ (connects_of waits <= 60)%nat /\
    (ds = DSpawn (server_argv server_path (endpoint_text ep) command) (child_token token)
            log_path (wd_cwd w) :: waits) /\
    (rc = -1 \/ rc = 0 /\ exists before msg, waits = before ++ [DConnect ep true; DSay msg]).

(** Nothing in the way of a fork. *)
Definition can_fork (ep : opty_endpoint) (w : world) : Prop :=
  (forall n, malloc_ok n = true) /\ blen (endpoint_text ep) < 128 /\
  exists p child rest, wd_answers w = AFork (Some p) child :: rest.

Lemma spawn_server_ok (argv0 : option bytes) (session : bytes) (ep : opty_endpoint) (log_path : bytes)
    (token : option bytes) (command : list bytes) (w : world) :
  cwp (opty_spawn_server malloc_ok argv0 session ep log_path token command)
    (fun rc w' => rc = -1 /\ moved [] w w' /\ ~ can_fork ep w \/
       exists ds, spawned session ep log_path token command rc w w' ds) w.
Proof.
  assert (~ can_fork ep w -> cwp (mret (-1)) (fun rc w' => rc = -1 /\ moved [] w w' /\ ~ can_fork ep w \/
       exists ds, spawned session ep log_path token command rc w w' ds) w) as Hno.
  { intros H. apply cwp_ret. left. split_and!; [done|apply moved_refl|done]. }
  unfold opty_spawn_server, snprintf_fit.
  destruct (Z.leb_spec 128 (blen (endpoint_text ep))); [by apply Hno; intros (_&?&_); lia|].
  destruct (opty_server_path malloc_ok argv0) as [sp|] eqn:Esp.
  2: { apply Hno. intros (Hm&_). unfold opty_server_path in Esp. rewrite Hm in Esp.
       by destruct (before_last_slash _); rewrite ?Hm in Esp. }
  destruct (malloc_ok _) eqn:Em; cbn [negb]; [|by apply Hno; intros (Hm&_); rewrite Hm in Em].
  apply cwp_bind, cwp_ask_head. intros w1 H1.
  destruct (head (wd_answers w)) as [[| | |[p|] child| | | | | | | |]|] eqn:Ha;
    try (apply cwp_ret; left; split_and!; [done|done|]; intros (_&_&?&?&?&Hf); by rewrite Hf in Ha).
  apply cwp_bind. unfold cwp at 1, get_cwd. apply cwp_bind, cwp_did. intros w2' H2' _ _.
  rewrite (mv_cwd _ _ _ H1) in H2'. set (sd := DSpawn _ _ _ _) in *.
  apply cwp_bind. eapply (cwp_mono _ (fun _ w2 => logged log_path [sd] w1 w2)).
  { destruct child as [|text]; [by apply cwp_ret, moved_logged|].
    apply cwp_append. intros w2 H2. eapply logged_then; [by apply moved_logged|exact H2|done]. }
  intros [] w2 H2. apply (moved_logged log_path) in H1.
  apply cwp_bind. eapply cwp_mono; [apply wait_for_server_ok|]. intros rc w3 [ds [H3 Hd Hp _ Hr]].
  apply (moved_logged log_path) in H3.
  destruct Hr as [[-> [before ->]]| ->]; cbn [Z.ltb Z.compare].
  - apply cwp_bind, cwp_say. intros w4 H4 _ _. apply cwp_ret. right. eexists.
    apply (moved_logged log_path) in H4. exists sp, (before ++ [DConnect ep true] ++ [DSay (cstr "started 0pty session " ++ session ++
      cstr " on " ++ endpoint_text ep ++ cstr "; log: " ++ log_path)]).
    split_and!; [|done| | |reflexivity|right; split; [done|by eexists _, _]].
    + eapply logged_then; [exact H1|eapply logged_then; [exact H2|eapply logged_then; [exact H3|exact H4|reflexivity]|reflexivity]|].
      cbn. by rewrite <- app_assoc.
    + rewrite app_assoc. apply Forall_app. split; [done|by apply Forall_cons_2].
    + rewrite app_assoc, connects_of_app. change (connects_of [DSay _]) with 0%nat. lia.
  - apply cwp_ret. right. eexists. exists sp, ds. split_and!; [|done|done|lia|reflexivity|by left].
    eapply logged_then; [exact H1|eapply logged_then; [exact H2|exact H3|reflexivity]|reflexivity].
Qed.

(** *** Attaching *)

Lemma run_ok (token : option bytes) (s r : bool) (log : option (option stream)) (retry : bool)
    (connects : list (option peer)) (w : world) :
  cwp (on_cli (run_client_endpoint malloc_ok token s r log retry connects))
    (fun rc w' => (rc = 0 \/ rc = 1) /\ moved [] w w') w.
Proof.
  unfold cwp, on_cli. destruct (client_any malloc_ok token s r log retry connects (wd_cli w)) as (rc&c'&->&Hrc).
  split; [done|]. split; cbn; [done..|]. by rewrite app_nil_r.
Qed.

(** Attaching, with a log that grows. *)
Lemma attach_log_ok (ep : opty_endpoint) (token : option bytes) (path : bytes) (retry : bool) (w : world) :
  cwp (attach_client malloc_ok ep token (Some path) retry)
    (fun rc w' => (rc = 0 \/ rc = 1) /\ logged path [DAttach ep token retry] w w') w.
Proof.
  unfold attach_client. apply cwp_bind, cwp_ask. intros a w1 H1 _ _. apply cwp_bind, cwp_did. intros w2 H2 _ _.
  assert (logged path [DAttach ep token retry] w w2) as H by (apply moved_logged; by eapply moved_then).
  destruct (match a with Some (ASession _ _ _) => _ | _ => _ end) as [[s r] connects].
  assert (forall log w3, logged path [] w2 w3 ->
    cwp (on_cli (run_client_endpoint malloc_ok token s r log retry connects))
      (fun rc w' => (rc = 0 \/ rc = 1) /\ logged path [DAttach ep token retry] w w') w3) as Hrun.
  { intros log w3 H3. eapply cwp_mono; [apply run_ok|]. intros rc w4 [Hrc H4]. split; [done|].
    eapply logged_then; [exact H|eapply logged_then; [exact H3|by apply moved_logged|done]|done]. }
  assert (logged path [] w2 w2) as H0 by apply moved_logged, moved_refl.
  destruct (_ || _); [by apply Hrun|]. apply cwp_bind.
  eapply (cwp_mono _ (fun _ w3 => logged path [] w2 w3)).
  { unfold open_log. apply cwp_bind, cwp_ask. intros b w3 H3 _ _. apply (moved_logged path) in H3.
    destruct b as [[| | | | | | | | | |[st|]|]|]; try (by apply cwp_ret).
    apply cwp_bind, cwp_append. intros w4 H4. apply cwp_ret. by eapply logged_then. }
  intros [st|] w3 H3; [|by apply Hrun]. apply cwp_bind. eapply cwp_mono; [by apply Hrun|].
  intros rc w4 [Hrc H4]. apply cwp_bind. unfold cwp at 1, written_log. apply cwp_bind, cwp_append.
  intros w5 H5. apply cwp_ret. split; [done|]. by eapply logged_then.
Qed.

Lemma attach_ok (ep : opty_endpoint) (token : option bytes) (retry : bool) (w : world) :
  cwp (attach_client malloc_ok ep token None retry)
    (fun rc w' => (rc = 0 \/ rc = 1) /\ moved [DAttach ep token retry] w w') w.
Proof.
  unfold attach_client. apply cwp_bind, cwp_ask. intros a w1 H1 _ _. apply cwp_bind, cwp_did. intros w2 H2 _ _.
  destruct (match a with Some (ASession _ _ _) => _ | _ => _ end) as [[s r] connects].
  eapply cwp_mono; [apply run_ok|]. intros rc w3 [Hrc H3]. split; [done|].
  eapply moved_then; [exact H1|by eapply moved_trans|done].
Qed.

End Operations.
