(* ===== verification/CommandProps.v ===== *)
(** * What start guarantees (src/src/client.c: run_named_start)

    A session file always describes the server that was started with it: the functional
    behaviour of start on every branch, and what a reader of the file finds. *)

From stdpp Require Import gmap.
From S2P Require Import Prelude.
From S2P Require Import Io.
From S2P Require Import Wire.
From S2P Require Import Messages.
From S2P Require Import Endpoint.
From S2P Require Import Text.
From S2P Require Import Session.
From S2P Require Import Consume.
From S2P Require Import Client.
From S2P Require Import ClientSpec.
From S2P Require Import ClientProps.
From S2P Require Import Probe.
From S2P Require Import Terminal.
From S2P Require Import Commands.
From S2P Require Import CommandSpec.

(** ** Values that a started session has *)

Lemma print_port_digits (n : Z) :
  0 <= n <= 65535 -> forallb is_digit (print_dec n) = true /\ print_dec n <> [].
Proof.
  intros Hn. assert (forallb is_digit (print_dec n) && (0 <? blen (print_dec n)) = true) as H.
  { apply (all_from_spec (Z.to_nat 65536) 0
      (fun n => forallb is_digit (print_dec n) && (0 <? blen (print_dec n)))); [|lia].
    vm_compute. reflexivity. }
  apply andb_true_iff in H as [? H]. split; [done|]. intros He. by rewrite He in H.
Qed.

(** Digits and hexadecimal digits make good lines. *)
Lemma plain_line_ok (p : byte -> bool) (s : bytes) :
  p Byte.x0a = false -> p Byte.x00 = false -> p Byte.x0d = false -> forallb p s = true -> line_ok s.
Proof.
  intros Hn Hz Hr Hs. rewrite forallb_forall in Hs.
  assert (forall b, p b = false -> b ∉ s) as Hno.
  { intros b Hb Hin%list_elem_of_In%Hs. congruence. }
  split_and!; [by apply Hno..|]. intros Hl. apply last_Some in Hl as [l ->].
  apply (Hno Byte.x0d Hr). set_solver.
Qed.

Lemma token_shape (cap : Z) (s s' : stream) (tok : bytes) :
  opty_generate_control_token cap s = (Done tok, s') -> blen tok = 64 /\ line_ok tok.
Proof.
  unfold opty_generate_control_token. case_match; [done|].
  destruct (opty_read_full OPTY_CONTROL_TOKEN_BYTES s) as [[bs|e|] s1] eqn:E; [|done..].
  destruct (Z.eqb_spec (blen bs) OPTY_CONTROL_TOKEN_BYTES) as [Hb|]; [|done]. cbn [negb].
  intros [= <- <-]. destruct (hex_concat_ok bs) as [Hl Hh]. unfold OPTY_CONTROL_TOKEN_BYTES in Hb.
  split; [lia|]. by apply (plain_line_ok is_hex).
Qed.

Section Start.

Variable malloc_ok : Z -> bool.
Variable home : option bytes.
Variable pid : Z.

(** No server is started, nobody attaches and nothing is sent. *)
Definition harmless (d : deed) : Prop :=
  match d with DSpawn _ _ _ _ | DAttach _ _ _ | DSend _ _ => False | _ => True end.

Lemma taken_harmless (p q : Z) : Forall harmless (taken p q).
Proof. unfold taken. apply Forall_fmap, Forall_true. done. Qed.

(** What a start does to the files: the session's file is replaced, or a new temporary
    file stays that could not be removed, or neither; and then the session's log may
    grow.  No other file changes. *)
Definition start_files (session : bytes) (w w' : world) : Prop :=
  exists mid,
    (mid = files (wd_fs w) \/
     exists path, opty_session_path home (Some session) 1024 = Done path /\
       ((exists text, mid = <[path := text]> (files (wd_fs w))) \/
        (exists left, files (wd_fs w) !! tmp_of path pid = None /\
           mid = <[tmp_of path pid := left]> (files (wd_fs w))))) /\
    (files (wd_fs w') = mid \/
     exists log, opty_session_log_path home (Some session) 512 = Done log /\
       appended log mid (files (wd_fs w'))).

Lemma start_files_same (session : bytes) (w w' : world) :
  files (wd_fs w') = files (wd_fs w) -> start_files session w w'.
Proof. intros H. exists (files (wd_fs w)). split; by left. Qed.

Lemma start_files_then (session : bytes) (w w1 w2 : world) :
  start_files session w w1 -> files (wd_fs w2) = files (wd_fs w1) -> start_files session w w2.
Proof. intros (mid&H1&H2) Hf. exists mid. by rewrite Hf. Qed.

(** A server that was started for the session just written. *)
Record new_server (session : bytes) (command : list bytes) (ep : opty_endpoint)
    (w w' : world) (before waits : list deed) (server_path token log : bytes) : Prop := {
  ns_did : wd_did w' = wd_did w ++ before ++
    DSpawn (server_argv server_path (endpoint_text ep) command) (Some token) log (wd_cwd w) :: waits;
  ns_before : Forall harmless before;
  ns_port : exists q, OPTY_SESSION_PORT_BASE <= q <= 65535 /\ ep = Endpoint OPTY_DEFAULT_HOST (print_dec q);
  ns_token : blen token = 64 /\ line_ok token;
  ns_log : opty_session_log_path home (Some session) 512 = Done log;
  ns_file : exists cwd s s', (cwd = wd_cwd w \/ cwd = [] /\ DGetcwd false ∈ before) /\ files s = files (wd_fs w) /\
    opty_write_session malloc_ok home pid (Some session) ep log token command cwd s = (Done tt, s') /\
    appended log (files s') (files (wd_fs w'))
}.

Definition start_result (session : bytes) (command : list bytes) (r : option opty_endpoint)
    (w w' : world) : Prop :=
  start_files session w w' /\
  (r = None /\ (exists ds, wd_did w' = wd_did w ++ ds /\ Forall harmless ds) \/
   exists ep before waits server_path token log,
     new_server session command ep w w' before waits server_path token log /\
     Forall (waiting ep) waits /\
     (r = None \/ r = Some ep /\ exists b m, waits = b ++ [DConnect ep true; DSay m])).

Lemma allocation_failed (session : bytes) (command : list bytes) (what : bytes) (ds : list deed) (w w1 : world) :
  wd_did w1 = wd_did w ++ ds -> Forall harmless ds -> start_files session w w1 ->
  cwp (perror what;; mret None) (fun r w' => start_result session command r w w') w1.
Proof.
  intros Hd Hh Ho. apply cwp_bind, cwp_perror. intros w2 H2 _ _. apply cwp_ret. split.
  - eapply start_files_then; [exact Ho|by rewrite (mv_fs _ _ _ H2)].
  - left. split; [done|]. exists (ds ++ [DPerror what]). split.
    + by rewrite (mv_did _ _ _ H2), Hd, app_assoc.
    + apply Forall_app. split; [done|by apply Forall_cons_2].
Qed.

(** The session file is written, and nothing else was done so far but [before]. *)
Record written (session : bytes) (command : list bytes) (ep : opty_endpoint)
    (w w' : world) (before : list deed) (token log : bytes) : Prop := {
  wr_did : wd_did w' = wd_did w ++ before;
  wr_cwd : wd_cwd w' = wd_cwd w;
  wr_before : Forall harmless before;
  wr_port : exists q, OPTY_SESSION_PORT_BASE <= q <= 65535 /\ ep = Endpoint OPTY_DEFAULT_HOST (print_dec q);
  wr_token : blen token = 64 /\ line_ok token;
  wr_log : opty_session_log_path home (Some session) 512 = Done log;
  wr_file : exists cwd s, (cwd = wd_cwd w \/ cwd = [] /\ DGetcwd false ∈ before) /\ files s = files (wd_fs w) /\
    opty_write_session malloc_ok home pid (Some session) ep log token command cwd s = (Done tt, wd_fs w')
}.

Lemma written_only (session : bytes) (command : list bytes) (ep : opty_endpoint)
    (w w1 w2 : world) (before : list deed) (token log : bytes) :
  written session command ep w w1 before token log ->
  appended log (files (wd_fs w1)) (files (wd_fs w2)) -> start_files session w w2.
Proof.
  intros [_ _ _ _ _ Hlog (cwd&s&_&Hf&Hw)] H2.
  pose proof (write_session_outcome malloc_ok home pid (Some session) ep log token command cwd s) as H.
  cbv zeta in H. rewrite Hw in H. destruct H as (path&text&Hp&_&_&_&_&H). cbn [snd] in H. rewrite Hf in H.
  exists (files (wd_fs w1)). split; [right; exists path; eauto|]. right. by exists log.
Qed.

(** From the written file to the server. *)
Lemma start_server_ok (argv0 : option bytes) (session : bytes) (command : list bytes) (ep : opty_endpoint)
    (w w1 : world) (before : list deed) (token log : bytes) :
  written session command ep w w1 before token log ->
  cwp (rc ← opty_spawn_server malloc_ok argv0 session ep log (Some token) command;
       if rc <? 0 then perror (cstr "start 0pty session");; mret None else mret (Some ep))
    (fun r w' => start_result session command r w w') w1.
Proof.
  intros H. pose proof (fun w2 => written_only _ _ _ w w1 w2 _ _ _ H) as Ho. destruct H.
  apply cwp_bind. eapply cwp_mono; [apply spawn_server_ok|].
  assert (child_token (Some token) = Some token) as Htok by (by destruct token, wr_token0).
  intros rc w5 [(->&H5&_)|(ds&sp&waits&H5&_&Hw&_&->&Hrc)].
  { cbn [Z.ltb Z.compare]. apply (allocation_failed session command _ before); [|done|].
    - by rewrite (mv_did _ _ _ H5), app_nil_r.
    - apply Ho. left. by rewrite (mv_fs _ _ _ H5). }
  rewrite Htok, wr_cwd0 in H5.
  assert (forall w6 ds, moved ds w5 w6 -> new_server session command ep w w6 before (waits ++ ds) sp token log) as Hns.
  { intros w6 ds H6. split; [|done..|].
    - rewrite (mv_did _ _ _ H6), (lg_did _ _ _ _ H5), wr_did0. by rewrite <- !app_assoc.
    - destruct wr_file0 as (cwd&s&?&?&?). exists cwd, s, (wd_fs w1). split_and!; [done..|].
      rewrite (mv_fs _ _ _ H6). apply (lg_fs _ _ _ _ H5). }
  destruct Hrc as [->|(->&b&m&->)]; cbn [Z.ltb Z.compare].
  - apply cwp_bind, cwp_perror. intros w6 H6 _ _. apply cwp_ret. split.
    + apply Ho. rewrite (mv_fs _ _ _ H6). apply (lg_fs _ _ _ _ H5).
    + right. exists ep, before, (waits ++ [DPerror (cstr "start 0pty session")]), sp, token, log.
      split_and!; [by apply Hns| |by left]. apply Forall_app. split; [done|by apply Forall_cons_2].
  - apply cwp_ret. split; [apply Ho, (lg_fs _ _ _ _ H5)|].
    right. exists ep, before, (b ++ [DConnect ep true; DSay m]), sp, token, log.
    split_and!; [|done|right; split; [done|by exists b, m]].
    rewrite <- (app_nil_r (b ++ _)). apply Hns, moved_refl.
Qed.

(** From the working directory to the written file, and on. *)
Lemma start_write_ok (session : bytes) (command : list bytes) (ep : opty_endpoint)
    (w w1 : world) (picked : list deed) (token log : bytes) (k : cmdM (option opty_endpoint)) :
  files (wd_fs w1) = files (wd_fs w) -> wd_did w1 = wd_did w ++ picked -> wd_cwd w1 = wd_cwd w ->
  Forall harmless picked ->
  (exists q, OPTY_SESSION_PORT_BASE <= q <= 65535 /\ ep = Endpoint OPTY_DEFAULT_HOST (print_dec q)) ->
  blen token = 64 /\ line_ok token -> opty_session_log_path home (Some session) 512 = Done log ->
  (forall w2 before, written session command ep w w2 before token log ->
     cwp k (fun r w' => start_result session command r w w') w2) ->
  cwp (cwd ← getcwd;
       written ← on_files (opty_write_session malloc_ok home pid (Some session) ep log token command (default [] cwd));
       match written with inr _ => perror (cstr "write 0pty session");; mret None | inl _ => k end)
    (fun r w' => start_result session command r w w') w1.
Proof.
  intros Hf Hd Hc Hh Hport Htok Hlog Hk. apply cwp_bind. eapply cwp_mono; [apply getcwd_ok|].
  intros got w2 [Hgot [F2 C2 D2]]. set (before := picked ++ [DGetcwd (bool_decide (is_Some got))]).
  assert (default [] got = wd_cwd w \/ default [] got = [] /\ DGetcwd false ∈ before) as Hcwd.
  { rewrite <- Hc. unfold before. destruct Hgot as [->| ->]; [by left|right]. split; [done|]. cbn. set_solver. }
  assert (Forall harmless before) as Hb by (apply Forall_app; split; [done|by apply Forall_cons_2]).
  assert (wd_did w2 = wd_did w ++ before) as Hd2 by (by rewrite D2, Hd, <- app_assoc).
  apply cwp_bind. unfold cwp at 1, on_files.
  pose proof (write_session_outcome malloc_ok home pid (Some session) ep log token command (default [] got) (wd_fs w2)) as Hout.
  cbv zeta in Hout.
  destruct (opty_write_session _ _ _ _ _ _ _ _ _ (wd_fs w2)) as [[[]|e|] fs'] eqn:Ew; cbn [fst snd] in *; [| |done].
  - apply (Hk _ before). split; try done; [by rewrite <- Hc, <- C2|]. exists (default [] got), (wd_fs w2).
    split_and!; [done|by rewrite F2|exact Ew].
  - apply (allocation_failed session command _ before); [exact Hd2|done|].
    destruct Hout as [Hout|(path&left&Hp&Hnew&Hout&_)].
    + apply start_files_same. cbn. by rewrite Hout, F2.
    + rewrite F2, Hf in Hout, Hnew. exists (files fs'). split; [|by left]. right. exists path. eauto 10.
Qed.

(** [exact], for a goal that is the lemma as written: computations are compared by their text. *)
Ltac as_stated H :=
  let T := type of H in match goal with |- ?G => constr_eq G T; exact H end.

Lemma start_new_ok (argv0 : option bytes) (session : bytes) (command : list bytes) (w : world) :
  cwp (start_new malloc_ok home pid argv0 session command)
    (fun r w' => start_result session command r w w') w.
Proof.
  unfold start_new. apply cwp_bind. eapply cwp_mono; [apply pick_ports_ok|]. intros [ep|] w1.
  2: { intros (q&H1). eapply allocation_failed; [apply (mv_did _ _ _ H1)|apply taken_harmless|].
       apply start_files_same. by rewrite (mv_fs _ _ _ H1). }
  intros (q&Hq&->&H1). set (ep := Endpoint _ (print_dec q)) in *.
  set (picked := taken OPTY_SESSION_PORT_BASE q ++ [DBind ep true]) in *.
  assert (Forall harmless picked) as Hpicked.
  { apply Forall_app. split; [apply taken_harmless|by apply Forall_cons_2]. }
  assert (forall what w2, wd_fs w2 = wd_fs w1 -> wd_did w2 = wd_did w1 ->
    cwp (perror what;; mret None) (fun r w' => start_result session command r w w') w2) as Hfail.
  { intros what w2 Hf Hd. apply (allocation_failed session command what picked); [|done|].
    - by rewrite Hd, (mv_did _ _ _ H1).
    - apply start_files_same. by rewrite Hf, (mv_fs _ _ _ H1). }
  apply cwp_bind, cwp_lift; [apply log_path_defined|].
  destruct (opty_session_log_path home (Some session) 512) as [log|e|] eqn:Elog; [|by apply Hfail|done].
  apply cwp_bind. unfold cwp at 1, on_random.
  destruct (opty_generate_control_token _ (wd_random w1)) as [[token|e|] rs] eqn:Etok;
    [|by apply Hfail|by apply token_defined in Etok].
  destruct H1 as [F1 C1 D1]. apply (start_write_ok session command ep w _ picked token log); [by cbn; rewrite F1|done..| | |done|].
  - exists q. split; [|done]. unfold OPTY_SESSION_PORT_BASE in *. lia.
  - by eapply token_shape.
  - intros w2 before Hw. as_stated (start_server_ok argv0 session command ep w w2 before token log Hw).
Qed.

(** The log and the session file are different files, so a reader of the session does not
    see the log grow. *)
Lemma log_not_session (session log path : bytes) :
  opty_session_log_path home (Some session) 512 = Done log ->
  opty_session_path home (Some session) 1024 = Done path -> path <> log.
Proof.
  unfold opty_session_log_path, opty_session_path, opty_log_dir, opty_session_dir, snprintf_fit.
  destruct (negb _); [done|].
  destruct (home_path home (cstr "/.0pty/logs") 512) as [ld| |]; cbn [mbind outcome_bind]; [|done..].
  destruct (home_path home (cstr "/.0pty/sessions") 512) as [sd| |]; cbn [mbind outcome_bind]; [|done..].
  do 2 (case_match; [done|]). intros [= <-] [= <-] He. apply (f_equal last) in He.
  rewrite !last_app in He. cbn [app cstr] in He. rewrite !last_cons, !last_app in He. done.
Qed.

Lemma read_info_files (session : bytes) (f1 f2 : gmap bytes bytes) :
  (forall p, opty_session_path home (Some session) 1024 = Done p -> f2 !! p = f1 !! p) ->
  opty_read_session_info malloc_ok home (Some session) f2 =
  opty_read_session_info malloc_ok home (Some session) f1.
Proof.
  intros H. unfold opty_read_session_info. destruct (opty_session_path _ _ _) as [p| |]; [|done..].
  cbn [mbind outcome_bind]. by rewrite (H p).
Qed.

(** What a reader finds of a session that was started. *)
Lemma new_server_read (session : bytes) (command : list bytes) (ep : opty_endpoint)
    (w w' : world) (before waits : list deed) (server_path token log h : bytes) :
  (forall n, malloc_ok n = true) -> home = Some h -> (Byte.x0a ∉ h) -> (Byte.x00 ∉ h) ->
  Forall (fun a => Byte.x00 ∉ a) command -> line_ok (wd_cwd w) -> blen (wd_cwd w) < CWD_CAP ->
  new_server session command ep w w' before waits server_path token log ->
  exists i, opty_read_session_info malloc_ok home (Some session) (files (wd_fs w')) = Done i /\
    si_host i = host ep /\ si_port i = port ep /\ si_log i = log /\ si_control_token i = token /\
    stored_argv i = command /\ (si_cwd i = wd_cwd w \/ si_cwd i = [] /\ DGetcwd false ∈ before) /\
    opty_decode_graceful_input (si_graceful_input i) OPTY_MAX_GRACEFUL_INPUT =
      Done (cstr "/exit" ++ [Byte.x0a]) /\
    opty_is_session_name (Some session) = true.
Proof.
  intros Hm Hhome Hn Hz Hcmd Hcl Hcb [_ _ (q&Hq&->) [Htl Htok] Hlog (cwd&s&s'&Hcwd&Hfs&Hw&Hgrown)].
  rewrite (read_info_files session (files s')).
  2: { intros p Hp. eapply appended_lookup; [exact Hgrown|]. by eapply log_not_session. }
  pose proof Hw as Hw'. apply written_text in Hw' as (name&path&args&[= <-]&Hname&_&_&_&Hargc&_).
  assert (line_ok log /\ blen log < LOG_CAP) as [Hlog1 Hlog2].
  { unfold opty_session_log_path in Hlog. rewrite Hname in Hlog. cbn [negb] in Hlog.
    unfold opty_log_dir, home_path in Hlog. rewrite Hhome in Hlog.
    destruct h as [|hb h]; [by cbn [mbind outcome_bind] in Hlog|].
    unfold snprintf_fit in Hlog. destruct (_ <=? _); cbn [mbind outcome_bind] in Hlog; [done|].
    match type of Hlog with (if ?b then _ else _) = _ => destruct b eqn:Eb; [done|] end.
    injection Hlog as Hl. apply Z.leb_gt in Eb.
    assert (log = (hb :: h) ++ cstr "/.0pty/logs/" ++ session ++ cstr ".log") as ->.
    { rewrite <- Hl. cbn. by rewrite <- app_assoc. }
    split; [|by rewrite <- Hl].
    apply name_line_ok in Hname as (Hn1&Hz1&_). split_and!.
    - rewrite !not_elem_of_app. split_and!; [done|by apply (bool_decide_unpack _)|done|by apply (bool_decide_unpack _)].
    - rewrite !not_elem_of_app. split_and!; [done|by apply (bool_decide_unpack _)|done|by apply (bool_decide_unpack _)].
    - by rewrite !last_app. }
  destruct (print_port_digits q) as [Hdig Hpne]; [unfold OPTY_SESSION_PORT_BASE in Hq; lia|].
  assert (line_ok (print_dec q)) as Hpl by by apply (plain_line_ok is_digit).
  destruct (written_is_read malloc_ok home pid (Some session) (Endpoint OPTY_DEFAULT_HOST (print_dec q))
    log token command cwd s s') as (i&Hi&_&Hh&Hp&Hl&Hc&Ht&Hg&Hac&Hav); try done.
  - split.
    + repeat apply Forall_cons_2; try apply Forall_nil_2; [by apply (bool_decide_unpack _)|done..].
    + done.
    + done.
    + by vm_compute.
    + pose proof (print_port_length q). unfold OPTY_SESSION_PORT_BASE in Hq. cbn [port].
      unfold PORT_CAP. lia.
    + done.
    + unfold TOKEN_CAP, OPTY_MAX_TOKEN. lia.
  - destruct Hcwd as [->|[-> _]]; [done|]. by apply (bool_decide_unpack _).
  - destruct Hcwd as [->|[-> _]]; [done|by vm_compute].
  - exists i. split_and!; try done; [|by rewrite Hc].
    unfold stored_argv. rewrite Hac, Nat2Z.id.
    apply list_eq. intros k. clear -Hav.
    assert (forall l j, (forall x, (j <= x)%nat -> si_argv i !! x = l !! (x - j)%nat) ->
      omap (fun k => si_argv i !! k) (seq j (length l)) = l) as Hl.
    { induction l as [|a l IH]; intros j H; [done|]. cbn [length seq omap list_omap].
      rewrite (H j), Nat.sub_diag by lia. cbn. f_equal. apply IH. intros x Hx. rewrite (H x) by lia.
      by replace (x - j)%nat with (S (x - S j)) by lia. }
    rewrite Hl; [done|]. intros x _. rewrite Nat.sub_0_r. apply Hav.
Qed.

(** Starting or attaching to a session, on every branch. *)
Definition start_end (session : bytes) (command : list bytes) (w : world) (rc : Z) (w' : world) : Prop :=
  (rc = 0 \/ rc = 1) /\ start_files session w w' /\
  ((exists ep m, opty_read_session_endpoint home (Some session) 128 16 (files (wd_fs w)) = Done ep /\
      moved [DConnect ep true; DSay m; DAttach ep None false] w w') \/
   (rc = 1 /\ exists ds, wd_did w' = wd_did w ++ ds /\ Forall harmless ds) \/
   (exists ep before waits server_path token log,
      new_server session command ep w w' before waits server_path token log /\
      (rc = 1 /\ Forall (waiting ep) waits \/
       exists polls m, waits = polls ++ [DConnect ep true; DSay m; DAttach ep None false] /\
         Forall (waiting ep) polls))).

Lemma start_files_moved (session : bytes) (ds : list deed) (w w1 w2 : world) :
  start_files session w w1 -> moved ds w1 w2 -> start_files session w w2.
Proof. intros H [Hf _ _]. eapply start_files_then; [exact H|by rewrite Hf]. Qed.

(** The new session, then the client. *)
Lemma start_new_attach (argv0 : option bytes) (session : bytes) (command : list bytes)
    (first : list deed) (w w1 : world) :
  moved first w w1 -> Forall harmless first ->
  cwp (r ← start_new malloc_ok home pid argv0 session command;
       match r with Some ep => attach_client malloc_ok ep None None false | None => mret 1 end)
    (start_end session command w) w1.
Proof.
  intros [F1 C1 D1] Hfirst. apply cwp_bind. eapply cwp_mono; [apply start_new_ok|].
  intros r w2 [Ho Hr].
  assert (start_files session w w2) as Ho' by (unfold start_files in *; by rewrite F1 in Ho).
  destruct Hr as [(->&ds&Hd&Hh)|(ep&before&waits&sp&token&log&[]&Hw&Hr)].
  { apply cwp_ret. split; [by right|]. split; [done|]. right; left. split; [done|].
    exists (first ++ ds). rewrite Hd, D1, app_assoc. split; [done|by apply Forall_app]. }
  assert (forall w3 ds, moved ds w2 w3 ->
    new_server session command ep w w3 (first ++ before) (waits ++ ds) sp token log) as Hns.
  { intros w3 ds [F3 C3 D3]. split; try done.
    - rewrite D3, ns_did0, D1, C1. by rewrite <- !app_assoc.
    - by apply Forall_app.
    - destruct ns_file0 as (cwd&s&s'&Hcwd&?&?&?). exists cwd, s, s'. rewrite <- C1, F3, <- F1.
      split_and!; [|done..]. destruct Hcwd as [?|[??]]; [by left|right]. set_solver. }
  destruct Hr as [->|(->&b&m&->)].
  - apply cwp_ret. split; [by right|]. split; [done|]. right; right.
    exists ep, (first ++ before), waits, sp, token, log. split; [|by left].
    rewrite <- (app_nil_r waits). apply Hns, moved_refl.
  - eapply cwp_mono; [apply attach_ok|]. intros rc w3 [Hrc H3]. split; [done|].
    split; [by eapply start_files_moved|]. right; right.
    exists ep, (first ++ before), (b ++ [DConnect ep true; DSay m; DAttach ep None false]), sp, token, log.
    split; [|right; exists b, m; split; [done|by apply Forall_app in Hw as [? _]]].
    specialize (Hns w3 _ H3). by rewrite <- app_assoc in Hns.
Qed.

Lemma start_ok (argv0 : option bytes) (session : bytes) (command : list bytes) (w : world) :
  cwp (run_named_start malloc_ok home pid argv0 session command) (start_end session command w) w.
Proof.
  unfold run_named_start. destruct (negb _).
  { apply cwp_bind, cwp_say. intros w1 [F1 C1 D1] _ _. apply cwp_ret. split; [by right|].
    split; [apply start_files_same; by rewrite F1|]. right; left. split; [done|].
    eexists. split; [exact D1|by apply Forall_cons_2]. }
  apply cwp_bind. unfold cwp at 1, get_files. apply cwp_bind, cwp_lift; [apply read_endpoint_defined|].
  destruct (opty_read_session_endpoint _ _ _ _ _) as [ep|e|] eqn:Hf; [| |done].
  - apply cwp_bind. eapply cwp_mono; [apply accepts_ok|]. intros [] w1 [H1 _].
    + apply cwp_bind, cwp_say. intros w2 H2 _ _. eapply cwp_mono; [apply attach_ok|].
      intros rc w3 [Hrc H3].
      assert (exists m, moved [DConnect ep true; DSay m; DAttach ep None false] w w3) as [m Hm].
      { eexists. eapply moved_then; [exact H1|eapply moved_then; [exact H2|exact H3|reflexivity]|reflexivity]. }
      split; [done|]. split; [apply start_files_same; by rewrite (mv_fs _ _ _ Hm)|]. left. by exists ep, m.
    + apply (start_new_attach argv0 session command [DConnect ep false]); [done|by apply Forall_cons_2].
  - apply cwp_bind, cwp_ret. apply (start_new_attach argv0 session command []); [apply moved_refl|constructor].
Qed.

(** [C16] A session file describes the server that was started with it.  Let there be memory,
    a home directory without line ends, a command without NUL bytes, and a working
    directory without line ends and shorter than the reader's field (with a line end in
    it, see Session.cwd_newline_forges_token).  [0pty NAME start] either attaches to the
    server that already listens where the session's file says; or fails without starting
    or attaching anything; or starts one server, on a free port of the local host, and
    the session file then gives a reader the endpoint it was bound to, the token it was
    given, the log it writes and the command it runs, so that [connect], [stop] and
    [restart] deal with that server; the client attaches only once the server accepts
    connections.  Of the files only the session's own is replaced, or left beside a new
    temporary file that could not be removed, and only the session's log grows
    ([start_files]). *)
Theorem start_records_server (argv0 : option bytes) (session h : bytes) (command : list bytes)
    (w : world) :
  (forall n, malloc_ok n = true) -> home = Some h -> (Byte.x0a ∉ h) -> (Byte.x00 ∉ h) ->
  Forall (fun a => Byte.x00 ∉ a) command -> line_ok (wd_cwd w) -> blen (wd_cwd w) < CWD_CAP ->
  exists rc w', run_named_start malloc_ok home pid argv0 session command w = Some (rc, w') /\
    (rc = 0 \/ rc = 1) /\ start_files session w w' /\
    ((exists ep m, opty_read_session_endpoint home (Some session) 128 16 (files (wd_fs w)) = Done ep /\
        moved [DConnect ep true; DSay m; DAttach ep None false] w w') \/
     (rc = 1 /\ exists ds, wd_did w' = wd_did w ++ ds /\ Forall harmless ds) \/
     (exists ep before waits server_path token log i,
        wd_did w' = wd_did w ++ before ++
          DSpawn (server_argv server_path (endpoint_text ep) command) (Some token) log (wd_cwd w) :: waits /\
        Forall harmless before /\
        opty_read_session_info malloc_ok home (Some session) (files (wd_fs w')) = Done i /\
        si_host i = host ep /\ si_port i = port ep /\ si_control_token i = token /\
        si_log i = log /\ stored_argv i = command /\
        (rc = 1 /\ Forall (waiting ep) waits \/
         exists polls m, waits = polls ++ [DConnect ep true; DSay m; DAttach ep None false] /\
           Forall (waiting ep) polls))).
Proof.
  intros Hm Hh Hhn Hhz Hcmd Hcl Hcb.
  set (found := opty_read_session_endpoint home (Some session) 128 16 (files (wd_fs w))).
  apply cwp_run. eapply cwp_mono; [apply start_ok|]. cbv beta. fold found.
  intros rc w' (Hrc&Ho&[(ep&m&Hf&Hmv)|[Hdone|Hnew]]); (split; [done|]); (split; [done|]);
    [left; by exists ep, m|by right; left|right; right].
  destruct Hnew as (ep&before&waits&sp&token&log&Hns&Hend).
  destruct (new_server_read session command ep w w' before waits sp token log h Hm Hh Hhn Hhz Hcmd Hcl Hcb Hns)
    as (i&Hi&?&?&?&?&?&_). destruct Hns.
  exists ep, before, waits, sp, token, log, i. by split_and!.
Qed.

End Start.

(** ** A concrete start *)

Module DemoStart.

Definition any_size : Z -> bool := fun _ => true.
Definition demo_home : bytes := cstr "/home/me".

(** An empty home, sixty-four zero bytes of randomness, and the kernel's [answers]. *)
Definition desk (fs : fsys) (answers : list answer) : world :=
  World fs (Stream [RData (replicate 64 Byte.x00)] [] [] false) (cstr "/work") 0
    (quiet_client []) answers [].

Definition up : answer := AConnect (Some [Connected (Stream [] [] [] false)]).
Definition down : answer := AConnect None.

(** The first port is taken; the server needs one pause before it listens. *)
Definition world0 : world :=
  desk (Fsys ∅ [])
    [ABind None; ABind (Some [BindOk]); AGetcwd true; AFork (Some 9) (LogOpened (cstr "ready")); down; AWait WRunning; up;
     ASession true true []].

Definition start0 : option (Z * world) :=
  run_named_start any_size (Some demo_home) 7 (Some (cstr "/usr/bin/0pty")) (cstr "dev") [cstr "bash"] world0.

Definition ports : list bytes := [print_dec OPTY_SESSION_PORT_BASE; print_dec (OPTY_SESSION_PORT_BASE + 1)].

Definition ep0 : opty_endpoint := Endpoint OPTY_DEFAULT_HOST (nth 1 ports []).

Example start0_did :
  (fun r => (fst r, wd_did (snd r))) <$> start0 =
  Some (0, [DBind (Endpoint OPTY_DEFAULT_HOST (nth 0 ports [])) false; DBind ep0 true; DGetcwd true;
            DSpawn (server_argv (cstr "/usr/bin/0pty-server") (endpoint_text ep0) [cstr "bash"])
              (Some (replicate 64 (z2b 48))) (cstr "/home/me/.0pty/logs/dev.log") (cstr "/work");
            DConnect ep0 false; DConnect ep0 true;
            DSay (cstr "started 0pty session dev on " ++ endpoint_text ep0 ++
                  cstr "; log: /home/me/.0pty/logs/dev.log");
            DAttach ep0 None false]).
Proof. vm_compute. reflexivity. Qed.

Lemma start_records_server_witness :
  exists rc w', run_named_start any_size (Some demo_home) 7 (Some (cstr "/usr/bin/0pty")) (cstr "dev")
    [cstr "bash"] world0 = Some (rc, w') /\ (rc = 0 \/ rc = 1) /\
    start_files (Some demo_home) 7 (cstr "dev") world0 w'.
Proof.
  destruct (start_records_server any_size (Some demo_home) 7 (Some (cstr "/usr/bin/0pty")) (cstr "dev")
    demo_home [cstr "bash"] world0) as (rc&w'&H1&H2&H3&_); [done|done|..].
  - by apply (bool_decide_unpack _).
  - by apply (bool_decide_unpack _).
  - apply Forall_cons_2; [by apply (bool_decide_unpack _)|constructor].
  - split_and!; [by apply (bool_decide_unpack _)..|done].
  - by vm_compute.
  - exact (ex_intro _ rc (ex_intro _ w' (conj H1 (conj H2 H3)))).
Defined.

End DemoStart.
