(* ===== verification/StopProps.v ===== *)
(** * What stop, restart and connect guarantee (src/src/client.c: run_named_stop,
    run_named_restart, run_named_connect)

    A stop is reported only when the server is gone, and its token goes to the endpoint
    of the session only; a restart never replaces a session that is alive, and starts
    what the session's file says, where it says. *)

From stdpp Require Import gmap.
From S2P Require Import Prelude.
From S2P Require Import Io.
From S2P Require Import Wire.
From S2P Require Import Messages.
From S2P Require Import Endpoint.
From S2P Require Import Text.
From S2P Require Import Session.
From S2P Require Import Consume.
From S2P Require Import Client.
From S2P Require Import ClientSpec.
From S2P Require Import ClientProps.
From S2P Require Import Probe.
From S2P Require Import Terminal.
From S2P Require Import Commands.
From S2P Require Import CommandSpec.
From S2P Require Import CommandProps.

Lemma log_path_not_empty (home session : option bytes) (cap : Z) (l : bytes) :
  opty_session_log_path home session cap = Done l -> l <> [].
Proof.
  unfold opty_session_log_path, opty_log_dir, snprintf_fit. case_match; [done|].
  destruct (home_path _ _ _); cbn [mbind outcome_bind]; [|done..]. case_match; [done|].
  intros [= <-] He. apply app_nil in He as [_ He]. done.
Qed.

Lemma waiting_harmless (ep : opty_endpoint) (ds : list deed) : Forall (waiting ep) ds -> Forall harmless ds.
Proof. intros H. eapply Forall_impl; [exact H|]. by intros []. Qed.

Definition session_endpoint (i : opty_session_info) : opty_endpoint := Endpoint (si_host i) (si_port i).

Section StopRestart.

Variable malloc_ok : Z -> bool.
Variable home : option bytes.

(** ** restart *)

Lemma chdir_ok (d : bytes) (w : world) :
  cwp (chdir d) (fun b w' => wd_fs w' = wd_fs w /\ wd_did w' = wd_did w ++ [DChdir d b] /\
    wd_cwd w' = if b : bool then d else wd_cwd w) w.
Proof.
  unfold chdir. apply cwp_bind, cwp_ask. intros a w1 [F1 C1 D1] _ _. rewrite app_nil_r in D1.
  assert (cwp (did (DChdir d false);; mret false) (fun b w' => wd_fs w' = wd_fs w /\
    wd_did w' = wd_did w ++ [DChdir d b] /\ wd_cwd w' = if b : bool then d else wd_cwd w) w1) as Hno.
  { apply cwp_bind, cwp_did. intros w2 [F2 C2 D2] _ _. apply cwp_ret. split_and!; congruence. }
  destruct a as [[| | | | | |[]| | | | |]|]; try exact Hno.
  apply cwp_bind. unfold cwp at 1, put_cwd. apply cwp_bind, cwp_did. intros w2 [F2 C2 D2] _ _.
  apply cwp_ret. cbn in *. split_and!; congruence.
Qed.

(** The way back to the directory the command was called in. *)
Definition way_back (d : option bytes) : cmdM unit :=
  match d with Some d => chdir d;; mret tt | None => mret tt end.

Lemma way_back_ok (d : option bytes) (w : world) :
  cwp (way_back d) (fun _ w' => wd_fs w' = wd_fs w /\ exists ds, wd_did w' = wd_did w ++ ds /\
    Forall harmless ds /\
    (forall x, d = Some x -> wd_cwd w' = x \/ DChdir x false ∈ ds) /\ (d = None -> ds = [])) w.
Proof.
  destruct d as [d|]; unfold way_back.
  - apply cwp_bind. eapply cwp_mono; [apply chdir_ok|]. intros b w' (Hf&Hd&Hc). apply cwp_ret.
    split; [done|]. exists [DChdir d b]. split_and!; [done|by apply Forall_cons_2| |done].
    intros x [= <-]. destruct b; [by left|]. right. set_solver.
  - apply cwp_ret. split; [done|]. exists []. rewrite app_nil_r. by split_and!.
Qed.

(** What a restart did when it came as far as starting the server; of the files only the
    server's log may have grown. *)
Definition restarted (session : bytes) (i : opty_session_info) (rc : Z) (w w' : world)
    (ds : list deed) : Prop :=
  exists d1 server_path log d2,
    ds = DConnect (session_endpoint i) false :: d1 ++
      DSpawn (server_argv server_path (endpoint_text (session_endpoint i)) (stored_argv i))
        (child_token (Some (si_control_token i))) log
        (if bool_decide (si_cwd i = []) then wd_cwd w else si_cwd i) :: d2 /\
    Forall harmless d1 /\ appended log (files (wd_fs w)) (files (wd_fs w')) /\
    (if bool_decide (si_log i = []) then opty_session_log_path home (Some session) 512 = Done log
     else log = si_log i) /\
    (rc = 1 /\ Forall harmless d2 \/
     exists p1 m p2, d2 = p1 ++ [DConnect (session_endpoint i) true; DSay m] ++ p2 ++
         [DAttach (session_endpoint i) None false] /\
       Forall harmless p1 /\ Forall harmless p2).

Definition restart_end (session : bytes) (w : world) (rc : Z) (w' : world) : Prop :=
  (rc = 0 \/ rc = 1) /\
  exists ds, wd_did w' = wd_did w ++ ds /\
    (wd_cwd w' = wd_cwd w \/ DGetcwd false ∈ ds \/ DChdir (wd_cwd w) false ∈ ds) /\
    (rc = 1 /\ Forall harmless ds /\ wd_fs w' = wd_fs w \/
     exists i, opty_read_session_info malloc_ok home (Some session) (files (wd_fs w)) = Done i /\
       restarted session i rc w w' ds).

(** Giving up without having started anything. *)
Lemma restart_stops (session : bytes) (ds : list deed) (m : cmdM Z) (w w1 : world) :
  wd_fs w1 = wd_fs w -> wd_cwd w1 = wd_cwd w -> wd_did w1 = wd_did w ++ ds -> Forall harmless ds ->
  cwp m (fun rc w' => rc = 1 /\ exists d, moved [d] w1 w' /\ harmless d) w1 ->
  cwp m (restart_end session w) w1.
Proof.
  intros Hf Hc Hd Hh Hm. eapply cwp_mono; [exact Hm|]. intros rc w2 (->&d&[F C D]&Hd1).
  split; [by right|]. exists (ds ++ [d]). split_and!.
  - by rewrite D, Hd, app_assoc.
  - left. congruence.
  - left. split; [done|]. split; [|congruence]. apply Forall_app. split; [done|by apply Forall_cons_2].
Qed.

Lemma say_stop (msg : bytes) (w : world) :
  cwp (say msg;; mret 1) (fun rc w' => rc = 1 /\ exists d, moved [d] w w' /\ harmless d) w.
Proof. apply cwp_bind, cwp_say. intros w' H _ _. apply cwp_ret. split; [done|]. by exists (DSay msg). Qed.

Lemma perror_stop (msg : bytes) (w : world) :
  cwp (perror msg;; mret 1) (fun rc w' => rc = 1 /\ exists d, moved [d] w w' /\ harmless d) w.
Proof. apply cwp_bind, cwp_perror. intros w' H _ _. apply cwp_ret. split; [done|]. by exists (DPerror msg). Qed.

(** The part of a restart in the session's directory. *)
Lemma restart_there (argv0 : option bytes) (session : bytes) (i : opty_session_info)
    (current : option bytes) (d1 : list deed) (log : bytes) (w w1 : world) :
  opty_read_session_info malloc_ok home (Some session) (files (wd_fs w)) = Done i ->
  wd_fs w1 = wd_fs w -> wd_did w1 = wd_did w ++ DConnect (session_endpoint i) false :: d1 ->
  Forall harmless d1 -> wd_cwd w1 = (if bool_decide (si_cwd i = []) then wd_cwd w else si_cwd i) ->
  (current = Some (wd_cwd w) \/ DGetcwd false ∈ d1) ->
  (if bool_decide (si_log i = []) then opty_session_log_path home (Some session) 512 = Done log
   else log = si_log i) ->
  cwp (rc ← opty_spawn_server malloc_ok argv0 session (session_endpoint i) log
              (child_token (Some (si_control_token i))) (stored_argv i);
       if rc <? 0 then perror (cstr "restart 0pty session");; way_back current;; mret 1
       else way_back current;; attach_client malloc_ok (session_endpoint i) None None false)
    (restart_end session w) w1.
Proof.
  intros Hi Hf Hd Hh Hc Hcur Hlog. set (ep := session_endpoint i) in *.
  assert (forall t, child_token (child_token t) = child_token t) as Htok by (by intros [[]|]).
  assert (forall (b : bytes) (x y z u : list deed) w2 w3,
    (forall x, current = Some x -> wd_cwd w3 = x \/ DChdir x false ∈ u) -> wd_cwd w2 = wd_cwd w3 ->
    wd_cwd w2 = wd_cwd w \/ DGetcwd false ∈ (x ++ d1 ++ y ++ u ++ z) \/
      DChdir (wd_cwd w) false ∈ (x ++ d1 ++ y ++ u ++ z)) as Hcwd.
  { intros _ x y z u w2 w3 Hback Heq. destruct Hcur as [Hcur|Hcur]; [|right; left; set_solver].
    rewrite Heq. destruct (Hback _ Hcur) as [?|?]; [by left|right; right; set_solver]. }
  apply cwp_bind. eapply cwp_mono; [apply spawn_server_ok|].
  intros rc w2 [(->&H2&_)|(ds&sp&waits&H2&_&Hw&_&->&Hrc)].
  - cbn [Z.ltb Z.compare]. apply cwp_bind, cwp_perror. intros w3 H3 _ _. apply cwp_bind.
    eapply cwp_mono; [apply way_back_ok|]. intros [] w4 (Hf4&u&Hd4&Hu&Hb&_). apply cwp_ret.
    destruct H2 as [F2 C2 D2], H3 as [F3 C3 D3]. split; [by right|].
    exists ([DConnect ep false] ++ d1 ++ [DPerror (cstr "restart 0pty session")] ++ u ++ []). split_and!.
    + rewrite Hd4, D3, D2, Hd, app_nil_r, app_nil_r. by rewrite <- !app_assoc.
    + by apply (Hcwd [] _ _ _ _ w4 w4).
    + left. split; [done|]. split; [|congruence]. repeat (apply Forall_app; split); try done; by apply Forall_cons_2.
  - pose proof (waiting_harmless _ _ Hw) as Hwh. rewrite Htok, Hc in H2.
    set (sd := DSpawn _ _ _ _) in *.
    destruct Hrc as [->|(->&b&m&->)]; cbn [Z.ltb Z.compare].
    + apply cwp_bind, cwp_perror. intros w3 H3 _ _. apply cwp_bind.
      eapply cwp_mono; [apply way_back_ok|]. intros [] w4 (Hf4&u&Hd4&Hu&Hb&_). apply cwp_ret.
      destruct H2 as [F2 C2 D2], H3 as [F3 C3 D3]. split; [by right|].
      exists ([DConnect ep false] ++ d1 ++ (sd :: waits ++ [DPerror (cstr "restart 0pty session")]) ++ u ++ []).
      split_and!.
      * rewrite Hd4, D3, D2, Hd, app_nil_r. cbn. by repeat (rewrite <- app_assoc; cbn).
      * by apply (Hcwd [] _ _ _ _ w4 w4).
      * right. exists i. split; [done|]. exists d1, sp, log, (waits ++ [DPerror (cstr "restart 0pty session")] ++ u).
        split_and!; [|done|by rewrite Hf4, F3, <- Hf|done|left; split; [done|]].
        -- cbn. by rewrite app_nil_r, <- app_assoc.
        -- repeat (apply Forall_app; split); try done; by apply Forall_cons_2.
    + apply cwp_bind. eapply cwp_mono; [apply way_back_ok|]. intros [] w3 (Hf3&u&Hd3&Hu&Hb&_).
      eapply cwp_mono; [apply attach_ok|]. intros rc w4 [Hrc [F4 C4 D4]].
      destruct H2 as [F2 C2 D2]. split; [done|].
      exists ([DConnect ep false] ++ d1 ++ (sd :: b ++ [DConnect ep true; DSay m]) ++ u ++ [DAttach ep None false]).
      split_and!.
      * rewrite D4, Hd3, D2, Hd. cbn. by repeat (rewrite <- app_assoc; cbn).
      * by apply (Hcwd [] _ _ _ _ w4 w3).
      * right. exists i. split; [done|]. exists d1, sp, log, (b ++ [DConnect ep true; DSay m] ++ u ++ [DAttach ep None false]).
        split_and!; [|done|by rewrite F4, Hf3, <- Hf|done|right; exists b, m, u; split_and!; [done| |done]].
        -- cbn. by rewrite <- app_assoc.
        -- by apply Forall_app in Hwh as [? _].
Qed.

(** Changing to the stored directory, if there is one. *)
Lemma enter_ok (dir : bytes) (w : world) :
  cwp (if bool_decide (dir = []) then mret true else chdir dir) (fun b w' =>
    wd_fs w' = wd_fs w /\ exists ds, wd_did w' = wd_did w ++ ds /\ Forall harmless ds /\
    wd_cwd w' = if b : bool then (if bool_decide (dir = []) then wd_cwd w else dir) else wd_cwd w) w.
Proof.
  case_bool_decide.
  - apply cwp_ret. split; [done|]. exists []. by rewrite app_nil_r.
  - eapply cwp_mono; [apply chdir_ok|]. intros b w' (F&D&C). split; [done|].
    exists [DChdir dir b]. split_and!; [done|by apply Forall_cons_2|by destruct b].
Qed.

(** No log path: back to the directory the command was in, nothing started. *)
Lemma restart_no_log (session : bytes) (current : option bytes) (ds : list deed) (w w1 : world) :
  wd_fs w1 = wd_fs w -> wd_did w1 = wd_did w ++ ds -> Forall harmless ds ->
  (current = Some (wd_cwd w) \/ DGetcwd false ∈ ds) ->
  cwp (perror (cstr "session log path");; way_back current;; mret 1) (restart_end session w) w1.
Proof.
  intros F D Hh Hcur. apply cwp_bind, cwp_perror. intros w2 [F2 C2 D2] _ _. apply cwp_bind.
  eapply cwp_mono; [apply way_back_ok|]. intros [] w3 (F3&u&D3&Hu&Hb&_). apply cwp_ret.
  split; [by right|].
  exists (ds ++ DPerror (cstr "session log path") :: u). split_and!.
  - rewrite D3, D2, D. by repeat (rewrite <- app_assoc; cbn).
  - destruct Hcur as [Hc|Hd]; [|right; left; set_solver].
    destruct (Hb _ Hc) as [?|?]; [by left|right; right; set_solver].
  - left. split; [done|]. split; [|congruence]. apply Forall_app. split; [done|by apply Forall_cons_2].
Qed.

Lemma restart_ok (argv0 : option bytes) (session : bytes) (w : world) :
  cwp (run_named_restart malloc_ok home argv0 session) (restart_end session w) w.
Proof.
  assert (forall m : cmdM Z, cwp m (fun rc w' => rc = 1 /\ exists d, moved [d] w w' /\ harmless d) w ->
    cwp m (restart_end session w) w) as Hstop.
  { intros m Hm. by apply (restart_stops session [] m w w); [..|rewrite app_nil_r| |]. }
  unfold run_named_restart. destruct (negb _); [apply Hstop, say_stop|].
  apply cwp_bind. unfold cwp at 1, get_files. apply cwp_bind, cwp_lift; [apply read_info_defined|].
  destruct (opty_read_session_info _ _ _ _) as [i|e|] eqn:Hi; [|apply Hstop, say_stop|done].
  destruct (_ =? 0); [apply Hstop, say_stop|]. apply cwp_bind. eapply cwp_mono; [apply accepts_ok|].
  fold (session_endpoint i). intros up w1 [[F1 C1 D1] _]. destruct up.
  { apply (restart_stops session [DConnect (session_endpoint i) true]); try done; [|apply say_stop].
    by apply Forall_cons_2. }
  apply cwp_bind. eapply cwp_mono; [apply getcwd_ok|]. intros current w2 [Hcur [F2 C2 D2]].
  cbv zeta. fold (way_back current). set (d0 := DGetcwd (bool_decide (is_Some current))) in *.
  assert (current = Some (wd_cwd w) \/ d0 = DGetcwd false) as Hcur'.
  { destruct Hcur as [->| ->]; [left; by rewrite C1|by right]. }
  apply cwp_bind. eapply cwp_mono; [apply enter_ok|]. intros moved w3 (F3&d1&D3&Hd1&C3).
  rewrite D2, D1, <- !app_assoc in D3. cbn in D3. rewrite C2, C1 in C3.
  assert (wd_fs w3 = wd_fs w) as F by congruence.
  set (ds := DConnect (session_endpoint i) false :: d0 :: d1) in *.
  assert (Forall harmless ds) as Hh by by repeat apply Forall_cons_2.
  assert (current = Some (wd_cwd w) \/ DGetcwd false ∈ d0 :: d1) as Hc
    by (destruct Hcur' as [|Hd0]; [by left|right; rewrite Hd0; set_solver]).
  destruct moved; cbn [negb]; [|by apply (restart_stops session _ _ _ _ F C3 D3 Hh), perror_stop].
  apply Forall_inv_tail in Hh as Hh1.
  pose proof (fun log => restart_there argv0 session i current (d0 :: d1) log w w3 Hi F D3 Hh1 C3 Hc) as Hgo.
  apply cwp_bind. destruct (bool_decide (si_log i = [])) eqn:Hl; [|by apply cwp_ret, Hgo].
  apply cwp_lift; [apply log_path_defined|].
  destruct (opty_session_log_path _ _ _) as [log|e|] eqn:Hlog; [by apply Hgo| |done].
  apply (restart_no_log session current ds w w3 F D3 Hh). destruct Hc; [by left|right; set_solver].
Qed.

(** [C15] A restart brings back what was started, and never replaces what is alive.
    [0pty restart NAME] always ends, with status 0 or 1.  It starts no server unless the
    session's endpoint just refused a connection; then it starts one, with the command,
    the token and the log of the session's file, in the session's directory, on the
    session's endpoint; and it attaches only after that endpoint accepted a connection,
    back in the directory of the caller (unless the system refused that directory).  It
    changes no file, except that the log of a server it started may grow. *)
Theorem restart_runs_stored_session (argv0 : option bytes) (session : bytes) (w : world) :
  exists rc w', run_named_restart malloc_ok home argv0 session w = Some (rc, w') /\
    (rc = 0 \/ rc = 1) /\
    exists ds, wd_did w' = wd_did w ++ ds /\
      (wd_cwd w' = wd_cwd w \/ DGetcwd false ∈ ds \/ DChdir (wd_cwd w) false ∈ ds) /\
      (rc = 1 /\ Forall harmless ds /\ wd_fs w' = wd_fs w \/
       exists i, opty_read_session_info malloc_ok home (Some session) (files (wd_fs w)) = Done i /\
         restarted session i rc w w' ds).
Proof. apply cwp_run, restart_ok. Qed.

(** ** stop *)

Variable clock_ok : bool.

Definition message (d : deed) : Prop := exists m, d = DSay m.

(** The wait for the server's answer ends: a round uses up an answer of the kernel, or
    100 of the 7000 milliseconds. *)
Lemma stop_wait_ok (fuel : nat) (sock : stream) (k : Z) (w : world) :
  0 <= k -> Z.of_nat (length (wd_answers w)) + Z.max 0 (70 - k) + 1 <= Z.of_nat fuel ->
  cwp (stop_wait malloc_ok fuel sock (100 * k))
    (fun rc w' => (rc = 0 \/ rc = 1) /\ exists ds, moved ds w w' /\ Forall message ds) w.
Proof.
  assert (forall rc w w', (rc = 0 \/ rc = 1) -> moved [] w w' -> (rc = 0 \/ rc = 1) /\
    exists ds, moved ds w w' /\ Forall message ds) as Hend by (intros; split; [done|]; by exists []).
  revert k w. induction fuel as [|fuel IH]; intros k w Hk Hf; [lia|]. cbn [stop_wait].
  destruct (Z.leb_spec OPTY_STOP_WAIT_MS (100 * k)) as [|Hlt];
    [by apply cwp_ret, Hend; [left|apply moved_refl]|]. unfold OPTY_STOP_WAIT_MS in Hlt.
  apply cwp_bind, cwp_ask. intros a w1 H1 _ Ha.
  assert (forall w2 k', moved [] w1 w2 -> wd_answers w2 = wd_answers w1 -> 0 <= k' ->
    (a = None /\ k' = k + 1 \/ a <> None /\ (k' = k \/ k' = k + 1)) ->
    cwp (stop_wait malloc_ok fuel sock (100 * k'))
      (fun rc w' => (rc = 0 \/ rc = 1) /\ exists ds, moved ds w w' /\ Forall message ds) w2) as Hagain.
  { intros w2 k' H2 Ha2 Hk' Hc. eapply cwp_mono; [apply IH; [done|]|].
    - rewrite Ha2. rewrite Ha, length_app in Hf.
      destruct Hc as [[-> ->]|[Hs Hk2]]; [cbn in Hf; lia|]. destruct a; [cbn in Hf|done].
      destruct Hk2; lia.
    - intros rc w3 [Hrc (ds&H3&Hm)]. split; [done|]. exists ds. split; [|done].
      eapply moved_then; [exact H1|eapply moved_then; [exact H2|exact H3|done]|done]. }
  assert (cwp (opty_sleep_millis 100;; stop_wait malloc_ok fuel sock (100 * k + 100))
    (fun rc w' => (rc = 0 \/ rc = 1) /\ exists ds, moved ds w w' /\ Forall message ds) w1) as Hsleep.
  { apply cwp_bind, sleep_millis_ok. intros w2 H2 _ Ha2. replace (100 * k + 100) with (100 * (k + 1)) by lia.
    apply Hagain; [done|done|lia|]. destruct a; auto. }
  destruct a as [[| | | | | | |r| | | |]|]; try exact Hsleep. destruct r.
  - case_decide; [apply Hagain; [apply moved_refl|done|lia|by right; auto]|].
    apply cwp_ret, Hend; [by right|done].
  - exact Hsleep.
  - destruct (opty_recv_frame malloc_ok sock) as [[[f|]|e|] s'] eqn:E; try by apply cwp_ret, Hend; auto.
    + case_match; [|by apply cwp_ret, Hend; auto]. apply cwp_bind, cwp_say. intros w2 H2 _ _. apply cwp_ret.
      split; [by right|]. exists [DSay (f_payload f)]. split; [by eapply moved_then|].
      by apply Forall_cons_2; [eexists|].
    + by apply opty_recv_frame_limited_spec in E as [_ E].
  - apply cwp_ret, Hend; auto.
  - apply Hagain; [apply moved_refl|done|lia|by right; auto].
Qed.

Lemma stop_wait_main_ok (sock : stream) (w : world) :
  cwp (stop_wait_main malloc_ok sock)
    (fun rc w' => (rc = 0 \/ rc = 1) /\ exists ds, moved ds w w' /\ Forall message ds) w.
Proof. apply (stop_wait_ok (stop_fuel w) sock 0); [done|]. unfold stop_fuel. lia. Qed.

Definition probe_of (ep : opty_endpoint) (d : deed) : Prop := exists b, d = DProbe ep b.

(** Waiting for the server to go: probes, and "gone" only after one that found nothing. *)
Lemma wait_dead_ok (fuel : nat) (ep : opty_endpoint) (timeout waited : Z) (w : world) :
  cwp (wait_dead clock_ok fuel ep timeout waited)
    (fun rc w' => exists ds, moved ds w w' /\ Forall (probe_of ep) ds /\
       (rc = 0 /\ (exists before, ds = before ++ [DProbe ep false]) \/ rc = -1)) w.
Proof.
  assert (forall w, exists ds, moved ds w w /\ Forall (probe_of ep) ds /\
    (-1 = 0 /\ (exists before, ds = before ++ [DProbe ep false]) \/ -1 = -1)) as Hend.
  { intros w1. exists []. split_and!; [apply moved_refl|done|by right]. }
  revert waited w. induction fuel as [|fuel IH]; intros waited w; cbn [wait_dead]; [by apply cwp_ret|].
  destruct (_ <=? _); [|by apply cwp_ret]. apply cwp_bind.
  eapply cwp_mono; [apply accepts_timeout_ok|]. intros [] w1 H1; cbn [negb].
  - apply cwp_bind, sleep_millis_ok. intros w2 H2 _ _. eapply cwp_mono; [apply IH|].
    intros rc w3 (ds&H3&Hp&Hrc). exists (DProbe ep true :: ds). split_and!.
    + eapply moved_then; [exact H1|eapply moved_then; [exact H2|exact H3|done]|done].
    + by apply Forall_cons_2; [eexists|].
    + destruct Hrc as [[-> [b ->]]| ->]; [left; split; [done|]; by exists (DProbe ep true :: b)|by right].
  - apply cwp_ret. exists [DProbe ep false]. split_and!; [done|by apply Forall_cons_2; [eexists|]|].
    left. split; [done|]. by exists [].
Qed.

(** The fuel is enough: more of it changes nothing. *)
Lemma wait_dead_fuel (f1 f2 : nat) (ep : opty_endpoint) (timeout waited : Z) (w : world) :
  timeout / 100 - waited / 100 + 1 < Z.of_nat f1 -> timeout / 100 - waited / 100 + 1 < Z.of_nat f2 ->
  wait_dead clock_ok f1 ep timeout waited w = wait_dead clock_ok f2 ep timeout waited w.
Proof.
  revert f2 waited w. induction f1 as [|f1 IH]; intros [|f2] waited w H1 H2; [done| | |].
  1-2: cbn [wait_dead]; destruct (Z.leb_spec waited timeout) as [Hle|]; [|done];
    pose proof (Z.div_le_mono waited timeout 100 ltac:(lia) Hle); lia.
  cbn [wait_dead]. destruct (_ <=? _); [|done]. unfold mbind, cmd_bind.
  destruct (accepts_timeout _ _ _ _) as [[[] w1]|]; cbn [negb]; [|done..].
  destruct (opty_sleep_millis _ _) as [[[] w2]|]; [|done].
  replace (waited + 100) with (waited + 1 * 100) by lia. apply IH; rewrite Z.div_add; lia.
Qed.

(** What a stop did to the outside, given the session's file. *)
Definition stop_deeds (session : bytes) (i : opty_session_info) (rc : Z) (ds : list deed) : Prop :=
  let ep := session_endpoint i in
  si_control_token i <> [] /\
  ((exists m, ds = [DProbe ep false; DSay m]) /\ rc = 0 \/
   (exists m, ds = [DProbe ep true; m] /\ harmless m) /\ rc = 1 \/
   (exists m, ds = [DProbe ep true; DConnect ep false; m] /\ harmless m) /\ rc = 1 \/
   exists input sent after,
     opty_decode_graceful_input (si_graceful_input i) OPTY_MAX_GRACEFUL_INPUT = Done input /\
     ds = DProbe ep true :: DConnect ep true :: DSend ep sent :: after /\
     sent `prefix_of` stop_frame (si_control_token i) input /\ Forall harmless after /\
     (rc = 1 \/ rc = 0 /\ sent = stop_frame (si_control_token i) input /\
        exists before m, after = before ++ [DProbe ep false; DSay m])).

Definition stop_end (session : bytes) (w : world) (rc : Z) (w' : world) : Prop :=
  exists ds, moved ds w w' /\
    ((rc = 1 /\ exists m, ds = [DSay m]) \/
     exists i, opty_read_session_info malloc_ok home (Some session) (files (wd_fs w)) = Done i /\
       stop_deeds session i rc ds).

Lemma message_harmless (ds : list deed) : Forall message ds -> Forall harmless ds.
Proof. intros H. eapply Forall_impl; [exact H|]. by intros d [m ->]. Qed.

Lemma probes_harmless (ep : opty_endpoint) (ds : list deed) : Forall (probe_of ep) ds -> Forall harmless ds.
Proof. intros H. eapply Forall_impl; [exact H|]. by intros d [m ->]. Qed.

(** The end of a stop whose request was sent. *)
Definition stop_after (session : bytes) (ep : opty_endpoint) (sock : stream) : cmdM Z :=
  status ← stop_wait_main malloc_ok sock;
  status ← (if status =? 0 then
              dead ← opty_wait_endpoint_dead clock_ok ep OPTY_STOP_WAIT_MS;
              if dead <? 0 then
                say (cstr "sent stop request for " ++ session ++
                     cstr ", but it is still listening on " ++ endpoint_text ep);;
                mret 1
              else mret 0
            else mret status);
  (if status =? 0 then say (cstr "stopped 0pty session " ++ session) else mret tt);;
  mret status.

Lemma stop_after_ok (session : bytes) (ep : opty_endpoint) (sock : stream) (w : world) :
  cwp (stop_after session ep sock)
    (fun rc w' => exists after, moved after w w' /\ Forall harmless after /\
       (rc = 1 \/ rc = 0 /\ exists before m, after = before ++ [DProbe ep false; DSay m])) w.
Proof.
  unfold stop_after. apply cwp_bind. eapply cwp_mono; [apply stop_wait_main_ok|].
  intros rc w1 [Hrc (d1&H1&Hm1)]. apply message_harmless in Hm1.
  assert (forall w2 d2, moved d2 w1 w2 -> Forall harmless d2 ->
    cwp ((if 1 =? 0 then say (cstr "stopped 0pty session " ++ session) else mret tt);; mret 1)
      (fun rc w' => exists after, moved after w w' /\ Forall harmless after /\
         (rc = 1 \/ rc = 0 /\ exists before m, after = before ++ [DProbe ep false; DSay m])) w2) as Hfail.
  { intros w2 d2 H2 Hd2. apply cwp_bind, cwp_ret, cwp_ret. exists (d1 ++ d2).
    split_and!; [by eapply moved_trans|by apply Forall_app|by left]. }
  destruct Hrc as [->| ->]; [|apply cwp_bind, cwp_ret; by apply (Hfail w1 []); [apply moved_refl|]].
  apply cwp_bind, cwp_bind. eapply cwp_mono; [apply wait_dead_ok|].
  intros rc w2 (d2&H2&Hp&Hrc). pose proof (probes_harmless _ _ Hp) as Hh2.
  destruct Hrc as [[-> [b ->]]| ->]; cbn [Z.ltb Z.compare].
  - apply cwp_ret, cwp_bind, cwp_say. intros w3 H3 _ _. apply cwp_ret.
    set (m := cstr "stopped 0pty session " ++ session) in *.
    exists (d1 ++ (b ++ [DProbe ep false]) ++ [DSay m]). split_and!.
    + eapply moved_then; [exact H1|eapply moved_trans; [exact H2|exact H3]|done].
    + repeat (apply Forall_app; split); try done; [by apply Forall_app in Hh2 as [? _]|by apply Forall_cons_2..].
    + right. split; [done|]. exists (d1 ++ b), m. by rewrite <- !app_assoc.
  - apply cwp_bind, cwp_say. intros w3 H3 _ _. apply cwp_ret. eapply (Hfail w3 (d2 ++ [DSay _])).
    + by eapply moved_trans.
    + apply Forall_app. split; [done|by apply Forall_cons_2].
Qed.

Lemma stop_ok (session : bytes) (w : world) :
  cwp (run_named_stop malloc_ok clock_ok home session) (stop_end session w) w.
Proof.
  assert (forall msg, cwp (say msg;; mret 1) (stop_end session w) w) as Hsay.
  { intros msg. apply cwp_bind, cwp_say. intros w1 H1 _ _. apply cwp_ret. exists [DSay msg].
    split; [done|]. left. eauto. }
  unfold run_named_stop. destruct (negb _); [apply Hsay|].
  apply cwp_bind. unfold cwp at 1, get_files. apply cwp_bind, cwp_lift; [apply read_info_defined|].
  destruct (opty_read_session_info _ _ _ _) as [i|e|] eqn:Hi; [|apply Hsay|done].
  case_bool_decide as Ht; [apply Hsay|]. fold (session_endpoint i). set (ep := session_endpoint i) in *.
  assert (forall rc w' ds, moved ds w w' -> stop_deeds session i rc ds -> stop_end session w rc w') as Hend.
  { intros rc w' ds Hm Hd. exists ds. split; [done|]. right. by exists i. }
  apply cwp_bind. eapply cwp_mono; [apply accepts_timeout_ok|]. intros [] w1 H1; cbn [negb].
  2: { apply cwp_bind, cwp_say. intros w2 H2 _ _. apply cwp_ret. eapply Hend; [by eapply moved_trans|].
       split; [done|]. left. split; [|done]. eexists. reflexivity. }
  pose proof (decode_graceful_defined (si_graceful_input i) OPTY_MAX_GRACEFUL_INPUT) as Hdef.
  destruct (opty_decode_graceful_input _ _) as [input|e|] eqn:Hg; [| |done].
  2: { apply cwp_bind, cwp_perror. intros w2 H2 _ _. apply cwp_ret. eapply Hend; [by eapply moved_trans|].
       split; [done|]. right; left. split; [|done]. eexists. split; [reflexivity|done]. }
  apply cwp_bind. eapply cwp_mono; [apply do_connect_ok|]. intros sock w2 [H2 _].
  destruct sock as [s|].
  2: { apply cwp_bind, cwp_perror. intros w3 H3 _ _. apply cwp_ret.
       eapply Hend; [eapply moved_trans; [exact H1|by eapply moved_trans]|].
       split; [done|]. right; right; left. split; [|done]. eexists. split; [reflexivity|done]. }
  destruct (send_control_ok (si_control_token i) input s) as (r&s'&->&Hr&_).
  change (bool_decide (is_Some (Some s))) with true in H2.
  assert (exists sent, drop (length (out s)) (out s') = sent /\
    match r with Done _ => sent = stop_frame (si_control_token i) input
               | Fail _ => sent `prefix_of` stop_frame (si_control_token i) input | UB => False end)
    as (sent&Hs&Hsent).
  { eexists. split; [reflexivity|]. destruct r; [|destruct Hr as (p&Hr&Hp)|done];
      by rewrite Hr, drop_app_length. }
  destruct r as [[]|e|]; [| |done]; rewrite Hs; apply cwp_bind, cwp_did; intros w3 H3 _ _.
  - eapply cwp_mono; [apply (stop_after_ok session ep s' w3)|].
    intros rc w4 (after&H4&Hh&Hrc). eapply Hend.
    + eapply moved_trans; [exact H1|eapply moved_trans; [exact H2|by eapply moved_trans]].
    + split; [done|]. right; right; right. exists input, sent, after. subst sent. split_and!; try done.
      { by exists []; rewrite app_nil_r. } destruct Hrc as [|[??]]; [by left|by right].
  - apply cwp_bind, cwp_perror. intros w4 H4 _ _. apply cwp_ret. eapply Hend.
    + eapply moved_trans; [exact H1|eapply moved_trans; [exact H2|eapply moved_trans; [exact H3|exact H4]]].
    + split; [done|]. right; right; right. exists input, sent, [DPerror (cstr "send stop")].
      split_and!; try done; [by apply Forall_cons_2|by left].
Qed.

Lemma stop_status (session : bytes) (w : world) (rc : Z) (ds : list deed) :
  (rc = 1 /\ (exists m, ds = [DSay m])) \/
  (exists i, opty_read_session_info malloc_ok home (Some session) (files (wd_fs w)) = Done i /\
     stop_deeds session i rc ds) -> rc = 0 \/ rc = 1.
Proof.
  intros [[-> _]|(i&_&_&[[_ ->]|[[_ ->]|[[_ ->]|(?&?&?&_&_&_&_&[->|[-> _]])]]])]; auto.
Qed.

(** [C14] A stop tells the truth and goes to the right server.  [0pty NAME stop] always
    ends.  It sends nothing unless the session's file has a control token and the
    endpoint answered a probe; what it sends goes to that endpoint, and is the shutdown
    request with that token and the file's graceful input, whole or cut off by an error
    that is reported.  Status 0 means that the server was not there, or that the whole
    request was sent, and in both cases that the last probe found nothing listening. *)
Theorem stop_reports_truth (session : bytes) (w : world) :
  exists rc w' ds, run_named_stop malloc_ok clock_ok home session w = Some (rc, w') /\
    (rc = 0 \/ rc = 1) /\ moved ds w w' /\
    ((rc = 1 /\ exists m, ds = [DSay m]) \/
     exists i, opty_read_session_info malloc_ok home (Some session) (files (wd_fs w)) = Done i /\
       stop_deeds session i rc ds).
Proof.
  destruct (cwp_run _ _ _ (stop_ok session w)) as (rc&w'&Hw&ds&Hm&Hd). exists rc, w', ds.
  split_and!; [done|by eapply stop_status|done..].
Qed.

(** ** The commands on a session that was started *)

Lemma connect_recorded (session : bytes) (i : opty_session_info) (w : world) :
  opty_is_session_name (Some session) = true ->
  opty_read_session_info malloc_ok home (Some session) (files (wd_fs w)) = Done i ->
  cwp (run_named_connect malloc_ok home session)
    (fun rc w' => (rc = 0 \/ rc = 1) /\ moved [DAttach (session_endpoint i) None false] w w') w.
Proof.
  intros Hs Hi. unfold run_named_connect. rewrite Hs. cbn [negb].
  apply cwp_bind. unfold cwp at 1, get_files. apply cwp_bind, cwp_lift; [apply read_info_defined|].
  rewrite Hi. apply attach_ok.
Qed.

(** *** What the commands do when the system lets them *)

Lemma accepts_timeout_runs (ep : opty_endpoint) (timeout now' : Z) (resolve : nat)
    (res : option (list probe_attempt)) (alive : bool) (rest : list answer) (w : world) :
  wd_answers w = AProbe resolve res :: rest ->
  opty_endpoint_accepts_timeout resolve res timeout clock_ok (wd_now w) = (alive, now') ->
  accepts_timeout clock_ok ep timeout w =
    Some (alive, World (wd_fs w) (wd_random w) (wd_cwd w) now' (wd_cli w) rest (wd_did w ++ [DProbe ep alive])).
Proof.
  intros Ha He. unfold accepts_timeout, mbind, cmd_bind, ask. rewrite Ha. unfold get_now. cbn [wd_now].
  by rewrite He.
Qed.

Lemma do_connect_runs (ep : opty_endpoint) (res : option (list attempt)) (rest : list answer) (w : world) :
  wd_answers w = AConnect res :: rest ->
  do_connect ep w =
    Some (connect_endpoint res, World (wd_fs w) (wd_random w) (wd_cwd w) (wd_now w) (wd_cli w) rest
            (wd_did w ++ [DConnect ep (bool_decide (is_Some (connect_endpoint res)))])).
Proof. intros Ha. unfold do_connect, mbind, cmd_bind, ask. by rewrite Ha. Qed.

Lemma getcwd_runs (rest : list answer) (w : world) :
  wd_answers w = AGetcwd true :: rest ->
  getcwd w = Some (Some (wd_cwd w), World (wd_fs w) (wd_random w) (wd_cwd w) (wd_now w) (wd_cli w) rest
                                      (wd_did w ++ [DGetcwd true])).
Proof. intros Ha. unfold getcwd, mbind, cmd_bind, ask. rewrite Ha. done. Qed.

Lemma chdir_runs (d : bytes) (rest : list answer) (w : world) :
  wd_answers w = AChdir true :: rest ->
  chdir d w = Some (true, World (wd_fs w) (wd_random w) d (wd_now w) (wd_cli w) rest
                            (wd_did w ++ [DChdir d true])).
Proof. intros Ha. unfold chdir, mbind, cmd_bind, ask. rewrite Ha. done. Qed.

Lemma cwp_runs {A} (m : cmdM A) (a : A) (w w' : world) (Q : A -> world -> Prop) :
  m w = Some (a, w') -> Q a w' -> cwp m Q w.
Proof. intros He. unfold cwp. by rewrite He. Qed.

(** A server that answers the probe and takes the connection is sent the whole request. *)
Lemma stop_sends_whole (session input : bytes) (i : opty_session_info) (w : world) (resolve : nat)
    (res : option (list probe_attempt)) (res' : option (list attempt)) (s : stream)
    (rest : list answer) (now' : Z) :
  opty_is_session_name (Some session) = true ->
  opty_read_session_info malloc_ok home (Some session) (files (wd_fs w)) = Done i ->
  0 < blen (si_control_token i) <= OPTY_MAX_TOKEN ->
  opty_decode_graceful_input (si_graceful_input i) OPTY_MAX_GRACEFUL_INPUT = Done input ->
  blen input <= OPTY_MAX_GRACEFUL_INPUT ->
  wd_answers w = AProbe resolve res :: AConnect res' :: rest ->
  opty_endpoint_accepts_timeout resolve res OPTY_LIST_CONNECT_TIMEOUT_MS clock_ok (wd_now w) = (true, now') ->
  connect_endpoint res' = Some s -> healthy s ->
  cwp (run_named_stop malloc_ok clock_ok home session) (fun _ w' => exists ds,
    wd_did w' = wd_did w ++ ds /\
    DSend (session_endpoint i) (stop_frame (si_control_token i) input) ∈ ds) w.
Proof.
  intros Hn Hi Ht Hg Hb Ha Hp Hs Hh. unfold run_named_stop. rewrite Hn. cbn [negb].
  apply cwp_bind. unfold cwp at 1, get_files. apply cwp_bind, cwp_lift; [apply read_info_defined|].
  rewrite Hi. rewrite bool_decide_false by (intros He; rewrite He in Ht; by destruct Ht).
  fold (session_endpoint i). set (ep := session_endpoint i). apply cwp_bind.
  eapply cwp_runs; [by eapply accepts_timeout_runs|]. cbn [negb]. rewrite Hg.
  apply cwp_bind. eapply cwp_runs; [by eapply do_connect_runs|]. rewrite Hs.
  destruct (send_control_ok (si_control_token i) input s) as (r&s'&->&Hr&Hd).
  rewrite (Hd (proj2 Ht) Hb Hh) in *. apply cwp_bind, cwp_did. intros w3 H3 _ _.
  eapply cwp_mono; [apply (stop_after_ok session ep s' w3)|]. intros rc w4 (after&H4&_).
  exists ([DProbe ep true; DConnect ep true] ++
    [DSend ep (stop_frame (si_control_token i) input)] ++ after). split; [|set_solver].
  rewrite (mv_did _ _ _ H4), (mv_did _ _ _ H3), Hr, drop_app_length. cbn. by rewrite <- !app_assoc.
Qed.

(** A session whose endpoint refuses a connection is started again. *)
Lemma restart_spawns (argv0 : option bytes) (session : bytes) (i : opty_session_info) (w : world)
    (res : option (list attempt)) (p : Z) (child : child_log) (rest : list answer) :
  (forall n, malloc_ok n = true) -> opty_is_session_name (Some session) = true ->
  opty_read_session_info malloc_ok home (Some session) (files (wd_fs w)) = Done i ->
  si_argc i <> 0 -> si_cwd i <> [] -> si_log i <> [] -> blen (endpoint_text (session_endpoint i)) < 128 ->
  connect_endpoint res = None ->
  wd_answers w = AConnect res :: AGetcwd true :: AChdir true :: AFork (Some p) child :: rest ->
  cwp (run_named_restart malloc_ok home argv0 session) (fun _ w' => exists ds sp,
    wd_did w' = wd_did w ++ ds /\
    DSpawn (server_argv sp (endpoint_text (session_endpoint i)) (stored_argv i))
      (child_token (Some (si_control_token i))) (si_log i) (si_cwd i) ∈ ds) w.
Proof.
  intros Hm Hn Hi Hac Hcwd Hlog Hlen Hc Ha. unfold run_named_restart. rewrite Hn. cbn [negb].
  apply cwp_bind. unfold cwp at 1, get_files. apply cwp_bind, cwp_lift; [apply read_info_defined|].
  rewrite Hi, (proj2 (Z.eqb_neq _ _) Hac). fold (session_endpoint i). set (ep := session_endpoint i) in *.
  apply cwp_bind. unfold accepts. apply cwp_bind. eapply cwp_runs; [by eapply do_connect_runs|].
  rewrite Hc. apply cwp_ret. rewrite bool_decide_false by by intros [].
  apply cwp_bind. eapply cwp_runs; [by eapply getcwd_runs|]. cbv zeta. rewrite (bool_decide_false _ Hcwd).
  apply cwp_bind. eapply cwp_runs; [by eapply chdir_runs|]. cbn [negb]. rewrite (bool_decide_false _ Hlog).
  apply cwp_bind, cwp_ret, cwp_bind. cbn [wd_cwd wd_answers].
  set (w1 := World _ _ _ _ _ _ _).
  assert (can_fork malloc_ok ep w1) as Hf by (split_and!; [done..|]; by eexists _, _, _).
  assert (forall t, child_token (child_token t) = child_token t) as Htok by (by intros [[]|]).
  eapply cwp_mono; [apply spawn_server_ok|].
  intros rc w2 [(_&_&Hno)|(ds&sp&waits&H2&_&_&_&->&_)]; [by apply Hno in Hf|]. rewrite Htok in H2.
  set (sd := DSpawn _ _ _ _) in *.
  assert (forall w3 u, wd_did w3 = wd_did w2 ++ u -> exists ds sp, wd_did w3 = wd_did w ++ ds /\
    DSpawn (server_argv sp (endpoint_text ep) (stored_argv i)) (child_token (Some (si_control_token i)))
      (si_log i) (si_cwd i) ∈ ds) as Hend.
  { intros w3 u H3. exists ([DConnect ep false; DGetcwd true; DChdir (si_cwd i) true] ++ [sd] ++ waits ++ u), sp.
    split; [|set_solver]. rewrite H3, (lg_did _ _ _ _ H2). unfold w1. cbn. by rewrite <- !app_assoc. }
  fold (way_back (Some (wd_cwd w))). destruct (rc <? 0).
  - apply cwp_bind, cwp_perror. intros w3 H3 _ _. apply cwp_bind. eapply cwp_mono; [apply way_back_ok|].
    intros [] w4 (_&u&Hu&_). apply cwp_ret. apply (Hend w4 ([DPerror (cstr "restart 0pty session")] ++ u)).
    by rewrite Hu, (mv_did _ _ _ H3), app_assoc.
  - apply cwp_bind. eapply cwp_mono; [apply way_back_ok|]. intros [] w3 (_&u&Hu&_).
    eapply cwp_mono; [apply attach_ok|]. intros rc4 w4 [_ H4].
    apply (Hend w4 (u ++ [DAttach ep None false])). by rewrite (mv_did _ _ _ H4), Hu, app_assoc.
Qed.

(** Where a deed of some kind can be among those of a command. *)
Lemma not_harmless (d : deed) (ds : list deed) : ~ harmless d -> Forall harmless ds -> d ∉ ds.
Proof. intros Hd Hf Hin. by apply Hd, (proj1 (Forall_forall _ _) Hf). Qed.

Lemma restarted_spawn (session : bytes) (i : opty_session_info) (rc : Z) (w w' : world) (ds : list deed)
    (a : list bytes) (t : option bytes) (l d : bytes) :
  restarted session i rc w w' ds -> DSpawn a t l d ∈ ds ->
  (exists sp, a = server_argv sp (endpoint_text (session_endpoint i)) (stored_argv i)) /\
  t = child_token (Some (si_control_token i)) /\
  (if bool_decide (si_log i = []) then opty_session_log_path home (Some session) 512 = Done l
   else l = si_log i) /\
  d = (if bool_decide (si_cwd i = []) then wd_cwd w else si_cwd i).
Proof.
  intros (d1&sp&log&d2&->&H1&_&Hlog&H2) Hin.
  assert (forall x, Forall harmless x -> DSpawn a t l d ∉ x) as Hno by (intros; by apply not_harmless; [intros []|]).
  rewrite elem_of_cons, elem_of_app, elem_of_cons in Hin.
  destruct Hin as [?|[?|[[= -> -> -> ->]|Hin]]]; [done|by apply Hno in H1|by eauto|exfalso].
  destruct H2 as [[_ H2]|(p1&m&p2&->&H3&H4)]; [by apply Hno in H2|].
  apply Hno in H3, H4. set_solver.
Qed.

Lemma stop_sends (session : bytes) (i : opty_session_info) (rc : Z) (ds : list deed)
    (e : opty_endpoint) (x : bytes) :
  stop_deeds session i rc ds -> DSend e x ∈ ds ->
  e = session_endpoint i /\ exists input,
    opty_decode_graceful_input (si_graceful_input i) OPTY_MAX_GRACEFUL_INPUT = Done input /\
    x `prefix_of` stop_frame (si_control_token i) input.
Proof.
  intros [_ Hd] Hin.
  assert (forall y, Forall harmless y -> DSend e x ∉ y) as Hno by (intros; by apply not_harmless; [intros []|]).
  destruct Hd as [[[m ->] _]|[[(m&->&Hm) _]|[[(m&->&Hm) _]|(input&sent&after&Hi&->&Hp&Hh&_)]]].
  1-3: exfalso; revert Hin; apply Hno; by repeat apply Forall_cons_2.
  apply Hno in Hh. rewrite !elem_of_cons in Hin.
  destruct Hin as [?|[?|[[= -> ->]|?]]]; [done..|by eauto|done].
Qed.

Variable pid : Z.

(** The one server a start can have started. *)
Lemma start_spawn (session : bytes) (command : list bytes) (w w1 : world) (rc : Z) (ds : list deed)
    (a : list bytes) (t : option bytes) (l d : bytes) :
  start_end malloc_ok home pid session command w rc w1 ->
  wd_did w1 = wd_did w ++ ds -> DSpawn a t l d ∈ ds ->
  exists ep before waits sp token,
    new_server malloc_ok home pid session command ep w w1 before waits sp token l /\
    a = server_argv sp (endpoint_text ep) command /\ t = Some token /\ d = wd_cwd w /\
    (forall x, x ∈ before -> x ∈ ds).
Proof.
  intros (_&_&H) Hds Hin.
  assert (forall x, Forall harmless x -> DSpawn a t l d ∉ x) as Hno by (intros; by apply not_harmless; [intros []|]).
  destruct H as [(ep&m&_&[_ _ Hd])|[(_&ds'&Hd&Hh)|(ep&before&waits&sp&token&log&Hns&Hw)]].
  - rewrite Hds in Hd. apply app_inv_head in Hd as ->. set_solver.
  - rewrite Hds in Hd. apply app_inv_head in Hd as ->. by apply Hno in Hh.
  - pose proof (ns_did _ _ _ _ _ _ _ _ _ _ _ _ _ Hns) as Hd. rewrite Hds in Hd.
    apply app_inv_head in Hd as ->. rewrite elem_of_app, elem_of_cons in Hin.
    destruct Hin as [Hin|[[= -> -> -> ->]|Hin]].
    + exfalso. revert Hin. apply Hno. by destruct Hns.
    + exists ep, before, waits, sp, token. split_and!; [done..|]. set_solver.
    + exfalso. destruct Hw as [[_ Hw]|(polls&m&->&Hw)]; apply waiting_harmless, Hno in Hw; [done|].
      set_solver.
Qed.

(** [C9] The commands mean the same server.  Let there be memory, a home directory without
    line ends or NUL, a command without NUL bytes, and a working directory that is not
    empty, has no line end and is shorter than the reader's field (with a line end in it, see
    Session.cwd_newline_forges_token).  After a [0pty NAME start] that started a server,
    and as long as its session file stays:
    - [0pty NAME connect] attaches to the endpoint that server was started on;
    - whatever [0pty NAME stop] sends goes there, and is the shutdown request with the
      token that server was given, asking for "/exit"; and it is sent whole when the
      endpoint answers the probe and takes the connection;
    - a server that [0pty NAME restart] starts gets the same endpoint, command, token and
      log, in the same directory (in the caller's, when the first start could not tell
      its own); and one is started when the endpoint refuses a connection, there is a
      command, the directory is known and can be entered, and [fork] works. *)
Theorem commands_agree (argv0 argv0' : option bytes) (session h : bytes) (command : list bytes)
    (w w1 w2 : world) (rc : Z) (ds : list deed) (a : list bytes) (t : option bytes) (l d : bytes) :
  (forall n, malloc_ok n = true) -> home = Some h -> (Byte.x0a ∉ h) -> (Byte.x00 ∉ h) ->
  Forall (fun a => Byte.x00 ∉ a) command -> line_ok (wd_cwd w) -> blen (wd_cwd w) < CWD_CAP ->
  wd_cwd w <> [] ->
  run_named_start malloc_ok home pid argv0 session command w = Some (rc, w1) ->
  wd_did w1 = wd_did w ++ ds -> DSpawn a t l d ∈ ds ->
  (forall p, opty_session_path home (Some session) 1024 = Done p ->
     files (wd_fs w2) !! p = files (wd_fs w1) !! p) ->
  exists ep token, tail a = [cstr "-b"; endpoint_text ep; cstr "--"] ++ command /\ t = Some token /\
    (exists rc' w3, run_named_connect malloc_ok home session w2 = Some (rc', w3) /\
       moved [DAttach ep None false] w2 w3) /\
    (exists rc' w3 ds', run_named_stop malloc_ok clock_ok home session w2 = Some (rc', w3) /\
       wd_did w3 = wd_did w2 ++ ds' /\
       forall e x, DSend e x ∈ ds' ->
         (e = ep /\ x `prefix_of` stop_frame token (cstr "/exit" ++ [Byte.x0a]))) /\
    (exists rc' w3 ds', run_named_restart malloc_ok home argv0' session w2 = Some (rc', w3) /\
       wd_did w3 = wd_did w2 ++ ds' /\
       forall a' t' l' d', DSpawn a' t' l' d' ∈ ds' ->
         tail a' = tail a /\ t' = t /\ l' = l /\
         (d' = d \/ DGetcwd false ∈ ds /\ d' = wd_cwd w2)) /\
    (forall resolve res res' s rest now',
       wd_answers w2 = AProbe resolve res :: AConnect res' :: rest ->
       opty_endpoint_accepts_timeout resolve res OPTY_LIST_CONNECT_TIMEOUT_MS clock_ok (wd_now w2) =
         (true, now') ->
       connect_endpoint res' = Some s -> healthy s ->
       exists rc' w3 ds', run_named_stop malloc_ok clock_ok home session w2 = Some (rc', w3) /\
         wd_did w3 = wd_did w2 ++ ds' /\
         DSend ep (stop_frame token (cstr "/exit" ++ [Byte.x0a])) ∈ ds') /\
    (forall res p child rest,
       connect_endpoint res = None -> command <> [] -> DGetcwd false ∉ ds ->
       wd_answers w2 = AConnect res :: AGetcwd true :: AChdir true :: AFork (Some p) child :: rest ->
       exists rc' w3 ds' a', run_named_restart malloc_ok home argv0' session w2 = Some (rc', w3) /\
         wd_did w3 = wd_did w2 ++ ds' /\ DSpawn a' t l d ∈ ds' /\ tail a' = tail a).
Proof.
  intros Hm Hh Hhn Hhz Hcmd Hcl Hcb Hc0 Hrun Hds Hin Hfiles.
  pose proof (start_ok malloc_ok home pid argv0 session command w) as Hs. unfold cwp in Hs. rewrite Hrun in Hs.
  destruct (start_spawn _ _ _ _ _ _ _ _ _ _ Hs Hds Hin) as (ep&before&waits&sp&token&Hns&->&->&->&Hbef).
  destruct (new_server_read malloc_ok home pid session command ep w w1 before waits sp token l h
    Hm Hh Hhn Hhz Hcmd Hcl Hcb Hns) as (i&Hi&Hhost&Hport&Hl&Ht&Hav&Hcwd&Hg&Hname).
  rewrite <- (read_info_files malloc_ok home session _ _ Hfiles) in Hi. exists ep, token. split; [done|]. split; [done|].
  assert (session_endpoint i = ep) as Hep by (unfold session_endpoint; rewrite Hhost, Hport; by destruct ep).
  assert (l <> []) as Hl0.
  { destruct Hns as [_ _ _ _ Hlog _]. by eapply log_path_not_empty. }
  assert (child_token (Some token) = Some token) as Htok.
  { destruct Hns as [_ _ _ [Hlen _] _ _]. by destruct token. }
  split_and!.
  - destruct (cwp_run _ _ _ (connect_recorded session i w2 Hname Hi)) as (rc'&w3&?&_&Hmv).
    rewrite Hep in Hmv. by exists rc', w3.
  - destruct (cwp_run _ _ _ (stop_ok session w2)) as (rc'&w3&Hr&ds'&Hmv&Hd).
    exists rc', w3, ds'. split_and!; [done|by destruct Hmv|]. intros e x Hx.
    destruct Hd as [(_&m&->)|(i'&Hi'&Hd)]; [set_solver|]. rewrite Hi in Hi'. injection Hi' as <-.
    destruct (stop_sends session i rc' ds' e x Hd Hx) as (->&input&Hgi&Hp). split; [done|].
    rewrite Hg in Hgi. injection Hgi as <-. by rewrite <- Ht.
  - destruct (cwp_run _ _ _ (restart_ok argv0' session w2)) as (rc'&w3&Hr&_&ds'&Hd&_&Hend).
    exists rc', w3, ds'. split_and!; [done..|]. intros a' t' l' d' Hx.
    destruct Hend as [(_&Hh'&_)|(i'&Hi'&Hre)]; [exfalso; revert Hx; by apply not_harmless; [intros []|]|].
    rewrite Hi in Hi'. injection Hi' as <-.
    destruct (restarted_spawn _ _ _ _ _ _ _ _ _ _ Hre Hx) as ([sp' ->]&->&Hl'&->).
    rewrite Hep, Hav, Ht. split_and!; [done..| |].
    + rewrite bool_decide_false in Hl' by congruence. congruence.
    + destruct Hcwd as [Hcwd|[Hcwd Hgc]]; rewrite Hcwd.
      * left. by rewrite bool_decide_false.
      * right. rewrite bool_decide_true by done. split; [by apply Hbef|done].
  - intros resolve res res' s rest now' Ha2 Hp Hsk Hhs.
    destruct (cwp_run _ _ _ (stop_sends_whole session (cstr "/exit" ++ [Byte.x0a]) i w2 resolve res res' s
      rest now' Hname Hi ltac:(rewrite Ht; destruct Hns as [_ _ _ [Hlen _] _ _]; unfold OPTY_MAX_TOKEN; lia)
      Hg ltac:(by vm_compute) Ha2 Hp Hsk Hhs)) as (rc'&w3&Hr&ds'&Hd&Hds'). rewrite Hep, Ht in Hds'. eauto 10.
  - intros res p child rest Hc Hne Hgc Ha2.
    assert (si_cwd i = wd_cwd w) as Hcw by (destruct Hcwd as [|[_ Hgf]]; [done|by apply Hbef in Hgf]).
    assert (si_argc i <> 0) as Hac by (intros He; unfold stored_argv in Hav; rewrite He in Hav; by destruct Hne).
    assert (blen (endpoint_text ep) < 128) as Hlen.
    { destruct Hns as [_ _ (q&Hq&->) _ _ _]. unfold endpoint_text. cbn [host port]. rewrite !blen_app.
      pose proof (print_port_length q). unfold OPTY_SESSION_PORT_BASE in Hq.
      change (blen OPTY_DEFAULT_HOST) with 9. change (blen (cstr ":")) with 1. lia. }
    destruct (cwp_run _ _ _ (restart_spawns argv0' session i w2 res p child rest Hm Hname Hi Hac
      ltac:(by rewrite Hcw) ltac:(by rewrite Hl) ltac:(by rewrite Hep) Hc Ha2))
      as (rc'&w3&Hr&ds'&sp'&Hd&Hin').
    rewrite Hep, Hav, Ht, Htok, Hl, Hcw in Hin'. exists rc', w3, ds'. eexists. split_and!; [done..|exact Hin'|done].
Qed.

End StopRestart.

(** ** A session started, stopped, and restarted *)

Module DemoStop.

Import DemoStart.

Definition world1 : world := match start0 with Some (_, w) => w | None => world0 end.

Lemma start0_runs :
  run_named_start any_size (Some demo_home) 7 (Some (cstr "/usr/bin/0pty")) (cstr "dev") [cstr "bash"] world0
    = Some (0, world1).
Proof. vm_compute. reflexivity. Qed.

Definition argv1 : list bytes :=
  server_argv (cstr "/usr/bin/0pty-server") (endpoint_text ep0) [cstr "bash"].
Definition token1 : bytes := replicate 64 (z2b 48).
Definition log1 : bytes := cstr "/home/me/.0pty/logs/dev.log".

Lemma start0_spawned : DSpawn argv1 (Some token1) log1 (cstr "/work") ∈ wd_did world1.
Proof. apply (list_elem_of_lookup_2 _ 3%nat). vm_compute. reflexivity. Qed.

(** Another terminal, in another directory. *)
Definition later (answers : list answer) : world :=
  World (Fsys (files (wd_fs world1)) []) (Stream [] [] [] false) (cstr "/") 0 (quiet_client []) answers [].

(** The server answers the probe and the connection, closes it, and is gone. *)
Example stops :
  (fun r => (fst r, wd_did (snd r))) <$>
    run_named_stop any_size true (Some demo_home) (cstr "dev")
      (later [AProbe 3 (Some [ProbeConnected]); up; APoll SHup; AProbe 0 (Some [ProbeConnected]);
              AProbe 0 (Some [ProbeRefused])]) =
  Some (0, [DProbe ep0 true; DConnect ep0 true;
            DSend ep0 (stop_frame token1 (cstr "/exit" ++ [Byte.x0a]));
            DProbe ep0 true; DProbe ep0 false; DSay (cstr "stopped 0pty session dev")]).
Proof. vm_compute. reflexivity. Qed.

Example restarts :
  (fun r => (fst r, wd_did (snd r), wd_cwd (snd r))) <$>
    run_named_restart any_size (Some demo_home) (Some (cstr "/usr/bin/0pty")) (cstr "dev")
      (later [down; AGetcwd true; AChdir true; AFork (Some 11) (LogOpened (cstr "again")); up; AChdir true; ASession true true []]) =
  Some (0, [DConnect ep0 false; DGetcwd true; DChdir (cstr "/work") true;
            DSpawn argv1 (Some token1) log1 (cstr "/work"); DConnect ep0 true;
            DSay (cstr "started 0pty session dev on " ++ endpoint_text ep0 ++ cstr "; log: " ++ log1);
            DChdir (cstr "/") true; DAttach ep0 None false], cstr "/").
Proof. vm_compute. reflexivity. Qed.

Lemma commands_agree_witness :
  exists ep token, tail argv1 = [cstr "-b"; endpoint_text ep; cstr "--"] ++ [cstr "bash"] /\
    Some token1 = Some token /\
    exists rc' w3, run_named_connect any_size (Some demo_home) (cstr "dev") (later []) = Some (rc', w3) /\
      moved [DAttach ep None false] (later []) w3.
Proof.
  destruct (commands_agree any_size (Some demo_home) true 7 (Some (cstr "/usr/bin/0pty")) None (cstr "dev")
    demo_home [cstr "bash"] world0 world1 (later []) 0 (wd_did world1) argv1 (Some token1) log1 (cstr "/work"))
    as (ep&token&Ha&Ht&Hc&_); [done|done|..].
  - by apply (bool_decide_unpack _).
  - by apply (bool_decide_unpack _).
  - apply Forall_cons_2; [by apply (bool_decide_unpack _)|constructor].
  - split_and!; [by apply (bool_decide_unpack _)..|done].
  - by vm_compute.
  - done.
  - exact start0_runs.
  - exact eq_refl.
  - exact start0_spawned.
  - exact (fun p _ => eq_refl).
  - exact (ex_intro _ ep (ex_intro _ token (conj Ha (conj Ht Hc)))).
Defined.

End DemoStop.
