(* ===== verification/ListProps.v ===== *)
(** * What list, connect without a name, and the command line guarantee
    (src/src/client.c: opty_load_session_entries, run_named_list, run_connect_auto, main)

    The list shows the sessions of the directory and whether they answer, and takes no
    longer than one lookup and one probe; [0pty connect] attaches only to the only
    session; a command line has one meaning, and every one of them is carried out to an
    exit status. *)

From stdpp Require Import gmap.
From S2P Require Import Prelude.
From S2P Require Import Io.
From S2P Require Import Wire.
From S2P Require Import Messages.
From S2P Require Import Endpoint.
From S2P Require Import Text.
From S2P Require Import Session.
From S2P Require Import Consume.
From S2P Require Import Client.
From S2P Require Import ClientSpec.
From S2P Require Import ClientProps.
From S2P Require Import Probe.
From S2P Require Import Terminal.
From S2P Require Import Commands.
From S2P Require Import CommandSpec.
From S2P Require Import CommandProps.
From S2P Require Import StopProps.

Section Lists.

Variable malloc_ok : Z -> bool.
Variable clock_ok : bool.
Variable home : option bytes.
Variable pid : Z.
Variable entry_size : Z.

(** ** The list *)

(** The session of a directory entry, when its file can be read. *)
Definition entry_info (fs : gmap bytes bytes) (name : bytes) : option opty_session_info :=
  s ← entry_session name;
  match opty_read_session_info malloc_ok home (Some s) fs with Done i => Some i | _ => None end.

Definition listed (fs : gmap bytes bytes) (names : list bytes) : list opty_session_info :=
  omap (entry_info fs) names.

Lemma read_entries_ok (names : list bytes) (cap : Z) (entries : list opty_session_info) (w : world) :
  cwp (read_entries malloc_ok home entry_size names cap entries)
    (fun r w' => (r.2 = true /\ r.1 = entries ++ listed (files (wd_fs w)) names /\ w' = w) \/
       (r.2 = false /\ wd_now w' = wd_now w /\ moved [DPerror (cstr "list sessions")] w w')) w.
Proof.
  revert cap entries w. induction names as [|name names IH]; intros cap entries w; cbn [read_entries].
  { apply cwp_ret. left. by rewrite app_nil_r. }
  cbn [listed omap list_omap]. fold (listed (files (wd_fs w)) names). unfold entry_info at 1.
  destruct (entry_session name) as [s|]; cbn [mbind option_bind]; [|apply IH].
  destruct (_ && _).
  { apply cwp_bind, cwp_perror. intros w1 H1 Hn1 _. apply cwp_ret. by right. }
  apply cwp_bind. unfold cwp at 1, get_files. apply cwp_bind, cwp_lift; [apply read_info_defined|].
  destruct (opty_read_session_info _ _ _ _) as [i|e|]; [|by apply IH|done].
  eapply cwp_mono; [apply IH|]. intros r w1 [(?&Hr&?)|?]; [left|by right].
  split_and!; [done| |done]. by rewrite Hr, <- app_assoc.
Qed.

(** The coming [getaddrinfo] calls take at most [longest] milliseconds. *)
Definition resolves_within (longest : Z) (w : world) : Prop :=
  forall resolve res, AProbe resolve res ∈ wd_answers w -> Z.of_nat resolve <= longest.

Lemma resolves_later (longest : Z) (used : list answer) (w w' : world) :
  wd_answers w = used ++ wd_answers w' -> resolves_within longest w -> resolves_within longest w'.
Proof. intros Ha H k r Hin. apply (H k r). rewrite Ha. set_solver. Qed.

(** A probe takes its time at most. *)
Lemma accepts_timeout_time (ep : opty_endpoint) (timeout longest : Z) (w : world) :
  0 <= timeout -> 0 <= wd_now w -> 0 <= longest -> resolves_within longest w ->
  cwp (accepts_timeout clock_ok ep timeout)
    (fun b w' => moved [DProbe ep b] w w' /\ resolves_within longest w' /\
       (clock_ok = true -> wd_now w <= wd_now w' <= wd_now w + longest + timeout)) w.
Proof.
  intros Ht Hn Hlong Hres. unfold accepts_timeout. apply cwp_bind, cwp_ask. intros a w1 H1 Hn1 Ha.
  apply cwp_bind. unfold cwp at 1, get_now.
  destruct (match a with Some (AProbe _ _) => _ | _ => _ end) as [alive now] eqn:E.
  assert (clock_ok = true -> wd_now w <= now <= wd_now w + longest + timeout) as Hb.
  { rewrite Hn1 in E. destruct a as [[| |k res| | | | | | | | |]|]; try (simplify_eq; lia).
    assert (Z.of_nat k <= longest) as Hk by (apply (Hres k res); rewrite Ha; set_solver).
    intros ->. unfold opty_endpoint_accepts_timeout in E. cbv zeta in E. remember (wd_now w + Z.of_nat k) as start eqn:Hst.
    destruct res as [addrs|]; [|simplify_eq; lia].
    rewrite (proj2 (Z.leb_le _ _) Ht) in E. cbn [andb] in E.
    pose proof (probe_addrs_time addrs timeout (start + timeout) start ltac:(lia)) as Hp.
    rewrite E in Hp. lia. }
  apply cwp_bind, cwp_put_now. intros w2 H2 Hn2 Ha2. apply cwp_bind, cwp_did. intros w3 H3 Hn3 Ha3.
  apply cwp_ret. rewrite Hn3, Hn2. split_and!; [| |done].
  - eapply moved_then; [exact H1|eapply moved_then; [exact H2|exact H3|done]|done].
  - eapply resolves_later; [|exact Hres]. by rewrite Ha3, Ha2.
Qed.

Definition probe_deed (e : opty_session_info * bool) : deed := DProbe (session_endpoint e.1) e.2.

(** The probes run together: all of them take no longer than one. *)
Lemma probe_entries_ok (entries : list opty_session_info) (start longest : Z) (w : world) :
  0 <= start -> start <= wd_now w -> 0 <= longest -> resolves_within longest w ->
  cwp (probe_entries clock_ok entries start)
    (fun r w' => exists ds, moved ds w w' /\ Forall harmless ds /\
       (clock_ok = true ->
        wd_now w <= wd_now w' <= Z.max (wd_now w) (start + longest + OPTY_LIST_CONNECT_TIMEOUT_MS)) /\
       (forall l, r = Some l -> l.*1 = entries /\ ds = probe_deed <$> l)) w.
Proof.
  intros Hs Hw Hlong. revert w Hw. induction entries as [|i entries IH]; intros w Hw Hres; cbn [probe_entries].
  { apply cwp_ret. exists []. split_and!; [apply moved_refl|done|lia|]. by intros l [= <-]. }
  apply cwp_bind, cwp_ask. intros a w1 H1 Hn1 Ha1.
  assert (cwp (mret None) (fun (r : option (list (opty_session_info * bool))) w' => exists ds, moved ds w w' /\ Forall harmless ds /\
    (clock_ok = true ->
     wd_now w <= wd_now w' <= Z.max (wd_now w) (start + longest + OPTY_LIST_CONNECT_TIMEOUT_MS)) /\
    (forall l, r = Some l -> l.*1 = i :: entries /\ ds = probe_deed <$> l)) w1) as Hno.
  { apply cwp_ret. exists []. split_and!; [done|done|lia|done]. }
  destruct a as [[| | | | | | | | |[]| |]|]; try exact Hno. clear Hno.
  apply cwp_bind. unfold cwp at 1, get_now. apply cwp_bind, cwp_put_now. intros w2 H2 Hn2 Ha2.
  apply cwp_bind. eapply cwp_mono.
  { apply accepts_timeout_time; [done|by rewrite Hn2|exact Hlong|].
    eapply resolves_later; [|exact Hres]. by rewrite Ha2. }
  intros alive w3 (H3&Hres3&Ht3). rewrite Hn2 in Ht3. apply cwp_bind. unfold cwp at 1, get_now.
  apply cwp_bind, cwp_put_now. intros w4 H4 Hn4 Ha4. apply cwp_bind.
  eapply cwp_mono; [apply IH; [rewrite Hn4; lia|apply (resolves_later longest [] w3); [by rewrite Ha4|done]]|].
  intros r w5 (ds&H5&Hh&Ht&Hl). apply cwp_ret.
  exists (DProbe (session_endpoint i) alive :: ds). split_and!.
  - eapply moved_then; [exact H1|eapply moved_then; [exact H2|eapply moved_then; [exact H3|
      eapply moved_then; [exact H4|exact H5|done]|reflexivity]|reflexivity]|reflexivity].
  - by apply Forall_cons_2.
  - intros Hc. specialize (Ht3 Hc). specialize (Ht Hc). unfold OPTY_LIST_CONNECT_TIMEOUT_MS in *. lia.
  - intros l. destruct r as [tail|]; [|done]. cbn. intros [= <-]. destruct (Hl _ eq_refl) as [<- ->]. done.
Qed.

(** What loading the sessions found; [None] when it failed. *)
Definition loaded (longest : Z) (w : world) (r : option (list (opty_session_info * bool))) (w' : world) : Prop :=
  exists ds, moved ds w w' /\ Forall harmless ds /\
    (clock_ok = true -> wd_now w <= wd_now w' <= wd_now w + longest + OPTY_LIST_CONNECT_TIMEOUT_MS) /\
    forall l, r = Some l -> ds = probe_deed <$> l /\
      exists dir, wd_answers w = ADir dir :: tail (wd_answers w) /\
        match dir with
        | DirNames names => l.*1 = listed (files (wd_fs w)) names
        | DirMissing => l = []
        | DirError => False
        end.

Lemma load_ok (longest : Z) (w : world) :
  0 <= wd_now w -> 0 <= longest -> resolves_within longest w ->
  cwp (opty_load_session_entries malloc_ok clock_ok home entry_size) (loaded longest w) w.
Proof.
  intros Hn Hlong Hres.
  assert (forall what w1, moved [] w w1 -> wd_now w1 = wd_now w ->
    cwp (perror what;; mret None) (loaded longest w) w1) as Hfail.
  { intros what w1 H1 Hn1. apply cwp_bind, cwp_perror. intros w2 H2 Hn2 _. apply cwp_ret.
    exists [DPerror what]. split_and!; [by eapply moved_then|by apply Forall_cons_2| |done].
    unfold OPTY_LIST_CONNECT_TIMEOUT_MS. lia. }
  unfold opty_load_session_entries.
  destruct (opty_session_dir home 512) as [dir|e|]; [|apply Hfail; [apply moved_refl|done]..].
  apply cwp_bind, cwp_ask. intros a w1 H1 Hn1 Ha.
  destruct a as [[| | | | | | | |[names| |]| | |]|]; try (by apply Hfail).
  - apply cwp_bind. eapply cwp_mono; [apply read_entries_ok|].
    intros [es ok] w2 [(Hok&Hes&->)|(Hok&Hn2&H2)]; cbn [fst snd] in *; subst ok.
    + apply cwp_bind. unfold cwp at 1, get_now. eapply cwp_mono.
      { apply (probe_entries_ok es (wd_now w1) longest); [lia|lia|done|by eapply resolves_later]. }
      intros r w3 (ds&H3&Hh&Ht&Hl). exists ds.
      split_and!; [by eapply moved_then|done|intros Hc; specialize (Ht Hc); unfold OPTY_LIST_CONNECT_TIMEOUT_MS in *; lia|].
      intros l Hr. destruct (Hl l Hr) as [H4 H5]. split; [done|]. exists (DirNames names). rewrite Ha. split; [done|].
      rewrite H4, Hes. by rewrite (mv_fs _ _ _ H1).
    + apply cwp_ret. exists [DPerror (cstr "list sessions")].
      split_and!; [by eapply moved_then|by apply Forall_cons_2| |done].
      unfold OPTY_LIST_CONNECT_TIMEOUT_MS. lia.
  - apply cwp_ret. exists []. split_and!; [done|done|unfold OPTY_LIST_CONNECT_TIMEOUT_MS; lia|].
    intros l [= <-]. split; [done|]. exists DirMissing. by rewrite Ha.
Qed.

(** Some bound there always is. *)
Lemma resolves_bounded (w : world) : exists longest, 0 <= longest /\ resolves_within longest w.
Proof.
  unfold resolves_within. induction (wd_answers w) as [|a l (n&Hn&Hl)].
  { exists 0. split; [lia|]. intros k r Hin. by apply elem_of_nil in Hin. }
  exists (match a with AProbe k _ => Z.max n (Z.of_nat k) | _ => n end). split; [destruct a; lia|].
  intros k r [<-|Hin]%elem_of_cons; [lia|]. specialize (Hl k r Hin). destruct a; lia.
Qed.

(** *** What the list should show *)

(** The directory entry [name] stands for the session described by [i]. *)
Definition names_session (fs : gmap bytes bytes) (name : bytes) (i : opty_session_info) : Prop :=
  exists s, name = s ++ cstr ".session" /\ opty_is_session_name (Some s) = true /\
    opty_read_session_info malloc_ok home (Some s) fs = Done i.

(** The sessions of a directory, in its order. *)
Inductive listing (fs : gmap bytes bytes) : list bytes -> list opty_session_info -> Prop :=
| listing_nil : listing fs [] []
| listing_session name i names infos :
    names_session fs name i -> listing fs names infos -> listing fs (name :: names) (i :: infos)
| listing_other name names infos :
    (forall i, ~ names_session fs name i) -> listing fs names infos -> listing fs (name :: names) infos.

(** The line of a session: name, endpoint, state, policy and directory, in columns of at
    least 24, 21, 7 and 8 characters. *)
Definition column (width : nat) (s : bytes) : bytes := s ++ replicate (width - length s) Byte.x20 ++ [Byte.x20].

Definition session_line (e : opty_session_info * bool) : bytes :=
  column 24 (si_name e.1) ++
  column 21 (si_host e.1 ++ cstr ":" ++ si_port e.1) ++
  column 7 (match e.2 with true => cstr "alive" | false => cstr "dead" end) ++
  column 8 (match si_restart_policy e.1 with [] => cstr "manual" | p => p end) ++
  match si_cwd e.1 with [] => cstr "-" | d => d end ++ [Byte.x0a].

Definition header_line : bytes :=
  cstr "NAME                     ENDPOINT              STATE   POLICY   CWD" ++ [Byte.x0a].

Lemma entry_session_exact (name s : bytes) :
  entry_session name = Some s <-> name = s ++ cstr ".session" /\ opty_is_session_name (Some s) = true.
Proof.
  unfold entry_session. set (n := (length name - 8)%nat). split.
  - destruct (_ || _) eqn:E; [done|]. apply orb_false_iff in E as [E1%Z.leb_gt E2%negb_false_iff%bool_decide_eq_true].
    destruct (_ <? _); [done|]. destruct (opty_is_session_name _) eqn:Hs; [|done]. intros [= <-].
    split; [|done]. by rewrite <- E2, take_drop.
  - intros [-> Hs]. assert (n = length s) as Hn.
    { unfold n. rewrite length_app. change (length (cstr ".session")) with 8%nat. lia. }
    rewrite Hn, drop_app_length, take_app_length, bool_decide_true, Hs by done.
    pose proof Hs as (Hne&_&_&Hlen&_)%session_name_spec.
    assert (0 < blen s) by (destruct s; [done|]; unfold blen; simpl; lia).
    rewrite blen_app. change (blen (cstr ".session")) with 8.
    destruct (Z.leb_spec (blen s + 8) 8); [lia|]. cbn [orb negb].
    destruct (Z.ltb_spec OPTY_SESSION_MAX_NAME (Z.of_nat (length s))); [unfold blen in *; lia|done].
Qed.

Lemma entry_info_exact (fs : gmap bytes bytes) (name : bytes) (i : opty_session_info) :
  entry_info fs name = Some i <-> names_session fs name i.
Proof.
  unfold entry_info, names_session. split.
  - destruct (entry_session name) as [s|] eqn:E; [|done]. cbn.
    apply entry_session_exact in E as [-> Hs]. destruct (opty_read_session_info _ _ _ _) eqn:Hr; [|done..].
    intros [= <-]. by exists s.
  - intros (s&Hn&Hs&Hr). rewrite (proj2 (entry_session_exact name s)) by done. cbn. by rewrite Hr.
Qed.

Lemma listed_listing (fs : gmap bytes bytes) (names : list bytes) : listing fs names (listed fs names).
Proof.
  induction names as [|name names IH]; [constructor|]. cbn [listed omap list_omap].
  destruct (entry_info fs name) as [i|] eqn:E.
  - constructor; [by apply entry_info_exact|done].
  - constructor; [|done]. intros i Hi%entry_info_exact. congruence.
Qed.

Lemma listing_read (fs : gmap bytes bytes) (names : list bytes) (infos : list opty_session_info) :
  listing fs names infos ->
  Forall (fun i => exists s, opty_read_session_info malloc_ok home s fs = Done i) infos.
Proof.
  induction 1 as [|name i names infos (s&_&_&Hr) _ IH|]; [constructor| |done].
  constructor; [by exists (Some s)|done].
Qed.

Lemma pad_column (n : nat) (s : bytes) : pad n s ++ cstr " " = column n s.
Proof. unfold pad, column. by rewrite <- app_assoc. Qed.

Lemma list_row_columns (name endpoint state policy cwd : bytes) :
  list_row name endpoint state policy cwd =
  column 24 name ++ column 21 endpoint ++ column 7 state ++ column 8 policy ++ cwd ++ [Byte.x0a].
Proof. unfold list_row. rewrite <- !pad_column. by rewrite <- !app_assoc. Qed.

(** Every session that was read fits its line. *)
Lemma entry_row_line (fs : gmap bytes bytes) (s : option bytes) (e : opty_session_info * bool) :
  opty_read_session_info malloc_ok home s fs = Done e.1 -> entry_row e = session_line e.
Proof.
  destruct e as [i alive]. intros (Hb&_)%read_info_bounded. cbn in Hb.
  unfold entry_row, session_line, snprintf_fit. cbn [fst snd].
  rewrite !blen_app. change (blen (cstr ":")) with 1. destruct Hb.
  unfold HOST_CAP, PORT_CAP in *.
  destruct (Z.leb_spec 160 (blen (si_host i) + (1 + blen (si_port i)))); [lia|].
  rewrite list_row_columns.
  assert ((if bool_decide (si_restart_policy i = []) then cstr "manual" else si_restart_policy i) =
    match si_restart_policy i with [] => cstr "manual" | p => p end) as -> by by destruct (si_restart_policy i).
  assert ((if bool_decide (si_cwd i = []) then cstr "-" else si_cwd i) =
    match si_cwd i with [] => cstr "-" | d => d end) as -> by by destruct (si_cwd i).
  by destruct alive.
Qed.

Lemma session_list_lines (fs : gmap bytes bytes) (l : list (opty_session_info * bool)) :
  Forall (fun i => exists s, opty_read_session_info malloc_ok home s fs = Done i) l.*1 ->
  session_list l = header_line ++ concat (session_line <$> l).
Proof.
  intros H. unfold session_list. f_equal. f_equal.
  apply list_fmap_ext. intros k e He. apply Forall_fmap, (Forall_lookup_1 _ _ k e) in H as [s Hs]; [|done].
  by eapply entry_row_line.
Qed.

(** How a list ends. *)
Definition list_end (longest : Z) (w : world) (rc : Z) (w' : world) (ds : list deed) : Prop :=
  (rc = 0 \/ rc = 1) /\ moved ds w w' /\ Forall harmless ds /\
  (clock_ok = true -> wd_now w <= wd_now w' <= wd_now w + longest + 250) /\
  (rc = 0 -> exists l dir rest, wd_answers w = ADir dir :: rest /\
     ds = (probe_deed <$> l) ++ [DPrint (header_line ++ concat (session_line <$> l))] /\
     match dir with
     | DirNames names => listing (files (wd_fs w)) names l.*1
     | DirMissing => l = []
     | DirError => False
     end).

Lemma list_ok (longest : Z) (w : world) :
  0 <= wd_now w -> 0 <= longest -> resolves_within longest w ->
  cwp (run_named_list malloc_ok clock_ok home entry_size) (fun rc w' => exists ds, list_end longest w rc w' ds) w.
Proof.
  intros Hn Hlong Hres. unfold run_named_list. apply cwp_bind. eapply cwp_mono; [by apply (load_ok longest)|].
  intros [l|] w1 (ds&H1&Hh&Ht&Hl).
  - destruct (Hl l eq_refl) as [-> (dir&Ha&Hd)]. apply cwp_bind, cwp_did. intros w2 H2 Hn2 _. apply cwp_ret.
    assert (session_list l = header_line ++ concat (session_line <$> l)) as Hlines.
    { apply (session_list_lines (files (wd_fs w))). destruct dir as [names| |]; [|by subst l|done].
      rewrite Hd. eapply listing_read, listed_listing. }
    rewrite Hlines in H2.
    exists ((probe_deed <$> l) ++ [DPrint (header_line ++ concat (session_line <$> l))]). split; [by left|].
    split_and!; [by eapply moved_trans| |by rewrite Hn2|].
    + apply Forall_app. split; [done|by apply Forall_cons_2].
    + intros _. exists l, dir, (tail (wd_answers w)). split_and!; [done..|].
      destruct dir; [|done..]. rewrite Hd. apply listed_listing.
  - apply cwp_ret. exists ds. split; [by right|]. by split_and!.
Qed.

(** [C21] The list is the truth, in time.  [0pty list] ends; it changes no file; when the
    clock works it takes no longer than the slowest [getaddrinfo] and the time limit of
    a single probe (250 ms), however many sessions there are.  When it exits with 0 it
    printed the header and then one line for each entry of the session directory that is
    a valid session name followed by ".session" and whose file can be read, in the order
    of the directory ([listing]); the line ([session_line]) holds the session's name, its
    endpoint, "alive" when the probe of that endpoint, made for this line, found a
    server and "dead" when not, the policy and the working directory. *)
Theorem list_shows_sessions (longest : Z) (w : world) :
  0 <= wd_now w -> 0 <= longest -> resolves_within longest w ->
  exists rc w' ds, run_named_list malloc_ok clock_ok home entry_size w = Some (rc, w') /\
    (rc = 0 \/ rc = 1) /\ moved ds w w' /\ Forall harmless ds /\
    (clock_ok = true -> wd_now w <= wd_now w' <= wd_now w + longest + 250) /\
    (rc = 0 -> exists l dir rest, wd_answers w = ADir dir :: rest /\
       ds = ((fun '(i, alive) => DProbe (Endpoint (si_host i) (si_port i)) alive) <$> l) ++
            [DPrint (header_line ++ concat (session_line <$> l))] /\
       match dir with
       | DirNames names => listing (files (wd_fs w)) names l.*1
       | DirMissing => l = []
       | DirError => False
       end).
Proof.
  intros Hn Hlong Hres.
  destruct (cwp_run _ _ _ (list_ok longest w Hn Hlong Hres)) as (rc&w'&Hr&ds&Hrc&Hm&Hh&Ht&Hl).
  exists rc, w', ds. split_and!; [done..|]. intros H0. destruct (Hl H0) as (l&dir&rest&Ha&->&Hd).
  exists l, dir, rest. split_and!; [done| |done]. f_equal. apply list_fmap_ext. by intros k [i b] _.
Qed.

(** ** connect without a name *)

(** Attaching by name, on every branch: the endpoint is the one of the session's file,
    or of the session's number. *)
Definition connect_end (session : bytes) (w : world) (rc : Z) (w' : world) : Prop :=
  (rc = 0 \/ rc = 1) /\ exists ds, moved ds w w' /\
    (rc = 1 /\ Forall message ds \/
     exists ep, ds = [DAttach ep None false] /\
       ((exists i, opty_read_session_info malloc_ok home (Some session) (files (wd_fs w)) = Done i /\
           ep = session_endpoint i) \/
        (exists e, opty_read_session_info malloc_ok home (Some session) (files (wd_fs w)) = Fail e) /\
        (opty_read_session_endpoint home (Some session) 128 16 (files (wd_fs w)) = Done ep \/
         opty_numeric_session_endpoint (Some session) 16 = Done ep))).

Lemma connect_ok (session : bytes) (w : world) :
  cwp (run_named_connect malloc_ok home session) (connect_end session w) w.
Proof.
  assert (forall m1 m2, cwp (say m1;; say m2;; mret 1) (connect_end session w) w) as Hsay2.
  { intros m1 m2. apply cwp_bind, cwp_say. intros w1 H1 _ _. apply cwp_bind, cwp_say. intros w2 H2 _ _.
    apply cwp_ret. split; [by right|]. exists [DSay m1; DSay m2]. split; [by eapply moved_then|]. left.
    split; [done|]. by repeat apply Forall_cons_2; try (by eexists). }
  unfold run_named_connect. destruct (negb _).
  { apply cwp_bind, cwp_say. intros w1 H1 _ _. apply cwp_ret. split; [by right|]. eexists. split; [exact H1|].
    left. split; [done|]. by apply Forall_cons_2; [eexists|]. }
  apply cwp_bind. unfold cwp at 1, get_files. apply cwp_bind, cwp_lift; [apply read_info_defined|].
  assert (forall ep, ((exists i, opty_read_session_info malloc_ok home (Some session) (files (wd_fs w)) = Done i /\
           ep = session_endpoint i) \/
        (exists e, opty_read_session_info malloc_ok home (Some session) (files (wd_fs w)) = Fail e) /\
        (opty_read_session_endpoint home (Some session) 128 16 (files (wd_fs w)) = Done ep \/
         opty_numeric_session_endpoint (Some session) 16 = Done ep)) ->
    cwp (attach_client malloc_ok ep None None false) (connect_end session w) w) as Hat.
  { intros ep Hep. eapply cwp_mono; [apply attach_ok|]. intros rc w1 [Hrc H1]. split; [done|].
    exists [DAttach ep None false]. split; [done|]. right. by exists ep. }
  destruct (opty_read_session_info _ _ _ _) as [i|e|] eqn:Hi; [apply Hat; left; by exists i| |done].
  apply cwp_bind, cwp_lift; [apply read_endpoint_defined|].
  destruct (opty_read_session_endpoint _ _ _ _ _) as [ep|e2|] eqn:He; [apply Hat; right; eauto| |done].
  destruct (opty_is_decimal _); [|apply Hsay2]. apply cwp_bind, cwp_lift; [apply numeric_defined|].
  destruct (opty_numeric_session_endpoint _ _) as [ep|e3|] eqn:Hnum; [apply Hat; right; eauto|apply Hsay2|done].
Qed.

(** How [0pty connect] ends. *)
Definition auto_end (w : world) (rc : Z) (w' : world) : Prop :=
  (rc = 0 \/ rc = 1) /\ exists ds, moved ds w w' /\
    (rc = 1 /\ Forall harmless ds \/
     exists names i ep, wd_answers w = ADir (DirNames names) :: tail (wd_answers w) /\
       listed (files (wd_fs w)) names = [i] /\
       ds = [DProbe (session_endpoint i) true; DAttach ep None false] /\
       (opty_read_session_info malloc_ok home (Some (si_name i)) (files (wd_fs w)) = Done i ->
        ep = session_endpoint i)).

Lemma auto_ok (w : world) :
  0 <= wd_now w -> cwp (run_connect_auto malloc_ok clock_ok home entry_size) (auto_end w) w.
Proof.
  intros Hn. destruct (resolves_bounded w) as (longest&Hlong&Hres).
  unfold run_connect_auto. apply cwp_bind. eapply cwp_mono; [by apply (load_ok longest)|].
  intros r w1 (ds&H1&Hh&_&Hl).
  assert (forall w2 d2, moved d2 w1 w2 -> Forall harmless d2 -> auto_end w 1 w2) as Hend.
  { intros w2 d2 H2 Hd2. split; [by right|]. exists (ds ++ d2). split; [by eapply moved_trans|]. left.
    split; [done|by apply Forall_app]. }
  assert (forall msg, cwp (say msg;; mret 1) (auto_end w) w1) as Hsay.
  { intros msg. apply cwp_bind, cwp_say. intros w2 H2 _ _. apply cwp_ret.
    eapply Hend; [exact H2|by apply Forall_cons_2]. }
  destruct r as [[|[i alive] [|e2 l]]|]; [apply Hsay| | |].
  - destruct (Hl _ eq_refl) as [-> (dir&Ha&Hd)]. destruct alive; [|apply Hsay].
    eapply cwp_mono; [apply connect_ok|]. intros rc w2 [Hrc (d2&H2&Hc)]. split; [done|].
    eexists. split; [by eapply moved_trans|]. destruct Hc as [[-> Hm]|(ep&->&Hep)].
    + left. split; [done|]. apply Forall_app. split; [done|by apply message_harmless].
    + right. destruct dir as [names| |]; [|done..]. exists names, i, ep. split_and!; [done..|].
      intros Hi. rewrite (mv_fs _ _ _ H1), Hi in Hep. destruct Hep as [(i'&[= <-]&->)|[[e [=]] _]]. done.
  - apply cwp_bind, cwp_did. intros w2 H2 _ _. apply cwp_bind, cwp_say. intros w3 H3 _ _. apply cwp_ret.
    eapply Hend; [by eapply moved_trans|]. by repeat apply Forall_cons_2.
  - apply cwp_ret. by eapply Hend; [apply moved_refl|].
Qed.

(** [0pty connect] without a name attaches to no session but the only one: it ends;
    if it attaches, the directory holds exactly one session that can be read, that
    session's endpoint just answered a probe, and it is that endpoint (when the file's
    "name" is the session's name, as in the files that [start] writes). *)
Theorem auto_attaches_only_session (w : world) :
  0 <= wd_now w ->
  exists rc w', run_connect_auto malloc_ok clock_ok home entry_size w = Some (rc, w') /\
    auto_end w rc w'.
Proof. intros Hn. by apply cwp_run, auto_ok. Qed.

(** ** main *)

Variable getopt_long : list bytes -> list option_event * list bytes.

(** Raw endpoint mode: messages only, or one attachment with a token that fits a frame;
    the log of -l may grow. *)
Definition options_end (args : list bytes) (w : world) (rc : Z) (w' : world) : Prop :=
  (rc = 0 \/ rc = 1) /\ exists ds, wd_did w' = wd_did w ++ ds /\
    (Forall message ds /\ wd_fs w' = wd_fs w \/
     exists ep token log retry, ds = [DAttach ep token retry] /\
       read_options (fst (getopt_long args)) None None false = inr (token, log, retry) /\
       blen (default [] token) <= OPTY_MAX_TOKEN /\
       match log with
       | None => wd_fs w' = wd_fs w
       | Some path => appended path (files (wd_fs w)) (files (wd_fs w'))
       end).

Lemma options_ok (args : list bytes) (w : world) :
  cwp (run_options malloc_ok getopt_long args) (options_end args w) w.
Proof.
  assert (forall msg rc, (rc = 0 \/ rc = 1) -> cwp (say msg;; mret rc) (options_end args w) w) as Hsay.
  { intros msg rc Hrc. apply cwp_bind, cwp_say. intros w1 [F1 _ D1] _ _. apply cwp_ret. split; [done|].
    eexists. split; [exact D1|]. left. split; [by apply Forall_cons_2; [eexists|]|done]. }
  unfold run_options. destruct (getopt_long args) as [evs operands] eqn:Eg.
  assert (forall evs t l r s, read_options evs t l r = inl s -> s = 0 \/ s = 1) as Hst.
  { clear. induction evs as [|ev evs IH]; intros t l r s; [done|]. cbn. destruct ev; intros H; try (by eapply IH); simplify_eq; auto. }
  destruct (read_options evs None None false) as [status|[[token log] retry]] eqn:Er;
    [by apply Hsay, (Hst _ _ _ _ _ Er)|].
  assert (forall ep, blen (default [] token) <= OPTY_MAX_TOKEN ->
    cwp (attach_client malloc_ok ep token log retry) (options_end args w) w) as Hgo.
  { intros ep Ht. destruct log as [path|].
    - eapply cwp_mono; [apply attach_log_ok|]. intros rc w1 [Hrc [F _ D]]. split; [done|].
      eexists. split; [exact D|]. right. exists ep, token, (Some path), retry. rewrite Eg. by split_and!.
    - eapply cwp_mono; [apply attach_ok|]. intros rc w1 [Hrc [F _ D]]. split; [done|].
      eexists. split; [exact D|]. right. exists ep, token, None, retry. rewrite Eg. by split_and!. }
  destruct operands as [|arg [|x rest]]; [| |by apply Hsay; right].
  - destruct (Z.ltb_spec OPTY_MAX_TOKEN (blen (default [] token))); [by apply Hsay; right|].
    by apply cwp_bind, cwp_ret, Hgo.
  - destruct (Z.ltb_spec OPTY_MAX_TOKEN (blen (default [] token))); [by apply Hsay; right|].
    apply cwp_bind, cwp_lift; [apply parse_endpoint_defined|].
    destruct (opty_parse_endpoint _ _ _ _) as [ep|e|]; [|by apply Hsay; right|done]. by apply Hgo.
Qed.

(** [C12] Every command line is carried out: whatever the arguments, the files, the
    answers of the kernel and of the network, and whatever [getopt_long] makes of the
    options, [main] ends without undefined behaviour, with exit status 0 or 1.  What it
    does to the files depends on the command: [start] replaces its session's file (or
    leaves a temporary file that could not be removed) and lets the session's log grow;
    [restart] lets the log grow that the session's file names; the options let the file
    of -l grow; every other command changes no file. *)
Theorem main_total (argv0 : option bytes) (args : list bytes) (w : world) :
  0 <= wd_now w ->
  exists rc w', main malloc_ok clock_ok home pid entry_size getopt_long argv0 args w = Some (rc, w') /\
    (rc = 0 \/ rc = 1) /\
    match dispatch args with
    | CStart session _ => start_files home pid session w w'
    | CRestart session =>
        wd_fs w' = wd_fs w \/
        exists i log, opty_read_session_info malloc_ok home (Some session) (files (wd_fs w)) = Done i /\
          (if bool_decide (si_log i = []) then opty_session_log_path home (Some session) 512 = Done log
           else log = si_log i) /\
          appended log (files (wd_fs w)) (files (wd_fs w'))
    | COptions =>
        wd_fs w' = wd_fs w \/
        exists token log retry,
          read_options (fst (getopt_long args)) None None false = inr (token, Some log, retry) /\
          appended log (files (wd_fs w)) (files (wd_fs w'))
    | CList | CAuto | CConnect _ | CStop _ => wd_fs w' = wd_fs w
    end.
Proof.
  intros Hn. apply cwp_run. unfold main. destruct (dispatch args) as [| |s|s|s|s command|].
  - destruct (resolves_bounded w) as (longest&Hlong&Hres).
    eapply cwp_mono; [by apply (list_ok longest)|]. by intros rc w' (ds&Hrc&[Hf _ _]&_).
  - eapply cwp_mono; [by apply auto_ok|]. by intros rc w' (Hrc&ds&[Hf _ _]&_).
  - eapply cwp_mono; [apply connect_ok|]. by intros rc w' (Hrc&ds&[Hf _ _]&_).
  - eapply cwp_mono; [apply stop_ok|]. intros rc w' (ds&[Hf _ _]&Hd). split; [|done]. by eapply stop_status.
  - eapply cwp_mono; [apply restart_ok|]. intros rc w' (Hrc&ds&_&_&[(_&_&Hf)|(i&Hi&d1&sp&log&d2&_&_&Hg&Hl&_)]).
    + split; [done|by left].
    + split; [done|right]. by exists i, log.
  - eapply cwp_mono; [apply start_ok|]. by intros rc w' (Hrc&Ho&_).
  - eapply cwp_mono; [apply options_ok|].
    intros rc w' (Hrc&ds&_&[[_ Hf]|(ep&token&[log|]&retry&_&Ho&_&Hf)]); (split; [done|]); auto.
    right. by exists token, log, retry.
Qed.

End Lists.

(** ** The command line *)

Definition reserved : list bytes :=
  [cstr "list"; cstr "connect"; cstr "stop"; cstr "restart"; cstr "start"].

(** The other tests on the words of a command fail. *)
Ltac no_keyword := repeat first [rewrite decide_True by done | rewrite decide_False by done
                                | rewrite bool_decide_true by done | rewrite bool_decide_false by done
                                | rewrite andb_false_r | progress cbn [andb negb] ].

(** [C25] A command line has one meaning.  For a session name that is none of the five
    command words ([start_stop_stops] shows why they are excluded), [connect NAME], [NAME
    connect] and plain [NAME] connect to it, the two orders of [stop], [restart] and
    [start] mean the same, and one leading "--" of the command is dropped.  A word that
    starts with a dash never names a session: a command line that begins with one, or
    with [start] and one, is left to the options, and behind [connect], [stop] and
    [restart] it is refused with status 1.  And a session is started only under a valid
    name. *)
Theorem command_forms (session : bytes) :
  opty_is_session_name (Some session) = true -> session ∉ reserved ->
  (dispatch [session] = CConnect session /\
   forall args,
     dispatch (cstr "connect" :: session :: args) = CConnect session /\
     dispatch (session :: cstr "connect" :: args) = CConnect session /\
     dispatch (cstr "stop" :: session :: args) = CStop session /\
     dispatch (session :: cstr "stop" :: args) = CStop session /\
     dispatch (cstr "restart" :: session :: args) = CRestart session /\
     dispatch (session :: cstr "restart" :: args) = CRestart session /\
     dispatch (cstr "start" :: session :: args) = CStart session (start_command args) /\
     dispatch (session :: cstr "start" :: args) = CStart session (start_command args) /\
     start_command (cstr "--" :: args) = args) /\
  (forall o args, head o = Some (z2b 45) ->
     dispatch (o :: args) = COptions /\ dispatch (cstr "start" :: o :: args) = COptions /\
     dispatch (cstr "connect" :: o :: args) = CConnect o /\
     dispatch (cstr "stop" :: o :: args) = CStop o /\
     dispatch (cstr "restart" :: o :: args) = CRestart o /\
     forall malloc_ok clock_ok home argv0 w, exists w',
       moved [DSay (cstr "invalid session name: " ++ o)] w w' /\
       run_named_connect malloc_ok home o w = Some (1, w') /\
       run_named_stop malloc_ok clock_ok home o w = Some (1, w') /\
       run_named_restart malloc_ok home argv0 o w = Some (1, w')) /\
  (forall args s command, dispatch args = CStart s command -> opty_is_session_name (Some s) = true).
Proof.
  intros Hn Hr. unfold reserved in Hr. rewrite !not_elem_of_cons in Hr. destruct Hr as (?&?&?&?&?&_).
  split; [split|split].
  - unfold dispatch. no_keyword. by rewrite Hn.
  - intros args. unfold dispatch. split_and!; no_keyword; rewrite ?Hn; by no_keyword.
  - intros o args Ho. assert (opty_is_session_name (Some o) = false) as Hf.
    { destruct o as [|b o]; [done|]. cbn in Ho. injection Ho as ->. done. }
    assert (forall s, head s <> Some (z2b 45) -> o <> s) as Hne by (intros s Hs ->; by apply Hs).
    split; [|split; [|split_and!; [by unfold dispatch; no_keyword..|]]].
    + unfold dispatch. destruct args as [|b args]; rewrite ?Hf; cbn [andb];
        repeat (rewrite decide_False by (by apply Hne)); done.
    + unfold dispatch. no_keyword. rewrite !bool_decide_false by (by apply Hne). rewrite !andb_false_r.
      no_keyword. by rewrite Hf.
    + intros malloc_ok clock_ok home argv0 w. unfold run_named_connect, run_named_stop, run_named_restart.
      rewrite Hf. cbn [negb]. eexists. split; [|by split_and!]. by split.
  - intros args s command. unfold dispatch. destruct args as [|a [|b args]]; [done|by repeat case_match|].
    repeat (case_decide; [done|]). destruct (opty_is_session_name (Some a)) eqn:Ha; cbn [andb].
    + repeat (case_bool_decide; [first [done|intros [= <- <-]; done]|]). case_decide; [|done].
      destruct (opty_is_session_name (Some b)) eqn:Hb; [|done]. by intros [= <- <-].
    + case_decide; [|done]. destruct (opty_is_session_name (Some b)) eqn:Hb; [|done]. by intros [= <- <-].
Qed.

Lemma command_forms_witness :
  let s := cstr "claude01" in
  (opty_is_session_name (Some s) = true /\ s ∉ reserved) /\
  dispatch [s] = CConnect s /\
  dispatch [s; cstr "start"; cstr "--"; cstr "sh"] = CStart s [cstr "sh"].
Proof.
  cbv zeta. assert (opty_is_session_name (Some (cstr "claude01")) = true) as H1 by reflexivity.
  assert (cstr "claude01" ∉ reserved) as H2 by (by apply (bool_decide_unpack _)).
  split; [by split|].
  destruct (command_forms (cstr "claude01") H1 H2) as [[Hc Hall] _]. split; [exact Hc|].
  by destruct (Hall [cstr "--"; cstr "sh"]) as (_&_&_&_&_&_&_&->&_).
Defined.

(** The words of the commands are valid session names: [0pty start stop ...] stops. *)
Example start_stop_stops (command : list bytes) :
  opty_is_session_name (Some (cstr "stop")) = true /\
  dispatch (cstr "start" :: cstr "stop" :: command) = CStop (cstr "start").
Proof. split; [reflexivity|]. by destruct command. Qed.

(** A host alone is a session name, not an endpoint. *)
Example bare_host_is_a_session :
  dispatch [cstr "example.org"] = CConnect (cstr "example.org").
Proof. reflexivity. Qed.

(** ** Two sessions, one of them dead *)

Module DemoList.

Import DemoStart.
Import DemoStop.

(** A second session, started from the state that the first start left. *)
Definition start2 : option (Z * world) :=
  run_named_start any_size (Some demo_home) 8 (Some (cstr "/usr/bin/0pty")) (cstr "old") [cstr "sh"]
    (World (Fsys (files (wd_fs world1)) []) (Stream [RData (replicate 64 Byte.x11)] [] [] false) (cstr "/work") 0
       (quiet_client [])
       [ABind None; ABind None; ABind (Some [BindOk]); AGetcwd true; AFork (Some 10) (LogOpened []); up; ASession true true []] []).

Definition world2 (names : list bytes) (answers : list answer) : world :=
  World (Fsys (match start2 with Some (_, w) => files (wd_fs w) | None => ∅ end) []) (Stream [] [] [] false)
    (cstr "/") 0 (quiet_client []) (ADir (DirNames names) :: answers) [].

Definition names2 : list bytes :=
  [cstr "."; cstr "dev.session"; cstr "-x.session"; cstr "notes"; cstr "old.session"].

(** The first is up; the second does not answer, and its probe takes all of its time. *)
Definition both : world :=
  world2 names2 [AThread true; AProbe 40 (Some [ProbeConnected]);
                 AThread true; AProbe 15 (Some [ProbeInProgress [PollTimeout]])].

Example both_listed :
  (fun r => (fst r, wd_now (snd r), wd_did (snd r))) <$>
    run_named_list any_size true (Some demo_home) 8192 both =
  Some (0, 265,
    [DProbe ep0 true; DProbe (Endpoint OPTY_DEFAULT_HOST (print_dec (OPTY_SESSION_PORT_BASE + 2))) false;
     DPrint (list_row (cstr "NAME") (cstr "ENDPOINT") (cstr "STATE") (cstr "POLICY") (cstr "CWD") ++
             list_row (cstr "dev") (endpoint_text ep0) (cstr "alive") (cstr "manual") (cstr "/work") ++
             list_row (cstr "old") (cstr "127.0.0.1:6079") (cstr "dead") (cstr "manual") (cstr "/work"))]).
Proof. vm_compute. reflexivity. Qed.

Lemma list_shows_sessions_witness :
  exists rc w' ds, run_named_list any_size true (Some demo_home) 8192 both = Some (rc, w') /\
    (rc = 0 \/ rc = 1) /\ moved ds both w' /\ Forall harmless ds /\
    (true = true -> wd_now both <= wd_now w' <= wd_now both + 40 + 250) /\
    (rc = 0 -> exists l dir rest, wd_answers both = ADir dir :: rest /\
       ds = ((fun '(i, alive) => DProbe (Endpoint (si_host i) (si_port i)) alive) <$> l) ++
            [DPrint (header_line ++ concat (session_line <$> l))] /\
       match dir with
       | DirNames names => listing any_size (Some demo_home) (files (wd_fs both)) names l.*1
       | DirMissing => l = []
       | DirError => False
       end).
Proof.
  apply (list_shows_sessions any_size true (Some demo_home) 8192 40 both);
    [exact (Z.le_refl 0)|by vm_compute|].
  intros resolve res Hin. unfold both, world2 in Hin. cbn [wd_answers] in Hin.
  rewrite !elem_of_cons, elem_of_nil in Hin.
  destruct Hin as [[=]|[[=]|[[= -> _]|[[=]|[[= -> _]|[]]]]]]; by vm_compute.
Defined.

(** Only one of the two is alive, and [0pty connect] does not attach to it. *)
Example one_alive_not_attached :
  (fun r => (fst r, existsb (fun d => match d with DAttach _ _ _ => true | _ => false end) (wd_did (snd r)))) <$>
    run_connect_auto any_size true (Some demo_home) 8192 both = Some (1, false).
Proof. vm_compute. reflexivity. Qed.

Definition only : world :=
  world2 [cstr "dev.session"] [AThread true; AProbe 40 (Some [ProbeConnected]); ASession true true []].

Example only_attached :
  (fun r => (fst r, wd_did (snd r))) <$> run_connect_auto any_size true (Some demo_home) 8192 only =
  Some (0, [DProbe ep0 true; DAttach ep0 None false]).
Proof. vm_compute. reflexivity. Qed.

Lemma auto_attaches_only_session_witness :
  exists rc w', run_connect_auto any_size true (Some demo_home) 8192 only = Some (rc, w') /\
    auto_end any_size (Some demo_home) only rc w'.
Proof. apply (auto_attaches_only_session any_size true (Some demo_home) 8192 only). exact (Z.le_refl 0). Defined.

(** A [getopt_long] that knows "--retry" only. *)
Definition retry_only (args : list bytes) : list option_event * list bytes :=
  match args with
  | a :: rest => if bool_decide (a = cstr "--retry") then ([OptRetry], rest) else ([], args)
  | [] => ([], [])
  end.

Lemma main_total_witness :
  exists rc w', main any_size true (Some demo_home) 7 8192 retry_only None [cstr "--retry"; cstr "example.org:80"] only
      = Some (rc, w') /\ (rc = 0 \/ rc = 1) /\
    (wd_fs w' = wd_fs only \/
     exists token log retry,
       read_options (fst (retry_only [cstr "--retry"; cstr "example.org:80"])) None None false =
         inr (token, Some log, retry) /\
       appended log (files (wd_fs only)) (files (wd_fs w'))).
Proof.
  apply (main_total any_size true (Some demo_home) 7 8192 retry_only None [cstr "--retry"; cstr "example.org:80"] only).
  exact (Z.le_refl 0).
Defined.

End DemoList.
