(* ===== verification/Startup.v ===== *)
(** * Starting the server (src/src/server.c: main up to its loop, server_create_listener,
    server_spawn_pty, server_setup_signal_handlers)

    The command line, the environment, and what is acquired in which order; every
    failure gives back what was acquired.  [getopt] is that of the GNU C library with
    POSIXLY_CORRECT unset; the kernel's answers are in a record [os]. *)

From stdpp Require Import gmap.
From S2P Require Import Prelude.
From S2P Require Import Io.
From S2P Require Import Wire.
From S2P Require Import Ring.
From S2P Require Import Child.
From S2P Require Import Server.
From S2P Require Import System.
From S2P Require Import Endpoint.
From S2P Require Import Text.

(** ** getopt(argc, argv, "b:r:t:c:h") *)

Inductive sopt :=
| OBind (arg : bytes)
| ORing (arg : bytes)
| OToken (arg : bytes)
| OControl (arg : bytes)
| OHelp
| OBad.

Inductive letter := WithArg (o : bytes -> sopt) | NoArg (o : sopt) | Unknown.

Definition option_letter (b : byte) : letter :=
  if decide (b = z2b 98) then WithArg OBind              (* b *)
  else if decide (b = z2b 114) then WithArg ORing        (* r *)
  else if decide (b = z2b 116) then WithArg OToken       (* t *)
  else if decide (b = z2b 99) then WithArg OControl      (* c *)
  else if decide (b = z2b 104) then NoArg OHelp          (* h *)
  else Unknown.

(** The letters of one argument, and whether the last of them still wants its argument. *)
Fixpoint cluster (cs : bytes) : list sopt * option (bytes -> sopt) :=
  match cs with
  | [] => ([], None)
  | c :: rest =>
      match option_letter c with
      | WithArg o => match rest with [] => ([], Some o) | _ => ([o rest], None) end
      | NoArg o => let '(os, want) := cluster rest in (o :: os, want)
      | Unknown => let '(os, want) := cluster rest in (OBad :: os, want)
      end
  end.

(** The options in order, and the operands; operands between options go behind them. *)
Fixpoint getopt (args : list bytes) : list sopt * list bytes :=
  match args with
  | [] => ([], [])
  | a :: rest =>
      if decide (a = cstr "--") then ([], rest)
      else
        match a with
        | dash :: ((_ :: _) as cs) =>
            if decide (dash = z2b 45) then
              let '(os, want) := cluster cs in
              match want, rest with
              | None, _ => let '(more, operands) := getopt rest in (os ++ more, operands)
              | Some _, [] => (os ++ [OBad], [])
              | Some o, arg :: rest' =>
                  let '(more, operands) := getopt rest' in (os ++ o arg :: more, operands)
              end
            else let '(os, operands) := getopt rest in (os, a :: operands)
        | _ => let '(os, operands) := getopt rest in (os, a :: operands)
        end
  end.

(** ** The options *)

Record config := Config {
  cf_bind : opty_endpoint;
  cf_ring : Z;
  cf_token : option bytes;             (* token_buf, or NULL *)
  cf_control : option bytes
}.

Definition default_config : config :=
  Config (Endpoint OPTY_DEFAULT_HOST OPTY_DEFAULT_PORT) OPTY_DEFAULT_RING_SIZE None None.

(** [strtoull] and its tests; [unsigned long long] is [unsigned long] here. *)
Definition ring_size_arg (arg : bytes) : option Z :=
  let r := strtoul arg in
  if ul_erange r || negb (ul_converted r) || negb (bool_decide (ul_end r = [])) ||
     (ul_value r =? 0) || (SIZE_MAX <? ul_value r) then None
  else Some (ul_value r).

Section Startup.

Variable malloc_ok : Z -> bool.

(** The options one after the other: the exit status after the usage text, or the
    settings. *)
Fixpoint server_options (evs : list sopt) (c : config) : outcome (Z + config) :=
  match evs with
  | [] => Done (inr c)
  | OBind arg :: rest =>
      match opty_parse_endpoint malloc_ok (Some arg) OPTY_DEFAULT_HOST OPTY_DEFAULT_PORT with
      | Done ep => server_options rest (Config ep (cf_ring c) (cf_token c) (cf_control c))
      | Fail _ => Done (inl 2)
      | UB => UB
      end
  | ORing arg :: rest =>
      match ring_size_arg arg with
      | None => Done (inl 2)
      | Some n => server_options rest (Config (cf_bind c) n (cf_token c) (cf_control c))
      end
  | OToken arg :: rest =>
      if OPTY_MAX_TOKEN <? blen arg then Done (inl 2)
      else
        buf ← server_store_token (OPTY_MAX_TOKEN + 1) arg;
        server_options rest (Config (cf_bind c) (cf_ring c) (Some buf) (cf_control c))
  | OControl arg :: rest =>
      if OPTY_MAX_TOKEN <? blen arg then Done (inl 2)
      else
        buf ← server_store_token (OPTY_MAX_TOKEN + 1) arg;
        server_options rest (Config (cf_bind c) (cf_ring c) (cf_token c) (Some buf))
  | OHelp :: _ => Done (inl 0)
  | OBad :: _ => Done (inl 2)
  end.

(** OPTY_CONTROL_TOKEN counts when there is no [-c]. *)
Definition control_from_env (env_token : option bytes) (c : config) : outcome (Z + config) :=
  match cf_control c, env_token with
  | None, Some ((_ :: _) as t) =>
      if OPTY_MAX_TOKEN <? blen t then Done (inl 2)
      else
        buf ← server_store_token (OPTY_MAX_TOKEN + 1) t;
        Done (inr (Config (cf_bind c) (cf_ring c) (cf_token c) (Some buf)))
  | _, _ => Done (inr c)
  end.

(** What the server runs: the operands without a leading "--", or $SHELL. *)
Definition child_command (shell : option bytes) (operands : list bytes) : list bytes :=
  match (match operands with
         | a :: rest => if decide (a = cstr "--") then rest else operands
         | [] => []
         end) with
  | [] => [match shell with None | Some [] => cstr "/bin/sh" | Some s => s end]
  | l => l
  end.

(** ** What is acquired *)

Inductive resource :=
| RClientsMu | RPtyMu | RChildMu | RFdsMu
| RRing
| RSocket                          (* the listening socket, listen_fd once it listens *)
| RMaster | RSlave
| RChild (argv : list bytes).      (* the process on the terminal; given back by
                                      kill(SIGTERM) and waitpid *)

#[export] Instance resource_eq_dec : EqDecision resource.
Proof. solve_decision. Defined.

Inductive server_signal := S_SIGHUP | S_SIGINT | S_SIGTERM | S_SIGQUIT | S_SIGPIPE.
Inductive server_handler := on_shutdown_signal | S_SIG_IGN.

Inductive act :=
| Handle (signo : server_signal) (h : server_handler)
| Take (r : resource)
| Give (r : resource).

(** What the system answers. *)
Inductive listen_attempt := LNoSocket | LNoV6 | LRefused | LListens.

Record os := Os {
  os_sigaction : server_signal -> bool;
  os_mutex : resource -> bool;                 (* pthread_mutex_init *)
  os_buf : Z -> option bytes;                  (* malloc of the ring's buffer *)
  os_ring_mu : option errno;
  os_addrs : option (list listen_attempt);     (* getaddrinfo *)
  os_openpty : bool;
  os_fork : option Z;
  os_thread : bool;
  os_master : stream;                          (* what the terminal will do *)
  os_ioctl : list bool;
  os_waits : list wait_ev                      (* what the child will do *)
}.

(** Computations that acquire and release, and may end the program. *)
Definition startM (A : Type) : Type := list act -> (Z + A) * list act.

#[export] Instance start_ret : MRet startM := fun A a l => (inr a, l).
#[export] Instance start_bind : MBind startM := fun A B k m l =>
  match m l with
  | (inr a, l') => k a l'
  | (inl status, l') => (inl status, l')
  end.

Definition do (a : act) : startM unit := fun l => (inr tt, l ++ [a]).
Definition exit_with {A} (status : Z) : startM A := fun l => (inl status, l).

Fixpoint give_all (rs : list resource) : startM unit :=
  match rs with
  | [] => mret tt
  | r :: rest => do (Give r);; give_all rest
  end.

(** A call that must work, or else [held] is given back and the program ends with 1. *)
Definition must (ok : bool) (held : list resource) : startM unit :=
  if ok then mret tt else give_all held;; exit_with 1.

Definition mutexes : list resource := [RFdsMu; RChildMu; RPtyMu; RClientsMu].

Definition server_install_signal_handler (o : os) (signo : server_signal) (h : server_handler) : startM bool :=
  if os_sigaction o signo then do (Handle signo h);; mret true else mret false.

(** The handlers in order, up to the first that cannot be installed. *)
Fixpoint install_handlers (o : os) (l : list (server_signal * server_handler)) : startM bool :=
  match l with
  | [] => mret true
  | (signo, h) :: rest =>
      ok ← server_install_signal_handler o signo h;
      if ok : bool then install_handlers o rest else mret false
  end.

Definition server_setup_signal_handlers (o : os) : startM bool :=
  install_handlers o [(S_SIGHUP, on_shutdown_signal); (S_SIGINT, on_shutdown_signal);
                      (S_SIGTERM, on_shutdown_signal); (S_SIGQUIT, on_shutdown_signal);
                      (S_SIGPIPE, S_SIG_IGN)].

Fixpoint try_listen (addrs : list listen_attempt) : startM bool :=
  match addrs with
  | [] => mret false
  | LNoSocket :: rest => try_listen rest
  | LListens :: _ => do (Take RSocket);; mret true
  | _ :: rest => do (Take RSocket);; do (Give RSocket);; try_listen rest
  end.

Definition server_create_listener (addrs : option (list listen_attempt)) : startM bool :=
  match addrs with None => mret false | Some l => try_listen l end.

Definition server_spawn_pty (o : os) (child_argv : list bytes) : startM (option Z) :=
  if negb (os_openpty o) then mret None
  else
    do (Take RMaster);; do (Take RSlave);;
    match os_fork o with
    | None => do (Give RMaster);; do (Give RSlave);; mret None
    | Some pid => do (Take (RChild child_argv));; do (Give RSlave);; mret (Some pid)
    end.

(** The child between [fork] and [execvp]: setsid, TIOCSCTTY, and dup2 onto stdin,
    stdout and stderr in [oks]; [inr] is the program executed, [inl] the exit status. *)
Definition child_main (oks : list bool) (child_argv : list bytes) : Z + list bytes :=
  if forallb id (take 5 oks) then inr child_argv else inl 127.

(** From the signal handlers to the PTY thread. *)
Definition server_start (o : os) (c : config) (child_argv : list bytes) : startM (server opty_ring) :=
  ok ← server_setup_signal_handlers o;
  must ok [];;
  must (os_mutex o RClientsMu) [];; do (Take RClientsMu);;
  must (os_mutex o RPtyMu) [RClientsMu];; do (Take RPtyMu);;
  must (os_mutex o RChildMu) [RPtyMu; RClientsMu];; do (Take RChildMu);;
  must (os_mutex o RFdsMu) [RChildMu; RPtyMu; RClientsMu];; do (Take RFdsMu);;
  match opty_ring_init (os_buf o (cf_ring c)) (os_ring_mu o) (cf_ring c) with
  | Done ring =>
      do (Take RRing);;
      ok ← server_create_listener (os_addrs o);
      must ok (RRing :: mutexes);;
      pid ← server_spawn_pty o child_argv;
      match pid with
      | None => give_all (RSocket :: RRing :: mutexes);; exit_with 1
      | Some pid =>
          must (os_thread o) (RSocket :: RChild child_argv :: RMaster :: RRing :: mutexes);;
          mret (Server [] ∅ ring (Pty (os_master o) 80 24 (os_ioctl o))
                  (Child pid false 0 (os_waits o) [] 0) true (cf_token c) (cf_control c))
      end
  | _ => give_all mutexes;; exit_with 1
  end.

(** [main] up to its loop, on the arguments after argv[0]. *)
Definition server_main (o : os) (env_token shell : option bytes) (args : list bytes)
    : outcome ((Z + server opty_ring) * list act) :=
  let '(evs, operands) := getopt args in
  c ← server_options evs default_config;
  match c with
  | inl status => Done (inl status, [])
  | inr c =>
      c ← control_from_env env_token c;
      match c with
      | inl status => Done (inl status, [])
      | inr c => Done (server_start o c (child_command shell operands) [])
      end
  end.

End Startup.
