(* ===== verification/StartupProps.v ===== *)
(** * What the start of the server guarantees

    A start that fails leaves nothing behind; one that works leads to the state the
    concurrent system starts from, with the handlers installed; and the server
    understands the command line that the client starts it with. *)

From stdpp Require Import gmap.
From S2P Require Import Prelude.
From S2P Require Import Io.
From S2P Require Import Wire.
From S2P Require Import Messages.
From S2P Require Import Replay.
From S2P Require Import Ring.
From S2P Require Import Child.
From S2P Require Import Server.
From S2P Require Import ServerSpec.
From S2P Require Import System.
From S2P Require Import Keeps.
From S2P Require Import ServerProps.
From S2P Require Import ServerAuth.
From S2P Require Import Endpoint.
From S2P Require Import Text.
From S2P Require Import Commands.
From S2P Require Import CommandSpec.
From S2P Require Import CommandProps.
From S2P Require Import StopProps.
From S2P Require Import Startup.

(** ** Resources in balance *)

(** How often a resource is held after what was done. *)
Definition change (r : resource) (a : act) : Z :=
  match a with
  | Take x => if decide (x = r) then 1 else 0
  | Give x => if decide (x = r) then -1 else 0
  | Handle _ _ => 0
  end.

Definition balance (log : list act) (r : resource) : Z := fold_right Z.add 0 (change r <$> log).

Definition occurs (r : resource) (l : list resource) : Z :=
  fold_right Z.add 0 ((fun x => if decide (x = r) then 1 else 0) <$> l).

(** What was taken and not given back is [held], each once. *)
Definition holds (log : list act) (held : list resource) : Prop :=
  forall r, balance log r = occurs r held.

Lemma balance_snoc (log : list act) (a : act) (r : resource) :
  balance (log ++ [a]) r = balance log r + change r a.
Proof.
  unfold balance. rewrite fmap_app. cbn [fmap list_fmap].
  induction (change r <$> log) as [|x l IH]; cbn [app fold_right]; lia.
Qed.

(** [m] takes what it adds to [held]; when it ends the program it holds nothing, and the
    status is 1. *)
Definition swp {A} (m : startM A) (held : list resource) (Q : A -> list resource -> Prop) : Prop :=
  forall log, holds log held ->
    match m log with
    | (inl status, log') => status = 1 /\ holds log' []
    | (inr a, log') => exists held', holds log' held' /\ Q a held'
    end.

Lemma swp_ret {A} (a : A) (held : list resource) (Q : A -> list resource -> Prop) :
  Q a held -> swp (mret a) held Q.
Proof. intros H log Hl. by exists held. Qed.

Lemma swp_bind {A B} (m : startM A) (k : A -> startM B) (held : list resource) (P Q : _ -> list resource -> Prop) :
  swp m held P -> (forall a held', P a held' -> swp (k a) held' Q) -> swp (m ≫= k) held Q.
Proof.
  intros Hm Hk log Hl. specialize (Hm log Hl). unfold mbind, start_bind.
  destruct (m log) as [[s|a] log']; [done|]. destruct Hm as (h&Hh&HP). by apply (Hk a h HP).
Qed.

Lemma swp_take (r : resource) (held : list resource) : swp (do (Take r)) held (fun _ h => h = r :: held).
Proof.
  intros log Hl. cbn. eexists. split; [|done]. intros x. rewrite balance_snoc, Hl. cbn.
  unfold occurs. cbn. lia.
Qed.

Lemma swp_handle (signo : server_signal) (h : server_handler) (held : list resource) :
  swp (do (Handle signo h)) held (fun _ h => h = held).
Proof. intros log Hl. cbn. eexists. split; [|done]. intros x. rewrite balance_snoc, Hl. cbn. lia. Qed.

Lemma swp_give (r : resource) (h1 h2 : list resource) :
  swp (do (Give r)) (h1 ++ r :: h2) (fun _ h => h = h1 ++ h2).
Proof.
  intros log Hl. cbn. eexists. split; [|done]. intros x. rewrite balance_snoc, Hl. cbn.
  unfold occurs. rewrite !fmap_app. induction ((fun y => if decide (y = x) then 1 else 0) <$> h1); cbn in *.
  - case_decide; lia.
  - lia.
Qed.

Lemma give_all_ok (rs : list resource) : swp (give_all rs) rs (fun _ h => h = []).
Proof.
  induction rs as [|r rs IH]; cbn [give_all]; [by apply swp_ret|].
  eapply swp_bind; [apply (swp_give r [] rs)|]. intros [] h ->. exact IH.
Qed.

Lemma swp_fail {A} (rs held : list resource) (Q : A -> list resource -> Prop) :
  rs ≡ₚ held -> swp (give_all rs;; exit_with 1) held Q.
Proof.
  intros Hp log Hl. assert (holds log rs) as Hrs.
  { intros r. rewrite Hl. unfold occurs. clear Hl. induction Hp; cbn in *; lia. }
  pose proof (give_all_ok rs log Hrs) as H. unfold mbind, start_bind.
  destruct (give_all rs log) as [[s|[]] log']; [done|]. destruct H as (h&Hh&->). done.
Qed.

Lemma swp_must (ok : bool) (rs held : list resource) :
  rs ≡ₚ held -> swp (must ok rs) held (fun _ h => ok = true /\ h = held).
Proof. intros Hp. unfold must. destruct ok; [by apply swp_ret|by apply swp_fail]. Qed.

(** ** The parts *)

Lemma install_ok (o : os) (l : list (server_signal * server_handler)) (held : list resource) :
  swp (install_handlers o l) held (fun _ h => h = held).
Proof.
  induction l as [|[n h] l IH]; cbn [install_handlers]; [by apply swp_ret|].
  eapply swp_bind with (P := fun _ h => h = held).
  - unfold server_install_signal_handler. destruct (os_sigaction o n); [|by apply swp_ret].
    eapply swp_bind; [apply swp_handle|]. intros [] h' ->. by apply swp_ret.
  - intros [] h' ->; [exact IH|by apply swp_ret].
Qed.

Lemma listener_ok (addrs : option (list listen_attempt)) (held : list resource) :
  swp (server_create_listener addrs) held (fun ok h => h = if ok : bool then RSocket :: held else held).
Proof.
  destruct addrs as [l|]; [|by apply swp_ret]. cbn [server_create_listener].
  assert (forall rest, swp (try_listen rest) held (fun ok h => h = if ok : bool then RSocket :: held else held) ->
    swp (do (Take RSocket);; do (Give RSocket);; try_listen rest) held
      (fun ok h => h = if ok : bool then RSocket :: held else held)) as Hagain.
  { intros rest H. eapply swp_bind; [apply swp_take|]. intros [] h ->.
    eapply swp_bind; [apply (swp_give RSocket [] held)|]. by intros [] h ->. }
  induction l as [|[] l IH]; cbn [try_listen];
    [by apply swp_ret|done|by apply Hagain|by apply Hagain|].
  eapply swp_bind; [apply swp_take|]. intros [] h ->. by apply swp_ret.
Qed.

Lemma spawn_ok (o : os) (argv : list bytes) (held : list resource) :
  swp (server_spawn_pty o argv) held
    (fun pid h => h = match pid with Some _ => RChild argv :: RMaster :: held | None => held end).
Proof.
  unfold server_spawn_pty. destruct (negb _); [by apply swp_ret|].
  eapply swp_bind; [apply swp_take|]. intros [] h ->. eapply swp_bind; [apply swp_take|]. intros [] h ->.
  destruct (os_fork o) as [pid|].
  - eapply swp_bind; [apply swp_take|]. intros [] h ->.
    eapply swp_bind; [apply (swp_give RSlave [RChild argv])|]. intros [] h ->. by apply swp_ret.
  - eapply swp_bind; [apply (swp_give RMaster [RSlave])|]. intros [] h ->.
    eapply swp_bind; [apply (swp_give RSlave [] held)|]. intros [] h ->. by apply swp_ret.
Qed.

(** What a running server holds. *)
Definition running (argv : list bytes) : list resource :=
  RChild argv :: RMaster :: RSocket :: RRing :: mutexes.

Local Ltac acquire := eapply swp_bind; [first [apply swp_take | by apply swp_must]|]; intros [] ?h ?;
  destruct_and?; subst.

Lemma start_balanced (o : os) (c : config) (argv : list bytes) :
  swp (server_start o c argv) [] (fun _ h => h = running argv).
Proof.
  unfold server_start. eapply swp_bind; [apply install_ok|]. intros ok h ->.
  do 9 acquire.
  destruct (opty_ring_init _ _ _) as [ring|e|]; [|by apply swp_fail..].
  acquire. eapply swp_bind; [apply listener_ok|]. intros listens h ->.
  eapply swp_bind with (P := fun _ h => h = RSocket :: RRing :: mutexes).
  { destruct listens; [by apply swp_ret|by apply swp_fail]. }
  intros [] h ->. eapply swp_bind; [apply spawn_ok|]. intros [pid|] h ->; [|by apply swp_fail].
  eapply swp_bind.
  { apply swp_must. unfold running. solve_Permutation. }
  intros [] h [_ ->]. by apply swp_ret.
Qed.

(** ** The command line *)

(** Settings as the options can leave them. *)
Definition config_ok (c : config) : Prop :=
  0 < cf_ring c <= SIZE_MAX /\ token_wf (cf_token c) /\ token_wf (cf_control c).

Lemma default_config_ok : config_ok default_config.
Proof. split_and!; done. Qed.

Lemma scan_digits_nonneg (s : bytes) (acc : Z) : 0 <= acc -> 0 <= fst (scan_digits s acc).
Proof.
  revert acc. induction s as [|b s IH]; intros acc H; [done|]. cbn [scan_digits].
  destruct (is_digit b) eqn:E; [|done]. apply IH.
  assert (48 <= b2z b) by (unfold is_digit, between in E; lia). lia.
Qed.

Lemma strtoul_nonneg (s : bytes) : 0 <= ul_value (strtoul s).
Proof.
  unfold strtoul. cbv zeta.
  match goal with |- context [match ?x with [] => Strtoul _ _ _ _ | _ => _ end] => destruct x as [|b r]; [done|] end.
  destruct (is_digit b); [|done]. pose proof (scan_digits_nonneg (b :: r) 0 ltac:(lia)).
  destruct (scan_digits (b :: r) 0) as [v rest]. cbn [fst] in *.
  destruct (_ <? v); [done|]. cbn [ul_value]. case_match; [|done]. unfold u64.
  by apply Z.mod_pos_bound.
Qed.

Lemma ring_size_ok (arg : bytes) (n : Z) : ring_size_arg arg = Some n -> 0 < n <= SIZE_MAX.
Proof.
  unfold ring_size_arg. pose proof (strtoul_nonneg arg). destruct (_ || _) eqn:E; [done|]. intros [= <-].
  apply orb_false_elim in E as [[_ E0]%orb_false_elim E1]. lia.
Qed.

Lemma stored_ok (src : bytes) :
  (OPTY_MAX_TOKEN <? blen src) = false ->
  exists b, server_store_token (OPTY_MAX_TOKEN + 1) src = Done b /\ token_wf (Some b).
Proof.
  intros H. rewrite store_token_ok by lia. eexists. split; [reflexivity|]. pose proof (blen_nonneg src).
  cbn. rewrite blen_app, blen_zeros by lia. lia.
Qed.

(** A status and what is held when the program ends early. *)
Definition bad_usage (status : Z) : Prop := status = 0 \/ status = 2.

Lemma options_total (malloc_ok : Z -> bool) (evs : list sopt) (c : config) :
  config_ok c -> exists r, server_options malloc_ok evs c = Done r /\
    match r with inl status => bad_usage status | inr c' => config_ok c' end.
Proof.
  assert (exists r, Done (inl 2) = Done (A := Z + config) r /\
    match r with inl status => bad_usage status | inr c' => config_ok c' end) as Hbad
    by (eexists; split; [reflexivity|by right]).
  revert c. induction evs as [|[arg|arg|arg|arg| |] evs IH]; intros c Hc; cbn [server_options];
    [by eexists|..|done]; try (destruct (_ <? blen arg) eqn:Hl; [done|];
      destruct (stored_ok arg Hl) as (b&->&Hb); cbn [mbind outcome_bind]; apply IH;
      destruct Hc as (?&?&?); unfold config_ok; cbn [cf_ring cf_token cf_control]; done).
  - pose proof (parse_endpoint_defined malloc_ok (Some arg) OPTY_DEFAULT_HOST OPTY_DEFAULT_PORT).
    destruct (opty_parse_endpoint _ _ _ _); [|done|done]. apply IH. by destruct Hc as (?&?&?).
  - destruct (ring_size_arg arg) as [n|] eqn:E; [|done]. apply IH. destruct Hc as (_&?&?).
    apply ring_size_ok in E. unfold config_ok; cbn [cf_ring cf_token cf_control]. done.
  - eexists. split; [reflexivity|by left].
Qed.

Lemma env_total (env_token : option bytes) (c : config) :
  config_ok c -> exists r, control_from_env env_token c = Done r /\
    match r with inl status => bad_usage status | inr c' => config_ok c' end.
Proof.
  intros Hc. unfold control_from_env.
  destruct (cf_control c) eqn:E; [by eexists|]. destruct env_token as [[|b t]|]; [by eexists| |by eexists].
  destruct (_ <? _) eqn:Hl; [eexists; split; [reflexivity|by right]|].
  destruct (stored_ok _ Hl) as (buf&->&Hb). eexists. split; [reflexivity|].
  destruct Hc as (?&?&_). unfold config_ok; cbn [cf_ring cf_token cf_control]. done.
Qed.

Lemma child_command_some (shell : option bytes) (operands : list bytes) : child_command shell operands <> [].
Proof. unfold child_command. by destruct (match operands with [] => _ | _ => _ end). Qed.

(** Every start runs on settings that are in order, or prints the usage. *)
Lemma main_runs (malloc_ok : Z -> bool) (o : os) (env_token shell : option bytes) (args : list bytes) :
  (exists status, server_main malloc_ok o env_token shell args = Done (inl status, []) /\ bad_usage status) \/
  (exists c argv, config_ok c /\ argv <> [] /\
     server_main malloc_ok o env_token shell args = Done (server_start o c argv [])).
Proof.
  unfold server_main. destruct (getopt args) as [evs operands].
  destruct (options_total malloc_ok evs default_config default_config_ok) as (r&->&Hr).
  cbn [mbind outcome_bind]. destruct r as [status|c]; [left; by eexists|].
  destruct (env_total env_token c Hr) as (r&->&Hr'). cbn [mbind outcome_bind].
  destruct r as [status|c']; [left; by eexists|]. right. exists c', (child_command shell operands).
  split_and!; [done|apply child_command_some|done].
Qed.

(** ** A start that works *)

Lemma start_bind_inr {A B} (m : startM A) (k : A -> startM B) (l l' : list act) (b : B) :
  (m ≫= k) l = (inr b, l') -> exists a l1, m l = (inr a, l1) /\ k a l1 = (inr b, l').
Proof. unfold mbind, start_bind. destruct (m l) as [[s|a] l1]; [done|]. by exists a, l1. Qed.

(** A computation adds to what was done. *)
Definition extends {A} (m : startM A) : Prop := forall l, exists l2, (m l).2 = l ++ l2.

Lemma extends_ret {A} (a : A) : extends (mret a).
Proof. intros l. exists []. by rewrite app_nil_r. Qed.

Lemma extends_exit {A} (s : Z) : extends (exit_with (A := A) s).
Proof. intros l. exists []. by rewrite app_nil_r. Qed.

Lemma extends_do (a : act) : extends (do a).
Proof. intros l. by exists [a]. Qed.

Lemma extends_bind {A B} (m : startM A) (k : A -> startM B) :
  extends m -> (forall a, extends (k a)) -> extends (m ≫= k).
Proof.
  intros Hm Hk l. unfold mbind, start_bind. destruct (Hm l) as [l2 H2].
  destruct (m l) as [[s|a] l1]; cbn [snd] in H2; subst l1; [by exists l2|].
  destruct (Hk a (l ++ l2)) as [l3 H3]. exists (l2 ++ l3). by rewrite H3, app_assoc.
Qed.

Create HintDb extends.
#[local] Hint Resolve extends_ret extends_exit extends_do extends_bind : extends.

Lemma extends_give_all (rs : list resource) : extends (give_all rs).
Proof. induction rs as [|r rs IH]; cbn [give_all]; auto with extends. Qed.

#[local] Hint Resolve extends_give_all : extends.

Lemma extends_must (ok : bool) (rs : list resource) : extends (must ok rs).
Proof. unfold must. destruct ok; auto with extends. Qed.

Lemma extends_listener (addrs : option (list listen_attempt)) : extends (server_create_listener addrs).
Proof.
  destruct addrs as [l|]; [|apply extends_ret]. cbn [server_create_listener].
  induction l as [|[] l IH]; cbn [try_listen]; auto 6 with extends.
Qed.

Lemma extends_spawn (o : os) (argv : list bytes) : extends (server_spawn_pty o argv).
Proof. unfold server_spawn_pty. destruct (negb _); [|destruct (os_fork o)]; auto 8 with extends. Qed.

#[local] Hint Resolve extends_must extends_listener extends_spawn : extends.

(** The handlers that were asked for are installed. *)
Lemma install_inr (o : os) (hs : list (server_signal * server_handler)) (l l' : list act) :
  install_handlers o hs l = (inr true, l') -> l' = l ++ ((fun x => Handle x.1 x.2) <$> hs).
Proof.
  revert l. induction hs as [|[n h] hs IH]; intros l; cbn [install_handlers].
  { intros [= <-]. by rewrite app_nil_r. }
  intros (ok&l1&H1&H2)%start_bind_inr. unfold server_install_signal_handler in H1.
  unfold mbind, start_bind, mret, start_ret, do in H1. destruct (os_sigaction o n); simplify_eq.
  apply IH in H2 as ->. by rewrite <- app_assoc.
Qed.

Definition handlers : list act :=
  [Handle S_SIGHUP on_shutdown_signal; Handle S_SIGINT on_shutdown_signal;
   Handle S_SIGTERM on_shutdown_signal; Handle S_SIGQUIT on_shutdown_signal;
   Handle S_SIGPIPE S_SIG_IGN].

Lemma start_inr (o : os) (c : config) (argv : list bytes) (s : server opty_ring) (l : list act) :
  server_start o c argv [] = (inr s, l) ->
  (exists rest, l = handlers ++ rest) /\
  exists ring pid, opty_ring_init (os_buf o (cf_ring c)) (os_ring_mu o) (cf_ring c) = Done ring /\
    s = Server [] ∅ ring (Pty (os_master o) 80 24 (os_ioctl o)) (Child pid false 0 (os_waits o) [] 0)
          true (cf_token c) (cf_control c).
Proof.
  unfold server_start. intros (ok&l0&H0&H)%start_bind_inr.
  assert (forall held (k : startM (server opty_ring)) l l', (must ok held;; k) l = (inr s, l') -> ok = true) as Hok.
  { intros held k l1 l2. destruct ok; [done|]. unfold must. intros (a&l3&H1&_)%start_bind_inr.
    by apply start_bind_inr in H1 as (?&?&_&?). }
  pose proof (Hok _ _ _ _ H) as ->. apply install_inr in H0. cbn [app fmap list_fmap fst snd] in H0.
  fold handlers in H0. subst l0. split.
  - match type of H with ?m _ = _ => assert (extends m) as He end.
    { do 9 (apply extends_bind; [auto with extends|intros ?]).
      destruct (opty_ring_init _ _ _); [|auto with extends..].
      do 3 (apply extends_bind; [auto with extends|intros ?]).
      apply extends_bind; [auto with extends|intros [pid|]]; auto with extends. }
    destruct (He handlers) as [rest Hr]. rewrite H in Hr. by exists rest.
  - do 9 apply start_bind_inr in H as (?&?&_&H).
    destruct (opty_ring_init _ _ _) as [ring|e|]; [|by apply start_bind_inr in H as (?&?&_&?)..].
    do 3 apply start_bind_inr in H as (?&?&_&H). apply start_bind_inr in H as ([pid|]&?&_&H).
    + apply start_bind_inr in H as (?&?&_&H). unfold mret, start_ret in H. simplify_eq. by exists ring, pid.
    + by apply start_bind_inr in H as (?&?&_&?).
Qed.

(** ** The theorems *)

(** [C11] Starting the server is all or nothing.  Whatever the command line, the
    environment and the answers of the system are, [main] reaches its loop or ends with
    status 0, 1 or 2, without undefined behaviour.  When it ends, everything it acquired
    was given back: mutexes, ring, sockets, both ends of the terminal, the child.  When
    it reaches the loop, it holds exactly the four mutexes, the ring, the listening
    socket, the master end and one child, and SIGHUP, SIGINT, SIGTERM, SIGQUIT are
    handled and SIGPIPE is ignored from before the first of them was acquired. *)
Theorem start_all_or_nothing (malloc_ok : Z -> bool) (o : os) (env_token shell : option bytes)
    (args : list bytes) :
  exists res log, server_main malloc_ok o env_token shell args = Done (res, log) /\
    match res with
    | inl status => (status = 0 \/ status = 1 \/ status = 2) /\ holds log []
    | inr s => exists argv rest, argv <> [] /\ holds log (running argv) /\ log = handlers ++ rest
    end.
Proof.
  destruct (main_runs malloc_ok o env_token shell args) as [(status&->&Hs)|(c&argv&_&Ha&->)].
  - exists (inl status), []. split; [done|]. split; [destruct Hs; auto|done].
  - destruct (server_start o c argv []) as [res log] eqn:E. exists res, log. split; [done|].
    pose proof (start_balanced o c argv [] (fun _ => eq_refl)) as H. rewrite E in H.
    destruct res as [status|s]; [destruct H as [-> ?]; auto|]. destruct H as (held&Hh&->).
    apply start_inr in E as [[rest ->] _]. by exists argv, rest.
Qed.

(** [C23] A server that reaches its loop is in the state the concurrent system starts
    from: no clients, an empty ring of the size asked for, tokens that fill their
    buffers; with [malloc] returning as many bytes as it was asked for. *)
Theorem start_reaches_initial (malloc_ok : Z -> bool) (o : os) (env_token shell : option bytes)
    (args : list bytes) (s : server opty_ring) (log : list act) :
  (forall n b, 0 < n -> os_buf o n = Some b -> blen b = n) ->
  server_main malloc_ok o env_token shell args = Done (inr s, log) ->
  exists cap, 0 < cap <= SIZE_MAX /\ initial cap (Sys s PRead MAccept ∅ [] ∅ ∅) /\
    p_cols (master s) = 80 /\ p_rows (master s) = 24.
Proof.
  intros Hbuf Hm.
  destruct (main_runs malloc_ok o env_token shell args) as [(status&He&_)|(c&argv&Hc&_&He)];
    rewrite Hm in He; injection He; intros He'; [done|]. destruct Hc as (Hr&Ht&Hct).
  symmetry in He'. apply start_inr in He' as [_ (ring&pid&Hi&->)]. exists (cf_ring c). split; [done|].
  split; [|done]. unfold initial. split_and!; try done.
  unfold opty_ring_init in Hi. destruct (_ =? 0); [done|].
  destruct (os_buf o (cf_ring c)) as [b|] eqn:Hb; [|done]. destruct (os_ring_mu o); [done|].
  destruct (ring_init_repr b (cf_ring c) Hr (Hbuf _ _ (proj1 Hr) Hb)) as (r&Hr1&Hr2).
  unfold opty_ring_init in Hr1. destruct (_ =? 0); [done|]. simplify_eq. exact Hr2.
Qed.

(** *** The command line of the client *)

(** A host that is written without brackets, and its port. *)
Definition plain_endpoint (ep : opty_endpoint) : Prop :=
  host ep <> [] /\ (COLON ∉ host ep) /\ head (host ep) <> Some LBRACKET /\
  port ep <> [] /\ (COLON ∉ port ep).

Lemma plain_endpoint_parses (malloc_ok : Z -> bool) (ep : opty_endpoint) (h p : bytes) :
  (forall n, malloc_ok n = true) -> plain_endpoint ep ->
  opty_parse_endpoint malloc_ok (Some (endpoint_text ep)) h p = Done ep.
Proof.
  intros Hm (Hh&Hhc&Hb&Hp&Hpc). unfold endpoint_text. destruct (host ep) as [|x rest] eqn:E; [done|].
  cbn [app opty_parse_endpoint]. rewrite decide_False by (cbn in Hb; congruence).
  change (x :: rest ++ cstr ":" ++ port ep) with ((x :: rest) ++ COLON :: port ep).
  rewrite plain_complete by done. rewrite decide_False by done. destruct ep. cbn in *. by subst.
Qed.

Lemma client_config (malloc_ok : Z -> bool) (o : os) (ep : opty_endpoint) (tok : bytes)
    (shell : option bytes) (server_path : bytes) (command : list bytes) :
  (forall n, malloc_ok n = true) -> plain_endpoint ep ->
  tok <> [] -> blen tok <= OPTY_MAX_TOKEN -> command <> [] -> head command <> Some (cstr "--") ->
  server_main malloc_ok o (Some tok) shell (tail (server_argv server_path (endpoint_text ep) command)) =
  Done (server_start o (Config ep OPTY_DEFAULT_RING_SIZE None
                          (Some (tok ++ zeros (OPTY_MAX_TOKEN + 1 - blen tok)))) command []).
Proof.
  intros Hm Hep Hne Hl Hc Hd. unfold server_main, server_argv. cbn [tail].
  assert (child_command shell command = command) as Hcmd.
  { unfold child_command. destruct command as [|a rest]; [by destruct Hc|].
    rewrite decide_False; [done|]. intros ->. by apply Hd. }
  change (getopt _) with ([OBind (endpoint_text ep)], command). cbv iota.
  cbn [server_options default_config cf_ring cf_token cf_control].
  rewrite plain_endpoint_parses by done. cbn [mbind outcome_bind]. unfold control_from_env. cbn [cf_control].
  destruct tok as [|t tok]; [by destruct Hne|]. rewrite (proj2 (Z.ltb_ge _ _) Hl).
  rewrite store_token_ok by exact Hl. cbn [mbind outcome_bind cf_bind cf_ring cf_token].
  rewrite Hcmd. reflexivity.
Qed.

(** [C22] The server understands the client.  Executed with the arguments that [start] and
    [restart] give it, for a command that does not begin with "--", and with the token in
    its environment, the server binds to the session's endpoint, takes that token as its
    control token and no other, keeps a ring of the default size, and runs exactly the
    session's command. *)
Theorem client_command_line (malloc_ok : Z -> bool) (o : os) (ep : opty_endpoint) (tok : bytes)
    (shell : option bytes) (server_path : bytes) (command : list bytes) :
  (forall n, malloc_ok n = true) -> plain_endpoint ep ->
  tok <> [] -> blen tok <= OPTY_MAX_TOKEN -> command <> [] -> head command <> Some (cstr "--") ->
  server_main malloc_ok o (Some tok) shell (tail (server_argv server_path (endpoint_text ep) command)) =
  Done (server_start o (Config ep OPTY_DEFAULT_RING_SIZE None
                          (Some (tok ++ zeros (OPTY_MAX_TOKEN + 1 - blen tok)))) command []).
Proof. intros. by apply client_config. Qed.

(** *** The stop request of the client *)

Lemma first_stop {R} `{!ReplayOps R} (malloc_ok : Z -> bool) (s : server R) (c : cid) (cl : client)
    (tok input rest : bytes) :
  (forall n, malloc_ok n = true) -> heap s !! c = Some cl -> Forall benign_rd (inq (sock cl)) ->
  content (inq (sock cl)) = stop_frame tok input ++ rest ->
  Byte.x00 ∉ tok -> tok <> [] -> blen tok <= OPTY_MAX_TOKEN -> blen input <= OPTY_MAX_GRACEFUL_INPUT ->
  control_token s = Some (tok ++ zeros (OPTY_MAX_TOKEN + 1 - blen tok)) ->
  exists s', client_step malloc_ok c TFirst s = Some (Some (TStop (StopWrite input)), s').
Proof.
  intros Hm Hc Hb Hcont Hz Hne Hl Hi Htok. cbn [client_step]. unfold client_recv.
  set (p := control_payload tok input).
  pose proof (blen_nonneg tok). pose proof (blen_nonneg input).
  assert (blen p = 4 + blen tok + blen input) as Hp
    by (unfold p, control_payload; rewrite !blen_app, put_u16_length; blen_lia).
  destruct (opty_recv_frame_limited_encode malloc_ok OPTY_MAX_UNAUTH_PAYLOAD
              (msg_code OPTY_MSG_CONTROL_SHUTDOWN) p rest (sock cl)) as (sk&He&_);
    [done|apply Hm|unfold OPTY_MAX_UNAUTH_PAYLOAD, OPTY_MAX_GRACEFUL_INPUT, OPTY_MAX_TOKEN in *; lia
    |change (OPTY_MAX_FRAME - 1) with 16777215; unfold OPTY_MAX_GRACEFUL_INPUT, OPTY_MAX_TOKEN in *; lia
    |done|done|].
  set (s1 := set_heap (<[c := set_sock sk cl]> (heap s)) s).
  erewrite bind_ok; [|rewrite (get_bind s c cl) by done; rewrite He, (put_bind s c cl) by done; reflexivity].
  fold s1. cbn [Z.ltb Z.compare]. unfold first_frame. cbn [f_type]. rewrite Z.eqb_refl.
  assert (server_check_control (Frame (msg_code OPTY_MSG_CONTROL_SHUTDOWN) (blen p) p) s1 = Some ((0, input), s1)) as Hcc.
  { unfold server_check_control, p. rewrite parse_control_ok; [|done|rewrite blen_zeros; unfold OPTY_MAX_TOKEN in *; lia|done].
    rewrite token_buf_zeros by done. unfold srv_lift, mbind, srv_bind.
    change (control_token s1) with (control_token s). rewrite Htok.
    assert (blen (tok ++ zeros (OPTY_MAX_TOKEN + 1 - blen tok)) = OPTY_MAX_TOKEN + 1) as Hlen
      by (rewrite blen_app, blen_zeros by (unfold OPTY_MAX_TOKEN in *; lia); lia).
    rewrite control_refused_ok by done. rewrite bool_decide_true by done.
    destruct tok as [|t tok]; [done|]. cbn [app empty_token].
    destruct (Z.eqb_spec (b2z t) 0) as [Ht0|]; [|done].
    exfalso. apply Hz. apply (b2z_inj t Byte.x00) in Ht0 as ->. apply list_elem_of_here. }
  exists s1. unfold mbind at 1, srv_bind at 1. rewrite (bind_ok _ _ _ _ _ Hcc). done.
Qed.

(** [C10] A stop reaches its server.  A server that was started with the arguments and the
    token of a session obeys, at any time of its life, a connection that brings what
    [0pty NAME stop] sends with the session's token: the first step of the connection's
    thread begins the shutdown, with the graceful input that was sent. *)
Theorem started_server_obeys_stop (malloc_ok calloc_ok : Z -> bool) (o : os) (ep : opty_endpoint)
    (tok input rest : bytes) (shell : option bytes) (server_path : bytes) (command : list bytes)
    (s : server opty_ring) (log : list act) (σ : sys opty_ring) (c : cid) (cl : client) :
  (forall n, malloc_ok n = true) -> plain_endpoint ep ->
  Byte.x00 ∉ tok -> tok <> [] -> blen tok <= OPTY_MAX_TOKEN -> blen input <= OPTY_MAX_GRACEFUL_INPUT ->
  command <> [] -> head command <> Some (cstr "--") ->
  server_main malloc_ok o (Some tok) shell (tail (server_argv server_path (endpoint_text ep) command))
    = Done (inr s, log) ->
  steps malloc_ok calloc_ok (Sys s PRead MAccept ∅ [] ∅ ∅) σ ->
  threads σ !! c = Some TFirst -> heap (srv σ) !! c = Some cl -> Forall benign_rd (inq (sock cl)) ->
  content (inq (sock cl)) = stop_frame tok input ++ rest ->
  exists σ', exec malloc_ok calloc_ok (AClient c) σ = Some σ' /\
    threads σ' !! c = Some (TStop (StopWrite input)).
Proof.
  intros Hm Hep Hz Hne Hl Hi Hc Hd Hs Hsteps Hth Hcl Hb Hcont.
  assert (control_token (srv σ) = Some (tok ++ zeros (OPTY_MAX_TOKEN + 1 - blen tok))) as Htok.
  { apply steps_tokens in Hsteps as [_ ->]. rewrite client_config in Hs by done.
    injection Hs as Hs. by apply start_inr in Hs as [_ (ring&pid&_&->)]. }
  destruct (first_stop malloc_ok (srv σ) c cl tok input rest) as [s' He]; [done..|].
  eexists. cbn [exec]. rewrite Hth. cbn [mbind option_bind client_may_run]. rewrite He.
  split; [done|]. cbn. apply lookup_insert_eq.
Qed.

(** ** A concrete start *)

Module DemoStartup.

Import DemoStart.
Import DemoStop.
Import Demo.

(** A system where everything works, once the first address of the endpoint refused;
    [buf] is the allocator of the ring's buffer. *)
Definition works (buf : Z -> option bytes) : os :=
  Os (fun _ => true) (fun _ => true) buf None (Some [LRefused; LListens]) true (Some 42) true
    (Stream [] [] [] false) [] [].

(** The last mutex cannot be initialised; the fork fails; the thread does not start. *)
Definition no_fds_mu : os :=
  Os (fun _ => true) (fun r => negb (bool_decide (r = RFdsMu))) (fun n => Some (zeros n)) None None true None true
    (Stream [] [] [] false) [] [].
Definition no_fork : os :=
  Os (fun _ => true) (fun _ => true) (fun n => Some (zeros n)) None (Some [LListens]) true None true
    (Stream [] [] [] false) [] [].

Definition small : list bytes := [cstr "-r"; cstr "16"; cstr "-t"; cstr "key"; cstr "sh"; cstr "-c"; cstr "x"].

Example no_fds_mu_ends :
  server_main always no_fds_mu None None small =
  Done (inl 1, handlers ++ [Take RClientsMu; Take RPtyMu; Take RChildMu; Give RChildMu; Give RPtyMu; Give RClientsMu]).
Proof. vm_compute. reflexivity. Qed.

Example no_fork_ends :
  (fun r => (match r.1 with inl status => status | _ => 0 end, drop 10 r.2)) <$>
    match server_main always no_fork None None [cstr "-r16"] with Done r => Some r | _ => None end =
  Some (1, [Take RSocket; Take RMaster; Take RSlave; Give RMaster; Give RSlave;
            Give RSocket; Give RRing; Give RFdsMu; Give RChildMu; Give RPtyMu; Give RClientsMu]).
Proof. vm_compute. reflexivity. Qed.

(** [-c x] belongs to the options: [getopt] permutes; a usage error; an unset SHELL. *)
Example permuted : getopt small = ([ORing (cstr "16"); OToken (cstr "key"); OControl (cstr "x")], [cstr "sh"]).
Proof. reflexivity. Qed.

Example bad_ring : forall o, server_main always o None None [cstr "-r"; cstr "16k"] = Done (inl 2, []).
Proof. reflexivity. Qed.

Example plain_shell : child_command None [] = [cstr "/bin/sh"] /\ child_command (Some (cstr "/bin/zsh")) [cstr "--"] = [cstr "/bin/zsh"].
Proof. by split. Qed.

Definition zeroed : os := works (fun n => Some (zeros n)).

Definition small_server : server opty_ring :=
  Server [] ∅ (Ring (Some (zeros 16)) 16 0 0) (Pty (Stream [] [] [] false) 80 24 []) (Child 42 false 0 [] [] 0) true
    (Some (cstr "key" ++ zeros 253)) (Some (cstr "x" ++ zeros 255)).

Definition small_log : list act :=
  handlers ++ [Take RClientsMu; Take RPtyMu; Take RChildMu; Take RFdsMu; Take RRing; Take RSocket; Give RSocket;
               Take RSocket; Take RMaster; Take RSlave; Take (RChild [cstr "sh"]); Give RSlave].

Lemma small_starts : server_main always zeroed None None small = Done (inr small_server, small_log).
Proof. vm_compute. reflexivity. Qed.

Lemma start_reaches_initial_witness :
  exists cap, 0 < cap <= SIZE_MAX /\ initial cap (Sys small_server PRead MAccept ∅ [] ∅ ∅) /\
    p_cols (master small_server) = 80 /\ p_rows (master small_server) = 24.
Proof.
  apply (start_reaches_initial always zeroed None None small small_server small_log); [|exact small_starts].
  intros n b Hn. cbn. intros [= <-]. apply blen_zeros. lia.
Defined.

(** The client's command line, from its start of the session "dev". *)
Lemma ep0_plain : plain_endpoint ep0.
Proof. split_and!; by apply (bool_decide_unpack _). Qed.

Lemma client_command_line_witness :
  server_main always zeroed (Some token1) None (tail (server_argv (cstr "0pty-server") (endpoint_text ep0) [cstr "bash"])) =
  Done (server_start zeroed (Config ep0 OPTY_DEFAULT_RING_SIZE None
          (Some (token1 ++ zeros (OPTY_MAX_TOKEN + 1 - blen token1)))) [cstr "bash"] []).
Proof.
  apply (client_command_line always zeroed ep0 token1 None (cstr "0pty-server") [cstr "bash"]);
    [done|exact ep0_plain|done|by vm_compute|done|done].
Defined.

(** The size of the ring does not matter to the stop. *)
Definition bare : os := works (fun _ => Some []).

Definition bare_server : server opty_ring :=
  Server [] ∅ (Ring (Some []) OPTY_DEFAULT_RING_SIZE 0 0) (Pty (Stream [] [] [] false) 80 24 [])
    (Child 42 false 0 [] [] 0) true None (Some (token1 ++ zeros 192)).

Definition bare_log : list act :=
  handlers ++ [Take RClientsMu; Take RPtyMu; Take RChildMu; Take RFdsMu; Take RRing; Take RSocket; Give RSocket;
               Take RSocket; Take RMaster; Take RSlave; Take (RChild [cstr "bash"]); Give RSlave].

Lemma bare_starts : server_main always bare (Some token1) None (tail argv1) = Done (inr bare_server, bare_log).
Proof. vm_compute. reflexivity. Qed.

Definition exit_request : bytes := cstr "/exit" ++ [Byte.x0a].

Definition stopper : stream := Stream [RData (stop_frame token1 exit_request)] [] [] false.

Definition visited : sys opty_ring :=
  default (Sys bare_server PRead MAccept ∅ [] ∅ ∅)
    (exec_all always always [AMain EvGo; AMain (EvConn 1%nat stopper); AMain (EvThread true)]
       (Sys bare_server PRead MAccept ∅ [] ∅ ∅)).

Lemma started_server_obeys_stop_witness :
  exists σ', exec always always (AClient 1%nat) visited = Some σ' /\
    threads σ' !! 1%nat = Some (TStop (StopWrite exit_request)).
Proof.
  apply (started_server_obeys_stop always always bare ep0 token1 exit_request [] None
    (cstr "/usr/bin/0pty-server") [cstr "bash"] bare_server bare_log visited 1%nat
    (Client 2 true false false 0 stopper));
    [done|exact ep0_plain|by apply (bool_decide_unpack _)|done|by vm_compute|by vm_compute|done|done
    |exact bare_starts| |by vm_compute|by vm_compute|by apply Forall_cons_2|by vm_compute].
  apply (exec_all_steps _ _ [AMain EvGo; AMain (EvConn 1%nat stopper); AMain (EvThread true)]). vm_compute. reflexivity.
Defined.

End DemoStartup.
